(* ===== verification/_CoqProject ===== *)
-Q . S2P
Prelude.v
FormatTools.v
NativeByteBuffer.v
BufferStorage.v
ByteStream.v
NetworkMessage.v
Datacenter.v
Request.v
World.v
Connection.v
Requests.v
Framing.v
FramingSpec.v
Manager.v
Sending.v
EndToEnd.v
Loop.v
Gzip.v
Wakeup.v
AndroidJni.v
TcpNetWapper.v
Words.v
AesTables.v
Aes.v
AesSpec.v
AesInverse.v
Modes.v
CtrMode.v
ChaCha.v
Rand.v
Md32.v
Sha256.v
Sha1.v
Md5.v
Poly1305.v
Aead.v
ChaChaPoly.v
Gcm.v
GcmMode.v
GcmCorrect.v
AesGcm.v
KeyWrap.v
CtrHmac.v
LocalRefs.v
ByteArray.v
Utf.v
UtfCorrect.v
