(* ===== verification/Prelude.v ===== *)
(** * Verification of the fastsocks native library

    fastsocks is an Android networking library: Java code hands packets to a
    C++ library ([src/fastsocks/cpp]) that keeps one TCP connection to one of
    several servers alive, sends requests, matches their answers and passes
    pushed messages up.  This development models the C++ sources as Rocq
    functions and proves what makes them correct; where the code does not do
    what it means to, a theorem exhibits it.

    ** The program and the files

    - Buffers.  [NativeByteBuffer] is a byte block with position, limit and
      capacity; [BufferStorage] recycles such buffers through seven free
      lists; [ByteStream] queues them for sending.  Files
      [NativeByteBuffer.v], [BufferStorage.v], [ByteStream.v]: buffers live
      at addresses of an explicit heap ([Storage]), so aliasing and use after
      free can be seen.  [ByteArray.v]: the owning block of
      [ByteArray.cpp].
    - Packets.  [NetworkMessage.v] ([NetworkMessage.cpp], the packed header of
      [TcpConstant.h]), [FormatTools.v] (byte order).
    - Servers and requests.  [Datacenter.v] (the walk over addresses and
      ports), [Request.v] (deadlines, retries, flags).
    - The network thread.  [World.v] holds the state of the manager, the
      datacenter, the connection and the outside; [Connection.v] models
      [TcpSocket.cpp], [Timer.cpp] and the life of [TcpConnection];
      [Framing.v] the reassembly of packets in [TcpConnection::onRecvData];
      [Requests.v] the request queues, the handshake and decompression;
      [Manager.v] the events, tasks and [select] of [ConnectionsManager.cpp].
      [FramingSpec.v], [Loop.v], [Gzip.v], [Sending.v] and [EndToEnd.v] hold
      the larger proofs about them: [Sending.v] those about the way of a
      message to the kernel, [EndToEnd.v] those about the way from a request
      at one end of the connection to the receiver at the other.
    - The wake-up.  [Wakeup.v]: the descriptors set up by the constructor of
      [ConnectionsManager], [wakeup], [EventsDispatcher::onEvent], and the
      interleaving of the Java threads with the network thread.
    - The Java side.  [AndroidJni.v] ([android_jni.cpp]), [LocalRefs.v] (its
      conversions to Java strings and arrays, with the local references they
      cost), [TcpNetWapper.v] ([TcpNetWapper.cpp], [jni.c]).
    - BoringSSL, linked by the library: AES ([Words.v], [AesTables.v],
      [Aes.v], [AesSpec.v], [AesInverse.v]), the stream modes ([Modes.v],
      [CtrMode.v]), ChaCha20 and the random generator ([ChaCha.v],
      [Rand.v]), the digest collector and three digests ([Md32.v],
      [Sha256.v], [Sha1.v], [Md5.v]), Poly1305 and authenticated encryption
      ([Poly1305.v], [Aead.v], [ChaChaPoly.v]), Galois/counter mode
      ([Gcm.v] for the multiplication, [GcmMode.v] for [gcm.c] and the text
      of NIST SP 800-38D, [GcmCorrect.v] for the proofs) and AES-GCM,
      AES key wrap and AES with HMAC behind the interface ([AesGcm.v],
      [KeyWrap.v], [CtrHmac.v], from [e_aes.c]).
    - The UTF conversions of breakpad: [Utf.v] ([convert_UTF.c],
      [string_conversion.cc]), [UtfCorrect.v].

    ** How the code is modelled

    A C integer is a [Z] followed by the wrap-around of its type; memory is a
    list of bytes with bounds-checked access.  Undefined behaviour and
    [exit(1)] are values of [fault]; stateful code is the monad [SR] (state
    passing with faults), and [wp m Q s] says that [m] runs from [s] without a
    fault to [Q].  System calls, zlib, the Java virtual machine and the
    sources of entropy are parameters: classes of functions ([Env], [Jni],
    [Kernel], [JavaVM], [Vm], [Entropy], [AsmAes]) that answer arbitrarily,
    failures included, with classes of laws where a proof needs documented
    behaviour: [JniBlocks] (a block that is given has the size asked for),
    [JniLaws] (memory for buffers up to the largest pool size lasts),
    [ZlibLaws] (a stream that inflates gives its message; it may fail at any
    time), [VmLaws] (a new local reference is not a live one), [EntropyLaws],
    [SendLaws], [AsmLaws].  Interfaces between components are classes as well: the framing
    is proved against [ReceiverLaws], which [Manager.v] discharges for the
    real manager; the wrapper [EVP_AEAD_CTX_seal] and [open] against
    [AeadLaws], discharged by ChaCha20-Poly1305, AES-GCM, AES key wrap
    and AES with HMAC; the conversion loop against
    [Converter], discharged by the bodies of the six conversions.

    ** What is shown

    - Transport: however the stream is cut, exactly its packets are delivered,
      in order ([FramingSpec.v]); a packet that is serialized parses back
      ([NetworkMessage.v]); the send queue sends and discards the bytes it was
      given ([ByteStream.v]), so that through batches, partial writes and
      errors the kernel gets the packets in the order they were handed over
      ([Sending.v]), and the receiver delivers exactly the messages of the
      requests that expect an answer, until the connection is closed
      ([EndToEnd.v]); a compressed packet is unpacked whole or the process
      ends ([Gzip.v]).
    - Life cycle: every sequence of calls on the connection, with sends of at
      most 131272 bytes, is free of faults and keeps descriptor, status, token, timer and event list in agreement
      ([Connection.v]); a pass over the queues neither loses nor repeats a
      callback ([Requests.v]).
    - Loop: the task loop ends, also when finitely many tasks are pushed
      while it runs, and serves the tasks in order ([Loop.v]); no wake-up is lost in any interleaving ([Wakeup.v]).
    - Memory: the pool hands out buffers nobody else holds, or ends the process
      when memory is out, and takes those up to 131272 bytes back
      ([BufferStorage.v]); buffer operations stay in bounds, or are named as
      those that do not ([NativeByteBuffer.v]); a buffer in Java's hands is found again
      ([TcpNetWapper.v]).
    - Cryptography: the table code of AES is FIPS-197, decryption inverts
      encryption ([AesInverse.v]); the stream modes invert, and their
      word-wise and 32-bit-counter paths equal the byte-wise ones ([Modes.v],
      [CtrMode.v]); ChaCha20 is a counter-mode stream ([ChaCha.v]) whose
      nonces the random generator never repeats ([Rand.v]); SHA-256, SHA-1
      and MD5, fed in any pieces, are those of FIPS 180-4 and RFC 1321
      ([Sha256.v], [Sha1.v], [Md5.v]); the limbs of Poly1305 compute the
      authenticator of RFC 7539 for every message that does not lose the last
      carry ([Poly1305.v]); sealing and opening invert each other, in place as
      well, and opening gives all of a text or nothing ([ChaChaPoly.v]); GCM,
      cut into any calls on any of its paths, is that of NIST, and decryption
      accepts exactly the tag of encryption ([GcmCorrect.v]); sealing with
      AES-GCM is GCM of NIST over the cipher of FIPS-197 ([AesGcm.v]); key
      wrapping is RFC 3394 and opens exactly what it made ([KeyWrap.v]); AES
      with HMAC is counter mode with the HMAC of RFC 2104 ([CtrHmac.v]).
    - Text: the six conversions between UTF-8, UTF-16 and UTF-32 give the
      encoding of the same text, stay in their target, stop in front of what
      they cannot read and can be resumed ([UtfCorrect.v]).
    - Faults: null dereferences before login, invalid iterators at logout,
      recycled buffers of requests without answer, the buffer read after its
      deletion, the closed connection that reconnects, the pipe that blocks,
      the local references every callback leaks, the wrapped sizes of the
      buffer and packet code, the carry Poly1305 loses and the byte sequences
      [isLegalUTF8] takes for UTF-8, each as a theorem or a lemma.

    ** Bounds and fuel

    Loops that are not structural carry fuel, and the bound is shown to be
    enough: [checkPendingTasks] by the length of the queue and the number of
    tasks pushed while it runs ([Loop.v]),
    [decompressGZip] by 32 turns, since the block doubles ([Gzip.v]),
    [parse] by the bytes of its buffers ([FramingSpec.v]), the cipher loops, those
    of GCM and the conversion loop of [Utf.v] by the length of the input,
    [UTF8ToUTF16Char] by the length it was given, the AES key schedules by their constant trip
    counts.  [read_loop] takes its bound as an argument: the loop of the code
    goes on for as long as the kernel returns full buffers.

    ** Not modelled

    [FileLog] and the log macros (output only), [TcpServer] (empty),
    [NativeLoader] (installs the crash handler), the Java sources and the
    stringstream templates of [FormatTools.h]; of the vendored code, the crash
    reporter of breakpad, the assembler branches, the other ciphers of
    [e_aes.c], and the other parts of BoringSSL the library never calls
    (X.509, ASN.1, EC, RSA, bignums, TLS).  The threads interact through the
    task queue and the pool, whose operations are atomic under their mutexes;
    unsynchronised reads of plain fields are not modelled. *)

(** ** Shared vocabulary *)

From stdpp Require Export base list gmap strings.
From Stdlib Require Export ZArith Lia.
#[export] Set Default Goal Selector "!".

Global Open Scope Z_scope.

(** ** Machine integers

    A C integer of width [w] is a [Z]; every operation that can leave the
    width is followed by the wrap-around of its type. *)

Definition wrapU (w : Z) (z : Z) : Z := z mod 2 ^ w.
Definition wrapS (w : Z) (z : Z) : Z := (z + 2 ^ (w - 1)) mod 2 ^ w - 2 ^ (w - 1).

Abbreviation u8 := (wrapU 8).
Abbreviation u16 := (wrapU 16).
Abbreviation u32 := (wrapU 32).
Abbreviation u64 := (wrapU 64).
Abbreviation i16 := (wrapS 16).
Abbreviation i32 := (wrapS 32).
Abbreviation i64 := (wrapS 64).

Definition is_u (w z : Z) : Prop := 0 <= z < 2 ^ w.
Definition is_s (w z : Z) : Prop := - 2 ^ (w - 1) <= z < 2 ^ (w - 1).
Abbreviation is_byte := (is_u 8).
Abbreviation is_u32 := (is_u 32).

(** ** Faults

    What the C++ abstract machine calls undefined behaviour, and the
    explicit [exit(1)] of the sources, end an execution with a fault. *)

Inductive fault : Type :=
  | NullDereference
  | OutOfBounds
  | UseAfterFree
  | ShiftOutOfRange
  | InvalidIterator
  | SignedOverflow
  | EmptyContainer
  | ProcessExit
  | OutOfFuel.   (* a bound of the model was reached *)

#[export] Instance fault_eq_dec : EqDecision fault.
Proof. solve_decision. Defined.

Inductive res (A : Type) : Type :=
  | Ok (a : A)
  | Fault (f : fault).
Arguments Ok {A} _.
Arguments Fault {A} _.

#[export] Instance res_ret : MRet res := fun A a => Ok a.
#[export] Instance res_bind : MBind res := fun A B k m =>
  match m with Ok a => k a | Fault f => Fault f end.
#[export] Instance res_fmap : FMap res := fun A B g m =>
  match m with Ok a => Ok (g a) | Fault f => Fault f end.

Definition is_Ok {A} (r : res A) : Prop := match r with Ok _ => True | Fault _ => False end.

Definition guard_res (b : bool) (f : fault) : res unit := if b then Ok tt else Fault f.

(** ** Memory blocks

    A block of memory is the list of its bytes.  [read_at] and [write_at]
    are [memcpy]-style accesses: out of the block is undefined behaviour. *)

Definition zlen {A} (l : list A) : Z := Z.of_nat (length l).

Definition in_block {A} (mem : list A) (off len : Z) : bool :=
  (0 <=? off) && (0 <=? len) && (off + len <=? zlen mem).

Definition slice {A} (mem : list A) (off len : Z) : list A :=
  take (Z.to_nat len) (drop (Z.to_nat off) mem).

Definition splice {A} (mem : list A) (off : Z) (bs : list A) : list A :=
  take (Z.to_nat off) mem ++ bs ++ drop (Z.to_nat (off + zlen bs)) mem.

Definition read_at {A} (mem : list A) (off len : Z) : res (list A) :=
  if in_block mem off len then Ok (slice mem off len) else Fault OutOfBounds.

Definition write_at {A} (mem : list A) (off : Z) (bs : list A) : res (list A) :=
  if in_block mem off (zlen bs) then Ok (splice mem off bs) else Fault OutOfBounds.

Definition read_one (mem : list Z) (off : Z) : res Z :=
  match mem !! Z.to_nat off with
  | Some b => if 0 <=? off then Ok b else Fault OutOfBounds
  | None => Fault OutOfBounds
  end.

(** ** Big-endian integers *)

Fixpoint be_bytes (n : nat) (z : Z) : list Z :=
  match n with
  | O => []
  | S m => u8 (Z.shiftr z (8 * Z.of_nat m)) :: be_bytes m z
  end.

Definition be_value (bs : list Z) : Z := fold_left (fun acc b => acc * 256 + b) bs 0.

(** ** Automation *)

Create HintDb mach discriminated.
Create Rewrite HintDb blocks.

Ltac zify_bools :=
  repeat match goal with
  | H : _ && _ = true |- _ => apply andb_true_iff in H; destruct H
  | H : (_ <=? _) = true |- _ => apply Z.leb_le in H
  | H : (_ <=? _) = false |- _ => apply Z.leb_gt in H
  | H : (_ <? _) = true |- _ => apply Z.ltb_lt in H
  | H : (_ <? _) = false |- _ => apply Z.ltb_ge in H
  | H : (_ >? _) = true |- _ => apply Z.gtb_lt in H
  | H : (_ =? _) = true |- _ => apply Z.eqb_eq in H
  | H : (_ =? _) = false |- _ => apply Z.eqb_neq in H
  end.

(** Case split on the first [if] on an arithmetic test of the goal. *)
Ltac split_test :=
  match goal with
  | |- context [if ?a <=? ?b then _ else _] => destruct (Z.leb_spec a b)
  | |- context [if ?a <? ?b then _ else _] => destruct (Z.ltb_spec a b)
  | |- context [if ?a >? ?b then _ else _] =>
      rewrite (Z.gtb_ltb a b); destruct (Z.ltb_spec b a)
  | |- context [if ?a =? ?b then _ else _] => destruct (Z.eqb_spec a b)
  end.

(** [lia] with quotients and remainders made explicit. *)
Ltac zlia := Z.div_mod_to_equations; lia.

Ltac inv_Ok := repeat match goal with
  | H : Ok _ = Ok _ |- _ => injection H; clear H; intros; subst
  | H : Fault _ = Ok _ |- _ => discriminate H
  | H : Ok _ = Fault _ |- _ => discriminate H
  end.

(** ** Lemmas on machine integers *)

Lemma pow2_pos w : 0 <= w -> 0 < 2 ^ w.
Proof. intros. apply Z.pow_pos_nonneg; lia. Qed.

Lemma wrapU_range w z : 0 <= w -> is_u w (wrapU w z).
Proof. intros. apply Z.mod_pos_bound, pow2_pos. done. Qed.

Lemma wrapU_id w z : is_u w z -> wrapU w z = z.
Proof. intros H. apply Z.mod_small, H. Qed.

Lemma wrapS_range w z : 0 < w -> is_s w (wrapS w z).
Proof.
  intros. unfold is_s, wrapS.
  pose proof (Z.mod_pos_bound (z + 2 ^ (w - 1)) (2 ^ w) (pow2_pos w ltac:(lia))).
  assert (2 ^ w = 2 * 2 ^ (w - 1)) by (rewrite <- Z.pow_succ_r by lia; f_equal; lia).
  lia.
Qed.

Lemma wrapS_id w z : 0 < w -> is_s w z -> wrapS w z = z.
Proof.
  intros Hw [Hl Hh]. unfold wrapS.
  assert (2 ^ w = 2 * 2 ^ (w - 1)) by (rewrite <- Z.pow_succ_r by lia; f_equal; lia).
  rewrite Z.mod_small by lia. lia.
Qed.

Lemma wrapU_wrapS w z : 0 < w -> wrapU w (wrapS w z) = wrapU w z.
Proof.
  intros Hw. unfold wrapU, wrapS. rewrite Zminus_mod_idemp_l. f_equal. lia.
Qed.

Lemma wrapS_wrapU w z : 0 < w -> wrapS w (wrapU w z) = wrapS w z.
Proof. intros Hw. unfold wrapU, wrapS. rewrite Zplus_mod_idemp_l. done. Qed.

#[export] Hint Resolve wrapU_range wrapS_range : mach.

(** ** Lemmas on blocks *)

Lemma zlen_nonneg {A} (l : list A) : 0 <= zlen l.
Proof. unfold zlen. lia. Qed.

Lemma zlen_app {A} (l k : list A) : zlen (l ++ k) = zlen l + zlen k.
Proof. unfold zlen. rewrite length_app. lia. Qed.

Lemma zlen_cons {A} (x : A) l : zlen (x :: l) = 1 + zlen l.
Proof. unfold zlen. simpl length. lia. Qed.

Lemma zlen_nil {A} : zlen (@nil A) = 0.
Proof. done. Qed.

Lemma in_block_spec {A} (mem : list A) off len :
  in_block mem off len = true <-> 0 <= off /\ 0 <= len /\ off + len <= zlen mem.
Proof. unfold in_block. rewrite !andb_true_iff, !Z.leb_le. tauto. Qed.

Lemma zlen_slice {A} (mem : list A) off len :
  0 <= off -> 0 <= len -> off + len <= zlen mem -> zlen (slice mem off len) = len.
Proof. unfold zlen, slice. intros. rewrite length_take, length_drop. lia. Qed.

Lemma zlen_splice {A} (mem : list A) off bs :
  0 <= off -> off + zlen bs <= zlen mem -> zlen (splice mem off bs) = zlen mem.
Proof.
  unfold zlen, splice. intros. rewrite !length_app, length_take, length_drop. unfold zlen. lia.
Qed.

Lemma slice_splice_same {A} (mem : list A) off bs :
  0 <= off -> off + zlen bs <= zlen mem -> slice (splice mem off bs) off (zlen bs) = bs.
Proof.
  unfold slice, splice, zlen. intros.
  rewrite drop_app_ge by (rewrite length_take; lia).
  rewrite length_take, Nat.min_l by lia. rewrite Nat.sub_diag, drop_0, Nat2Z.id.
  apply take_app_length.
Qed.

Lemma slice_splice_before {A} (mem : list A) off bs o n :
  0 <= o -> 0 <= n -> o + n <= off -> off <= zlen mem ->
  slice (splice mem off bs) o n = slice mem o n.
Proof.
  unfold slice, splice, zlen. intros.
  rewrite drop_app_le by (rewrite length_take; lia).
  rewrite take_app_le by (rewrite length_drop, length_take; lia).
  rewrite skipn_firstn_comm, take_take. f_equal. lia.
Qed.

Lemma slice_splice_after {A} (mem : list A) off bs o n :
  0 <= off -> off + zlen bs <= o -> off + zlen bs <= zlen mem ->
  slice (splice mem off bs) o n = slice mem o n.
Proof.
  unfold slice, splice, zlen. intros.
  rewrite drop_app_ge by (rewrite length_take; lia).
  rewrite length_take, drop_app_ge by lia. rewrite drop_drop.
  do 2 f_equal. lia.
Qed.

Lemma slice_app {A} (mem : list A) off n m :
  0 <= off -> 0 <= n -> 0 <= m -> slice mem off (n + m) = slice mem off n ++ slice mem (off + n) m.
Proof.
  unfold slice. intros.
  rewrite (Z2Nat.inj_add off n), <- drop_drop by lia.
  rewrite Z2Nat.inj_add by lia. by rewrite take_take_drop.
Qed.

Lemma slice_full {A} (mem : list A) : slice mem 0 (zlen mem) = mem.
Proof. unfold slice, zlen. rewrite Nat2Z.id. simpl. apply take_ge. lia. Qed.

Lemma slice_nil {A} (mem : list A) off : slice mem off 0 = [].
Proof. done. Qed.

Lemma Forall_slice {A} (P : A -> Prop) mem off n : Forall P mem -> Forall P (slice mem off n).
Proof. intros. unfold slice. by apply Forall_take, Forall_drop. Qed.

Lemma Forall_splice {A} (P : A -> Prop) mem off bs :
  Forall P mem -> Forall P bs -> Forall P (splice mem off bs).
Proof.
  intros. unfold splice. rewrite !Forall_app. repeat split; auto using Forall_take, Forall_drop.
Qed.

Lemma read_at_Ok {A} (mem : list A) off n :
  0 <= off -> 0 <= n -> off + n <= zlen mem -> read_at mem off n = Ok (slice mem off n).
Proof. intros. unfold read_at. by rewrite (proj2 (in_block_spec mem off n)). Qed.

Lemma write_at_Ok {A} (mem : list A) off bs :
  0 <= off -> off + zlen bs <= zlen mem -> write_at mem off bs = Ok (splice mem off bs).
Proof.
  intros. unfold write_at. rewrite (proj2 (in_block_spec mem off (zlen bs))); [done|].
  pose proof (zlen_nonneg bs). lia.
Qed.

#[export] Hint Rewrite @zlen_app @zlen_cons @zlen_nil : blocks.
#[export] Hint Resolve zlen_nonneg Forall_slice Forall_splice : mach.

(** ** Lemmas on big-endian integers *)

Lemma length_be_bytes n z : length (be_bytes n z) = n.
Proof. induction n; simpl; congruence. Qed.

Lemma zlen_be_bytes n z : zlen (be_bytes n z) = Z.of_nat n.
Proof. unfold zlen. by rewrite length_be_bytes. Qed.

Lemma be_bytes_bytes n z : Forall is_byte (be_bytes n z).
Proof. induction n; simpl; constructor; auto using wrapU_range with lia. Qed.

Lemma be_value_app bs cs :
  be_value (bs ++ cs) = be_value bs * 256 ^ zlen cs + be_value cs.
Proof.
  unfold be_value. rewrite fold_left_app. generalize (fold_left (fun acc b => acc * 256 + b) bs 0).
  induction cs as [|c cs IH] using rev_ind; intros a.
  - rewrite zlen_nil. simpl. lia.
  - rewrite !fold_left_app, IH, zlen_app, Z.pow_add_r by (auto with mach; done).
    simpl. change (zlen [c]) with 1. lia.
Qed.

Lemma be_value_cons b bs : be_value (b :: bs) = b * 256 ^ zlen bs + be_value bs.
Proof. change (b :: bs) with ([b] ++ bs). by rewrite be_value_app. Qed.

Lemma be_value_be_bytes n z : be_value (be_bytes n z) = z mod 2 ^ (8 * Z.of_nat n).
Proof.
  induction n as [|n IH]; simpl be_bytes.
  - by rewrite Z.mod_1_r.
  - rewrite be_value_cons, IH, zlen_be_bytes. unfold wrapU.
    rewrite Z.shiftr_div_pow2 by lia.
    replace (8 * Z.of_nat (S n)) with (8 * Z.of_nat n + 8) by lia.
    rewrite Z.pow_add_r, Z.rem_mul_r by lia.
    replace (256 ^ Z.of_nat n) with (2 ^ (8 * Z.of_nat n)) by (by rewrite Z.pow_mul_r by lia).
    lia.
Qed.

Lemma be_value_range bs : Forall is_byte bs -> 0 <= be_value bs < 2 ^ (8 * zlen bs).
Proof.
  induction 1 as [|b bs Hb _ IH].
  - done.
  - rewrite be_value_cons, zlen_cons. unfold is_u in Hb. change (2 ^ 8) with 256 in Hb.
    replace (8 * (1 + zlen bs)) with (8 + 8 * zlen bs) by lia.
    rewrite Z.pow_add_r by (pose proof (zlen_nonneg bs); lia).
    replace (256 ^ zlen bs) with (2 ^ (8 * zlen bs))
      by (by rewrite Z.pow_mul_r by (pose proof (zlen_nonneg bs); lia)).
    nia.
Qed.

Lemma be_value_lt bs n : Forall is_byte bs -> zlen bs <= n -> 0 <= be_value bs < 2 ^ (8 * n).
Proof.
  intros Hb Hn. pose proof (be_value_range bs Hb).
  assert (2 ^ (8 * zlen bs) <= 2 ^ (8 * n)) by (apply Z.pow_le_mono_r; lia). lia.
Qed.

Lemma be_bytes_be_value bs :
  Forall is_byte bs -> be_bytes (length bs) (be_value bs) = bs.
Proof.
  assert (G : forall n z k, be_bytes n (z + k * 2 ^ (8 * Z.of_nat n)) = be_bytes n z).
  { induction n as [|n IH]; intros z k; simpl; [done|].
    rewrite !Z.shiftr_div_pow2 by lia.
    replace (k * 2 ^ (8 * Z.of_nat (S n))) with (k * 2 ^ 8 * 2 ^ (8 * Z.of_nat n)).
    { f_equal.
      - unfold wrapU. rewrite Z.div_add by (apply Z.pow_nonzero; lia). by rewrite Z.mod_add.
      - apply (IH z (k * 2 ^ 8)). }
    rewrite <- Z.mul_assoc, <- Z.pow_add_r by lia. do 2 f_equal. lia. }
  induction 1 as [|b bs Hb Hbs IH]; [done|].
  simpl. rewrite be_value_cons. f_equal.
  - pose proof (be_value_range bs Hbs) as Hr. unfold zlen in *.
    rewrite Z.shiftr_div_pow2 by lia.
    replace (256 ^ Z.of_nat (length bs)) with (2 ^ (8 * Z.of_nat (length bs)))
      by (by rewrite Z.pow_mul_r by lia).
    rewrite Z.add_comm, Z.div_add by (apply Z.pow_nonzero; lia).
    rewrite Z.div_small by lia. by apply wrapU_id.
  - replace (256 ^ zlen bs) with (2 ^ (8 * Z.of_nat (length bs)))
      by (unfold zlen; by rewrite Z.pow_mul_r by lia).
    rewrite Z.add_comm, G. apply IH.
Qed.

(** The low bytes of a value do not depend on the bits above them. *)
Lemma be_bytes_mod n x y :
  x mod 2 ^ (8 * Z.of_nat n) = y mod 2 ^ (8 * Z.of_nat n) -> be_bytes n x = be_bytes n y.
Proof.
  intros E. rewrite <- (be_bytes_be_value (be_bytes n x)), <- (be_bytes_be_value (be_bytes n y))
    by apply be_bytes_bytes. by rewrite !be_value_be_bytes, E, !length_be_bytes.
Qed.

#[export] Hint Resolve be_bytes_bytes : mach.

(** ** Lemmas on bits *)

Lemma land_shiftl_low a x n : 0 <= n -> 0 <= a < 2 ^ n -> Z.land a (Z.shiftl x n) = 0.
Proof.
  intros Hn Ha. apply Z.bits_inj'. intros i Hi. rewrite Z.land_spec, Z.bits_0.
  destruct (Z.lt_ge_cases i n).
  - by rewrite Z.shiftl_spec_low, andb_false_r.
  - rewrite <- (Z.mod_small a (2 ^ n)), Z.mod_pow2_bits_high by lia. done.
Qed.

(** [a | (x << n)] is a sum when [a] fits in the low [n] bits. *)
Lemma lor_shiftl_add a x n :
  0 <= n -> 0 <= a < 2 ^ n -> Z.lor (Z.shiftl x n) a = x * 2 ^ n + a.
Proof.
  intros Hn Ha. rewrite Z.lor_comm, <- Z.lxor_lor by (by apply land_shiftl_low).
  rewrite <- Z.add_nocarry_lxor by (by apply land_shiftl_low).
  rewrite Z.shiftl_mul_pow2 by done. lia.
Qed.

Lemma land_255 x : is_byte x -> Z.land x 255 = x.
Proof. intros H. change 255 with (Z.ones 8). rewrite Z.land_ones by lia. by apply Z.mod_small. Qed.

Lemma lor_mul_add a x n : 0 <= n -> 0 <= a < 2 ^ n -> Z.lor (x * 2 ^ n) a = x * 2 ^ n + a.
Proof. intros. rewrite <- Z.shiftl_mul_pow2 by lia. rewrite lor_shiftl_add by lia.
  by rewrite Z.shiftl_mul_pow2. Qed.

Lemma be_value_2 b0 b1 : be_value [b0; b1] = b0 * 2 ^ 8 + b1.
Proof. unfold be_value; simpl fold_left. lia. Qed.

Lemma be_value_4 b0 b1 b2 b3 :
  be_value [b0; b1; b2; b3] = ((b0 * 2 ^ 8 + b1) * 2 ^ 8 + b2) * 2 ^ 8 + b3.
Proof. unfold be_value; simpl fold_left. lia. Qed.

(** ** Single bytes of a block *)

Lemma read_one_lookup mem off x : 0 <= off -> mem !! Z.to_nat off = Some x -> read_one mem off = Ok x.
Proof. intros Ho Hx. unfold read_one. rewrite Hx. by destruct (Z.leb_spec 0 off); [|lia]. Qed.

Lemma read_one_Ok mem off : 0 <= off < zlen mem -> exists x, read_one mem off = Ok x /\ x ∈ mem.
Proof.
  intros H. unfold zlen in H. destruct (lookup_lt_is_Some_2 mem (Z.to_nat off)) as [x Hx]; [lia|].
  exists x. split; [by apply read_one_lookup; [lia|] | by eapply list_elem_of_lookup_2].
Qed.

Lemma read_one_splice mem off bs i x :
  0 <= off -> off + zlen bs <= zlen mem -> bs !! i = Some x ->
  read_one (splice mem off bs) (off + Z.of_nat i) = Ok x.
Proof.
  intros Ho Hl Hx. apply read_one_lookup; [lia|]. unfold splice, zlen in *.
  assert (i < length bs)%nat by (by eapply lookup_lt_Some).
  rewrite lookup_app_r by (rewrite length_take; lia).
  rewrite length_take, lookup_app_l by lia. rewrite <- Hx. f_equal. lia.
Qed.

Lemma Forall_read_one (P : Z -> Prop) mem off x : Forall P mem -> read_one mem off = Ok x -> P x.
Proof.
  intros HF. unfold read_one. destruct (mem !! Z.to_nat off) eqn:E; [|done].
  destruct (0 <=? off); [|done]. intros [= <-]. by eapply Forall_lookup_1.
Qed.

(** ** State-passing code that may fault *)

Definition SR (St A : Type) : Type := St -> res (A * St).

#[export] Instance SR_ret {St} : MRet (SR St) := fun A a s => Ok (a, s).
#[export] Instance SR_bind {St} : MBind (SR St) := fun A B k m s =>
  match m s with Ok (a, s') => k a s' | Fault f => Fault f end.

Definition get_state {St} : SR St St := fun s => Ok (s, s).
Definition gets {St A} (f : St -> A) : SR St A := fun s => Ok (f s, s).
Definition modify {St} (f : St -> St) : SR St unit := fun s => Ok (tt, f s).
Definition fault_with {St A} (f : fault) : SR St A := fun _ => Fault f.
Definition lift_res {St A} (r : res A) : SR St A :=
  fun s => match r with Ok a => Ok (a, s) | Fault f => Fault f end.

(** [when b m] runs [m] only if the guard holds. *)
Definition when {St} (b : bool) (m : SR St unit) : SR St unit :=
  if b then m else mret tt.

(** [wp m Q s]: from [s] the code runs without a fault and ends in a result
    and a state with [Q]. *)
Definition wp {St A} (m : SR St A) (Q : A -> St -> Prop) (s : St) : Prop :=
  match m s with Ok (a, s') => Q a s' | Fault _ => False end.

Lemma wp_ret {St A} (a : A) (Q : A -> St -> Prop) s : wp (mret a) Q s = Q a s.
Proof. done. Qed.

Lemma wp_bind {St A B} (m : SR St A) (k : A -> SR St B) Q s :
  wp (m ≫= k) Q s = wp m (fun a s' => wp (k a) Q s') s.
Proof. unfold wp, mbind, SR_bind. by destruct (m s) as [[a s']|]. Qed.

Lemma wp_gets {St A} (f : St -> A) (Q : A -> St -> Prop) s : wp (gets f) Q s = Q (f s) s.
Proof. done. Qed.

Lemma wp_modify {St} (f : St -> St) (Q : unit -> St -> Prop) s : wp (modify f) Q s = Q tt (f s).
Proof. done. Qed.

Lemma wp_lift {St A} (r : res A) (Q : A -> St -> Prop) s :
  wp (lift_res r) Q s = match r with Ok a => Q a s | Fault _ => False end.
Proof. by destruct r. Qed.

Lemma wp_when {St} (b : bool) (m : SR St unit) Q s :
  wp (when b m) Q s = if b then wp m Q s else Q tt s.
Proof. by destruct b. Qed.

Lemma wp_mono {St A} (m : SR St A) (P Q : A -> St -> Prop) s :
  wp m P s -> (forall a s', P a s' -> Q a s') -> wp m Q s.
Proof. unfold wp. destruct (m s) as [[a s']|]; auto. Qed.

Lemma wp_run {St A} (m : SR St A) (Q : A -> St -> Prop) s :
  wp m Q s <-> exists a s', m s = Ok (a, s') /\ Q a s'.
Proof.
  unfold wp. destruct (m s) as [[a s']|].
  - split; [eauto|]. intros (a' & s'' & [= <- <-] & H). done.
  - split; [done|]. intros (a' & s'' & H & _). done.
Qed.

Create Rewrite HintDb wp.
#[export] Hint Rewrite @wp_ret @wp_bind @wp_gets @wp_modify @wp_lift @wp_when : wp.

(** Symbolic execution up to the next call with a specification. *)
Ltac wp_run := autorewrite with wp.

Lemma bind_Ok {St A B} (m : SR St A) (k : A -> SR St B) s a s' :
  m s = Ok (a, s') -> (m ≫= k) s = k a s'.
Proof. intros H. unfold mbind, SR_bind. by rewrite H. Qed.

(** Running code backwards: the steps of a run that ended. *)
Lemma bind_inv {St A B} (m : SR St A) (k : A -> SR St B) s b s' :
  (m ≫= k) s = Ok (b, s') -> exists a s1, m s = Ok (a, s1) /\ k a s1 = Ok (b, s').
Proof. unfold mbind, SR_bind. destruct (m s) as [[a s1]|]; [eauto|done]. Qed.

(** Steps back through one call of a run. *)
Ltac back H x w E := apply bind_inv in H as (x & w & E & H).

Lemma splice_splice {A} (m : list A) off a b :
  0 <= off -> off + zlen a + zlen b <= zlen m ->
  splice (splice m off a) (off + zlen a) b = splice m off (a ++ b).
Proof.
  intros Ho Hl. pose proof (zlen_nonneg a). pose proof (zlen_nonneg b).
  unfold splice, zlen in *.
  rewrite (app_assoc (take (Z.to_nat off) m) a).
  rewrite take_app_le by (rewrite length_app, length_take; lia).
  rewrite take_ge by (rewrite length_app, length_take; lia).
  rewrite drop_app_ge by (rewrite length_app, length_take; lia).
  rewrite drop_drop, length_app, length_app, length_take, <- !app_assoc. do 5 f_equal. lia.
Qed.

(** A longer write at the same place covers an earlier one. *)
Lemma splice_over {A} (m : list A) off a b :
  0 <= off -> zlen a <= zlen b -> off + zlen b <= zlen m -> splice (splice m off a) off b = splice m off b.
Proof.
  intros Ho Hl Hm. unfold splice, zlen in *.
  assert (Lt : length (take (Z.to_nat off) m) = Z.to_nat off) by (rewrite length_take; lia).
  rewrite <- Lt at 1. rewrite take_app_length. do 2 f_equal.
  rewrite app_assoc, drop_app_ge by (rewrite length_app, Lt; lia). rewrite length_app, Lt, drop_drop. f_equal. lia.
Qed.

(** A head written in front of a tail. *)
Lemma splice_front {A} (m a b : list A) off :
  0 <= off -> off + zlen a + zlen b <= zlen m -> splice (splice m (off + zlen a) b) off a = splice m off (a ++ b).
Proof.
  intros Ho Hl. unfold splice, zlen in *. set (k := Z.to_nat (off + Z.of_nat (length a))).
  assert (Lk : length (take k m) = k) by (rewrite length_take; lia). rewrite take_app_le by lia. rewrite take_take.
  rewrite (drop_app_length' (take k m)) by done. rewrite length_app, <- app_assoc, Nat.min_l by lia.
  replace (off + Z.of_nat (length a + length b)) with (off + Z.of_nat (length a) + Z.of_nat (length b)) by lia. done.
Qed.

(** Reads and writes within a block that was written. *)
Lemma slice_inside {A} (m b : list A) off p k :
  0 <= off -> 0 <= p -> 0 <= k -> p + k <= zlen b -> off + zlen b <= zlen m -> slice (splice m off b) (off + p) k = slice b p k.
Proof.
  intros. unfold slice, splice, zlen in *. rewrite drop_app_ge by (rewrite length_take; lia). rewrite length_take.
  replace (Z.to_nat (off + p) - Z.to_nat off `min` length m)%nat with (Z.to_nat p) by lia.
  rewrite drop_app_le, take_app_le by (rewrite ?length_drop; lia). done.
Qed.

Lemma splice_inside {A} (m b x : list A) off p :
  0 <= off -> 0 <= p -> p + zlen x <= zlen b -> off + zlen b <= zlen m -> splice (splice m off b) (off + p) x = splice m off (splice b p x).
Proof.
  intros. pose proof (zlen_nonneg x). assert (E : zlen (splice b p x) = zlen b) by (by apply zlen_splice). unfold splice at 1 3. rewrite E.
  unfold splice, zlen in *. rewrite take_app_ge, length_take by (rewrite length_take; lia).
  replace (Z.to_nat (off + p) - Z.to_nat off `min` length m)%nat with (Z.to_nat p) by lia. rewrite take_app_le by lia.
  rewrite drop_app_ge, length_take by (rewrite length_take; lia).
  replace (Z.to_nat (off + p + Z.of_nat (length x)) - Z.to_nat off `min` length m)%nat with (Z.to_nat (p + Z.of_nat (length x))) by lia.
  rewrite drop_app_le by lia. by rewrite <- !app_assoc.
Qed.

Lemma splice_slice {A} (m : list A) off n : 0 <= off -> 0 <= n -> off + n <= zlen m -> splice m off (slice m off n) = m.
Proof.
  intros. assert (E : zlen (slice m off n) = n) by (by apply zlen_slice). unfold splice. rewrite E. unfold slice.
  replace (Z.to_nat (off + n)) with (Z.to_nat off + Z.to_nat n)%nat by lia. by rewrite <- drop_drop, take_drop, take_drop.
Qed.

Lemma splice_nil {A} (m : list A) off : splice m off [] = m.
Proof.
  unfold splice. change (zlen []) with 0. rewrite Z.add_0_r, app_nil_l. apply take_drop.
Qed.
