(* ===== verification/FormatTools.v ===== *)
(** * FormatTools: byte order conversions

    Models [src/fastsocks/cpp/common/FormatTools.cpp] and the C library's
    [htons]/[htonl] on the little-endian hosts the library is built for
    (the build has one ABI, armeabi-v7a): each reverses the bytes. *)

From S2P Require Import Prelude.

(** Little-endian value of bytes, the way a struct field reads them. *)
Definition le_value (bs : list Z) : Z := be_value (rev bs).

Definition htons (x : Z) : Z := be_value (rev (be_bytes 2 x)).
Definition htonl (x : Z) : Z := be_value (rev (be_bytes 4 x)).
Definition ntohs (x : Z) : Z := htons x.
Definition ntohl (x : Z) : Z := htonl x.

(** [unsigned long] is 32 bits wide in the build's ABI. *)
Definition htonll (host : Z) : Z :=
  let temp_low := u32 (htonl (u32 host)) in
  let temp_high := u32 (htonl (u32 (Z.shiftr host 32))) in
  let host := Z.land host 0 in
  let host := Z.lor host temp_low in
  let host := u64 (Z.shiftl host 32) in
  Z.lor host temp_high.

Definition ntohll (host : Z) : Z :=
  let temp_low := htonl (u32 host) in
  let temp_high := htonl (u32 (Z.shiftr host 32)) in
  let host := Z.land host 0 in
  let host := Z.lor host temp_low in
  let host := i64 (Z.shiftl host 32) in
  Z.lor host temp_high.

(** ** Lemmas *)

Lemma zlen_rev {A} (l : list A) : zlen (rev l) = zlen l.
Proof. unfold zlen. by rewrite length_rev. Qed.

Lemma Forall_rev_bytes bs : Forall is_byte bs -> Forall is_byte (rev bs).
Proof. apply Forall_rev. Qed.

(** Reversing the bytes of a value read little-endian gives the value read
    big-endian. *)
Lemma htonl_le_value bs : Forall is_byte bs -> length bs = 4%nat -> htonl (le_value bs) = be_value bs.
Proof.
  intros Hb Hl. unfold htonl, le_value.
  replace 4%nat with (length (rev bs)) by (by rewrite length_rev).
  rewrite be_bytes_be_value by (by apply Forall_rev_bytes). by rewrite rev_involutive.
Qed.

Lemma htons_le_value bs : Forall is_byte bs -> length bs = 2%nat -> htons (le_value bs) = be_value bs.
Proof.
  intros Hb Hl. unfold htons, le_value.
  replace 2%nat with (length (rev bs)) by (by rewrite length_rev).
  rewrite be_bytes_be_value by (by apply Forall_rev_bytes). by rewrite rev_involutive.
Qed.

Lemma htonl_range x : is_u32 (htonl x).
Proof.
  unfold htonl, is_u. apply (be_value_lt _ 4); [apply Forall_rev_bytes, be_bytes_bytes|].
  rewrite zlen_rev, zlen_be_bytes. lia.
Qed.

Lemma htonl_htonl x : htonl (htonl x) = u32 x.
Proof.
  unfold htonl. replace 4%nat with (length (rev (be_bytes 4 x))) at 1
    by (by rewrite length_rev, length_be_bytes).
  rewrite be_bytes_be_value by (apply Forall_rev_bytes, be_bytes_bytes).
  rewrite rev_involutive. apply be_value_be_bytes.
Qed.

Lemma u32_of_wide a b : is_u32 a -> is_u32 b -> u32 (a * 2 ^ 32 + b) = b /\ u32 (Z.shiftr (a * 2 ^ 32 + b) 32) = a.
Proof.
  unfold is_u, wrapU. intros Ha Hb. rewrite Z.shiftr_div_pow2 by lia.
  rewrite Z.add_comm, Z.mod_add, Z.div_add by lia.
  rewrite (Z.div_small b) by lia. rewrite !Z.mod_small by lia. done.
Qed.

Lemma htonll_value x :
  htonll x = htonl (u32 x) * 2 ^ 32 + htonl (u32 (Z.shiftr x 32)).
Proof.
  unfold htonll. rewrite Z.land_0_r, Z.lor_0_l, !(wrapU_id 32 (htonl _)) by apply htonl_range.
  pose proof (htonl_range (u32 x)). pose proof (htonl_range (u32 (Z.shiftr x 32))). unfold is_u in *.
  rewrite Z.shiftl_mul_pow2 by lia. rewrite wrapU_id by (unfold is_u; lia).
  apply lor_mul_add; lia.
Qed.

Lemma lor_low_add h n b : 0 <= n -> 0 <= b < 2 ^ n -> h mod 2 ^ n = 0 -> Z.lor h b = h + b.
Proof.
  intros Hn Hb Hz. pose proof (Z.div_mod h (2 ^ n) ltac:(apply Z.pow_nonzero; lia)) as E.
  rewrite Hz, Z.add_0_r, Z.mul_comm in E. rewrite E. by apply lor_mul_add.
Qed.

Lemma ntohll_u64 x : u64 (ntohll x) = u64 (htonll x).
Proof.
  unfold ntohll. rewrite htonll_value. rewrite Z.land_0_r, Z.lor_0_l.
  pose proof (htonl_range (u32 x)) as H1. pose proof (htonl_range (u32 (Z.shiftr x 32))) as H2.
  unfold is_u in *. rewrite Z.shiftl_mul_pow2 by lia.
  rewrite (lor_low_add _ 32); [|lia|lia|].
  - revert H1 H2. generalize (htonl (u32 x)), (htonl (u32 (Z.shiftr x 32))). intros a b _ _.
    pose proof (wrapU_wrapS 64 (a * 2 ^ 32) ltac:(lia)) as E. unfold wrapU in *.
    by rewrite Zplus_mod, E, <- Zplus_mod.
  - unfold wrapS. change (2 ^ 64) with (2 ^ 32 * 2 ^ 32). change (2 ^ (64 - 1)) with (2 ^ 31 * 2 ^ 32).
    rewrite <- Z.mul_add_distr_r, Z.mul_mod_distr_r, <- Z.mul_sub_distr_r by lia. apply Z.mod_mul. lia.
Qed.

(** The 64-bit conversions reverse all eight bytes: applying the
    conversion twice gives the value back, so what one side converts to
    network order the other side recovers. *)
Lemma htonll_involutive x : is_u 64 x -> htonll (htonll x) = x /\ u64 (ntohll (htonll x)) = x.
Proof.
  intros Hx. assert (E : htonll (htonll x) = x).
  { rewrite (htonll_value (htonll x)), htonll_value.
    destruct (u32_of_wide (htonl (u32 x)) (htonl (u32 (Z.shiftr x 32)))) as [-> ->];
      [apply htonl_range..|].
    rewrite !htonl_htonl. unfold wrapU, is_u in *. rewrite !Z.mod_mod by lia.
    rewrite Z.shiftr_div_pow2 by lia.
    assert (0 <= x / 2 ^ 32 < 2 ^ 32) by (split; [apply Z.div_pos|apply Z.div_lt_upper_bound]; lia).
    rewrite (Z.mod_small (x / 2 ^ 32)) by lia. pose proof (Z.div_mod x (2 ^ 32)). lia. }
  split; [done|]. rewrite ntohll_u64, E. by apply wrapU_id.
Qed.
