(* ===== verification/NativeByteBuffer.v ===== *)
(** * NativeByteBuffer: the byte buffer every other component passes around

    Models [src/fastsocks/cpp/tcp/NativeByteBuffer.{h,cpp}]: a block of
    memory with a position, a limit and a capacity (all [uint32_t]), the
    "calculate size only" mode, and the big-endian readers and writers.
    The memory is the list of its bytes; an access outside of it is the
    fault [OutOfBounds].  A [bool *error] argument is an [option bool]:
    [None] is the null pointer. *)

From S2P Require Import Prelude.

(** ** The Java virtual machine, as the buffer uses it

    [jclass_ByteBuffer] is non-null once [ConnectionsManager::useJavaVM]
    ran; [GetEnv] tells whether [javaVM->GetEnv] returns [JNI_OK];
    [allocateDirect] is the Java method, its argument a [jint] and its result
    the memory [GetDirectBufferAddress] gives for the new object (None is a
    null result, an exception in Java); [new_uint8] is [new uint8_t[size]]
    (None is [std::bad_alloc], which nobody catches). *)

Class Jni : Type := {
  jclass_ByteBuffer : bool;
  GetEnv : bool;
  allocateDirect : Z -> option (list Z);
  new_uint8 : Z -> option (list Z)
}.

(** Documented behaviour of the two allocators: they fail, or give a block
    of the requested size; [ByteBuffer.allocateDirect] refuses a negative
    capacity. *)
Class JniBlocks (J : Jni) : Prop := {
  allocateDirect_block : forall size blk, allocateDirect size = Some blk ->
    0 <= size /\ zlen blk = size /\ Forall is_byte blk;
  new_uint8_block : forall size blk, 0 <= size -> new_uint8 size = Some blk ->
    zlen blk = size /\ Forall is_byte blk
}.

(** The largest buffer the pool keeps. *)
Definition pool_max : Z := 128 * 1024 + 200.

(** A run in which the thread is attached and memory for buffers of the
    pool's sizes does not run out.  Nothing is assumed of larger ones. *)
Class JniLaws (J : Jni) : Prop := {
  jni_blocks :: JniBlocks J;
  pool_memory : GetEnv = true /\ forall size, 0 <= size <= pool_max ->
    is_Some (allocateDirect size) /\ is_Some (new_uint8 size)
}.

(** The Java object behind a buffer: none, the object whose memory is
    [buffer], or a separate object made by [getJavaByteBuffer]. *)
Inductive java_ref : Type :=
  | JavaNull
  | JavaShared
  | JavaSeparate (blk : list Z).

Record NBuf : Type := mkNBuf {
  buffer : list Z;
  _position : Z;
  _limit : Z;
  _capacity : Z;
  calculateSizeOnly : bool;
  bufferOwner : bool;
  javaByteBuffer : java_ref
}.

Definition set_buffer (m : list Z) (b : NBuf) : NBuf :=
  mkNBuf m (_position b) (_limit b) (_capacity b) (calculateSizeOnly b) (bufferOwner b) (javaByteBuffer b).
Definition set__position (p : Z) (b : NBuf) : NBuf :=
  mkNBuf (buffer b) p (_limit b) (_capacity b) (calculateSizeOnly b) (bufferOwner b) (javaByteBuffer b).
Definition set__limit (l : Z) (b : NBuf) : NBuf :=
  mkNBuf (buffer b) (_position b) l (_capacity b) (calculateSizeOnly b) (bufferOwner b) (javaByteBuffer b).
Definition set__capacity (c : Z) (b : NBuf) : NBuf :=
  mkNBuf (buffer b) (_position b) (_limit b) c (calculateSizeOnly b) (bufferOwner b) (javaByteBuffer b).
Definition set_javaByteBuffer (j : java_ref) (b : NBuf) : NBuf :=
  mkNBuf (buffer b) (_position b) (_limit b) (_capacity b) (calculateSizeOnly b) (bufferOwner b) j.

(** ** Construction *)

Section Construction.
Context {J : Jni}.

Definition NativeByteBuffer_new (size : Z) : res NBuf :=
  if jclass_ByteBuffer then
    if GetEnv then
      match allocateDirect (i32 size) with
      | Some blk => Ok (mkNBuf blk 0 size size false false JavaShared)
      | None => Fault ProcessExit
      end
    else Fault ProcessExit
  else
    match new_uint8 size with
    | Some blk => Ok (mkNBuf blk 0 size size false true JavaNull)
    | None => Fault ProcessExit
    end.

(** [NativeByteBuffer(bool)] leaves [buffer] unset: no byte is addressable. *)
Definition NativeByteBuffer_calc (calculate : bool) : NBuf :=
  mkNBuf [] 0 0 0 calculate true JavaNull.

Definition getJavaByteBuffer (javaVM : bool) (b : NBuf) : res (java_ref * NBuf) :=
  match javaByteBuffer b with
  | JavaNull =>
      if javaVM then
        if GetEnv then
          match allocateDirect (i32 (_capacity b)) with
          | Some blk =>
              let b' := set_javaByteBuffer (JavaSeparate blk) b in Ok (javaByteBuffer b', b')
          | None => Fault ProcessExit
          end
        else Fault ProcessExit
      else Ok (JavaNull, b)
  | j => Ok (j, b)
  end.
End Construction.

(** ** Position, limit and capacity *)

Definition position (b : NBuf) : Z := _position b.
Definition capacity (b : NBuf) : Z := _capacity b.
Definition limit (b : NBuf) : Z := _limit b.
Definition remaining (b : NBuf) : Z := u32 (_limit b - _position b).
Definition hasRemaining (b : NBuf) : bool := _position b <? _limit b.
Definition bytes (b : NBuf) : list Z := buffer b.

Definition position_to (p : Z) (b : NBuf) : NBuf :=
  if p >? _limit b then b else set__position p b.

Definition limit_to (l : Z) (b : NBuf) : NBuf :=
  if l >? _capacity b then b
  else let b := if _position b >? l then set__position l b else b in set__limit l b.

Definition clearCapacity (b : NBuf) : NBuf := set__capacity 0 b.
Definition flip (b : NBuf) : NBuf := set__position 0 (set__limit (_position b) b).
Definition clear (b : NBuf) : NBuf := set__limit (_capacity b) (set__position 0 b).
Definition rewind (b : NBuf) : NBuf := set__position 0 b.

Definition compact (b : NBuf) : res NBuf :=
  if _position b =? _limit b then Ok b
  else
    rest ← read_at (buffer b) (_position b) (u32 (_limit b - _position b));
    mem ← write_at (buffer b) 0 rest;
    Ok (set__limit (_capacity b)
         (set__position (u32 (_limit b - _position b)) (set_buffer mem b))).

Definition skip (length : Z) (b : NBuf) : NBuf :=
  if calculateSizeOnly b then set__capacity (u32 (_capacity b + length)) b
  else if u32 (_position b + length) >? _limit b then b
  else set__position (u32 (_position b + length)) b.

(** ** Writers *)

(** The test of every checked access, [_position + n > _limit] in [uint32_t]. *)
Definition overruns (n : Z) (b : NBuf) : bool := u32 (_position b + n) >? _limit b.

(** [*error = true] when [error] is not null. *)
Definition raise_error (error : option bool) : option bool := (fun _ => true) <$> error.

(** [buffer[_position++] = x], once per byte. *)
Definition put_bytes (bs : list Z) (b : NBuf) : res NBuf :=
  mem ← write_at (buffer b) (_position b) bs;
  Ok (set__position (u32 (_position b + zlen bs)) (set_buffer mem b)).

Definition writeBytesInternal (bytes : list Z) (offset length : Z) (b : NBuf) : res NBuf :=
  src ← read_at bytes offset length;
  mem ← write_at (buffer b) (_position b) src;
  Ok (set__position (u32 (_position b + length)) (set_buffer mem b)).

Definition writeByte (byte : Z) (error : option bool) (b : NBuf) : res (NBuf * option bool) :=
  if calculateSizeOnly b then Ok (set__capacity (u32 (_capacity b + 1)) b, error)
  else if overruns 1 b then Ok (b, raise_error error)
  else b' ← put_bytes [u8 byte] b; Ok (b', error).

Definition writeInt16 (x : Z) (error : option bool) (b : NBuf) : res (NBuf * option bool) :=
  if calculateSizeOnly b then Ok (set__position (u32 (_position b + 2)) b, error)
  else if overruns 2 b then Ok (b, raise_error error)
  else b' ← put_bytes [u8 (Z.shiftr x 8); u8 x] b; Ok (b', error).

Definition writeInt32 (x : Z) (error : option bool) (b : NBuf) : res (NBuf * option bool) :=
  if calculateSizeOnly b then Ok (set__capacity (u32 (_capacity b + 4)) b, error)
  else if overruns 4 b then Ok (b, raise_error error)
  else
    b' ← put_bytes [u8 (Z.shiftr x 24); u8 (Z.shiftr x 16); u8 (Z.shiftr x 8); u8 x] b;
    Ok (b', error).

Definition writeInt64 (x : Z) (error : option bool) (b : NBuf) : res (NBuf * option bool) :=
  if calculateSizeOnly b then Ok (set__capacity (u32 (_capacity b + 8)) b, error)
  else if overruns 8 b then Ok (b, raise_error error)
  else
    b' ← put_bytes [u8 (Z.shiftr x 56); u8 (Z.shiftr x 48); u8 (Z.shiftr x 40); u8 (Z.shiftr x 32);
                    u8 (Z.shiftr x 24); u8 (Z.shiftr x 16); u8 (Z.shiftr x 8); u8 x] b;
    Ok (b', error).

(** A [double] is its 64-bit representation. *)
Definition writeDouble (d : Z) (error : option bool) (b : NBuf) : res (NBuf * option bool) :=
  writeInt64 (i64 d) error b.

Definition writeBool (value : bool) (error : option bool) (b : NBuf) : res (NBuf * option bool) :=
  if calculateSizeOnly b then Ok (set__capacity (u32 (_capacity b + 1)) b, error)
  else if value then writeByte 1 error b else writeByte 0 error b.

(** [writeBytes(uint8_t *buffer, offset, length, error)] *)
Definition writeBytes_raw (src : list Z) (offset length : Z) (error : option bool) (b : NBuf)
    : res (NBuf * option bool) :=
  if calculateSizeOnly b then Ok (set__capacity (u32 (_capacity b + length)) b, error)
  else if overruns length b then Ok (b, raise_error error)
  else b' ← writeBytesInternal src offset length b; Ok (b', error).

(** [writeBytes(NativeByteBuffer *buffer, error)] with two distinct
    buffers: the results are the destination, the source, and [*error]. *)
Definition writeBytes (src : NBuf) (error : option bool) (b : NBuf)
    : res (NBuf * NBuf * option bool) :=
  let length := u32 (_limit src - _position src) in
  if length <=? 0 then Ok (b, src, error)
  else if calculateSizeOnly b then Ok (set__capacity (u32 (_capacity b + length)) b, src, error)
  else if overruns length b then Ok (b, src, raise_error error)
  else
    b' ← writeBytesInternal (bytes src) (position src) length b;
    Ok (b', position_to (limit src) src, error).

(** ** Readers *)

Definition readByte (error : option bool) (b : NBuf) : res (Z * NBuf * option bool) :=
  if overruns 1 b then Ok (0, b, raise_error error)
  else x ← read_one (buffer b) (_position b); Ok (x, set__position (u32 (_position b + 1)) b, error).

Definition readInt16 (error : option bool) (b : NBuf) : res (Z * NBuf * option bool) :=
  if overruns 2 b then Ok (0, b, raise_error error)
  else
    b0 ← read_one (buffer b) (_position b);
    b1 ← read_one (buffer b) (u32 (_position b + 1));
    Ok (u16 (Z.lor (u16 (Z.shiftl (Z.land b0 255) 8)) (Z.land b1 255)),
        set__position (u32 (_position b + 2)) b, error).

Definition readUint32 (error : option bool) (b : NBuf) : res (Z * NBuf * option bool) :=
  if overruns 4 b then Ok (0, b, raise_error error)
  else
    b0 ← read_one (buffer b) (_position b);
    b1 ← read_one (buffer b) (u32 (_position b + 1));
    b2 ← read_one (buffer b) (u32 (_position b + 2));
    b3 ← read_one (buffer b) (u32 (_position b + 3));
    Ok (Z.lor (Z.lor (Z.lor (u32 (Z.shiftl (Z.land b0 255) 24)) (Z.shiftl (Z.land b1 255) 16))
                     (Z.shiftl (Z.land b2 255) 8)) (Z.land b3 255),
        set__position (u32 (_position b + 4)) b, error).

(** [x << n] at type [int] is undefined from [n = 32] on. *)
Definition int_shl (x n : Z) : res Z :=
  if n <? 32 then Ok (i32 (Z.shiftl x n)) else Fault ShiftOutOfRange.

Definition readUint64 (error : option bool) (b : NBuf) : res (Z * NBuf * option bool) :=
  if overruns 8 b then Ok (0, b, raise_error error)
  else
    b0 ← read_one (buffer b) (_position b); s0 ← int_shl (Z.land b0 255) 56;
    b1 ← read_one (buffer b) (u32 (_position b + 1)); s1 ← int_shl (Z.land b1 255) 48;
    b2 ← read_one (buffer b) (u32 (_position b + 2)); s2 ← int_shl (Z.land b2 255) 40;
    b3 ← read_one (buffer b) (u32 (_position b + 3)); s3 ← int_shl (Z.land b3 255) 32;
    b4 ← read_one (buffer b) (u32 (_position b + 4)); s4 ← int_shl (Z.land b4 255) 24;
    b5 ← read_one (buffer b) (u32 (_position b + 5)); s5 ← int_shl (Z.land b5 255) 16;
    b6 ← read_one (buffer b) (u32 (_position b + 6)); s6 ← int_shl (Z.land b6 255) 8;
    b7 ← read_one (buffer b) (u32 (_position b + 7));
    Ok (u64 (Z.lor (Z.lor (Z.lor (Z.lor (Z.lor (Z.lor (Z.lor s0 s1) s2) s3) s4) s5) s6) (Z.land b7 255)),
        set__position (u32 (_position b + 8)) b, error).

Definition readInt32 (error : option bool) (b : NBuf) : res (Z * NBuf * option bool) :=
  '(x, b', e) ← readUint32 error b; Ok (i32 x, b', e).

Definition readInt64 (error : option bool) (b : NBuf) : res (Z * NBuf * option bool) :=
  '(x, b', e) ← readUint64 error b; Ok (i64 x, b', e).

(** The position moves first and the byte is read after it, as written. *)
Definition readBool (error : option bool) (b : NBuf) : res (bool * NBuf * option bool) :=
  if overruns 1 b then Ok (false, b, raise_error error)
  else
    let b' := set__position (u32 (_position b + 1)) b in
    x ← read_one (buffer b') (_position b');
    Ok (negb (x =? 0), b', error).

Definition readDouble (error : option bool) (b : NBuf) : res (Z * NBuf * option bool) :=
  '(x, b', e) ← readInt64 error b; Ok (u64 x, b', e).

(** ** Well-formed buffers *)

Record wf (b : NBuf) : Prop := {
  wf_mode : calculateSizeOnly b = false;
  wf_position : 0 <= _position b <= _limit b;
  wf_limit : _limit b <= _capacity b;
  wf_capacity : _capacity b <= zlen (buffer b);
  wf_width : zlen (buffer b) < 2 ^ 32;
  wf_bytes : Forall is_byte (buffer b)
}.

(** The bytes between position and limit. *)
Definition contents (b : NBuf) : list Z := slice (buffer b) (_position b) (_limit b - _position b).

(** The buffer without its memory, and with the rest untouched. *)
Definition same_shape (b b' : NBuf) : Prop :=
  _limit b' = _limit b /\ _capacity b' = _capacity b /\ zlen (buffer b') = zlen (buffer b).

Create HintDb nbuf discriminated.

Ltac wf_facts H := pose proof (wf_mode _ H); pose proof (wf_position _ H); pose proof (wf_limit _ H);
  pose proof (wf_capacity _ H); pose proof (wf_width _ H); pose proof (wf_bytes _ H).

Lemma u32_id z : 0 <= z < 2 ^ 32 -> u32 z = z.
Proof. apply wrapU_id. Qed.

Lemma remaining_wf b : wf b -> remaining b = _limit b - _position b.
Proof. intros H. wf_facts H. unfold remaining. apply u32_id. lia. Qed.

Lemma overruns_false b n : wf b -> 0 <= n -> _position b + n <= _limit b -> overruns n b = false.
Proof.
  intros H Hn Hf. wf_facts H. unfold overruns. rewrite u32_id by lia.
  rewrite Z.gtb_ltb. apply Z.ltb_ge. lia.
Qed.

Lemma overruns_true b n :
  wf b -> _limit b < _position b + n < 2 ^ 32 -> overruns n b = true.
Proof.
  intros H Hn. wf_facts H. unfold overruns. rewrite u32_id by lia. apply Z.gtb_lt. lia.
Qed.

Lemma zlen_contents b : wf b -> zlen (contents b) = _limit b - _position b.
Proof. intros H. wf_facts H. unfold contents. apply zlen_slice; lia. Qed.

Lemma contents_bytes b : wf b -> Forall is_byte (contents b).
Proof. intros H. apply Forall_slice, H. Qed.

(** Moving the position inside the limit keeps a buffer well formed. *)
Lemma wf_set_position b p : wf b -> 0 <= p <= _limit b -> wf (set__position p b).
Proof. intros H Hp. wf_facts H. constructor; simpl; auto; lia. Qed.

Lemma wf_set_limit b l : wf b -> _position b <= l <= _capacity b -> wf (set__limit l b).
Proof. intros H Hp. wf_facts H. constructor; simpl; auto; lia. Qed.

Lemma wf_set_buffer b m :
  wf b -> zlen m = zlen (buffer b) -> Forall is_byte m -> wf (set_buffer m b).
Proof. intros H Hl Hm. wf_facts H. constructor; simpl; auto; lia. Qed.

#[export] Hint Resolve wf_set_position wf_set_limit wf_set_buffer contents_bytes : nbuf.

Lemma wf_position_to b p : wf b -> 0 <= p -> wf (position_to p b).
Proof.
  intros H Hp. unfold position_to. destruct (p >? _limit b) eqn:E; [done|].
  apply wf_set_position; [done|]. rewrite Z.gtb_ltb in E. apply Z.ltb_ge in E. lia.
Qed.

Lemma wf_limit_to b l : wf b -> 0 <= l -> wf (limit_to l b).
Proof.
  intros H Hl. wf_facts H. unfold limit_to.
  destruct (Z.gtb_spec l (_capacity b)); [done|].
  destruct (Z.gtb_spec (_position b) l).
  - apply wf_set_limit; [apply wf_set_position; [done|lia]|simpl; lia].
  - apply wf_set_limit; [done|lia].
Qed.

Lemma limit_to_spec b l : wf b -> 0 <= l <= _capacity b -> _limit (limit_to l b) = l.
Proof. intros H Hl. unfold limit_to. repeat split_test; simpl; lia. Qed.

(** ** What the writers do *)

Lemma put_bytes_spec b bs :
  wf b -> _position b + zlen bs <= _limit b -> Forall is_byte bs ->
  exists b', put_bytes bs b = Ok b' /\ wf b' /\ same_shape b b' /\
    _position b' = _position b + zlen bs /\ buffer b' = splice (buffer b) (_position b) bs.
Proof.
  intros H Hf Hb. wf_facts H. pose proof (zlen_nonneg bs). unfold put_bytes.
  rewrite write_at_Ok by lia. simpl. rewrite u32_id by lia. eexists. split; [reflexivity|].
  repeat split; simpl; auto with mach; rewrite ?zlen_splice; try lia; auto with mach.
Qed.

Lemma writeBytesInternal_put src off n b :
  0 <= off -> 0 <= n -> off + n <= zlen src ->
  writeBytesInternal src off n b = put_bytes (slice src off n) b.
Proof.
  intros. unfold writeBytesInternal, put_bytes. rewrite read_at_Ok by lia. simpl.
  by rewrite zlen_slice by lia.
Qed.

(** A raw write that fits: the bytes are in place and the position moved. *)
Lemma writeBytes_raw_fits b src off n e :
  wf b -> 0 <= off -> 0 <= n -> off + n <= zlen src -> Forall is_byte src ->
  _position b + n <= _limit b ->
  exists b', writeBytes_raw src off n e b = Ok (b', e) /\ wf b' /\ same_shape b b' /\
    _position b' = _position b + n /\
    buffer b' = splice (buffer b) (_position b) (slice src off n).
Proof.
  intros H Ho Hn Hs Hb Hf. unfold writeBytes_raw.
  rewrite (wf_mode _ H), overruns_false, writeBytesInternal_put by (done || lia).
  destruct (put_bytes_spec b (slice src off n)) as (b' & -> & Hw & Hsh & Hp & Hm); auto with mach.
  - rewrite zlen_slice by lia. done.
  - rewrite zlen_slice in Hp by lia. simpl. eauto 10.
Qed.

(** A raw write that does not fit, below the wrap-around, is refused. *)
Lemma writeBytes_raw_refused b src off n e :
  wf b -> _limit b < _position b + n < 2 ^ 32 ->
  writeBytes_raw src off n e b = Ok (b, raise_error e).
Proof. intros H Hn. unfold writeBytes_raw. by rewrite (wf_mode _ H), overruns_true. Qed.

Lemma writeBytes_fits b src e :
  wf b -> wf src -> _position b + (_limit src - _position src) <= _limit b ->
  exists b', writeBytes src e b = Ok (b', set__position (_limit src) src, e) /\ wf b' /\
    same_shape b b' /\ _position b' = _position b + zlen (contents src) /\
    buffer b' = splice (buffer b) (_position b) (contents src).
Proof.
  intros H Hs Hf. wf_facts Hs. unfold writeBytes. rewrite u32_id by lia.
  split_test.
  - assert (Hz : _limit src = _position src) by lia.
    exists b. assert (Hc : contents src = []) by (unfold contents; rewrite Hz, Z.sub_diag; done).
    rewrite Hc. split; [rewrite Hz; by destruct src|]. split; [done|]. split; [done|]. split.
    + change (zlen []) with 0. lia.
    + unfold splice. change (zlen []) with 0. rewrite Z.add_0_r, app_nil_l. by rewrite take_drop.
  - rewrite (wf_mode _ H), overruns_false, writeBytesInternal_put by (done || (unfold position, bytes; lia)).
    unfold position, bytes. fold (contents src).
    destruct (put_bytes_spec b (contents src)) as (b' & -> & Hw & Hsh & Hp & Hm); auto with nbuf.
    { rewrite zlen_contents by done. lia. }
    simpl. exists b'. split; [|done]. do 2 f_equal. f_equal.
    unfold position_to, limit. rewrite Z.gtb_ltb. by rewrite Z.ltb_irrefl.
Qed.

(** [compact] keeps the unread bytes and frees the rest of the capacity. *)
Lemma compact_spec b :
  wf b -> _position b < _limit b ->
  exists b', compact b = Ok b' /\ wf b' /\ _capacity b' = _capacity b /\
    zlen (buffer b') = zlen (buffer b) /\
    _position b' = zlen (contents b) /\ _limit b' = _capacity b /\
    slice (buffer b') 0 (_position b') = contents b.
Proof.
  intros H Hp. wf_facts H. unfold compact.
  destruct (Z.eqb_spec (_position b) (_limit b)) as [|_]; [lia|].
  rewrite u32_id, read_at_Ok by lia. simpl. fold (contents b).
  pose proof (zlen_contents b H) as Hc. rewrite write_at_Ok by lia. simpl.
  eexists. split; [reflexivity|]. simpl. rewrite <- Hc.
  assert (wf (set_buffer (splice (buffer b) 0 (contents b)) b)).
  { apply wf_set_buffer; auto with mach nbuf. rewrite zlen_splice by lia. done. }
  repeat split; simpl; auto with mach nbuf; try lia.
  - rewrite zlen_splice by lia. done.
  - rewrite zlen_splice by lia. done.
  - apply zlen_splice; lia.
  - apply slice_splice_same; lia.
Qed.

(** ** Operations as data, for statements about all of them at once *)

Inductive op : Type :=
  | OpPosition (p : Z) | OpLimit (l : Z) | OpFlip | OpClear | OpClearCapacity | OpRewind | OpCompact | OpSkip (n : Z)
  | OpWriteByte (x : Z) | OpWriteInt16 (x : Z) | OpWriteInt32 (x : Z) | OpWriteInt64 (x : Z)
  | OpWriteDouble (x : Z) | OpWriteBool (x : bool)
  | OpWriteRaw (src : list Z) (off n : Z)
  | OpWriteBytes (src : NBuf)
  | OpReadByte | OpReadInt16 | OpReadUint32 | OpReadInt32 | OpReadUint64 | OpReadInt64 | OpReadDouble | OpReadBool.

(** The operation with the error pointer [e]: the buffer and [*e] after it. *)
Definition exec_op (o : op) (e : option bool) (b : NBuf) : res (NBuf * option bool) :=
  match o with
  | OpPosition p => Ok (position_to p b, e)
  | OpLimit l => Ok (limit_to l b, e)
  | OpFlip => Ok (flip b, e)
  | OpClear => Ok (clear b, e)
  | OpClearCapacity => Ok (clearCapacity b, e)
  | OpRewind => Ok (rewind b, e)
  | OpCompact => b' ← compact b; Ok (b', e)
  | OpSkip n => Ok (skip n b, e)
  | OpWriteByte x => writeByte x e b
  | OpWriteInt16 x => writeInt16 x e b
  | OpWriteInt32 x => writeInt32 x e b
  | OpWriteInt64 x => writeInt64 x e b
  | OpWriteDouble x => writeDouble x e b
  | OpWriteBool x => writeBool x e b
  | OpWriteRaw src off n => writeBytes_raw src off n e b
  | OpWriteBytes src => '(b', _, e') ← writeBytes src e b; Ok (b', e')
  | OpReadByte => '(_, b', e') ← readByte e b; Ok (b', e')
  | OpReadInt16 => '(_, b', e') ← readInt16 e b; Ok (b', e')
  | OpReadUint32 => '(_, b', e') ← readUint32 e b; Ok (b', e')
  | OpReadInt32 => '(_, b', e') ← readInt32 e b; Ok (b', e')
  | OpReadUint64 => '(_, b', e') ← readUint64 e b; Ok (b', e')
  | OpReadInt64 => '(_, b', e') ← readInt64 e b; Ok (b', e')
  | OpReadDouble => '(_, b', e') ← readDouble e b; Ok (b', e')
  | OpReadBool => '(_, b', e') ← readBool e b; Ok (b', e')
  end.

(** Arguments of the C types. *)
Definition op_typed (o : op) : Prop :=
  match o with
  | OpPosition n | OpLimit n | OpSkip n => is_u32 n
  | OpWriteRaw src off n => is_u32 off /\ is_u32 n /\ Forall is_byte src
  | OpWriteBytes src => wf src
  | _ => True
  end.

(** The test of a checked access of [n] bytes either refuses it or is right
    to let it pass: it is wrong when the sum wraps around. *)
Definition checked (n : Z) (b : NBuf) : bool := overruns n b || (_position b + n <=? _limit b).

(** Where the operation is defined.  [readUint64] and what calls it shift an
    [int] by up to 56 as soon as eight bytes are there; [readBool] reads the
    byte behind the one it checked; [clearCapacity] leaves the limit above
    the capacity. *)
Definition op_defined (o : op) (b : NBuf) : bool :=
  match o with
  | OpWriteByte _ | OpWriteBool _ | OpReadByte => checked 1 b
  | OpWriteInt16 _ | OpReadInt16 => checked 2 b
  | OpWriteInt32 _ | OpReadUint32 | OpReadInt32 => checked 4 b
  | OpWriteInt64 _ | OpWriteDouble _ => checked 8 b
  | OpWriteRaw src off n => overruns n b || ((_position b + n <=? _limit b) && (off + n <=? zlen src))
  | OpWriteBytes src => checked (_limit src - _position src) b
  | OpReadUint64 | OpReadInt64 | OpReadDouble => overruns 8 b
  | OpReadBool => overruns 1 b || (u32 (_position b + 1) <? zlen (buffer b))
  | OpClearCapacity => _limit b =? 0
  | OpPosition _ | OpLimit _ | OpSkip _ | OpFlip | OpClear | OpRewind | OpCompact => true
  end.

(** What a defined operation leaves: the invariant, a block of the same
    size, and the error flag raised or as it was. *)
Definition op_kept (e : option bool) (b : NBuf) (r : res (NBuf * option bool)) : Prop :=
  exists b' e', r = Ok (b', e') /\ wf b' /\ zlen (buffer b') = zlen (buffer b) /\ (e' = e \/ e' = raise_error e).

(** A checked write of [bs] in one lemma: placed, or refused and flagged. *)
Lemma checked_put b bs n e :
  wf b -> zlen bs = n -> Forall is_byte bs -> _position b + n < 2 ^ 32 ->
  exists b', (if overruns n b then Ok (b, raise_error e)
              else b'' ← put_bytes bs b; Ok (b'', e)) =
             Ok (b', if overruns n b then raise_error e else e) /\ wf b' /\ same_shape b b'.
Proof.
  intros H Hn Hb Hw. wf_facts H. pose proof (zlen_nonneg bs).
  destruct (Z.le_gt_cases (_position b + n) (_limit b)).
  - rewrite overruns_false by (done || lia).
    destruct (put_bytes_spec b bs) as (b' & -> & ? & ? & _); [done|lia|done|]. simpl. eauto.
  - rewrite overruns_true by (done || lia). exists b. split; [done|]. split; [done|]. by repeat split.
Qed.

Lemma read_ones b i :
  wf b -> 0 <= i -> _position b + i < _limit b ->
  exists x, read_one (buffer b) (u32 (_position b + i)) = Ok x /\ is_byte x.
Proof.
  intros H Hi Hl. wf_facts H. rewrite u32_id by lia.
  destruct (read_one_Ok (buffer b) (_position b + i)) as (x & Hx & _); [lia|].
  exists x. split; [done|]. by eapply Forall_read_one.
Qed.

Lemma read_first b : wf b -> _position b < _limit b ->
  exists x, read_one (buffer b) (_position b) = Ok x /\ is_byte x.
Proof.
  intros H Hp. wf_facts H.
  destruct (read_ones b 0) as (x & Hx & ?); [done|lia|lia|].
  rewrite Z.add_0_r, u32_id in Hx by lia. eauto.
Qed.

Lemma wf_advance b n : wf b -> 0 <= n -> _position b + n <= _limit b ->
  wf (set__position (u32 (_position b + n)) b).
Proof. intros H Hn Hl. wf_facts H. rewrite u32_id by lia. apply wf_set_position; [done|lia]. Qed.

(** Advance of a reader: the reads before it succeed. *)
Ltac read_all H :=
  repeat match goal with
  | |- context [read_one (buffer ?b) (u32 (_position ?b + ?i))] =>
      let x := fresh "x" in
      destruct (read_ones b i H) as (x & -> & ?); [lia|lia|simpl]
  | |- context [read_one (buffer ?b) (_position ?b)] =>
      let x := fresh "x" in destruct (read_first b H) as (x & -> & ?); [lia|simpl]
  end.

Lemma u8_bytes xs : Forall is_byte (u8 <$> xs).
Proof. induction xs; simpl; constructor; auto. by apply wrapU_range. Qed.

Ltac u8_all := repeat (apply Forall_cons_2; [by apply wrapU_range|]); apply Forall_nil_2.

(** A test that lets an access pass wrongly: it ends past the last address. *)
Lemma checked_false b n :
  wf b -> 0 <= n < 2 ^ 32 -> checked n b = false -> overruns n b = false /\ 2 ^ 32 <= _position b + n.
Proof.
  intros H Hn Hc. apply orb_false_elim in Hc as [Ho Hl]. split; [done|]. wf_facts H.
  apply Z.leb_gt in Hl. destruct (Z.lt_ge_cases (_position b + n) (2 ^ 32)); [|done].
  rewrite overruns_true in Ho by (done || lia). done.
Qed.

Lemma checked_true b n :
  checked n b = true -> overruns n b = true \/ (overruns n b = false /\ _position b + n <= _limit b).
Proof. unfold checked. destruct (overruns n b); [by left|]. simpl. intros H%Z.leb_le. by right. Qed.

Lemma kept_refused e b : wf b -> op_kept e b (Ok (b, raise_error e)).
Proof. intros H. exists b, (raise_error e). auto. Qed.

Lemma kept_moved e b b' : wf b' -> zlen (buffer b') = zlen (buffer b) -> op_kept e b (Ok (b', e)).
Proof. intros H Hz. exists b', e. auto. Qed.

#[export] Hint Resolve kept_refused kept_moved : nbuf.

(** The writers of fixed width are this step. *)
Lemma put_kept n bs e b :
  wf b -> zlen bs = n -> n < 2 ^ 32 -> Forall is_byte bs ->
  if checked n b then op_kept e b (if overruns n b then Ok (b, raise_error e) else b'' ← put_bytes bs b; Ok (b'', e))
  else (if overruns n b then Ok (b, raise_error e) else b'' ← put_bytes bs b; Ok (b'', e)) = Fault OutOfBounds.
Proof.
  intros H Hn H32 Hb. wf_facts H. pose proof (zlen_nonneg bs). destruct (checked n b) eqn:Hc.
  - destruct (checked_true b n Hc) as [->|[-> Hl]]; [auto with nbuf|].
    destruct (put_bytes_spec b bs) as (b' & -> & ? & (_ & _ & ?) & _); [done|lia|done|]. simpl. auto with nbuf.
  - apply checked_false in Hc as [-> Hl]; [|done|lia]. unfold put_bytes, write_at.
    destruct (in_block (buffer b) (_position b) (zlen bs)) eqn:Ei; [|done]. apply in_block_spec in Ei. lia.
Qed.

(** The readers: moved past what was read, refused, or out of the block. *)
Lemma advance_kept e b n :
  wf b -> 0 <= n -> _position b + n <= _limit b -> op_kept e b (Ok (set__position (u32 (_position b + n)) b, e)).
Proof. intros H Hn Hl. apply kept_moved; [by apply wf_advance|done]. Qed.

Lemma read_one_inv m i x : read_one m i = Ok x -> 0 <= i < zlen m.
Proof.
  unfold read_one. destruct (m !! Z.to_nat i) eqn:E; [|done]. destruct (Z.leb_spec 0 i); [|done].
  intros _. split; [done|]. apply lookup_lt_Some in E. unfold zlen. lia.
Qed.

Lemma read_one_next b i x :
  wf b -> 0 <= i -> _position b + i <= zlen (buffer b) ->
  read_one (buffer b) (u32 (_position b + i)) = Ok x -> _position b + i < zlen (buffer b).
Proof. intros H Hi Hz Hr. wf_facts H. apply read_one_inv in Hr. rewrite u32_id in Hr by lia. lia. Qed.

(** Each read of the chain fails, or shows one more byte of the block. *)
Ltac read_past H :=
  match type of H with wf ?b =>
    repeat match goal with
    | |- context [read_one (buffer b) (u32 (_position b + ?i))] =>
        let E := fresh "E" in destruct (read_one (buffer b) (u32 (_position b + i))) eqn:E;
        [apply (read_one_next b i _ H) in E; [|lia|lia]; simpl|simpl; by eexists]
    | |- context [read_one (buffer b) (_position b)] =>
        let E := fresh "E" in destruct (read_one (buffer b) (_position b)) eqn:E;
        [apply read_one_inv in E; simpl|simpl; by eexists]
    end
  end.

Ltac checked_read H n :=
  match type of H with wf ?b =>
    destruct (checked n b) eqn:Hc;
    [ destruct (checked_true b n Hc) as [->|[-> Hl]]; simpl; [auto with nbuf|];
      read_all H; apply advance_kept; done || lia
    | apply checked_false in Hc as [-> Hl]; [|done|lia]; wf_facts H; read_past H; lia ]
  end.

(** A reader's outcome without the value read. *)
Abbreviation no_value r := ('(_, b', e') ← r; Ok (b', e')).

Lemma readByte_outcome b e :
  wf b -> if checked 1 b then op_kept e b (no_value (readByte e b)) else exists f, no_value (readByte e b) = Fault f.
Proof. intros H. wf_facts H. unfold readByte. checked_read H 1. Qed.

Lemma readInt16_outcome b e :
  wf b -> if checked 2 b then op_kept e b (no_value (readInt16 e b)) else exists f, no_value (readInt16 e b) = Fault f.
Proof. intros H. wf_facts H. unfold readInt16. checked_read H 2. Qed.

Lemma readUint32_outcome b e :
  wf b -> if checked 4 b then op_kept e b (no_value (readUint32 e b)) else exists f, no_value (readUint32 e b) = Fault f.
Proof. intros H. wf_facts H. unfold readUint32. checked_read H 4. Qed.

Lemma readUint64_outcome b e :
  wf b ->
  if overruns 8 b then readUint64 e b = Ok (0, b, raise_error e) else exists f, readUint64 e b = Fault f.
Proof.
  intros H. wf_facts H. unfold readUint64. destruct (overruns 8 b); [done|].
  destruct (read_one (buffer b) (_position b)); simpl; by eexists.
Qed.

Lemma readBool_outcome b e :
  wf b ->
  if overruns 1 b || (u32 (_position b + 1) <? zlen (buffer b)) then op_kept e b (no_value (readBool e b))
  else exists f, no_value (readBool e b) = Fault f.
Proof.
  intros H. wf_facts H. unfold readBool. destruct (overruns 1 b) eqn:Ho; simpl; [auto with nbuf|].
  unfold overruns in Ho. rewrite Z.gtb_ltb in Ho. apply Z.ltb_ge in Ho.
  pose proof (wrapU_range 32 (_position b + 1) ltac:(lia)) as [R0 _].
  destruct (Z.ltb_spec (u32 (_position b + 1)) (zlen (buffer b))).
  - destruct (read_one_Ok (buffer b) (u32 (_position b + 1))) as (x & -> & _); [lia|]. simpl.
    apply kept_moved; [apply wf_set_position; [done|lia]|done].
  - destruct (read_one (buffer b) _) eqn:E; simpl; [|by eexists]. apply read_one_inv in E. lia.
Qed.

Lemma writeBytes_raw_outcome src off n e b :
  wf b -> is_u32 off -> is_u32 n -> Forall is_byte src ->
  if overruns n b || ((_position b + n <=? _limit b) && (off + n <=? zlen src))
  then op_kept e b (writeBytes_raw src off n e b) else exists f, writeBytes_raw src off n e b = Fault f.
Proof.
  intros H [O0 _] [N0 N1] Hb. wf_facts H. unfold writeBytes_raw. rewrite (wf_mode _ H).
  destruct (overruns n b) eqn:Ho; simpl; [auto with nbuf|].
  destruct (Z.leb_spec (off + n) (zlen src)) as [Hs|Hs]; [|rewrite andb_false_r].
  - rewrite andb_true_r, writeBytesInternal_put by lia.
    pose proof (put_kept n (slice src off n) e b H (zlen_slice _ _ _ O0 N0 Hs) N1 (Forall_slice _ _ _ _ Hb)) as P.
    unfold checked in P. rewrite Ho in P. simpl in P. destruct (_position b + n <=? _limit b); [done|]. by eexists.
  - unfold writeBytesInternal, read_at. destruct (in_block src off n) eqn:Ei; [apply in_block_spec in Ei; lia|]. by eexists.
Qed.

Lemma writeBytes_outcome src e b :
  wf b -> wf src ->
  let r := '(b', _, e') ← writeBytes src e b; Ok (b', e') in
  if checked (_limit src - _position src) b then op_kept e b r else exists f, r = Fault f.
Proof.
  intros H Hs. wf_facts H. wf_facts Hs. cbn zeta. unfold writeBytes. rewrite u32_id by lia.
  set (n := _limit src - _position src). split_test.
  { destruct (checked n b) eqn:Hc; [by apply kept_moved|]. destruct (checked_false b n H ltac:(lia) Hc). lia. }
  rewrite (wf_mode _ H), writeBytesInternal_put by (unfold position, bytes; lia).
  pose proof (put_kept n (contents src) e b H (zlen_contents _ Hs) ltac:(lia) (contents_bytes _ Hs)) as P.
  unfold position, bytes. change (slice (buffer src) (_position src) n) with (contents src).
  destruct (overruns n b); [by destruct (checked n b)|].
  destruct (put_bytes (contents src) b) as [b'|f]; simpl in P |- *; destruct (checked n b); done || by eexists.
Qed.

Lemma compact_outcome e b : wf b -> op_kept e b (b' ← compact b; Ok (b', e)).
Proof.
  intros H. wf_facts H. destruct (Z.eq_dec (_position b) (_limit b)) as [E|E].
  - unfold compact. rewrite E, Z.eqb_refl. simpl. auto with nbuf.
  - destruct (compact_spec b H) as (b' & -> & ? & _ & ? & _); [lia|]. simpl. auto with nbuf.
Qed.

Lemma wf_skip b n : wf b -> is_u32 n -> wf (skip n b).
Proof.
  intros H Hn. unfold skip. rewrite (wf_mode _ H).
  destruct (Z.gtb_spec (u32 (_position b + n)) (_limit b)); [done|].
  pose proof (wrapU_range 32 (_position b + n) ltac:(lia)) as [? _]. apply wf_set_position; [done|lia].
Qed.

Lemma wf_flip b : wf b -> wf (flip b).
Proof. intros H. wf_facts H. constructor; simpl; auto; lia. Qed.

Lemma wf_clear b : wf b -> wf (clear b).
Proof. intros H. wf_facts H. constructor; simpl; auto; lia. Qed.

Lemma wf_rewind b : wf b -> wf (rewind b).
Proof. intros H. wf_facts H. constructor; simpl; auto; lia. Qed.

Lemma clearCapacity_outcome e b :
  wf b -> if _limit b =? 0 then op_kept e b (Ok (clearCapacity b, e)) else _capacity (clearCapacity b) < _limit (clearCapacity b).
Proof.
  intros H. wf_facts H. pose proof (zlen_nonneg (buffer b)). destruct (Z.eqb_spec (_limit b) 0); simpl; [|lia].
  apply kept_moved; [constructor; simpl; auto; lia|done].
Qed.

#[export] Hint Resolve wf_position_to wf_limit_to wf_skip wf_flip wf_clear wf_rewind compact_outcome : nbuf.

Lemma buffer_position_to p b : buffer (position_to p b) = buffer b.
Proof. unfold position_to. by case_match. Qed.
Lemma buffer_limit_to l b : buffer (limit_to l b) = buffer b.
Proof. unfold limit_to. by repeat case_match. Qed.
Lemma buffer_skip n b : buffer (skip n b) = buffer b.
Proof. unfold skip. by repeat case_match. Qed.

(** What happens outside of [op_defined]: the limit is left above the
    capacity, or the operation faults. *)
Definition op_breaks (o : op) (e : option bool) (b : NBuf) : Prop :=
  match o with
  | OpClearCapacity => exists b', exec_op o e b = Ok (b', e) /\ _capacity b' < _limit b'
  | _ => exists f, exec_op o e b = Fault f
  end.

Lemma fixed_width n bs e b :
  wf b -> zlen bs = n -> n < 2 ^ 32 -> Forall is_byte bs ->
  let r := if overruns n b then Ok (b, raise_error e) else b'' ← put_bytes bs b; Ok (b'', e) in
  if checked n b then op_kept e b r else exists f, r = Fault f.
Proof. intros. pose proof (put_kept n bs e b) as P. destruct (checked n b); [auto|]. eauto. Qed.

Lemma readers64 e b (r : res (Z * NBuf * option bool)) :
  wf b -> (if overruns 8 b then r = Ok (0, b, raise_error e) else exists f, r = Fault f) ->
  if overruns 8 b then op_kept e b (no_value r) else exists f, no_value r = Fault f.
Proof. intros H. destruct (overruns 8 b); [intros ->; simpl; auto with nbuf|]. intros [x ->]. by eexists. Qed.

(** C36: on a well-formed buffer every cursor operation, reader and writer,
    with or without an error pointer, either is defined, and then it returns,
    keeps the invariant (position <= limit <= capacity <= block size < 2^32,
    all bytes in range) and the size of the block, and raises or leaves the
    error flag; or it faults, or leaves the limit above the capacity, and
    [op_defined] tells which, from the cursors and the arguments alone. *)
Theorem buffer_operations_safe o e b :
  wf b -> op_typed o -> if op_defined o b then op_kept e b (exec_op o e b) else op_breaks o e b.
Proof.
  intros H Ho. pose proof (readUint64_outcome b e H) as R8. destruct o; simpl in Ho |- *;
    unfold writeDouble, writeInt64, writeInt32, writeInt16, writeBool, writeByte, op_breaks;
    rewrite ?(wf_mode _ H); auto with nbuf;
    try (by apply readByte_outcome); try (by apply readInt16_outcome); try (by apply readUint32_outcome);
    try (by apply readBool_outcome); try (by apply writeBytes_outcome);
    try (apply fixed_width; [done|done|done|u8_all]).
  - apply kept_moved; [destruct Ho; auto with nbuf|by rewrite buffer_position_to].
  - apply kept_moved; [destruct Ho; auto with nbuf|by rewrite buffer_limit_to].
  - pose proof (clearCapacity_outcome e b H). destruct (_limit b =? 0); [done|]. eauto.
  - apply kept_moved; [auto with nbuf|by rewrite buffer_skip].
  - destruct x; (apply fixed_width; [done|done|done|u8_all]).
  - destruct Ho as (? & ? & ?). by apply writeBytes_raw_outcome.
  - pose proof (readUint32_outcome b e H) as R. unfold readInt32. by destruct (readUint32 e b) as [[[? ?] ?]|].
  - by apply readers64.
  - apply readers64; [done|]. unfold readInt64. destruct (overruns 8 b); [by rewrite R8|]. destruct R8 as [f ->]. by exists f.
  - apply readers64; [done|]. unfold readDouble, readInt64.
    destruct (overruns 8 b); [by rewrite R8|]. destruct R8 as [f ->]. by exists f.
Qed.

(** A concrete buffer for the examples: [n] zero bytes, everything writable. *)
Definition blank (n : nat) : NBuf :=
  mkNBuf (replicate n 0) 0 (Z.of_nat n) (Z.of_nat n) false true JavaNull.

Lemma wf_blank n : Z.of_nat n < 2 ^ 32 -> wf (blank n).
Proof.
  intros Hn. assert (zlen (replicate n 0) = Z.of_nat n) by (unfold zlen; by rewrite length_replicate).
  constructor; simpl; auto; try lia. apply Forall_replicate. done.
Qed.

Lemma buffer_operations_safe_witness :
  op_kept (Some false) (blank 4) (exec_op (OpWriteRaw [1; 2; 3] 1 2) (Some false) (blank 4)) /\
  op_kept (Some false) (blank 4) (exec_op OpReadUint64 (Some false) (blank 4)) /\
  op_breaks OpReadDouble None (blank 9).
Proof.
  split; [|split].
  - apply (buffer_operations_safe (OpWriteRaw [1; 2; 3] 1 2) (Some false) (blank 4)); [by apply wf_blank|].
    simpl. repeat split; try done. repeat constructor; done.
  - by apply (buffer_operations_safe OpReadUint64 (Some false) (blank 4)); [apply wf_blank|].
  - by apply (buffer_operations_safe OpReadDouble None (blank 9)); [apply wf_blank|].
Defined.

(** ** Round trips *)

(** What a reader finds [i] bytes behind the place where [bs] was put. *)
Lemma read_back b bs k x :
  wf b -> _position b + zlen bs <= _limit b -> 0 <= k -> bs !! Z.to_nat k = Some x ->
  read_one (splice (buffer b) (_position b) bs) (u32 (_position b + k)) = Ok x.
Proof.
  intros H Hf Hk Hx. wf_facts H. assert (Z.to_nat k < length bs)%nat by (by eapply lookup_lt_Some).
  unfold zlen in Hf. rewrite u32_id by lia. rewrite <- (Z2Nat.id k) by lia.
  apply read_one_splice; unfold zlen in *; (lia || done).
Qed.

Lemma read_back_0 b bs x :
  wf b -> _position b + zlen bs <= _limit b -> bs !! 0%nat = Some x ->
  read_one (splice (buffer b) (_position b) bs) (_position b) = Ok x.
Proof.
  intros H Hf Hx. wf_facts H. pose proof (read_back b bs 0 x H Hf ltac:(lia) Hx) as R.
  pose proof (zlen_nonneg bs). by rewrite Z.add_0_r, u32_id in R by lia.
Qed.

Lemma int32_of_bytes x :
  Z.lor (Z.lor (Z.lor (u32 (Z.shiftl (Z.land (u8 (Z.shiftr x 24)) 255) 24))
     (Z.shiftl (Z.land (u8 (Z.shiftr x 16)) 255) 16))
     (Z.shiftl (Z.land (u8 (Z.shiftr x 8)) 255) 8)) (Z.land (u8 x) 255) = u32 x.
Proof.
  rewrite !land_255 by (by apply wrapU_range).
  pose proof (wrapU_range 8 (Z.shiftr x 24) ltac:(lia)) as H3.
  pose proof (wrapU_range 8 (Z.shiftr x 16) ltac:(lia)) as H2.
  pose proof (wrapU_range 8 (Z.shiftr x 8) ltac:(lia)) as H1.
  pose proof (wrapU_range 8 x ltac:(lia)) as H0. unfold is_u in *.
  pose proof (be_value_be_bytes 4 x) as B. simpl be_bytes in B.
  change (8 * Z.of_nat 3) with 24 in B. change (8 * Z.of_nat 2) with 16 in B.
  change (8 * Z.of_nat 1) with 8 in B. change (8 * Z.of_nat 0) with 0 in B.
  rewrite Z.shiftr_0_r, be_value_4 in B. change (x mod 2 ^ (8 * Z.of_nat 4)) with (u32 x) in B.
  rewrite <- B. clear B.
  revert H0 H1 H2 H3.
  generalize (u8 (Z.shiftr x 24)), (u8 (Z.shiftr x 16)), (u8 (Z.shiftr x 8)), (u8 x).
  intros a b c d Hd Hc Hb Ha. rewrite !Z.shiftl_mul_pow2 by lia. rewrite u32_id by lia.
  rewrite (lor_mul_add (b * 2 ^ 16) a 24) by lia.
  replace (a * 2 ^ 24 + b * 2 ^ 16) with ((a * 2 ^ 8 + b) * 2 ^ 16) by lia.
  rewrite (lor_mul_add (c * 2 ^ 8) _ 16) by lia.
  replace ((a * 2 ^ 8 + b) * 2 ^ 16 + c * 2 ^ 8) with (((a * 2 ^ 8 + b) * 2 ^ 8 + c) * 2 ^ 8) by lia.
  apply lor_mul_add; lia.
Qed.

Lemma int16_of_bytes x :
  u16 (Z.lor (u16 (Z.shiftl (Z.land (u8 (Z.shiftr x 8)) 255) 8)) (Z.land (u8 x) 255)) = u16 x.
Proof.
  rewrite !land_255 by (by apply wrapU_range).
  pose proof (wrapU_range 8 (Z.shiftr x 8) ltac:(lia)) as H1.
  pose proof (wrapU_range 8 x ltac:(lia)) as H0. unfold is_u in *.
  pose proof (be_value_be_bytes 2 x) as B. simpl be_bytes in B.
  change (8 * Z.of_nat 1) with 8 in B. change (8 * Z.of_nat 0) with 0 in B.
  rewrite Z.shiftr_0_r, be_value_2 in B. change (x mod 2 ^ (8 * Z.of_nat 2)) with (u16 x) in B.
  rewrite Z.shiftl_mul_pow2, (wrapU_id 16 (_ * _)), lor_mul_add, B by (unfold is_u; lia).
  apply wrapU_id, wrapU_range. lia.
Qed.

(** An [int32_t] written with [writeInt32] is read back by [readInt32]
    from the same position, both leave the position 4 bytes further and no
    error is raised. *)
Lemma writeInt32_readInt32 x e b :
  wf b -> is_s 32 x -> _position b + 4 <= _limit b ->
  exists b', writeInt32 x e b = Ok (b', e) /\ _position b' = _position b + 4 /\
    readInt32 e (position_to (_position b) b') = Ok (x, b', e).
Proof.
  intros H Hx Hf. wf_facts H. unfold writeInt32. rewrite (wf_mode _ H), overruns_false by (done || lia).
  set (bs := [_; _; _; _]).
  destruct (put_bytes_spec b bs) as (b' & E & Hw & (Hl & _) & Hp & Hm);
    [done|done|apply (u8_bytes [_; _; _; _])|].
  rewrite E. exists b'. split; [done|]. split; [done|].
  unfold position_to. rewrite Hl, Z.gtb_ltb.
  destruct (Z.ltb_spec (_limit b) (_position b)) as [|_]; [lia|].
  unfold readInt32, readUint32, overruns. simpl. rewrite Hl, u32_id, Z.gtb_ltb by lia.
  destruct (Z.ltb_spec (_limit b) (_position b + 4)) as [|_]; [lia|]. rewrite Hm.
  rewrite (read_back_0 b bs (u8 (Z.shiftr x 24))), (read_back b bs 1 (u8 (Z.shiftr x 16))),
    (read_back b bs 2 (u8 (Z.shiftr x 8))), (read_back b bs 3 (u8 x)) by done. simpl.
  rewrite int32_of_bytes, wrapS_wrapU, wrapS_id by (done || lia). do 3 f_equal.
  change (zlen bs) with 4 in Hp. rewrite <- Hp. by destruct b'.
Qed.

Lemma writeInt16_readInt16 x e b :
  wf b -> _position b + 2 <= _limit b ->
  exists b', writeInt16 x e b = Ok (b', e) /\ _position b' = _position b + 2 /\
    readInt16 e (position_to (_position b) b') = Ok (u16 x, b', e).
Proof.
  intros H Hf. wf_facts H. unfold writeInt16. rewrite (wf_mode _ H), overruns_false by (done || lia).
  set (bs := [_; _]).
  destruct (put_bytes_spec b bs) as (b' & E & Hw & (Hl & _) & Hp & Hm);
    [done|done|apply (u8_bytes [_; _])|].
  rewrite E. exists b'. split; [done|]. split; [done|].
  unfold position_to. rewrite Hl, Z.gtb_ltb.
  destruct (Z.ltb_spec (_limit b) (_position b)) as [|_]; [lia|].
  unfold readInt16, overruns. simpl. rewrite Hl, u32_id, Z.gtb_ltb by lia.
  destruct (Z.ltb_spec (_limit b) (_position b + 2)) as [|_]; [lia|]. rewrite Hm.
  rewrite (read_back_0 b bs (u8 (Z.shiftr x 8))), (read_back b bs 1 (u8 x)) by done. simpl.
  rewrite int16_of_bytes. do 3 f_equal.
  change (zlen bs) with 2 in Hp. rewrite <- Hp. by destruct b'.
Qed.

(** [readInt64] is undefined whenever eight bytes are available: the
    bytes are shifted by 32 and more at type [int]. *)
Lemma readInt64_undefined e b :
  wf b -> _position b + 8 <= _limit b -> readInt64 e b = Fault ShiftOutOfRange.
Proof.
  intros H Hf. unfold readInt64, readUint64. rewrite overruns_false by (done || lia).
  destruct (read_first b H) as (x & -> & _); [lia|]. done.
Qed.

(** [readBool] returns the byte behind the one the position is on: of
    two booleans written one after the other, reading the first gives the
    second. *)
Lemma readBool_reads_next v w b :
  wf b -> _position b + 2 <= _limit b ->
  exists b1 b2 b3, writeBool v None b = Ok (b1, None) /\ writeBool w None b1 = Ok (b2, None) /\
    readBool None (position_to (_position b) b2) = Ok (w, b3, None).
Proof.
  intros H Hf. wf_facts H.
  assert (W : forall c x, wf c -> _position c + 1 <= _limit c ->
    exists c', writeBool x None c = Ok (c', None) /\ wf c' /\ same_shape c c' /\
      _position c' = _position c + 1 /\
      buffer c' = splice (buffer c) (_position c) [if x : bool then 1 else 0]).
  { intros c x Hc Hx. unfold writeBool, writeByte. rewrite !(wf_mode _ Hc), overruns_false by (done || lia).
    destruct x.
    - destruct (put_bytes_spec c [u8 1]) as (c' & -> & ? & ? & ? & ?); [done..|apply (u8_bytes [1])|].
      simpl. eauto 10.
    - destruct (put_bytes_spec c [u8 0]) as (c' & -> & ? & ? & ? & ?); [done..|apply (u8_bytes [0])|].
      simpl. eauto 10. }
  destruct (W b v) as (b1 & E1 & Hb1 & (L1 & _ & Z1) & P1 & M1); [done|lia|].
  destruct (W b1 w) as (b2 & E2 & Hb2 & (L2 & _ & Z2) & P2 & M2); [done|lia|].
  exists b1, b2. eexists. split; [done|]. split; [done|].
  unfold position_to. rewrite L2, L1, Z.gtb_ltb.
  destruct (Z.ltb_spec (_limit b) (_position b)) as [|_]; [lia|].
  unfold readBool, overruns. simpl. rewrite L2, L1, u32_id, Z.gtb_ltb by lia.
  destruct (Z.ltb_spec (_limit b) (_position b + 1)) as [|_]; [lia|].
  rewrite M2, <- P1.
  pose proof (read_one_splice (buffer b1) (_position b1) [if w : bool then 1 else 0] 0 _
    ltac:(lia) ltac:(change (zlen [_]) with 1; lia) eq_refl) as R.
  simpl Z.of_nat in R. rewrite Z.add_0_r in R. rewrite R. simpl. by destruct w.
Qed.

(** The bounds test of [writeBytes] is done in [uint32_t]: a length that
    wraps the sum around to at most the limit passes it, and the copy then
    runs outside of a block. *)
Lemma writeBytes_wraps src off n e b :
  wf b -> is_u32 n -> 2 ^ 32 <= _position b + n -> _position b + n - 2 ^ 32 <= _limit b ->
  writeBytes_raw src off n e b = Fault OutOfBounds.
Proof.
  intros H [Hn0 Hn1] Hw Hl. wf_facts H. unfold writeBytes_raw, overruns. rewrite (wf_mode _ H).
  assert (u32 (_position b + n) = _position b + n - 2 ^ 32) as ->.
  { unfold wrapU. symmetry. apply Z.mod_unique_pos with 1; lia. }
  rewrite Z.gtb_ltb. destruct (Z.ltb_spec (_limit b) (_position b + n - 2 ^ 32)) as [|_]; [lia|].
  unfold writeBytesInternal, read_at. destruct (in_block src off n) eqn:E; [|done].
  apply in_block_spec in E. simpl. unfold write_at. rewrite zlen_slice by lia.
  destruct (in_block (buffer b) (_position b) n) eqn:E2; [|done]. apply in_block_spec in E2. lia.
Qed.

(** ** The size-only mode *)

(** What the writers of the serializers add to the computed size. *)
Definition counted (o : op) : Z :=
  match o with
  | OpWriteByte _ | OpWriteBool _ => 1
  | OpWriteInt32 _ => 4
  | OpWriteInt64 _ | OpWriteDouble _ => 8
  | OpWriteRaw _ _ n => n
  | OpSkip n => n
  | _ => 0
  end.

Definition is_writer (o : op) : bool :=
  match o with
  | OpWriteByte _ | OpWriteBool _ | OpWriteInt16 _ | OpWriteInt32 _ | OpWriteInt64 _
  | OpWriteDouble _ | OpWriteRaw _ _ _ | OpSkip _ => true
  | _ => false
  end.

Definition exec_ops (os : list op) (b : NBuf) : res NBuf :=
  fold_left (fun r o => c ← r; fst <$> exec_op o None c) os (Ok b).

(** In "calculate size only" mode a sequence of writes leaves the sum of
    the sizes in the capacity, except that a 16-bit write adds to the
    position and is not counted. *)
Lemma calculated_size os :
  Forall is_writer os ->
  exists b, exec_ops os (NativeByteBuffer_calc true) = Ok b /\
    _capacity b = u32 (foldr Z.add 0 (counted <$> os)).
Proof.
  intros Hos. cut (exists b, exec_ops os (NativeByteBuffer_calc true) = Ok b /\
    calculateSizeOnly b = true /\ _capacity b = u32 (foldr Z.add 0 (counted <$> os))).
  { intros (b & ? & _ & ?). eauto. }
  induction os as [|o os IH] using rev_ind; [eexists; done|].
  apply Forall_app in Hos as [H1 H2]. destruct IH as (b & E & Hm & Hc); [done|].
  unfold exec_ops in *. rewrite fold_left_app. rewrite E. simpl.
  assert (S : foldr Z.add 0 (counted <$> os ++ [o]) = foldr Z.add 0 (counted <$> os) + counted o).
  { rewrite fmap_app, foldr_app. csimpl. generalize (counted o); clear.
    induction os as [|a os IH]; intros z; csimpl; [lia|]. rewrite IH. lia. }
  assert (A : forall n, u32 (_capacity b + n) = u32 (foldr Z.add 0 (counted <$> os) + n)).
  { intros n. rewrite Hc. unfold wrapU. by rewrite Zplus_mod_idemp_l. }
  rewrite S. inversion H2 as [|? ? Ho _]; subst. clear S.
  destruct o; simpl in Ho |- *; try done;
    unfold writeByte, writeInt16, writeInt32, writeDouble, writeInt64, writeBool, writeBytes_raw, skip;
    rewrite Hm; simpl; (eexists; split; [reflexivity|]); simpl; auto.
  rewrite Z.add_0_r. auto.
Qed.
