(* ===== verification/BufferStorage.v ===== *)
(** * BufferStorage: the pool of byte buffers

    Models [src/fastsocks/cpp/tcp/BufferStorage.{h,cpp}] and
    [NativeByteBuffer::reuse].  The buffers live in a heap indexed by their
    addresses, so that two owners of one address share one buffer; a deleted
    buffer has left the heap and touching it is the fault [UseAfterFree].
    The mutex makes each of the two operations atomic; their bodies are
    modelled as one step of the pool's state. *)

From S2P Require Import Prelude.
From S2P Require Import NativeByteBuffer.

Abbreviation addr := positive.

(** The seven free lists, named after the fields of the class. *)
Inductive size_class : Type := Free8 | Free128 | Free1024 | Free4k | Free16k | Free32k | Free128k.

#[export] Instance size_class_eq_dec : EqDecision size_class.
Proof. solve_decision. Defined.

Record Storage : Type := mkStorage {
  heap : gmap addr NBuf;
  next_addr : addr;
  freeBuffers8 : list addr;
  freeBuffers128 : list addr;
  freeBuffers1024 : list addr;
  freeBuffers4k : list addr;
  freeBuffers16k : list addr;
  freeBuffers32k : list addr;
  freeBuffers128k : list addr;
  isThreadSafe : bool
}.

Definition free_list (c : size_class) (s : Storage) : list addr :=
  match c with
  | Free8 => freeBuffers8 s | Free128 => freeBuffers128 s | Free1024 => freeBuffers1024 s
  | Free4k => freeBuffers4k s | Free16k => freeBuffers16k s | Free32k => freeBuffers32k s
  | Free128k => freeBuffers128k s
  end.

Definition set_free_list (c : size_class) (l : list addr) (s : Storage) : Storage :=
  let pick d := if decide (c = d) then l else free_list d s in
  mkStorage (heap s) (next_addr s) (pick Free8) (pick Free128) (pick Free1024) (pick Free4k)
    (pick Free16k) (pick Free32k) (pick Free128k) (isThreadSafe s).

Definition set_heap (h : gmap addr NBuf) (s : Storage) : Storage :=
  mkStorage h (next_addr s) (freeBuffers8 s) (freeBuffers128 s) (freeBuffers1024 s)
    (freeBuffers4k s) (freeBuffers16k s) (freeBuffers32k s) (freeBuffers128k s) (isThreadSafe s).

Definition set_next_addr (p : addr) (s : Storage) : Storage :=
  mkStorage (heap s) p (freeBuffers8 s) (freeBuffers128 s) (freeBuffers1024 s)
    (freeBuffers4k s) (freeBuffers16k s) (freeBuffers32k s) (freeBuffers128k s) (isThreadSafe s).

(** The size tests shared by [getBuffer] and [reuseFreeBuffer]. *)
Definition class_of (size : Z) : option size_class :=
  if size <=? 8 then Some Free8
  else if size <=? 128 then Some Free128
  else if size <=? 1024 + 200 then Some Free1024
  else if size <=? 4 * 1024 + 200 then Some Free4k
  else if size <=? 16 * 1024 + 200 then Some Free16k
  else if size <=? 32 * 1024 + 200 then Some Free32k
  else if size <=? 128 * 1024 + 200 then Some Free128k
  else None.

(** [byteCount] of [getBuffer]. *)
Definition byteCount (c : size_class) : Z :=
  match c with
  | Free8 => 8 | Free128 => 128 | Free1024 => 1024 + 200 | Free4k => 4 * 1024 + 200
  | Free16k => 16 * 1024 + 200 | Free32k => 32 * 1024 + 200 | Free128k => 128 * 1024 + 200
  end.

(** [maxSize] of [reuseFreeBuffer]. *)
Definition maxSize (c : size_class) : Z :=
  match c with Free8 | Free128 => 80 | _ => 10 end.

(** ** Access to the buffers of the heap *)

Definition deref (p : addr) : SR Storage NBuf := fun s =>
  match heap s !! p with Some b => Ok (b, s) | None => Fault UseAfterFree end.

Definition store (p : addr) (b : NBuf) : SR Storage unit :=
  modify (fun s => set_heap (<[p := b]> (heap s)) s).

(** A method call on the buffer at [p]. *)
Definition update_buf (p : addr) (f : NBuf -> res NBuf) : SR Storage unit :=
  b ← deref p; b' ← lift_res (f b); store p b'.

(** [delete buffer] *)
Definition delete_buf (p : addr) : SR Storage unit :=
  b ← deref p; modify (fun s => set_heap (delete p (heap s)) s).

(** [this->writeBytes(src)]: the two buffers may be the same object. *)
Definition writeBytes_heap (dst src : addr) : SR Storage unit :=
  if decide (dst = src) then
    b ← deref dst;
    let n := u32 (_limit b - _position b) in
    if n <=? 0 then mret tt
    else if calculateSizeOnly b then store dst (set__capacity (u32 (_capacity b + n)) b)
    else if overruns n b then mret tt
    else b' ← lift_res (writeBytesInternal (bytes b) (position b) n b);
         store dst (position_to (limit b') b')
  else
    s ← deref src; d ← deref dst;
    r ← lift_res (writeBytes s None d);
    store dst r.1.1;; store src r.1.2.

(** The logging macros evaluate their arguments in every build: the last
    branch of [reuseFreeBuffer] reads [buffer->capacity()] after the delete. *)
Definition log_capacity (p : addr) : SR Storage unit := b ← deref p; mret tt.

Section Pool.
Context {J : Jni}.

(** [new NativeByteBuffer(size)] *)
Definition new_buf (size : Z) : SR Storage addr :=
  b ← lift_res (NativeByteBuffer_new size);
  p ← gets next_addr;
  modify (fun s => set_next_addr (Pos.succ p) (set_heap (<[p := b]> (heap s)) s));;
  mret p.

Definition take_or_new (c : size_class) : SR Storage addr :=
  l ← gets (free_list c);
  match l with
  | p :: l' => modify (set_free_list c l');; mret p
  | [] => new_buf (byteCount c)
  end.

Definition getBuffer (size : Z) : SR Storage addr :=
  p ← (match class_of size with
       | Some c => take_or_new c
       | None => new_buf size
       end);
  update_buf p (fun b => Ok (limit_to size b));;
  update_buf p (fun b => Ok (rewind b));;
  mret p.

Definition reuseFreeBuffer (p : option addr) : SR Storage unit :=
  match p with
  | None => mret tt
  | Some p =>
      b ← deref p;
      match class_of (capacity b) with
      | Some c =>
          l ← gets (free_list c);
          if zlen l <? maxSize c then modify (set_free_list c (l ++ [p]))
          else delete_buf p
      | None => delete_buf p;; log_capacity p
      end
  end.

(** [NativeByteBuffer::reuse] *)
Definition reuse (p : addr) : SR Storage unit := reuseFreeBuffer (Some p).

Fixpoint push_new (n : nat) (c : size_class) : SR Storage unit :=
  match n with
  | O => mret tt
  | S m =>
      p ← new_buf (byteCount c);
      l ← gets (free_list c);
      modify (set_free_list c (l ++ [p]));;
      push_new m c
  end.

(** The constructor fills two free lists with five buffers each. *)
Definition BufferStorage_new (threadSafe : bool) : res Storage :=
  '(_, s) ← (push_new 5 Free8;; push_new 5 Free128)
             (mkStorage ∅ 1%positive [] [] [] [] [] [] [] threadSafe);
  Ok s.
End Pool.

(** ** The pool invariant *)

(** Every address of a free list is a well-formed buffer of exactly that
    list's capacity, listed once, and the lists stay within their maximum. *)
Record pool_wf (s : Storage) : Prop := {
  pw_fresh : forall p, is_Some (heap s !! p) -> (p < next_addr s)%positive;
  pw_nodup : forall c, NoDup (free_list c s);
  pw_class : forall c p, p ∈ free_list c s ->
    exists b, heap s !! p = Some b /\ wf b /\ _capacity b = byteCount c;
  pw_len : forall c, zlen (free_list c s) <= maxSize c
}.

(** [p] is a live buffer that is in no free list: somebody holds it. *)
Definition owned (s : Storage) (p : addr) : Prop :=
  is_Some (heap s !! p) /\ forall c, p ∉ free_list c s.

(** A buffer as [getBuffer] makes them. *)
Definition pool_capacity (b : NBuf) : Prop :=
  match class_of (_capacity b) with Some c => _capacity b = byteCount c | None => True end.

Lemma free_list_set c d l s :
  free_list d (set_free_list c l s) = if decide (c = d) then l else free_list d s.
Proof. by destruct d. Qed.

Lemma heap_set_free_list c l s : heap (set_free_list c l s) = heap s.
Proof. done. Qed.

Lemma free_list_set_heap c h s : free_list c (set_heap h s) = free_list c s.
Proof. by destruct c. Qed.

Lemma free_list_set_next c p s : free_list c (set_next_addr p s) = free_list c s.
Proof. by destruct c. Qed.

Lemma class_of_byteCount c : class_of (byteCount c) = Some c.
Proof. by destruct c. Qed.

Lemma byteCount_inj c d : byteCount c = byteCount d -> c = d.
Proof. by destruct c, d. Qed.

Lemma class_of_fits size c : class_of size = Some c -> size <= byteCount c.
Proof.
  unfold class_of. repeat split_test; intros [= <-]; simpl; lia.
Qed.

Lemma class_of_big size : class_of size = None -> 128 * 1024 + 200 < size.
Proof. unfold class_of. repeat split_test; intros; (done || lia). Qed.

Lemma byteCount_bound c : 8 <= byteCount c <= 128 * 1024 + 200.
Proof. destruct c; simpl; lia. Qed.

Lemma maxSize_pos c : 0 < maxSize c.
Proof. by destruct c. Qed.

Create Rewrite HintDb pool.
#[export] Hint Rewrite free_list_set free_list_set_heap free_list_set_next heap_set_free_list : pool.

(** Changing an owned buffer in place keeps the pool. *)
Lemma pool_wf_insert s p b :
  pool_wf s -> owned s p -> pool_wf (set_heap (<[p := b]> (heap s)) s).
Proof.
  intros [F N C L] [Hp Hq]. constructor.
  - intros q. simpl. destruct (decide (p = q)) as [<-|Hne]; [auto|].
    rewrite lookup_insert_ne by done. apply F.
  - intros c. rewrite free_list_set_heap. apply N.
  - intros c q. rewrite free_list_set_heap. intros Hin. simpl.
    rewrite lookup_insert_ne by (intros ->; by apply (Hq c)). by apply C.
  - intros c. rewrite free_list_set_heap. apply L.
Qed.

Lemma owned_insert s p b q : owned s q -> owned (set_heap (<[p := b]> (heap s)) s) q.
Proof.
  intros [Hq Hf]. split.
  - simpl. destruct (decide (p = q)) as [<-|Hne]; [by rewrite lookup_insert_eq|].
    by rewrite lookup_insert_ne.
  - intros c. rewrite free_list_set_heap. apply Hf.
Qed.

Section PoolLemmas.
Context {J : Jni} {B : JniBlocks J}.

(** A [uint32_t] that is not negative as a [jint] is the same number. *)
Lemma jint_size size : is_u32 size -> 0 <= i32 size -> i32 size = size.
Proof.
  intros [H0 H1] Hn. destruct (Z.lt_ge_cases size (2 ^ 31)); [apply wrapS_id; unfold is_s; lia|].
  assert (E : size - 2 ^ 31 = (size + 2 ^ (32 - 1)) mod 2 ^ 32) by (apply Z.mod_unique_pos with 1; lia).
  unfold wrapS in Hn. rewrite <- E in Hn. lia.
Qed.

Lemma NativeByteBuffer_new_shape size b :
  is_u32 size -> NativeByteBuffer_new size = Ok b ->
  wf b /\ _capacity b = size /\ _limit b = size /\ _position b = 0.
Proof.
  intros Hz. unfold NativeByteBuffer_new. pose proof Hz as [H0 H1].
  destruct jclass_ByteBuffer; [destruct GetEnv; [|done]|].
  - destruct (allocateDirect (i32 size)) as [blk|] eqn:E; [|done]. intros [= <-].
    destruct (allocateDirect_block _ _ E) as (Hs & Hl & Hb). rewrite jint_size in Hl by done.
    repeat split; simpl; auto; lia.
  - destruct (new_uint8 size) as [blk|] eqn:E; [|done]. intros [= <-].
    destruct (new_uint8_block _ _ H0 E). repeat split; simpl; auto; lia.
Qed.

(** Memory for one more buffer of that size. *)
Definition allocates (size : Z) : Prop := exists b, NativeByteBuffer_new size = Ok b.

Lemma allocates_or_exit size : allocates size \/ NativeByteBuffer_new size = Fault ProcessExit.
Proof. unfold allocates, NativeByteBuffer_new. repeat case_match; eauto. Qed.

(** What a client of [getBuffer] may rely on. *)
Definition fresh_from (s : Storage) (p : addr) (s' : Storage) : Prop :=
  pool_wf s' /\ ~ owned s p /\ owned s' p /\
  (forall q, owned s q -> owned s' q /\ heap s' !! q = heap s !! q).

Lemma new_buf_spec size s :
  pool_wf s -> is_u32 size -> allocates size ->
  exists p b s', new_buf size s = Ok (p, s') /\ fresh_from s p s' /\ heap s' !! p = Some b /\
    wf b /\ _capacity b = size.
Proof.
  intros [F N C Ln] Hz [b Hb]. destruct (NativeByteBuffer_new_shape size b Hz Hb) as (Hw & Hc & _).
  assert (Hn : heap s !! next_addr s = None).
  { destruct (heap s !! next_addr s) eqn:E; [|done]. specialize (F (next_addr s)). rewrite E in F.
    specialize (F ltac:(eauto)). lia. }
  unfold new_buf. unfold mbind, SR_bind, lift_res. rewrite Hb. simpl.
  exists (next_addr s), b. eexists. split; [reflexivity|].
  assert (Hf : forall c, next_addr s ∉ free_list c s).
  { intros c Hin. destruct (C c _ Hin) as (? & ? & _). congruence. }
  split; [|simpl; rewrite lookup_insert_eq; auto]. split; [|split; [|split]].
  - constructor; simpl.
    + intros q. destruct (decide (next_addr s = q)) as [<-|]; [intros _; lia|].
      rewrite lookup_insert_ne by done. intros Hq. apply F in Hq. lia.
    + intros c. rewrite free_list_set_next, free_list_set_heap. apply N.
    + intros c q. rewrite free_list_set_next, free_list_set_heap. intros Hin.
      rewrite lookup_insert_ne by (intros <-; by apply (Hf c)). by apply C.
    + intros c. rewrite free_list_set_next, free_list_set_heap. apply Ln.
  - intros [[? E] _]. congruence.
  - split; simpl; [by rewrite lookup_insert_eq|].
    intros c. rewrite free_list_set_next, free_list_set_heap. apply Hf.
  - intros q [[x Hx] Hq]. simpl. rewrite lookup_insert_ne by congruence. split; [|done]. split.
    + simpl. rewrite lookup_insert_ne by congruence. eauto.
    + intros c. rewrite free_list_set_next, free_list_set_heap. apply Hq.
Qed.

Lemma take_or_new_spec c s :
  pool_wf s -> (free_list c s = [] -> allocates (byteCount c)) -> exists p b s', take_or_new c s = Ok (p, s') /\ fresh_from s p s' /\
    heap s' !! p = Some b /\ wf b /\ _capacity b = byteCount c.
Proof.
  intros Hs Ha. pose proof (byteCount_bound c). unfold take_or_new. rewrite (bind_Ok _ _ s (free_list c s) s) by done.
  destruct (free_list c s) as [|p l] eqn:E.
  { apply new_buf_spec; [done|unfold is_u; lia|by apply Ha]. }
  destruct Hs as [F N C Ln]. destruct (C c p) as (b & Hb & Hw & Hcap); [rewrite E; left|].
  exists p, b. eexists. split; [reflexivity|].
  pose proof (N c) as Nc. rewrite E in Nc. apply NoDup_cons in Nc as [Np Nl].
  assert (Hsub : forall d q, q ∈ free_list d (set_free_list c l s) -> q ∈ free_list d s).
  { intros d q. rewrite free_list_set. case_decide as Hd; [subst|done]. rewrite E. by right. }
  split; [|done]. split; [|split; [|split]].
  - constructor; simpl; [done|..].
    + intros d. rewrite free_list_set. case_decide; [done|apply N].
    + intros d q Hq. by apply C, Hsub.
    + intros d. rewrite free_list_set. case_decide as Hd; [subst|apply Ln].
      specialize (Ln d). rewrite E, zlen_cons in Ln. lia.
  - intros [_ Ho]. apply (Ho c). rewrite E. left.
  - split; simpl; [eauto|]. intros d. rewrite free_list_set. case_decide as Hd; [by subst|].
    intros Hin. destruct (C d p Hin) as (b' & Hb' & _ & Hc'). apply Hd, byteCount_inj. congruence.
  - intros q [Hq Ho]. split; [|done]. split; [done|]. intros d Hin. by apply (Ho d), Hsub.
Qed.

Lemma limit_to_rewind b size :
  wf b -> 0 <= size <= _capacity b ->
  let b' := rewind (limit_to size b) in
  wf b' /\ _limit b' = size /\ _position b' = 0 /\ _capacity b' = _capacity b.
Proof.
  intros H Hs b'. split; [apply wf_rewind, wf_limit_to; [done|lia]|].
  split; [by apply limit_to_spec|]. split; [done|]. subst b'. unfold rewind, limit_to.
  destruct (Z.gtb_spec size (_capacity b)); [done|]. by destruct (Z.gtb_spec (_position b) size).
Qed.

(** The capacity of the buffer that is handed out for a size. *)
Definition capacity_for (size : Z) : Z :=
  match class_of size with Some c => byteCount c | None => size end.

Lemma capacity_for_ge size : size <= capacity_for size.
Proof. unfold capacity_for. destruct (class_of size) eqn:Ec; [by apply class_of_fits|lia]. Qed.

Lemma capacity_for_small size : size <= 128 * 1024 + 200 -> capacity_for size <= 128 * 1024 + 200.
Proof.
  intros Hs. unfold capacity_for. destruct (class_of size) as [c|]; [|done]. by destruct (byteCount_bound c).
Qed.

Lemma capacity_for_pool b size : _capacity b = capacity_for size -> pool_capacity b.
Proof.
  unfold pool_capacity, capacity_for. destruct (class_of size) as [c|] eqn:Ec; intros ->; [by rewrite class_of_byteCount|].
  by rewrite Ec.
Qed.

(** The free list for a size has nothing to give. *)
Definition none_free (size : Z) (s : Storage) : Prop := forall c, class_of size = Some c -> free_list c s = [].

(** The buffer handed out is exclusively the caller's, empty, with the
    requested limit; every buffer somebody holds is untouched. *)
Lemma getBuffer_full size s :
  pool_wf s -> is_u32 size -> (none_free size s -> allocates (capacity_for size)) ->
  exists p b s', getBuffer size s = Ok (p, s') /\ fresh_from s p s' /\ heap s' !! p = Some b /\
    wf b /\ _position b = 0 /\ _limit b = size /\ _capacity b = capacity_for size.
Proof.
  intros Hs Hz Ha. unfold getBuffer. pose proof (capacity_for_ge size) as Hge.
  assert (exists p b s1, match class_of size with Some c => take_or_new c | None => new_buf size end s
      = Ok (p, s1) /\ fresh_from s p s1 /\ heap s1 !! p = Some b /\ wf b /\
      _capacity b = capacity_for size) as (p & b & s1 & E & Hf & Hb & Hw & Hpc).
  { unfold capacity_for, none_free in *. destruct (class_of size) as [c|] eqn:Ec.
    - destruct (take_or_new_spec c s Hs) as (p & b & s1 & ? & ? & ? & ? & Hcap); [|by exists p, b, s1].
      intros He. apply Ha. by intros ? [= <-].
    - destruct (new_buf_spec size s Hs Hz) as (p & b & s1 & ? & ? & ? & ? & Hcap); [by apply Ha|]. by exists p, b, s1. }
  rewrite (bind_Ok _ _ _ _ _ E). destruct Hf as (Hp1 & Hn & Ho & Hk).
  destruct (limit_to_rewind b size Hw) as (W & Li & Po & Ca); [unfold is_u in Hz; lia|].
  unfold update_buf, deref, store, modify, lift_res, mbind, SR_bind. rewrite Hb. simpl.
  rewrite lookup_insert_eq. simpl.
  exists p, (rewind (limit_to size b)). eexists. split; [reflexivity|].
  rewrite insert_insert_eq. change (set_heap _ (set_heap _ s1)) with
    (set_heap (<[p:=rewind (limit_to size b)]> (heap s1)) s1).
  split; [|simpl; rewrite lookup_insert_eq; repeat split; try apply W; try done; by rewrite <- Hpc, <- Ca].
  split; [by apply pool_wf_insert|]. split; [done|]. split; [by apply owned_insert|].
  intros q Hq. destruct (Hk q Hq) as [Ho1 Hh]. split; [by apply owned_insert|].
  simpl. rewrite lookup_insert_ne; [done|]. intros ->. done.
Qed.

(** Without memory for a new one, and with none to reuse, the process ends. *)
Lemma getBuffer_exit size s :
  none_free size s -> NativeByteBuffer_new (capacity_for size) = Fault ProcessExit -> getBuffer size s = Fault ProcessExit.
Proof.
  unfold none_free, capacity_for, getBuffer. intros Hn Ha. unfold mbind at 1, SR_bind at 1.
  assert (E : forall n, NativeByteBuffer_new n = Fault ProcessExit -> new_buf n s = Fault ProcessExit).
  { intros n H. unfold new_buf, mbind, SR_bind, lift_res. by rewrite H. }
  destruct (class_of size) as [c|]; [|by rewrite E].
  unfold take_or_new, mbind at 1, SR_bind at 1, gets. by rewrite Hn, E by done.
Qed.

Lemma none_free_dec size s : none_free size s \/ ~ none_free size s.
Proof.
  unfold none_free. destruct (class_of size) as [c|]; [|by left].
  destruct (free_list c s) as [|p l] eqn:E; [left; by intros ? [= <-]|]. right. intros H. by rewrite H in E.
Qed.
End PoolLemmas.

(** The same for a pool that does not run out of memory. *)
Section Supplied.
Context {J : Jni} {L : JniLaws J}.

Lemma allocates_small size : 0 <= size <= pool_max -> allocates size.
Proof.
  intros Hs. destruct (pool_memory (JniLaws := L)) as [G A]. destruct (A size Hs) as [[x Hx] [y Hy]].
  unfold allocates, NativeByteBuffer_new. rewrite G, Hy, (wrapS_id 32 size), Hx by (unfold is_s, pool_max in *; lia).
  case_match; eauto.
Qed.

Lemma allocates_for size : 0 <= size <= pool_max -> allocates (capacity_for size).
Proof.
  intros [H0 H1]. apply allocates_small. split; [|by apply capacity_for_small].
  pose proof (capacity_for_ge size). lia.
Qed.

Lemma getBuffer_small size s :
  pool_wf s -> 0 <= size <= pool_max ->
  exists p b s', getBuffer size s = Ok (p, s') /\ fresh_from s p s' /\ heap s' !! p = Some b /\
    wf b /\ _position b = 0 /\ _limit b = size /\ _capacity b = capacity_for size.
Proof.
  intros Hs Hz. apply (getBuffer_full size s Hs); [unfold is_u, pool_max in *; lia|]. intros _. by apply allocates_for.
Qed.

Lemma getBuffer_spec size s :
  pool_wf s -> 0 <= size <= pool_max ->
  exists p b s', getBuffer size s = Ok (p, s') /\ fresh_from s p s' /\ heap s' !! p = Some b /\ wf b /\
    _position b = 0 /\ _limit b = size /\ pool_capacity b.
Proof.
  intros Hs Hz. destruct (getBuffer_small size s Hs Hz) as (p & b & s' & ? & ? & ? & ? & ? & ? & Hc).
  exists p, b, s'. repeat (split; [done|]). by eapply capacity_for_pool.
Qed.
End Supplied.

(** ** Giving a buffer back *)

Lemma free_list_append_wf s c p b :
  pool_wf s -> owned s p -> heap s !! p = Some b -> wf b -> _capacity b = byteCount c ->
  zlen (free_list c s) < maxSize c -> pool_wf (set_free_list c (free_list c s ++ [p]) s).
Proof.
  intros [F N C L] [_ Ho] Hb Hw Hc Hl. constructor; simpl; [done|..].
  - intros d. rewrite free_list_set. case_decide as Hd; [subst|apply N].
    apply NoDup_app. split; [apply N|]. split; [|apply NoDup_singleton].
    intros q Hq ->%list_elem_of_singleton. by apply (Ho d).
  - intros d q. rewrite free_list_set. case_decide as Hd; [subst|apply C].
    rewrite elem_of_app, list_elem_of_singleton. intros [Hq| ->]; [by apply C|eauto].
  - intros d. rewrite free_list_set. case_decide as Hd; [subst|apply L].
    rewrite zlen_app, zlen_cons, zlen_nil. lia.
Qed.

Lemma owned_append s c p q :
  owned s q -> q <> p -> owned (set_free_list c (free_list c s ++ [p]) s) q.
Proof.
  intros [Hq Ho] Hne. split; [done|]. intros d. rewrite free_list_set. case_decide; [subst|apply Ho].
  rewrite elem_of_app, list_elem_of_singleton. intros [Hin|Heq]; [by apply (Ho d)|done].
Qed.

Lemma pool_wf_delete s p :
  pool_wf s -> owned s p -> pool_wf (set_heap (delete p (heap s)) s).
Proof.
  intros [F N C L] [Hp Ho]. constructor.
  - intros q. simpl. destruct (decide (p = q)) as [<-|Hne].
    + rewrite lookup_delete_eq. intros [? ?]. done.
    + rewrite lookup_delete_ne by done. apply F.
  - intros c. rewrite free_list_set_heap. apply N.
  - intros c q. rewrite free_list_set_heap. intros Hin. simpl.
    rewrite lookup_delete_ne by (intros ->; by apply (Ho c)). by apply C.
  - intros c. rewrite free_list_set_heap. apply L.
Qed.

Lemma deref_Ok p b s : heap s !! p = Some b -> deref p s = Ok (b, s).
Proof. intros H. unfold deref. by rewrite H. Qed.

Lemma delete_buf_Ok p b s :
  heap s !! p = Some b -> delete_buf p s = Ok (tt, set_heap (delete p (heap s)) s).
Proof. intros H. unfold delete_buf. by rewrite (bind_Ok _ _ _ _ _ (deref_Ok _ _ _ H)). Qed.

(** What giving back leaves: the buffer is nobody's, the others are as
    they were. *)
Definition released (s : Storage) (p : addr) (s' : Storage) : Prop :=
  pool_wf s' /\ ~ owned s' p /\
  (forall q, q <> p -> owned s q -> owned s' q /\ heap s' !! q = heap s !! q).

Lemma reuse_spec p b s :
  pool_wf s -> owned s p -> heap s !! p = Some b -> wf b -> pool_capacity b ->
  _capacity b <= 128 * 1024 + 200 ->
  exists s', reuse p s = Ok (tt, s') /\ released s p s'.
Proof.
  intros Hs Ho Hb Hw Hpc Hcap. unfold reuse, reuseFreeBuffer.
  rewrite (bind_Ok _ _ _ _ _ (deref_Ok _ _ _ Hb)). unfold capacity.
  unfold pool_capacity in Hpc. destruct (class_of (_capacity b)) as [c|] eqn:E.
  2: { apply class_of_big in E. lia. }
  rewrite (bind_Ok _ _ s (free_list c s) s) by done.
  destruct (Z.ltb_spec (zlen (free_list c s)) (maxSize c)).
  - eexists. split; [reflexivity|]. split; [by eapply free_list_append_wf|]. split.
    + intros [_ Hn]. apply (Hn c). rewrite free_list_set. rewrite decide_True by done.
      rewrite elem_of_app, list_elem_of_singleton. by right.
    + intros q Hne Hq. split; [by apply owned_append|done].
  - rewrite (delete_buf_Ok _ _ _ Hb). eexists. split; [reflexivity|].
    split; [by apply pool_wf_delete|]. split.
    + intros [Hn _]. simpl in Hn. rewrite lookup_delete_eq in Hn. by destruct Hn.
    + intros q Hne [Hq Hn]. simpl. rewrite lookup_delete_ne by done. split; [|done].
      split; simpl; [by rewrite lookup_delete_ne|]. intros d. rewrite free_list_set_heap. apply Hn.
Qed.

(** The lists of the other classes stay as they are. *)
Lemma reuse_lists p b s s' c :
  reuse p s = Ok (tt, s') -> heap s !! p = Some b -> class_of (_capacity b) <> Some c -> free_list c s' = free_list c s.
Proof.
  intros H Hb Hc. unfold reuse, reuseFreeBuffer in H. rewrite (bind_Ok _ _ _ _ _ (deref_Ok _ _ _ Hb)) in H.
  unfold capacity in H. destruct (class_of (_capacity b)) as [d|] eqn:Ed.
  - rewrite (bind_Ok _ _ s (free_list d s) s) in H by done. destruct (zlen (free_list d s) <? maxSize d).
    + injection H as <-. rewrite free_list_set, decide_False; [done|]. congruence.
    + rewrite (delete_buf_Ok _ _ _ Hb) in H. injection H as <-. apply free_list_set_heap.
  - rewrite (bind_Ok _ _ _ _ _ (delete_buf_Ok _ _ _ Hb)) in H. unfold log_capacity, deref, mbind, SR_bind in H.
    simpl in H. by rewrite lookup_delete_eq in H.
Qed.

(** ** Room in the free lists

    [room s k]: each list has place for [k] more buffers of its class, so that
    giving these back puts them into the list instead of deleting them. *)

Definition room (s : Storage) (k : size_class -> Z) : Prop :=
  forall c, zlen (free_list c s) + k c <= maxSize c.

Definition none_held : size_class -> Z := fun _ => 0.
Definition one_held (c : size_class) : size_class -> Z := fun d => if decide (c = d) then 1 else 0.

Lemma update_buf_lists p f s s' :
  update_buf p f s = Ok (tt, s') -> forall c, free_list c s' = free_list c s.
Proof.
  unfold update_buf, deref, store, modify, lift_res, mbind, SR_bind.
  destruct (heap s !! p); [|done]. destruct (f n); [|done]. intros [= <-] c. apply free_list_set_heap.
Qed.

Lemma getBuffer_room {J : Jni} size cl k s p s' :
  class_of size = Some cl -> getBuffer size s = Ok (p, s') ->
  room s k -> (forall c, k c <= 1) -> room s' (fun c => k c + one_held cl c).
Proof.
  intros Hcl H Hr Hk. unfold getBuffer in H. rewrite Hcl in H. unfold mbind, SR_bind in H.
  destruct (take_or_new cl s) as [[q s1]|] eqn:E1; [|done].
  destruct (update_buf q _ s1) as [[[] s2]|] eqn:E2; [|done].
  destruct (update_buf q _ s2) as [[[] s3]|] eqn:E3; [|done]. injection H as <- <-.
  assert (L : forall c, free_list c s3 = free_list c s1).
  { intros c. by rewrite (update_buf_lists _ _ _ _ E3), (update_buf_lists _ _ _ _ E2). }
  intros c. rewrite L. specialize (Hr c). specialize (Hk c). unfold one_held.
  unfold take_or_new, mbind, SR_bind, gets in E1.
  destruct (free_list cl s) as [|x l] eqn:El.
  - assert (free_list c s1 = free_list c s) as ->.
    { unfold new_buf, mbind, SR_bind, lift_res in E1. destruct (NativeByteBuffer_new _); [|done].
      simpl in E1. injection E1 as _ <-. by rewrite free_list_set_next, free_list_set_heap. }
    case_decide as Hd; [subst|lia]. rewrite El. change (zlen []) with 0. destruct c; simpl; lia.
  - simpl in E1. injection E1 as _ <-. rewrite free_list_set.
    case_decide as Hd; [subst|lia]. rewrite El, zlen_cons in Hr. lia.
Qed.

Lemma reuse_room c k p b s :
  heap s !! p = Some b -> _capacity b = byteCount c -> room s k -> 1 <= k c ->
  reuse p s = Ok (tt, set_free_list c (free_list c s ++ [p]) s) /\
  room (set_free_list c (free_list c s ++ [p]) s) (fun d => k d - one_held c d).
Proof.
  intros Hb Hc Hr Hk. pose proof (Hr c). unfold reuse, reuseFreeBuffer.
  rewrite (bind_Ok _ _ _ _ _ (deref_Ok _ _ _ Hb)). unfold capacity. rewrite Hc, class_of_byteCount.
  rewrite (bind_Ok _ _ s (free_list c s) s) by done.
  destruct (Z.ltb_spec (zlen (free_list c s)) (maxSize c)); [|lia]. split; [done|].
  intros d. rewrite free_list_set. specialize (Hr d). unfold one_held.
  case_decide; [subst|lia]. rewrite zlen_app, zlen_cons, zlen_nil. lia.
Qed.

Lemma room_weaken s k k' : room s k -> (forall c, k' c <= k c) -> room s k'.
Proof. intros H Hk c. specialize (H c). specialize (Hk c). lia. Qed.

(** ** The initial pool *)

Lemma push_new_spec {J : Jni} {L : JniLaws J} n c s :
  pool_wf s -> zlen (free_list c s) + Z.of_nat n <= maxSize c ->
  exists s', push_new n c s = Ok (tt, s') /\ pool_wf s' /\
    zlen (free_list c s') = zlen (free_list c s) + Z.of_nat n /\
    (forall d, d <> c -> free_list d s' = free_list d s).
Proof.
  revert s. induction n as [|n IH]; intros s Hs Hn.
  - exists s. split; [done|]. split; [done|]. split; [lia|done].
  - pose proof (byteCount_bound c). simpl.
    destruct (new_buf_spec (byteCount c) s Hs) as (p & b & s1 & E & (W & _ & O & _) & Hb & Hw & Hc);
      [unfold is_u; lia|apply allocates_small; unfold pool_max; lia|].
    assert (forall d, free_list d s1 = free_list d s) as HF.
    { unfold new_buf, mbind, SR_bind, lift_res in E.
      destruct (NativeByteBuffer_new (byteCount c)); [|done]. simpl in E. injection E as _ <-.
      intros d. by rewrite free_list_set_next, free_list_set_heap. }
    rewrite (bind_Ok _ _ _ _ _ E), (bind_Ok _ _ s1 (free_list c s1) s1) by done.
    rewrite (bind_Ok _ _ s1 tt (set_free_list c (free_list c s1 ++ [p]) s1)) by done.
    destruct (IH (set_free_list c (free_list c s1 ++ [p]) s1)) as (s' & E' & W' & Z' & K').
    + eapply free_list_append_wf; try done. rewrite HF. lia.
    + rewrite free_list_set, decide_True, zlen_app, zlen_cons, zlen_nil, HF by done. lia.
    + exists s'. split; [done|]. split; [done|]. split.
      * rewrite Z', free_list_set, decide_True, zlen_app, zlen_cons, zlen_nil, HF by done. lia.
      * intros d Hd. rewrite K', free_list_set, decide_False by done. apply HF.
Qed.

Lemma BufferStorage_new_spec {J : Jni} {L : JniLaws J} t :
  exists s, BufferStorage_new t = Ok s /\ pool_wf s /\
    zlen (freeBuffers8 s) = 5 /\ zlen (freeBuffers128 s) = 5.
Proof.
  unfold BufferStorage_new. set (s0 := mkStorage _ _ _ _ _ _ _ _ _ _).
  assert (pool_wf s0).
  { constructor; [intros p [? H]; done|intros []; apply NoDup_nil_2|intros [] p H; inversion H|by intros []]. }
  destruct (push_new_spec 5 Free8 s0) as (s1 & E1 & W1 & Z1 & K1); [done|done|].
  destruct (push_new_spec 5 Free128 s1) as (s2 & E2 & W2 & Z2 & K2);
    [done|rewrite K1 by done; done|].
  rewrite (bind_Ok _ _ _ _ _ E1), E2. exists s2. split; [done|]. split; [done|].
  split; [by rewrite <- (K2 Free8) in Z1|]. rewrite (K1 Free128) in Z2 by done. done.
Qed.

(** ** The theorems on the pool *)

(** Giving back a buffer above the largest class reads the deleted
    object in the log statement behind the delete. *)
Lemma reuse_big_use_after_free p b s :
  heap s !! p = Some b -> 128 * 1024 + 200 < _capacity b -> reuse p s = Fault UseAfterFree.
Proof.
  intros Hb Hc. unfold reuse, reuseFreeBuffer. rewrite (bind_Ok _ _ _ _ _ (deref_Ok _ _ _ Hb)).
  destruct (class_of (capacity b)) as [c|] eqn:E.
  { apply class_of_fits in E. pose proof (byteCount_bound c). unfold capacity in E. lia. }
  rewrite (bind_Ok _ _ _ _ _ (delete_buf_Ok _ _ _ Hb)).
  unfold log_capacity, deref, mbind, SR_bind. simpl. by rewrite lookup_delete_eq.
Qed.

(** C26: for every [uint32_t] size, [getBuffer] ends the process, which
    happens only when the free list of the size has no buffer and none can be
    allocated, or returns a buffer nobody else holds, of the requested limit
    with position 0 and at least that capacity; the pool invariant is kept and
    every buffer held by somebody keeps its address and bytes.  Nothing is
    assumed of the allocators but the size of the blocks they do give. *)
Theorem getBuffer_exclusive {J : Jni} {B : JniBlocks J} size s :
  pool_wf s -> is_u32 size ->
  (getBuffer size s = Fault ProcessExit /\ none_free size s /\
     NativeByteBuffer_new (capacity_for size) = Fault ProcessExit) \/
  exists p b s', getBuffer size s = Ok (p, s') /\ heap s' !! p = Some b /\ wf b /\
    _position b = 0 /\ _limit b = size /\ size <= _capacity b /\ pool_wf s' /\ ~ owned s p /\ owned s' p /\
    (forall q, owned s q -> owned s' q /\ heap s' !! q = heap s !! q).
Proof.
  intros Hs Hz. pose proof (capacity_for_ge size) as Hge.
  assert (Hfull : (none_free size s -> allocates (capacity_for size)) \/
    (none_free size s /\ NativeByteBuffer_new (capacity_for size) = Fault ProcessExit)).
  { destruct (none_free_dec size s), (allocates_or_exit (capacity_for size)); auto. left. done. }
  destruct Hfull as [Ha|[Hn Ha]]; [right|left; auto using getBuffer_exit].
  destruct (getBuffer_full size s Hs Hz Ha) as (p & b & s' & ? & (? & ? & ? & ?) & ? & ? & ? & ? & Hc).
  exists p, b, s'. rewrite Hc. by do 9 (split; [done|]).
Qed.

(** C27: giving back a held pool buffer of at most 131272 bytes succeeds, keeps
    the pool invariant (each free list bounded by its maximum, no address
    listed twice), and leaves every other held buffer untouched; giving back a
    larger one reads it after it was deleted. *)
Theorem reuse_releases p b s :
  pool_wf s -> owned s p -> heap s !! p = Some b -> wf b -> pool_capacity b ->
  if _capacity b <=? 131272 then
    exists s', reuse p s = Ok (tt, s') /\ pool_wf s' /\ ~ owned s' p /\
      (forall q, q <> p -> owned s q -> owned s' q /\ heap s' !! q = heap s !! q)
  else reuse p s = Fault UseAfterFree.
Proof.
  intros. destruct (Z.leb_spec (_capacity b) 131272); [by eapply reuse_spec|]. eapply reuse_big_use_after_free; [done|lia].
Qed.

Lemma getBuffer_from_list {J : Jni} size c p l b s :
  class_of size = Some c -> free_list c s = p :: l -> heap s !! p = Some b ->
  exists s', getBuffer size s = Ok (p, s') /\ free_list c s' = l /\
    heap s' = <[p := rewind (limit_to size b)]> (heap s).
Proof.
  intros Hc Hl Hb. unfold getBuffer. rewrite Hc. unfold take_or_new.
  unfold update_buf, deref, store, modify, gets, lift_res, mbind, SR_bind. rewrite Hl. simpl.
  rewrite Hb. simpl. rewrite lookup_insert_eq. simpl. eexists. split; [reflexivity|].
  rewrite !free_list_set_heap, free_list_set, decide_True by done. split; [done|].
  simpl. by rewrite insert_insert_eq.
Qed.

(** A class without free buffers stays so when a new one is allocated. *)
Lemma getBuffer_new_lists {J : Jni} size c p s s' :
  class_of size = Some c -> free_list c s = [] -> getBuffer size s = Ok (p, s') -> forall d, free_list d s' = free_list d s.
Proof.
  intros Hc Hl H d. unfold getBuffer in H. rewrite Hc in H. unfold mbind, SR_bind in H.
  destruct (take_or_new c s) as [[q s1]|] eqn:E1; [|done].
  destruct (update_buf q _ s1) as [[[] s2]|] eqn:E2; [|done].
  destruct (update_buf q _ s2) as [[[] s3]|] eqn:E3; [|done]. injection H as <- <-.
  rewrite (update_buf_lists _ _ _ _ E3), (update_buf_lists _ _ _ _ E2).
  unfold take_or_new, mbind, SR_bind, gets in E1. rewrite Hl in E1.
  unfold new_buf, mbind, SR_bind, lift_res in E1. destruct (NativeByteBuffer_new _); [|done].
  simpl in E1. injection E1 as _ <-. by rewrite free_list_set_next, free_list_set_heap.
Qed.

Lemma reuse_into_list p b c s :
  heap s !! p = Some b -> class_of (_capacity b) = Some c -> zlen (free_list c s) < maxSize c ->
  reuse p s = Ok (tt, set_free_list c (free_list c s ++ [p]) s).
Proof.
  intros Hb Hc Hl. unfold reuse, reuseFreeBuffer. rewrite (bind_Ok _ _ _ _ _ (deref_Ok _ _ _ Hb)).
  unfold capacity. rewrite Hc, (bind_Ok _ _ s (free_list c s) s) by done.
  by rewrite (proj2 (Z.ltb_lt _ _) Hl).
Qed.

(** The pool does not notice a buffer given back twice: with the
    class's free list empty, the next two requests of that class get the
    same buffer. *)
Lemma double_reuse_aliases {J : Jni} p b c size s :
  heap s !! p = Some b -> class_of (_capacity b) = Some c -> class_of size = Some c ->
  free_list c s = [] ->
  exists s', (reuse p;; reuse p;; q1 ← getBuffer size; q2 ← getBuffer size; mret (q1, q2)) s
    = Ok ((p, p), s').
Proof.
  intros Hb Hc Hz Hl. pose proof (maxSize_pos c).
  assert (2 <= maxSize c) by (by destruct c).
  rewrite (bind_Ok _ _ _ _ _ (reuse_into_list p b c s Hb Hc ltac:(rewrite Hl, zlen_nil; lia))).
  set (s1 := set_free_list c (free_list c s ++ [p]) s).
  assert (L1 : free_list c s1 = [p]).
  { unfold s1. rewrite free_list_set, decide_True by done. by rewrite Hl. }
  rewrite (bind_Ok _ _ _ _ _ (reuse_into_list p b c s1 Hb Hc
    ltac:(rewrite L1, zlen_cons, zlen_nil; lia))).
  set (s2 := set_free_list c (free_list c s1 ++ [p]) s1).
  assert (L2 : free_list c s2 = [p; p]).
  { unfold s2. rewrite free_list_set, decide_True by done. by rewrite L1. }
  destruct (getBuffer_from_list size c p [p] b s2 Hz L2 Hb) as (s3 & E3 & L3 & H3).
  rewrite (bind_Ok _ _ _ _ _ E3).
  destruct (getBuffer_from_list size c p [] (rewind (limit_to size b)) s3 Hz L3) as (s4 & E4 & _).
  { rewrite H3. apply lookup_insert_eq. }
  rewrite (bind_Ok _ _ _ _ _ E4). by exists s4.
Qed.

(** ** Concrete pools for the examples *)

(** A machine without a Java VM whose fresh memory is zero. *)
#[export] Instance plain_jni : Jni := {|
  jclass_ByteBuffer := false;
  GetEnv := true;
  allocateDirect := fun n => if n <? 0 then None else Some (replicate (Z.to_nat n) 0);
  new_uint8 := fun n => Some (replicate (Z.to_nat n) 0)
|}.

Lemma zero_block n : 0 <= n ->
  zlen (replicate (Z.to_nat n) 0) = n /\ Forall is_byte (replicate (Z.to_nat n) 0).
Proof.
  intros. unfold zlen. rewrite length_replicate. split; [lia|]. by apply Forall_replicate.
Qed.

#[export] Instance plain_jni_laws : JniLaws plain_jni.
Proof.
  split; [split; simpl|split; [done|]].
  - intros size blk. destruct (Z.ltb_spec size 0); [done|]. intros [= <-]. by split; [|apply zero_block].
  - intros size blk H [= <-]. by apply zero_block.
  - intros size [H _]. simpl. destruct (Z.ltb_spec size 0); [lia|]. by split; eexists.
Qed.

(** A machine that has no memory left. *)
Definition empty_jni : Jni := {|
  jclass_ByteBuffer := true; GetEnv := true; allocateDirect := fun _ => None; new_uint8 := fun _ => None |}.

Lemma empty_jni_blocks : JniBlocks empty_jni.
Proof. by split. Qed.

(** A pool with empty free lists and the given buffers. *)
Definition bare_pool (bufs : list NBuf) : Storage :=
  foldl (fun s b => set_next_addr (Pos.succ (next_addr s)) (set_heap (<[next_addr s := b]> (heap s)) s))
    (mkStorage ∅ 1%positive [] [] [] [] [] [] [] true) bufs.

Lemma bare_pool_from bufs s :
  pool_wf s -> (forall c, free_list c s = []) ->
  let s' := foldl (fun s b => set_next_addr (Pos.succ (next_addr s))
                                (set_heap (<[next_addr s := b]> (heap s)) s)) s bufs in
  pool_wf s' /\ forall c, free_list c s' = [].
Proof.
  revert s. induction bufs as [|b bufs IH]; intros s Hs Hf; simpl; [done|]. apply IH.
  - destruct Hs as [F N C L]. constructor; simpl.
    + intros p. destruct (decide (next_addr s = p)) as [<-|]; [intros _; lia|].
      rewrite lookup_insert_ne by done. intros Hp. apply F in Hp. lia.
    + intros c. rewrite free_list_set_next, free_list_set_heap. apply N.
    + intros c p. rewrite free_list_set_next, free_list_set_heap, Hf. intros H. inversion H.
    + intros c. rewrite free_list_set_next, free_list_set_heap. apply L.
  - intros c. rewrite free_list_set_next, free_list_set_heap. apply Hf.
Qed.

Lemma pool_wf_bare bufs : pool_wf (bare_pool bufs).
Proof.
  apply bare_pool_from; [|by intros []]. constructor.
  - intros p [? H]. done.
  - intros []; apply NoDup_nil_2.
  - intros [] p H; inversion H.
  - intros []; simpl; done.
Qed.

Lemma owned_bare bufs p : is_Some (heap (bare_pool bufs) !! p) -> owned (bare_pool bufs) p.
Proof.
  intros Hp. split; [done|]. intros c.
  assert (free_list c (bare_pool bufs) = []) as ->; [|intros H; inversion H].
  apply bare_pool_from; [apply (pool_wf_bare [])|by intros []].
Qed.

Lemma getBuffer_exclusive_witness :
  (exists p b s', getBuffer 20 (bare_pool []) = Ok (p, s') /\ heap s' !! p = Some b /\ wf b /\
    _position b = 0 /\ _limit b = 20 /\ 20 <= _capacity b /\ pool_wf s' /\ ~ owned (bare_pool []) p /\ owned s' p /\
    (forall q, owned (bare_pool []) q -> owned s' q /\ heap s' !! q = heap (bare_pool []) !! q)) /\
  getBuffer (J := empty_jni) (2 ^ 31) (bare_pool []) = Fault ProcessExit.
Proof.
  split.
  - by destruct (getBuffer_exclusive 20 (bare_pool [])) as [[H _]|H]; [apply pool_wf_bare|done|vm_compute in H|].
  - destruct (getBuffer_exclusive (J := empty_jni) (B := empty_jni_blocks) (2 ^ 31) (bare_pool [])) as [[H _]|(p & b & s' & H & _)];
      [apply pool_wf_bare|done|exact H|by vm_compute in H].
Defined.

Lemma reuse_releases_witness :
  exists s', reuse 1%positive (bare_pool [blank 128]) = Ok (tt, s') /\ pool_wf s' /\
    ~ owned s' 1%positive /\
    (forall q, q <> 1%positive -> owned (bare_pool [blank 128]) q ->
       owned s' q /\ heap s' !! q = heap (bare_pool [blank 128]) !! q).
Proof.
  apply (reuse_releases 1%positive (blank 128));
    [apply pool_wf_bare|apply owned_bare; by eexists|done|by apply wf_blank|done].
Defined.

(** A buffer of 200000 bytes, above every class. *)
Definition big_buf : NBuf := mkNBuf [] 0 0 200000 false true JavaNull.
