(* ===== verification/ByteStream.v ===== *)
(** * ByteStream: the queue of buffers waiting to be sent

    Models [src/fastsocks/cpp/tcp/ByteStream.{h,cpp}].  The stream is the
    vector of the addresses of its buffers ([buffersQueue]); its abstract
    value is the concatenation of the unread bytes of those buffers. *)

From S2P Require Import Prelude.
From S2P Require Import NativeByteBuffer.
From S2P Require Import BufferStorage.

Record ByteStream : Type := mkByteStream { buffersQueue : list addr }.

Definition append (buffer : option addr) (st : ByteStream) : ByteStream :=
  match buffer with
  | None => st
  | Some p => mkByteStream (buffersQueue st ++ [p])
  end.

Fixpoint hasData_from (q : list addr) : SR Storage bool :=
  match q with
  | [] => mret false
  | p :: q' => b ← deref p; if hasRemaining b then mret true else hasData_from q'
  end.

Definition hasData (st : ByteStream) : SR Storage bool := hasData_from (buffersQueue st).

(** The loop of [get]: [dst->writeBytes(buffer->bytes(), position, n)]. *)
Fixpoint get_from (q : list addr) (dst : addr) : SR Storage unit :=
  match q with
  | [] => mret tt
  | p :: q' =>
      b ← deref p;
      d ← deref dst;
      if remaining b >? remaining d then
        update_buf dst (fun d => fst <$> writeBytes_raw (bytes b) (position b) (remaining d) None d)
      else
        update_buf dst (fun d => fst <$> writeBytes_raw (bytes b) (position b) (remaining b) None d);;
        d' ← deref dst;
        if negb (hasRemaining d') then mret tt else get_from q' dst
  end.

Definition get (st : ByteStream) (dst : option addr) : SR Storage unit :=
  match dst with None => mret tt | Some d => get_from (buffersQueue st) d end.

(** [while (count > 0)]: every turn but the last erases the first buffer. *)
Fixpoint discard_from (q : list addr) (count : Z) : SR Storage (list addr) :=
  if count >? 0 then
    match q with
    | [] => fault_with EmptyContainer
    | p :: q' =>
        b ← deref p;
        let rem := remaining b in
        if count <? rem then
          update_buf p (fun b => Ok (position_to (u32 (position b + count)) b));; mret q
        else
          reuse p;; discard_from q' (u32 (count - rem))
    end
  else mret q.

Definition discard (count : Z) (st : ByteStream) : SR Storage ByteStream :=
  q ← discard_from (buffersQueue st) count; mret (mkByteStream q).

Fixpoint reuse_all (q : list addr) : SR Storage unit :=
  match q with [] => mret tt | p :: q' => reuse p;; reuse_all q' end.

Definition clear_stream (st : ByteStream) : SR Storage ByteStream :=
  match buffersQueue st with
  | [] => mret st
  | q => reuse_all q;; mret (mkByteStream [])
  end.

(** ** The abstract stream *)

Definition unread (s : Storage) (p : addr) : list Z :=
  match heap s !! p with Some b => contents b | None => [] end.

Definition stream_bytes (s : Storage) (st : ByteStream) : list Z :=
  mjoin (unread s <$> buffersQueue st).

(** A buffer the pool takes back. *)
Definition pool_buf (s : Storage) (p : addr) : Prop :=
  owned s p /\ exists b, heap s !! p = Some b /\ wf b /\ pool_capacity b /\
    _capacity b <= 128 * 1024 + 200.

Record stream_ok (s : Storage) (q : list addr) : Prop := {
  so_nodup : NoDup q;
  so_bufs : forall p, p ∈ q -> pool_buf s p
}.

Lemma pool_buf_lookup s p : pool_buf s p ->
  exists b, heap s !! p = Some b /\ wf b /\ pool_capacity b /\ _capacity b <= 128 * 1024 + 200.
Proof. by intros [_ H]. Qed.

Lemma stream_ok_tail s p q : stream_ok s (p :: q) -> stream_ok s q /\ (p ∉ q) /\ pool_buf s p.
Proof.
  intros [N B]. apply NoDup_cons in N as [Np Nq].
  split; [|split; [done|apply B; left]]. split; [done|]. intros r Hr. apply B. by right.
Qed.

(** What [released] and an in-place change of another buffer leave. *)
Lemma pool_buf_released s p s' q :
  released s p s' -> q <> p -> pool_buf s q -> pool_buf s' q /\ unread s' q = unread s q.
Proof.
  intros (_ & _ & K) Hne [Ho (b & Hb & Hr)]. destruct (K q Hne Ho) as [Ho' Hh].
  unfold unread. rewrite Hh. split; [|done]. split; [done|]. exists b. by rewrite Hh.
Qed.

Lemma stream_ok_released s p s' q :
  released s p s' -> p ∉ q -> stream_ok s q -> stream_ok s' q /\ (unread s' <$> q) = (unread s <$> q).
Proof.
  intros HR Hp [N B]. split.
  - split; [done|]. intros r Hr. eapply pool_buf_released; [done| |by apply B]. by intros ->.
  - apply list_fmap_ext. intros i r Hr%list_elem_of_lookup_2.
    eapply pool_buf_released; [done| |by apply B]. by intros ->.
Qed.

Lemma update_buf_Ok p f b b' s :
  heap s !! p = Some b -> f b = Ok b' ->
  update_buf p f s = Ok (tt, set_heap (<[p := b']> (heap s)) s).
Proof.
  intros Hb Hf. unfold update_buf. rewrite (bind_Ok _ _ _ _ _ (deref_Ok _ _ _ Hb)).
  by rewrite Hf.
Qed.

Lemma unread_insert_ne s p b q : p <> q -> unread (set_heap (<[p := b]> (heap s)) s) q = unread s q.
Proof. intros H. unfold unread. simpl. by rewrite lookup_insert_ne. Qed.

Lemma unread_insert s p b : unread (set_heap (<[p := b]> (heap s)) s) p = contents b.
Proof. unfold unread. simpl. by rewrite lookup_insert_eq. Qed.

Lemma pool_buf_insert_ne s p b q :
  p <> q -> pool_buf s q -> pool_buf (set_heap (<[p := b]> (heap s)) s) q.
Proof.
  intros Hne [Ho (c & Hc & Hr)]. split; [by apply owned_insert|]. exists c. simpl.
  by rewrite lookup_insert_ne.
Qed.

Lemma stream_ok_insert_ne s p b q :
  p ∉ q -> stream_ok s q -> stream_ok (set_heap (<[p := b]> (heap s)) s) q /\
    (unread (set_heap (<[p := b]> (heap s)) s) <$> q) = (unread s <$> q).
Proof.
  intros Hp [N B]. split.
  - split; [done|]. intros r Hr. apply pool_buf_insert_ne; [by intros ->|by apply B].
  - apply list_fmap_ext. intros i r Hr%list_elem_of_lookup_2.
    apply unread_insert_ne. by intros ->.
Qed.

Lemma contents_position_to b n :
  wf b -> 0 <= n <= zlen (contents b) ->
  contents (position_to (_position b + n) b) = drop (Z.to_nat n) (contents b) /\
  wf (position_to (_position b + n) b) /\ _capacity (position_to (_position b + n) b) = _capacity b.
Proof.
  intros H Hn. wf_facts H. rewrite zlen_contents in Hn by done. unfold position_to.
  destruct (Z.gtb_spec (_position b + n) (_limit b)); [lia|].
  split; [|split; [apply wf_set_position; [done|lia]|done]].
  unfold contents, slice. simpl. rewrite skipn_firstn_comm, drop_drop.
  f_equal; [lia|f_equal; lia].
Qed.

(** ** discard *)

Lemma discard_from_spec s q count :
  pool_wf s -> stream_ok s q -> 0 <= count <= zlen (mjoin (unread s <$> q)) -> count < 2 ^ 32 ->
  exists q' s', discard_from q count s = Ok (q', s') /\ pool_wf s' /\ stream_ok s' q' /\
    mjoin (unread s' <$> q') = drop (Z.to_nat count) (mjoin (unread s <$> q)) /\
    (forall r, r ∉ q -> owned s r -> owned s' r /\ heap s' !! r = heap s !! r).
Proof.
  revert s count. induction q as [|p q IH]; intros s count Hs Hq Hc Hw; simpl.
  - assert (count = 0) as -> by (unfold zlen in Hc; simpl in Hc; lia). simpl.
    exists [], s. by do 3 (split; [done|]).
  - apply stream_ok_tail in Hq as Hq'. destruct Hq' as (Hq' & Hpq & Hp).
    destruct (Z.gtb_spec count 0) as [Hpos|Hz].
    2: { assert (count = 0) as -> by lia. exists (p :: q), s. by do 3 (split; [done|]). }
    destruct (pool_buf_lookup s p Hp) as (b & Hb & Hwf & Hpc & Hcap). wf_facts Hwf.
    rewrite (bind_Ok _ _ _ _ _ (deref_Ok _ _ _ Hb)), remaining_wf by done.
    assert (Hu : unread s p = contents b) by (unfold unread; by rewrite Hb).
    pose proof (zlen_contents b Hwf) as Hlen.
    csimpl in Hc. csimpl. rewrite Hu in Hc. rewrite Hu. rewrite zlen_app in Hc.
    destruct (Z.ltb_spec count (_limit b - _position b)) as [Hlt|Hge].
    + destruct (contents_position_to b count Hwf) as (C1 & W1 & K1); [lia|].
      set (b' := position_to (_position b + count) b) in *.
      assert (Hpos' : u32 (position b + count) = _position b + count) by (apply u32_id; unfold position; lia).
      rewrite (bind_Ok _ _ _ _ _ (update_buf_Ok p
        (fun b => Ok (position_to (u32 (position b + count)) b)) b b' s Hb
        ltac:(cbv beta; rewrite Hpos'; reflexivity))).
      exists (p :: q). eexists. split; [reflexivity|].
      split; [apply pool_wf_insert; [done|apply Hp]|].
      destruct (stream_ok_insert_ne s p b' q Hpq Hq') as [So Su].
      split; [|split].
      * split; [apply NoDup_cons; split; [done|apply Hq']|]. intros r [->|Hr]%elem_of_cons; [|by apply So].
        split; [apply owned_insert, Hp|]. exists b'. simpl. rewrite lookup_insert_eq.
        unfold pool_capacity. rewrite K1. done.
      * csimpl. rewrite unread_insert, Su, C1.
        rewrite drop_app_le by (unfold zlen in *; lia). done.
      * intros r Hr Ho. split; [by apply owned_insert|]. simpl. rewrite lookup_insert_ne; [done|].
        intros ->. apply Hr. left.
    + destruct (reuse_spec p b s Hs (proj1 Hp) Hb Hwf Hpc Hcap) as (s1 & E1 & HR).
      rewrite (bind_Ok _ _ _ _ _ E1).
      destruct (stream_ok_released s p s1 q HR Hpq Hq') as [So Su].
      destruct (IH s1 (u32 (count - (_limit b - _position b)))) as (q' & s' & E & P & So' & Sb & K).
      * apply HR.
      * done.
      * rewrite u32_id, Su by lia. lia.
      * rewrite u32_id by lia. lia.
      * rewrite u32_id in * by lia. rewrite E. exists q', s'. split; [done|]. split; [done|].
        split; [done|]. split.
        -- rewrite Sb, Su, drop_app_ge by (unfold zlen in *; lia). f_equal. unfold zlen in *. lia.
        -- intros r Hr Ho. rewrite not_elem_of_cons in Hr. destruct Hr as [Hr1 Hr2].
           destruct HR as (_ & _ & HK). destruct (HK r Hr1 Ho) as [Ho1 Hh1].
           destruct (K r Hr2 Ho1) as [Ho2 Hh2]. split; [done|congruence].
Qed.

(** ** get *)

Lemma discard_from_sub q : forall count s q' s', discard_from q count s = Ok (q', s') -> forall p, p ∈ q' -> p ∈ q.
Proof.
  induction q as [|r q IH]; intros count s q' s'; simpl; destruct (count >? 0); [done| | |].
  - by intros [= <- <-].
  - intros H. back H b s1 E1. destruct (count <? remaining b).
    + back H u s2 E2. by injection H as <- <-.
    + back H u s2 E2. intros p Hp. right. by eapply IH.
  - by intros [= <- <-].
Qed.

Lemma set_heap_twice dst d1 d2 s :
  set_heap (<[dst := d2]> (heap (set_heap (<[dst := d1]> (heap s)) s))) (set_heap (<[dst := d1]> (heap s)) s)
  = set_heap (<[dst := d2]> (heap s)) s.
Proof. unfold set_heap. simpl. by rewrite insert_insert_eq. Qed.

Lemma set_heap_same dst d s : heap s !! dst = Some d -> set_heap (<[dst := d]> (heap s)) s = s.
Proof. intros H. unfold set_heap. rewrite insert_id by done. by destruct s. Qed.

Lemma store_same p b s : heap s !! p = Some b -> store p b s = Ok (tt, s).
Proof. intros H. unfold store, modify. by rewrite set_heap_same. Qed.

(** One raw copy of the first [n] unread bytes of [b] into [d]. *)
Lemma copy_into d b n :
  wf d -> wf b -> 0 <= n <= zlen (contents b) -> _position d + n <= _limit d ->
  exists d', fst <$> writeBytes_raw (bytes b) (position b) n None d = Ok d' /\ wf d' /\ same_shape d d' /\
    _position d' = _position d + n /\
    buffer d' = splice (buffer d) (_position d) (take (Z.to_nat n) (contents b)).
Proof.
  intros Hd Hb Hn Hf. wf_facts Hb. rewrite zlen_contents in Hn by done.
  destruct (writeBytes_raw_fits d (bytes b) (position b) n None) as (d' & E & W & S & P & M);
    [done|unfold position; lia|lia|unfold position, bytes; lia|done|done|].
  exists d'. rewrite E. do 4 (split; [done|]). rewrite M. f_equal.
  unfold contents, slice, bytes, position. rewrite take_take. f_equal. lia.
Qed.

Lemma get_from_spec s q dst d :
  heap s !! dst = Some d -> wf d -> dst ∉ q -> stream_ok s q ->
  exists d', get_from q dst s = Ok (tt, set_heap (<[dst := d']> (heap s)) s) /\ wf d' /\ same_shape d d' /\
    let got := take (Z.to_nat (_limit d - _position d)) (mjoin (unread s <$> q)) in
    _position d' = _position d + zlen got /\ buffer d' = splice (buffer d) (_position d) got.
Proof.
  revert s d. induction q as [|p q IH]; intros s d Hd Hw Hn Hq; csimpl.
  - exists d. rewrite set_heap_same by done. split; [done|]. split; [done|]. split; [by repeat split|].
    rewrite take_nil. change (zlen []) with 0. rewrite splice_nil. split; [lia|done].
  - apply stream_ok_tail in Hq as (Hq & Hpq & Hp). apply not_elem_of_cons in Hn as [Hdp Hdq].
    destruct (pool_buf_lookup s p Hp) as (b & Hb & Hwb & _). wf_facts Hw. wf_facts Hwb.
    rewrite (bind_Ok _ _ _ _ _ (deref_Ok _ _ _ Hb)), (bind_Ok _ _ _ _ _ (deref_Ok _ _ _ Hd)).
    assert (Hu : unread s p = contents b) by (unfold unread; by rewrite Hb).
    pose proof (zlen_contents b Hwb) as Hlen. rewrite Hu.
    rewrite (remaining_wf b), (remaining_wf d) by done.
    destruct (Z.gtb_spec (_limit b - _position b) (_limit d - _position d)) as [Hgt|Hle].
    + destruct (copy_into d b (_limit d - _position d)) as (d' & E & W & S & P & M); [done|done|lia|lia|].
      rewrite (update_buf_Ok dst _ d d' s Hd) by (cbv beta; by rewrite remaining_wf).
      exists d'. do 3 (split; [done|]). cbn zeta.
      rewrite take_app_le by (unfold zlen in *; lia).
      split; [rewrite P|done]. unfold zlen in *. rewrite length_take. lia.
    + destruct (copy_into d b (_limit b - _position b)) as (d1 & E & W & S & P & M); [done|done|lia|lia|].
      rewrite (bind_Ok _ _ _ _ _ (update_buf_Ok dst _ d d1 s Hd E)).
      set (s1 := set_heap (<[dst := d1]> (heap s)) s).
      assert (Hd1 : heap s1 !! dst = Some d1) by apply lookup_insert_eq.
      rewrite (bind_Ok _ _ _ _ _ (deref_Ok _ _ _ Hd1)).
      assert (HM : buffer d1 = splice (buffer d) (_position d) (contents b)).
      { rewrite M. f_equal. apply take_ge. unfold zlen in *. lia. }
      pose proof S as (Sl & Sc & Sz). unfold hasRemaining. rewrite Sl, P.
      destruct (Z.ltb_spec (_position d + (_limit b - _position b)) (_limit d)) as [Hr|Hr]; simpl.
      * destruct (stream_ok_insert_ne s dst d1 q Hdq Hq) as [So Su].
        destruct (IH s1 d1 Hd1 W Hdq So) as (d' & E' & W' & S' & P' & M'). fold s1 in Su.
        rewrite Su in P', M'. rewrite Sl, P in P', M'.
        exists d'. rewrite E'. unfold s1. rewrite set_heap_twice. split; [done|]. split; [done|].
        destruct S' as (Sl' & Sc' & Sz').
        split; [by repeat split; congruence|]. cbn zeta.
        rewrite take_app_ge by (unfold zlen in *; lia).
        replace (Z.to_nat (_limit d - _position d) - length (contents b))%nat
          with (Z.to_nat (_limit d - (_position d + (_limit b - _position b)))) by (unfold zlen in *; lia).
        rewrite zlen_app. split; [lia|]. rewrite M', HM, <- Hlen. apply splice_splice; [lia|].
        pose proof (zlen_nonneg (mjoin (unread s <$> q))).
        unfold zlen in *. rewrite length_take. lia.
      * exists d1. do 3 (split; [done|]). cbn zeta.
        rewrite take_app_le by (unfold zlen in *; lia).
        rewrite take_ge by (unfold zlen in *; lia). split; [lia|done].
Qed.

Lemma hasData_from_spec s q :
  stream_ok s q -> hasData_from q s = Ok (negb (bool_decide (mjoin (unread s <$> q) = [])), s).
Proof.
  induction q as [|p q IH]; intros Hq; [done|]. simpl.
  apply stream_ok_tail in Hq as (Hq & Hpq & Hp).
  destruct (pool_buf_lookup s p Hp) as (b & Hb & Hwb & _). wf_facts Hwb.
  rewrite (bind_Ok _ _ _ _ _ (deref_Ok _ _ _ Hb)). csimpl.
  assert (Hu : unread s p = contents b) by (unfold unread; by rewrite Hb). rewrite Hu.
  pose proof (zlen_contents b Hwb) as Hlen. unfold hasRemaining.
  destruct (Z.ltb_spec (_position b) (_limit b)).
  - rewrite bool_decide_eq_false_2; [done|]. intros [E _]%app_eq_nil. rewrite E in Hlen.
    change (zlen []) with 0 in Hlen. lia.
  - rewrite IH by done. do 4 f_equal. apply bool_decide_ext.
    assert (contents b = []) as -> by (apply nil_length_inv; unfold zlen in *; lia). done.
Qed.

(** Giving back several buffers: the other held ones are as they were. *)
Definition released_all (s : Storage) (ps : list addr) (s' : Storage) : Prop :=
  pool_wf s' /\ forall q, q ∉ ps -> owned s q -> owned s' q /\ heap s' !! q = heap s !! q.

Lemma released_all_nil s : pool_wf s -> released_all s [] s.
Proof. by split. Qed.

Lemma reuse_pool_buf s p :
  pool_wf s -> pool_buf s p -> exists s', reuse p s = Ok (tt, s') /\ released s p s'.
Proof. intros Hs [Ho (b & Hb & Hw & Hc & Hl)]. by eapply reuse_spec. Qed.

Lemma reuse_all_spec s q :
  pool_wf s -> stream_ok s q -> exists s', reuse_all q s = Ok (tt, s') /\ released_all s q s'.
Proof.
  revert s. induction q as [|p q IH]; intros s Hs Hq.
  - exists s. split; [done|]. by apply released_all_nil.
  - apply stream_ok_tail in Hq as (Hq & Hn & Hp).
    destruct (reuse_pool_buf s p Hs Hp) as (s1 & E & HR). pose proof HR as (W & _ & K).
    destruct (stream_ok_released _ _ _ _ HR Hn Hq) as [Hq1 _].
    destruct (IH s1 W Hq1) as (s2 & E2 & W2 & K2). simpl. rewrite (bind_Ok _ _ _ _ _ E).
    exists s2. split; [done|]. split; [done|]. intros r Hr Ho.
    apply not_elem_of_cons in Hr as [Hne Hr]. destruct (K r Hne Ho) as [Ho1 H1].
    destruct (K2 r Hr Ho1) as [Ho2 H2]. split; [done|congruence].
Qed.

Lemma clear_stream_spec s st :
  pool_wf s -> stream_ok s (buffersQueue st) ->
  exists s', clear_stream st s = Ok (mkByteStream [], s') /\ released_all s (buffersQueue st) s'.
Proof.
  intros Hs Hq. destruct (reuse_all_spec s (buffersQueue st) Hs Hq) as (s' & E & R).
  destruct st as [q]. simpl in *. unfold clear_stream. simpl.
  destruct q as [|p q]; [injection E as <-; by exists s|].
  exists s'. split; [|done]. by rewrite (bind_Ok _ _ _ _ _ E).
Qed.

Lemma pool_buf_released_all s ps s' q :
  released_all s ps s' -> q ∉ ps -> pool_buf s q -> pool_buf s' q /\ unread s' q = unread s q.
Proof.
  intros [_ K] Hne [Ho (b & Hb & Hr)]. destruct (K q Hne Ho) as [Ho' Hh].
  unfold unread. rewrite Hh. split; [|done]. split; [done|]. exists b. by rewrite Hh.
Qed.

(** ** The theorems on the stream *)

(** One send round of the socket: [get] puts into the empty destination
    exactly the first bytes of the stream (as many as fit), and [discard] of
    the [n] bytes the kernel took leaves exactly the rest: no byte is lost,
    repeated or reordered, whatever the split into buffers. *)
Lemma stream_get_discard s st dst d n :
  pool_wf s -> stream_ok s (buffersQueue st) -> dst ∉ buffersQueue st ->
  owned s dst -> heap s !! dst = Some d -> wf d -> _position d = 0 -> 
  0 <= n <= Z.min (_limit d) (zlen (stream_bytes s st)) ->
  exists s1 s2 st', get st (Some dst) s = Ok (tt, s1) /\ discard n st s1 = Ok (st', s2) /\
    (unread (set_heap (alter flip dst (heap s1)) s1) dst = take (Z.to_nat (_limit d)) (stream_bytes s st)) /\
    stream_bytes s2 st' = drop (Z.to_nat n) (stream_bytes s st) /\
    pool_wf s2 /\ stream_ok s2 (buffersQueue st').
Proof.
  intros Hs Hq Hdq Ho Hd Hw Hp Hn. wf_facts Hw. unfold get, discard, stream_bytes.
  destruct (get_from_spec s (buffersQueue st) dst d Hd Hw Hdq Hq) as (d' & E & W' & S' & P' & M').
  rewrite Hp, Z.sub_0_r in P', M'. rewrite Z.add_0_l in P'.
  set (s1 := set_heap (<[dst := d']> (heap s)) s) in *.
  destruct (stream_ok_insert_ne s dst d' (buffersQueue st) Hdq Hq) as [So Su]. fold s1 in So, Su.
  destruct (discard_from_spec s1 (buffersQueue st) n) as (q' & s2 & E2 & P2 & So2 & B2 & _).
  - by apply pool_wf_insert.
  - done.
  - rewrite Su. unfold stream_bytes in Hn. lia.
  - lia.
  - exists s1, s2, (mkByteStream q'). split; [done|]. split; [by rewrite (bind_Ok _ _ _ _ _ E2)|].
    split; [|split; [by rewrite <- Su|done]].
    unfold unread. simpl. rewrite lookup_alter_eq, lookup_insert_eq. simpl.
    unfold contents, flip. simpl. rewrite P', M', Z.sub_0_r.
    apply slice_splice_same; [lia|]. unfold zlen in *. rewrite length_take. lia.
Qed.

(** [append] adds the buffer's unread bytes at the end of the stream,
    and [hasData] answers whether the stream has any byte left. *)
Lemma stream_append_hasData s st p :
  stream_ok s (buffersQueue st ++ [p]) ->
  stream_bytes s (append (Some p) st) = stream_bytes s st ++ unread s p /\
  hasData (append (Some p) st) s =
    Ok (negb (bool_decide (stream_bytes s st ++ unread s p = [])), s).
Proof.
  intros Hq. assert (E : stream_bytes s (append (Some p) st) = stream_bytes s st ++ unread s p).
  { unfold stream_bytes. simpl. rewrite fmap_app, join_app. csimpl. by rewrite app_nil_r. }
  split; [done|]. unfold hasData. simpl. rewrite hasData_from_spec by done.
  unfold stream_bytes in E. simpl in E. by rewrite E.
Qed.

(** ** Concrete streams for the examples *)

(** A pool-sized buffer of 8 bytes holding [bs]. *)
Definition small_buf (bs : list Z) : NBuf :=
  mkNBuf (bs ++ replicate (8 - length bs) 0) 0 (zlen bs) 8 false true JavaNull.

Definition demo_pool : Storage := bare_pool [small_buf [1; 2; 3]; small_buf [4; 5]; blank 4].
Definition demo_stream : ByteStream := mkByteStream [1%positive; 2%positive].

Lemma wf_small bs : (length bs <= 8)%nat -> Forall is_byte bs -> wf (small_buf bs).
Proof.
  intros Hl Hb. constructor; simpl; unfold zlen; rewrite ?length_app, ?length_replicate; try lia; try done.
  apply Forall_app. split; [done|]. by apply Forall_replicate.
Qed.

Lemma demo_stream_ok : stream_ok demo_pool (buffersQueue demo_stream).
Proof.
  split.
  - apply NoDup_cons. split; [set_solver|apply NoDup_singleton].
  - intros p Hp. simpl in Hp. rewrite elem_of_cons, list_elem_of_singleton in Hp.
    destruct Hp as [->| ->]; (split; [apply owned_bare; by eexists|]);
      eexists; (split; [reflexivity|]); (split; [apply wf_small; [simpl; lia|repeat constructor; done]|done]).
Qed.
