(* ===== verification/NetworkMessage.v ===== *)
(** * Packets: the wire header and the outgoing messages

    Models [PacketHeader] of [src/fastsocks/cpp/tcp/TcpConstant.h], the
    [memcpy] that fills it and [checkHeader] of [TcpConnection.cpp], and
    [NetworkMessage.{h,cpp}], which serializes a request body behind a
    20-byte big-endian header. *)

From S2P Require Import Prelude.
From S2P Require Import FormatTools.
From S2P Require Import NativeByteBuffer.
From S2P Require Import BufferStorage.
From S2P Require Import ByteStream.

(** The packed struct, in host (little-endian) order as [memcpy] leaves it. *)
Record PacketHeader : Type := mkPacketHeader {
  pkgLen : Z;   (* uint16_t *)
  headLen : Z;  (* uint8_t *)
  version : Z;  (* uint8_t *)
  cmd : Z;      (* int32_t *)
  uin : Z;      (* int64_t *)
  seq : Z       (* int32_t *)
}.

(** [memcpy(&packetHeader, bytes, sizeof(PacketHeader))] *)
Definition PacketHeader_of_bytes (bs : list Z) : PacketHeader :=
  mkPacketHeader (le_value (slice bs 0 2)) (le_value (slice bs 2 1)) (le_value (slice bs 3 1))
    (i32 (le_value (slice bs 4 4))) (i64 (le_value (slice bs 8 8))) (i32 (le_value (slice bs 16 4))).

Definition sizeof_PacketHeader : Z := 20.

Definition checkHeader (h : PacketHeader) : bool :=
  if negb (Z.land (version h) 255 =? 0) && negb (Z.land (version h) 255 =? 1) then false
  else if headLen h >? htons (pkgLen h) then false
  else if headLen h <? 20 then false
  else true.

(** ** Outgoing messages *)

Definition DEFAULT_HEAD_LENGTH : Z := 20.
Definition DEFAULT_VERSION : Z := 1.

Record NetworkMessage : Type := mkNetworkMessage {
  outgoingBody : option addr;
  cmdId : Z;
  messageSeq : Z;
  packLength : Z
}.

(** A message as [new NetworkMessage] and the two assignments before
    [serializeToBuffer] leave it. *)
Definition new_message (cmdId messageSeq : Z) : NetworkMessage := mkNetworkMessage None cmdId messageSeq 0.

Section Serialize.
Context {J : Jni}.

(** [packLength = (uint16_t) DEFAULT_HEAD_LENGTH + (uint16_t) buffer->limit()] *)
Definition pack_length (buffer : option addr) : SR Storage Z :=
  match buffer with
  | None => mret DEFAULT_HEAD_LENGTH
  | Some p => b ← deref p; mret (u16 (u16 DEFAULT_HEAD_LENGTH + u16 (limit b)))
  end.

(** [getUin] is the manager's account number. *)
Definition serializeToBuffer (getUin : Z) (m : NetworkMessage) (buffer : option addr)
    : SR Storage NetworkMessage :=
  len ← pack_length buffer;
  out ← getBuffer len;
  update_buf out (fun b => fst <$> writeInt16 (i16 len) None b);;
  update_buf out (fun b => fst <$> writeByte DEFAULT_HEAD_LENGTH None b);;
  update_buf out (fun b => fst <$> writeByte DEFAULT_VERSION None b);;
  update_buf out (fun b => fst <$> writeInt32 (cmdId m) None b);;
  update_buf out (fun b => fst <$> writeInt64 (i64 getUin) None b);;
  update_buf out (fun b => fst <$> writeInt32 (messageSeq m) None b);;
  match buffer with
  | None => mret tt
  | Some p => writeBytes_heap out p;; reuse p
  end;;
  mret (mkNetworkMessage (Some out) (cmdId m) (messageSeq m) len).
End Serialize.

(** ** The wire format *)

(** The twenty header bytes of a message. *)
Definition header_bytes (len cmdId uin seq : Z) : list Z :=
  be_bytes 2 len ++ [DEFAULT_HEAD_LENGTH; DEFAULT_VERSION] ++ be_bytes 4 cmdId ++ be_bytes 8 uin ++ be_bytes 4 seq.

Lemma zlen_header len c u q : zlen (header_bytes len c u q) = 20.
Proof. done. Qed.

Lemma header_bytes_bytes len c u q : Forall is_byte (header_bytes len c u q).
Proof.
  unfold header_bytes. repeat (apply Forall_app; split); auto using be_bytes_bytes.
  repeat constructor; done.
Qed.

Arguments header_bytes : simpl never.

Lemma contents_rewind b : contents (rewind b) = slice (buffer b) 0 (_limit b).
Proof. unfold contents, rewind. simpl. by rewrite Z.sub_0_r. Qed.

(** A writer that puts exactly the bytes [bs] when they fit. *)
Definition writes (w : NBuf -> res NBuf) (bs : list Z) : Prop :=
  forall b, wf b -> _position b + zlen bs <= _limit b ->
  exists b', w b = Ok b' /\ wf b' /\ same_shape b b' /\ _position b' = _position b + zlen bs /\
    buffer b' = splice (buffer b) (_position b) bs.

Lemma writes_seq w1 w2 b1 b2 :
  writes w1 b1 -> writes w2 b2 -> writes (fun b => b' ← w1 b; w2 b') (b1 ++ b2).
Proof.
  intros H1 H2 b Hb Hf. rewrite zlen_app in Hf |- *. wf_facts Hb.
  pose proof (zlen_nonneg b1). pose proof (zlen_nonneg b2).
  destruct (H1 b) as (b' & -> & W' & (L' & C' & Z') & P' & M'); [done|lia|]. simpl.
  destruct (H2 b') as (b'' & -> & W'' & (L'' & C'' & Z'') & P'' & M''); [done|lia|].
  exists b''. split; [done|]. split; [done|]. split; [by repeat split; congruence|].
  split; [lia|]. rewrite M'', M', P'. apply splice_splice; lia.
Qed.

Lemma writes_checked n bs w :
  zlen bs = n -> Forall is_byte bs ->
  (forall b, wf b -> w b = fst <$> (if overruns n b then Ok (b, raise_error None)
                                   else b' ← put_bytes bs b; Ok (b', None))) ->
  writes w bs.
Proof.
  intros Hn Hb Hw b H Hf. pose proof (zlen_nonneg bs). rewrite Hw, overruns_false by (done || lia).
  destruct (put_bytes_spec b bs) as (b' & -> & R); [done|lia|done|]. simpl. eauto.
Qed.

Lemma writes_Byte x : writes (fun b => fst <$> writeByte x None b) (be_bytes 1 x).
Proof.
  apply (writes_checked 1); [done|apply be_bytes_bytes|]. intros b H. unfold writeByte.
  by rewrite (wf_mode _ H).
Qed.

Lemma writes_Int16 x : writes (fun b => fst <$> writeInt16 x None b) (be_bytes 2 x).
Proof.
  apply (writes_checked 2); [done|apply be_bytes_bytes|]. intros b H. unfold writeInt16.
  by rewrite (wf_mode _ H).
Qed.

Lemma writes_Int32 x : writes (fun b => fst <$> writeInt32 x None b) (be_bytes 4 x).
Proof.
  apply (writes_checked 4); [done|apply be_bytes_bytes|]. intros b H. unfold writeInt32.
  by rewrite (wf_mode _ H).
Qed.

Lemma writes_Int64 x : writes (fun b => fst <$> writeInt64 x None b) (be_bytes 8 x).
Proof.
  apply (writes_checked 8); [done|apply be_bytes_bytes|]. intros b H. unfold writeInt64.
  by rewrite (wf_mode _ H).
Qed.

#[export] Hint Resolve writes_seq writes_Byte writes_Int16 writes_Int32 writes_Int64 : nbuf.

Lemma be_bytes_wrapS n w x : 0 < w -> w = 8 * Z.of_nat n -> be_bytes n (wrapS w x) = be_bytes n x.
Proof. intros Hw ->. apply be_bytes_mod. by apply (wrapU_wrapS (8 * Z.of_nat n)). Qed.

(** Two method calls on one buffer are one update. *)
Lemma update_buf_seq {B} p f g (k : SR Storage B) s :
  (update_buf p f;; update_buf p g;; k) s = (update_buf p (fun b => b' ← f b; g b');; k) s.
Proof.
  unfold update_buf, deref, store, modify, lift_res, mbind, SR_bind.
  destruct (heap s !! p) as [b|]; simpl; [|done].
  unfold res_bind. destruct (f b) as [b'|]; simpl; [|done].
  rewrite lookup_insert_eq. destruct (g b') as [b''|]; simpl; [|done].
  unfold set_heap. simpl. by rewrite insert_insert_eq.
Qed.

(** The six header writes as one update. *)
Definition header_writer (len c u q : Z) (b : NBuf) : res NBuf :=
  b5 ← (b4 ← (b3 ← (b2 ← (b1 ← (fst <$> writeInt16 (i16 len) None b);
      fst <$> writeByte DEFAULT_HEAD_LENGTH None b1); fst <$> writeByte DEFAULT_VERSION None b2);
      fst <$> writeInt32 c None b3); fst <$> writeInt64 (i64 u) None b4);
      fst <$> writeInt32 q None b5.

Lemma header_run {B} s out b0 b len c u q (k : SR Storage B) :
  heap s !! out = Some b0 -> header_writer len c u q b0 = Ok b ->
  (update_buf out (fun b => fst <$> writeInt16 (i16 len) None b);;
   update_buf out (fun b => fst <$> writeByte DEFAULT_HEAD_LENGTH None b);;
   update_buf out (fun b => fst <$> writeByte DEFAULT_VERSION None b);;
   update_buf out (fun b => fst <$> writeInt32 c None b);;
   update_buf out (fun b => fst <$> writeInt64 (i64 u) None b);;
   update_buf out (fun b => fst <$> writeInt32 q None b);; k) s
  = k (set_heap (<[out := b]> (heap s)) s).
Proof.
  intros H0 E. rewrite !update_buf_seq. by rewrite (bind_Ok _ _ _ _ _ (update_buf_Ok out _ b0 b s H0 E)).
Qed.

Lemma writes_header len c u q : writes (header_writer len c u q) (header_bytes len c u q).
Proof.
  assert (E : header_bytes len c u q = ((((be_bytes 2 (i16 len) ++ be_bytes 1 DEFAULT_HEAD_LENGTH) ++
    be_bytes 1 DEFAULT_VERSION) ++ be_bytes 4 c) ++ be_bytes 8 (i64 u)) ++ be_bytes 4 q).
  { rewrite (be_bytes_wrapS 2 16), (be_bytes_wrapS 8 64), <- !app_assoc by lia. done. }
  rewrite E.
  apply (writes_seq (fun b => b4 ← (b3 ← (b2 ← (b1 ← _; _); _); _); _) _ _ _); [|apply writes_Int32].
  apply (writes_seq (fun b => b3 ← (b2 ← (b1 ← _; _); _); _) _ _ _); [|apply writes_Int64].
  apply (writes_seq (fun b => b2 ← (b1 ← _; _); _) _ _ _); [|apply writes_Int32].
  apply (writes_seq (fun b => b1 ← _; _) _ _ _); [|apply writes_Byte].
  apply writes_seq; [apply writes_Int16|apply writes_Byte].
Qed.

Section SerializeSpec.
Context {J : Jni} {L : JniLaws J}.

(** The state after the header writes: the fresh buffer holds the header
    and has room for the body. *)
Lemma serialize_header s len c u q :
  pool_wf s -> 20 <= len <= 65535 ->
  exists out b s1, getBuffer len s = Ok (out, s1) /\ fresh_from s out s1 /\ _capacity b = capacity_for len /\
    (forall B (k : SR Storage B),
      (update_buf out (fun b => fst <$> writeInt16 (i16 len) None b);;
       update_buf out (fun b => fst <$> writeByte DEFAULT_HEAD_LENGTH None b);;
       update_buf out (fun b => fst <$> writeByte DEFAULT_VERSION None b);;
       update_buf out (fun b => fst <$> writeInt32 c None b);;
       update_buf out (fun b => fst <$> writeInt64 (i64 u) None b);;
       update_buf out (fun b => fst <$> writeInt32 q None b);; k) s1
      = k (set_heap (<[out := b]> (heap s1)) s1)) /\
    wf b /\ _position b = 20 /\ _limit b = len /\ slice (buffer b) 0 20 = header_bytes len c u q.
Proof.
  intros Hs Hl.
  destruct (getBuffer_small len s Hs) as (out & b0 & s1 & E & F & H0 & W0 & P0 & L0 & C0);
    [unfold pool_max; lia|].
  pose proof (zlen_header len c u q) as Hz. wf_facts W0.
  destruct (writes_header len c u q b0 W0) as (b & Eb & W & (Sl & Sc & Sz) & P & M); [lia|].
  exists out, b, s1. split; [done|]. split; [done|].
  split; [by rewrite Sc|].
  split; [|split; [done|split; [lia|split; [lia|]]]].
  - intros B k. by apply (header_run s1 out b0).
  - rewrite M, P0, <- Hz. apply slice_splice_same; lia.
Qed.

Lemma serialize_body s p b m getUin :
  pool_wf s -> pool_buf s p -> heap s !! p = Some b -> _position b = 0 -> _limit b <= 65515 ->
  exists out o s', serializeToBuffer getUin m (Some p) s =
      Ok (mkNetworkMessage (Some out) (cmdId m) (messageSeq m) (20 + _limit b), s') /\
    heap s' !! out = Some o /\ wf o /\ pool_capacity o /\
    contents (rewind o) = header_bytes (20 + _limit b) (cmdId m) getUin (messageSeq m) ++ contents b /\
    pool_wf s' /\ ~ owned s out /\ owned s' out /\ ~ owned s' p /\
    (forall r, r <> p -> owned s r -> owned s' r /\ heap s' !! r = heap s !! r) /\
    _capacity o = capacity_for (20 + _limit b) /\
    exists s1, getBuffer (20 + _limit b) s = Ok (out, s1) /\
      forall c, class_of (_capacity b) <> Some c -> free_list c s' = free_list c s1.
Proof.
  intros Hs [Ho (b' & Hb' & Hw & Hpc & Hcap)] Hb Hp Hl. rewrite Hb in Hb'. injection Hb' as <-.
  wf_facts Hw. unfold serializeToBuffer, pack_length.
  assert (Hlen : u16 (u16 DEFAULT_HEAD_LENGTH + u16 (limit b)) = 20 + _limit b).
  { unfold limit. rewrite (wrapU_id 16 (_limit b)) by (unfold is_u; lia).
    change (u16 DEFAULT_HEAD_LENGTH) with 20. apply wrapU_id. unfold is_u. lia. }
  rewrite (bind_Ok _ _ s (20 + _limit b) s)
    by (rewrite (bind_Ok _ _ _ _ _ (deref_Ok _ _ _ Hb)); by rewrite Hlen).
  destruct (serialize_header s (20 + _limit b) (cmdId m) getUin (messageSeq m) Hs)
    as (out & o1 & s1 & E & (Pw & Hno & Hoo & HK) & Oc & Hrun & W1 & P1 & L1 & M1); [lia|].
  rewrite (bind_Ok _ _ _ _ _ E), Hrun. destruct (HK p Ho) as [Ho1 Hh1].
  assert (Hne : out <> p) by (intros ->; done).
  set (s2 := set_heap (<[out := o1]> (heap s1)) s1).
  assert (Hb2 : heap s2 !! p = Some b) by (simpl; rewrite lookup_insert_ne by done; congruence).
  assert (Ho2 : heap s2 !! out = Some o1) by apply lookup_insert_eq.
  destruct (writeBytes_fits o1 b None W1 Hw) as (o & Ew & W & (Sl & Sc & Sz) & P & M); [lia|].
  set (s3 := set_heap (<[p := set__position (_limit b) b]> (heap (set_heap (<[out := o]> (heap s2)) s2)))
               (set_heap (<[out := o]> (heap s2)) s2)).
  assert (E3 : writeBytes_heap out p s2 = Ok (tt, s3)).
  { unfold writeBytes_heap. rewrite decide_False by done.
    rewrite (bind_Ok _ _ _ _ _ (deref_Ok _ _ _ Hb2)), (bind_Ok _ _ _ _ _ (deref_Ok _ _ _ Ho2)).
    by rewrite Ew. }
  assert (Pw3 : pool_wf s3).
  { apply pool_wf_insert; [apply pool_wf_insert; [apply pool_wf_insert; done|by apply owned_insert]|].
    by do 2 apply owned_insert. }
  assert (Hb3 : heap s3 !! p = Some (set__position (_limit b) b)) by apply lookup_insert_eq.
  destruct (reuse_spec p (set__position (_limit b) b) s3) as (s4 & E4 & HR);
    [done|by do 3 apply owned_insert|done|apply wf_set_position; [done|lia]|done|done|].
  exists out, o, s4.
  rewrite (bind_Ok _ _ s2 tt s4) by (rewrite (bind_Ok _ _ _ _ _ E3); done).
  destruct HR as (Pw4 & Hn4 & HK4).
  destruct (HK4 out Hne) as [Ho4 Hh4]; [by do 3 apply owned_insert|].
  split; [done|].
  assert (Ho3 : heap s3 !! out = Some o).
  { simpl. rewrite lookup_insert_ne by done. apply lookup_insert_eq. }
  split; [congruence|]. split; [done|].
  split; [apply (capacity_for_pool o (20 + _limit b)); by rewrite Sc|]. split.
  { rewrite contents_rewind, Sl, L1, slice_app by lia. f_equal.
    - rewrite M, slice_splice_before by (wf_facts W1; lia). done.
    - rewrite Z.add_0_l, M, P1. pose proof (zlen_contents b Hw) as Hz. rewrite Hp, Z.sub_0_r in Hz.
      rewrite <- Hz. apply slice_splice_same; [lia|]. wf_facts W1. lia. }
  split; [done|]. split; [done|]. split; [done|]. split; [done|]. split.
  { intros r Hr Hor. destruct (HK r Hor) as [Hor1 Hhr1].
    assert (out <> r) by (intros ->; done).
    destruct (HK4 r Hr) as [Hor4 Hhr4]; [by do 3 apply owned_insert|].
    split; [done|]. rewrite Hhr4, <- Hhr1. simpl. by rewrite !lookup_insert_ne. }
  split; [by rewrite Sc|]. exists s1. split; [done|]. intros c Hc.
  rewrite (reuse_lists p (set__position (_limit b) b) s3 s4 c E4 Hb3 Hc). unfold s3, s2. by rewrite !free_list_set_heap.
Qed.
End SerializeSpec.

(** ** Reading a header back *)

Lemma htonl_i32_le_value bs :
  Forall is_byte bs -> length bs = 4%nat -> htonl (i32 (le_value bs)) = be_value bs.
Proof.
  intros Hb Hl. rewrite <- (htonl_le_value bs Hb Hl). unfold htonl.
  by rewrite (be_bytes_wrapS 4 32) by lia.
Qed.

Lemma header_fields len c u q rest :
  let h := PacketHeader_of_bytes (header_bytes len c u q ++ rest) in
  ntohs (pkgLen h) = u16 len /\ headLen h = 20 /\ version h = 1 /\
  ntohl (cmd h) = u32 c /\ ntohl (seq h) = u32 q.
Proof.
  intros h. subst h. unfold PacketHeader_of_bytes, ntohs, ntohl. cbn [pkgLen headLen version cmd seq].
  change (slice (header_bytes len c u q ++ rest) 0 2) with (be_bytes 2 len).
  change (slice (header_bytes len c u q ++ rest) 4 4) with (be_bytes 4 c).
  change (slice (header_bytes len c u q ++ rest) 16 4) with (be_bytes 4 q).
  rewrite htons_le_value, !htonl_i32_le_value by (apply be_bytes_bytes || apply length_be_bytes).
  rewrite !be_value_be_bytes. repeat split; done.
Qed.

Lemma header_checks len c u q rest :
  20 <= len <= 65535 -> checkHeader (PacketHeader_of_bytes (header_bytes len c u q ++ rest)) = true.
Proof.
  intros Hl. destruct (header_fields len c u q rest) as (Hp & Hh & Hv & _).
  unfold checkHeader. rewrite Hv, Hh. unfold ntohs in Hp. rewrite Hp, wrapU_id by (unfold is_u; lia).
  simpl. rewrite Z.gtb_ltb. destruct (Z.ltb_spec len 20); [lia|done].
Qed.

(** C10: for a request body in a pool buffer, at position 0 and of at most
    65515 bytes, with a command and a sequence number of 32 bits: the packet
    serialized by the sender is accepted by the receiver's header check, and
    the receiver reads back the packet length, the command, the sequence
    number and the body. *)
Theorem serialize_parse_roundtrip {J : Jni} {L : JniLaws J} s p b m getUin :
  pool_wf s -> pool_buf s p -> heap s !! p = Some b -> _position b = 0 -> _limit b <= 65515 ->
  is_s 32 (cmdId m) -> is_s 32 (messageSeq m) ->
  exists out o s' m', serializeToBuffer getUin m (Some p) s = Ok (m', s') /\
    outgoingBody m' = Some out /\ heap s' !! out = Some o /\
    let bs := contents (rewind o) in let h := PacketHeader_of_bytes bs in
    checkHeader h = true /\ ntohs (pkgLen h) = zlen bs /\ packLength m' = zlen bs /\
    i32 (ntohl (cmd h)) = cmdId m /\ i32 (ntohl (seq h)) = messageSeq m /\
    drop (Z.to_nat (headLen h)) bs = contents b.
Proof.
  intros Hs Hp Hb H0 Hl Hc Hq.
  destruct (serialize_body s p b m getUin Hs Hp Hb H0 Hl) as (out & o & s' & E & Ho & _ & _ & C & _).
  destruct Hp as [_ (b' & Hb' & Hw & _)]. rewrite Hb in Hb'. injection Hb' as <-. wf_facts Hw.
  exists out, o, s'. eexists. split; [done|]. split; [done|]. split; [done|].
  cbn zeta. rewrite C.
  destruct (header_fields (20 + _limit b) (cmdId m) getUin (messageSeq m) (contents b))
    as (F1 & F2 & _ & F3 & F4).
  split; [apply header_checks; lia|]. simpl packLength.
  rewrite F1, F2, F3, F4, zlen_app, zlen_header, zlen_contents, H0 by done.
  rewrite !(wrapS_wrapU 32), !wrapS_id by (done || lia).
  rewrite wrapU_id by (unfold is_u; lia).
  split; [lia|]. split; [lia|]. done.
Qed.

Lemma serialize_parse_roundtrip_witness :
  exists out o s' m', serializeToBuffer 7 (new_message 300 4) (Some 1%positive) demo_pool = Ok (m', s') /\
    outgoingBody m' = Some out /\ heap s' !! out = Some o /\
    let bs := contents (rewind o) in let h := PacketHeader_of_bytes bs in
    checkHeader h = true /\ ntohs (pkgLen h) = zlen bs /\ packLength m' = zlen bs /\
    i32 (ntohl (cmd h)) = 300 /\ i32 (ntohl (seq h)) = 4 /\
    drop (Z.to_nat (headLen h)) bs = contents (small_buf [1; 2; 3]).
Proof.
  apply (serialize_parse_roundtrip demo_pool 1%positive (small_buf [1; 2; 3]) (new_message 300 4) 7);
    [apply pool_wf_bare|apply demo_stream_ok; left|done..].
Defined.

(** ** Bodies that do not fit the 16-bit length *)

(** A writer that succeeds, whether or not its [n] bytes fit. *)
Definition keeps (n : Z) (w : NBuf -> res NBuf) : Prop :=
  forall b, wf b -> _limit b + 8 < 2 ^ 32 ->
  exists b', w b = Ok b' /\ wf b' /\ same_shape b b' /\ _position b' <= _position b + n.

Lemma keeps_seq n1 n2 w1 w2 : keeps n1 w1 -> keeps n2 w2 -> keeps (n1 + n2) (fun b => b' ← w1 b; w2 b').
Proof.
  intros H1 H2 b Hb Hl. destruct (H1 b) as (b' & -> & W & (L1 & C1 & Z1) & P1); [done..|]. simpl.
  destruct (H2 b') as (b'' & -> & W' & (L2 & C2 & Z2) & P2); [done|lia|].
  exists b''. split; [done|]. split; [done|]. split; [repeat split; congruence|lia].
Qed.

Lemma keeps_checked n bs w :
  zlen bs = n -> n <= 8 -> Forall is_byte bs ->
  (forall b, wf b -> w b = fst <$> (if overruns n b then Ok (b, raise_error None)
                                   else b' ← put_bytes bs b; Ok (b', None))) ->
  keeps n w.
Proof.
  intros Hn H8 Hb Hw b H Hl. wf_facts H. pose proof (zlen_nonneg bs). rewrite Hw by done.
  destruct (Z.le_gt_cases (_position b + n) (_limit b)).
  - rewrite overruns_false by (done || lia).
    destruct (put_bytes_spec b bs) as (b' & -> & ? & ? & ? & _); [done|lia|done|]. exists b'. simpl. split; [done|]. split; [done|]. split; [done|lia].
  - rewrite overruns_true by (done || lia). exists b. simpl. split; [done|]. split; [done|]. split; [done|lia].
Qed.

Ltac solve_keeps n u :=
  apply (keeps_checked n (be_bytes (Z.to_nat n) u)); [done|lia|apply be_bytes_bytes|];
  intros b H; by rewrite (wf_mode _ H).

Lemma keeps_Byte x : keeps 1 (fun b => fst <$> writeByte x None b).
Proof. unfold writeByte. solve_keeps 1 x. Qed.
Lemma keeps_Int16 x : keeps 2 (fun b => fst <$> writeInt16 x None b).
Proof. unfold writeInt16. solve_keeps 2 x. Qed.
Lemma keeps_Int32 x : keeps 4 (fun b => fst <$> writeInt32 x None b).
Proof. unfold writeInt32. solve_keeps 4 x. Qed.
Lemma keeps_Int64 x : keeps 8 (fun b => fst <$> writeInt64 x None b).
Proof. unfold writeInt64. solve_keeps 8 x. Qed.

Lemma keeps_header len c u q : keeps 20 (header_writer len c u q).
Proof.
  apply (keeps_seq 16 4 (fun b => b4 ← (b3 ← (b2 ← (b1 ← _; _); _); _); _) _); [|apply keeps_Int32].
  apply (keeps_seq 8 8 (fun b => b3 ← (b2 ← (b1 ← _; _); _); _) _); [|apply keeps_Int64].
  apply (keeps_seq 4 4 (fun b => b2 ← (b1 ← _; _); _) _); [|apply keeps_Int32].
  apply (keeps_seq 3 1 (fun b => b1 ← _; _) _); [|apply keeps_Byte].
  apply (keeps_seq 2 1); [apply keeps_Int16|apply keeps_Byte].
Qed.

(** The 16-bit length of a packet with a body of more than 65515 bytes. *)
Lemma wrapped_length n :
  65516 <= n <= pool_max -> u16 (u16 DEFAULT_HEAD_LENGTH + u16 n) = (20 + n) mod 65536 /\
    0 <= (20 + n) mod 65536 < n.
Proof.
  intros Hn. change (u16 DEFAULT_HEAD_LENGTH) with 20. unfold wrapU. change (2 ^ 16) with 65536. rewrite Zplus_mod_idemp_r.
  split; [done|]. pose proof (Z.mod_pos_bound (20 + n) 65536 ltac:(lia)). pose proof (Z.div_mod (20 + n) 65536 ltac:(lia)) as D.
  assert (1 <= (20 + n) / 65536) by (apply Z.div_le_lower_bound; lia). lia.
Qed.

(** C37: the packet length is kept in 16 bits: for a pool buffer at position
    0 with a body of 65516 bytes or more (pool buffers end at 131272), the
    length of the packet is 20 plus the body modulo 65536; the outgoing
    buffer has that limit, at most the 20 bytes of the header are written,
    nothing of the body, and the serializer returns as usual. *)
Theorem serialize_wraps {J : Jni} {L : JniLaws J} s p b m getUin :
  pool_wf s -> pool_buf s p -> heap s !! p = Some b -> _position b = 0 -> 65516 <= _limit b ->
  exists m' s' out o, serializeToBuffer getUin m (Some p) s = Ok (m', s') /\
    outgoingBody m' = Some out /\ heap s' !! out = Some o /\
    packLength m' = (20 + _limit b) mod 65536 /\ _limit o = packLength m' /\ _position o <= 20.
Proof.
  intros Hs [Ho (b' & Hb' & Hw & Hpc & Hcap)] Hb Hp Hl. rewrite Hb in Hb'. injection Hb' as <-.
  wf_facts Hw. unfold serializeToBuffer, pack_length.
  destruct (wrapped_length (_limit b)) as [Hlen Hr]; [unfold pool_max; lia|]. set (len := (20 + _limit b) mod 65536) in *.
  rewrite (bind_Ok _ _ s len s)
    by (rewrite (bind_Ok _ _ _ _ _ (deref_Ok _ _ _ Hb)); by unfold limit; rewrite Hlen).
  destruct (getBuffer_spec len s Hs) as (out & o0 & s1 & E & F & H0' & W0 & P0 & L0 & C0);
    [unfold pool_max; lia|].
  destruct F as (Pw & Hno & Hoo & HK). destruct (HK p Ho) as [Ho1 Hh1].
  assert (Hne : out <> p) by (intros ->; done).
  destruct (keeps_header len (cmdId m) getUin (messageSeq m) o0 W0)
    as (o & Eo & W & (Sl & Sc & Sz) & Po); [lia|]. wf_facts W.
  rewrite (bind_Ok _ _ _ _ _ E), (header_run s1 out o0 o) by done.
  set (s2 := set_heap (<[out := o]> (heap s1)) s1).
  assert (Hb2 : heap s2 !! p = Some b) by (simpl; rewrite lookup_insert_ne by done; congruence).
  assert (Ho2 : heap s2 !! out = Some o) by apply lookup_insert_eq.
  assert (Ew : writeBytes b None o = Ok (o, b, None)).
  { unfold writeBytes. rewrite u32_id by lia. destruct (Z.leb_spec (_limit b - _position b) 0); [lia|].
    rewrite (wf_mode _ W), overruns_true by (done || lia). done. }
  assert (E3 : writeBytes_heap out p s2 = Ok (tt, s2)).
  { unfold writeBytes_heap. rewrite decide_False by done.
    rewrite (bind_Ok _ _ _ _ _ (deref_Ok _ _ _ Hb2)), (bind_Ok _ _ _ _ _ (deref_Ok _ _ _ Ho2)), Ew.
    change ((store out o;; store p b) s2 = Ok (tt, s2)).
    rewrite (bind_Ok _ _ s2 tt s2) by (by apply store_same). by apply store_same. }
  destruct (reuse_spec p b s2) as (s4 & E4 & (_ & _ & K));
    [by apply pool_wf_insert|by apply owned_insert|done..|].
  destruct (K out Hne) as [_ Hh]; [by apply owned_insert|].
  rewrite (bind_Ok _ _ s2 tt s4) by (rewrite (bind_Ok _ _ _ _ _ E3); exact E4).
  eexists _, s4, out, o. split; [reflexivity|]. split; [done|]. split; [congruence|]. simpl. split; [done|lia].
Qed.

(** A full-size body in a buffer of the 128k class; the bytes are read
    from the block only when they are copied, so the block may be given by
    its length. *)
Definition wide_block : list Z := Nat.iter 17 (fun l => l ++ l) [0].

Lemma zlen_wide : zlen wide_block = 131072.
Proof.
  assert (forall n, zlen (Nat.iter n (fun l : list Z => l ++ l) [0]) = 2 ^ Z.of_nat n) as H; [|apply (H 17%nat)].
  induction n as [|n IH]; [done|]. cbn [Nat.iter nat_rect].
  rewrite zlen_app. unfold Nat.iter in IH. rewrite IH, Nat2Z.inj_succ, Z.pow_succ_r by lia. lia.
Qed.

Lemma bytes_wide : Forall is_byte wide_block.
Proof.
  unfold wide_block. assert (forall n, Forall is_byte (Nat.iter n (fun l : list Z => l ++ l) [0])) as H; [|apply H].
  induction n as [|n IH]; [repeat constructor; done|]. by apply Forall_app.
Qed.

Definition wide_buf : NBuf := mkNBuf (wide_block ++ replicate 200 0) 0 65520 131272 false true JavaNull.

Lemma wf_wide : wf wide_buf.
Proof.
  assert (Hz : zlen (wide_block ++ replicate 200 0) = 131272) by (rewrite zlen_app, zlen_wide; done).
  constructor; cbn [wide_buf calculateSizeOnly _position _limit _capacity buffer]; rewrite ?Hz; try lia; try done.
  apply Forall_app. split; [apply bytes_wide|by apply Forall_replicate].
Qed.

Lemma serialize_wraps_witness :
  exists m' s' out o, serializeToBuffer 7 (new_message 300 4) (Some 1%positive) (bare_pool [wide_buf]) = Ok (m', s') /\
    outgoingBody m' = Some out /\ heap s' !! out = Some o /\
    packLength m' = (20 + 65520) mod 65536 /\ _limit o = packLength m' /\ _position o <= 20.
Proof.
  apply (serialize_wraps (bare_pool [wide_buf]) 1%positive wide_buf).
  - apply pool_wf_bare.
  - split; [apply owned_bare; by eexists|]. exists wide_buf. split; [done|]. split; [apply wf_wide|done].
  - done.
  - done.
  - done.
Defined.
