(* ===== verification/Datacenter.v ===== *)
(** * Datacenter: the server addresses and their rotation

    Models the address part of [src/fastsocks/cpp/tcp/Datacenter.{h,cpp}]:
    the forced server [nioServer], the list of added servers with two ports
    each, and the two indices that walk over them after failed connects.
    [std::map::operator[]] inserts a null pointer for a missing key, so
    reading through it is the fault [NullDereference]; [sprintf] into the
    64-byte [nioIp] past its end is [OutOfBounds].  The handshake part of
    the class and the reconnect of [setAddressAndPort] need the connection
    and are in [Requests.v]. *)

From S2P Require Import Prelude.

Inductive HandshakeState : Type := HandshakeStateIdel | HandshakeStateIng | HandshakeStateSuccessed.

#[export] Instance HandshakeState_eq_dec : EqDecision HandshakeState.
Proof. solve_decision. Defined.

Record Datacenter : Type := mkDatacenter {
  addresses : list string;
  ports : gmap string (Z * Z);
  handshakeState : HandshakeState;
  currentAddressIndex : Z;
  currentPortIndex : Z;
  nioIp : string;
  nioPort : Z
}.

Definition set_handshakeState (h : HandshakeState) (d : Datacenter) : Datacenter :=
  mkDatacenter (addresses d) (ports d) h (currentAddressIndex d) (currentPortIndex d) (nioIp d) (nioPort d).
Definition set_indices (a p : Z) (d : Datacenter) : Datacenter :=
  mkDatacenter (addresses d) (ports d) (handshakeState d) a p (nioIp d) (nioPort d).
Definition set_nioServer (ip : string) (port : Z) (d : Datacenter) : Datacenter :=
  mkDatacenter (addresses d) (ports d) (handshakeState d) (currentAddressIndex d) (currentPortIndex d) ip port.
Definition set_servers (l : list string) (m : gmap string (Z * Z)) (d : Datacenter) : Datacenter :=
  mkDatacenter l m (handshakeState d) (currentAddressIndex d) (currentPortIndex d) (nioIp d) (nioPort d).

Definition HANDSHAKE_CMD : Z := 257.
Definition PING_CMD : Z := 259.

Definition adds : list string :=
  ["192.168.1.100"; "192.168.1.110"; "192.168.1.112"; "192.168.1.113"; "192.168.1.114"]%string.

(** The constructor, with [randomIndex = rand() % 5]. *)
Definition Datacenter_new (randomIndex : nat) : Datacenter :=
  mkDatacenter [] ∅ HandshakeStateIdel 0 0 (default ""%string (adds !! randomIndex)) 443.

Definition defaultPorts : list Z := [-1; 80; -1; 443; -1; 443; -1; 80; -1; 443; -1].

(** [s.c_str()] up to the first NUL. *)
Fixpoint c_str (s : string) : string :=
  match s with
  | EmptyString => EmptyString
  | String c s' => if Ascii.eqb c Ascii.zero then EmptyString else String c (c_str s')
  end.

(** [sprintf(nioServer.nioIp, "%s", s)] into [char nioIp[64]] *)
Definition sprintf_nioIp (s : string) (d : Datacenter) : res Datacenter :=
  if (String.length (c_str s) <? 64)%nat then Ok (set_nioServer (c_str s) (nioPort d) d)
  else Fault OutOfBounds.

Section Servers.
(** [std::random_shuffle] on the addresses. *)
Variable random_shuffle : list string -> list string.

Definition addAddressAndPort (address : string) (port : Z) (d : Datacenter) : res Datacenter :=
  d ← sprintf_nioIp "" d;
  if decide (address ∈ addresses d) then
    match ports d !! address with
    | Some (p1, _) => Ok (set_servers (addresses d) (<[address := (p1, u16 port)]> (ports d)) d)
    | None => Fault NullDereference
    end
  else
    let d := set_indices 0 0 d in
    Ok (set_servers (random_shuffle (addresses d ++ [address])) (<[address := (u16 port, 0)]> (ports d)) d).
End Servers.

(** The first two statements of [setAddressAndPort], on [nioServer]; the whole
    method, with the reconnect, is [Requests.setAddressAndPort]. *)
Definition force_server (address : string) (port : Z) (d : Datacenter) : res Datacenter :=
  d ← sprintf_nioIp address d;
  Ok (set_nioServer (nioIp d) (u16 port) d).

(** [strlen(nioServer.nioIp)] *)
Definition forced (d : Datacenter) : bool := negb (String.length (nioIp d) =? 0)%nat.

Definition switchAddressOrPort (d : Datacenter) : Datacenter :=
  if forced d then d
  else if currentPortIndex d <? 10 then
    set_indices (currentAddressIndex d) (u32 (currentPortIndex d + 1)) d
  else if currentAddressIndex d <? u32 (zlen (addresses d) - 1) then
    set_indices (u32 (currentAddressIndex d + 1)) 0 d
  else set_indices 0 0 d.

Definition getCurrentAddress (d : Datacenter) : res string :=
  if forced d then Ok (nioIp d)
  else match addresses d with
  | [] => Ok ""%string
  | _ => match addresses d !! Z.to_nat (currentAddressIndex d) with
         | Some a => Ok a
         | None => Fault OutOfBounds
         end
  end.

(** The port and the datacenter with the corrected index. *)
Definition getCurrentPort (d : Datacenter) : res (Z * Datacenter) :=
  if forced d then Ok (nioPort d, d)
  else if decide (ports d = ∅) then Ok (443, d)
  else
    let d := if currentPortIndex d >? 10 then set_indices (currentAddressIndex d) 0 d else d in
    match defaultPorts !! Z.to_nat (currentPortIndex d) with
    | None => Fault OutOfBounds
    | Some port =>
        if port =? -1 then
          a ← getCurrentAddress d;
          match ports d !! a with
          | None => Fault NullDereference
          | Some (firstPort, secondPort) =>
              let port :=
                if negb (secondPort =? 0) then
                  if negb ((currentPortIndex d / 2 + 1) mod 2 =? 0) then firstPort else secondPort
                else firstPort in
              Ok (u16 (i16 port), d)
          end
        else Ok (u16 port, d)
    end.

Definition isHandshakeing (d : Datacenter) : bool :=
  negb (bool_decide (handshakeState d = HandshakeStateIdel)).

Definition isHandshakeSuccess (d : Datacenter) : bool :=
  bool_decide (handshakeState d = HandshakeStateSuccessed).

Definition widthSpecialSeq (cmd : Z) : Z :=
  if cmd =? HANDSHAKE_CMD then -1
  else if cmd =? PING_CMD then -2
  else 0.

(** ** The invariant of the server list *)

Record dc_wf (d : Datacenter) : Prop := {
  dw_nodup : NoDup (addresses d);
  dw_ports : forall a, a ∈ addresses d <-> is_Some (ports d !! a);
  dw_u16 : forall a p1 p2, ports d !! a = Some (p1, p2) -> is_u 16 p1 /\ is_u 16 p2;
  dw_address : addresses d <> [] -> 0 <= currentAddressIndex d < zlen (addresses d);
  dw_port : 0 <= currentPortIndex d <= 10;
  dw_size : zlen (addresses d) < 2 ^ 32
}.

Lemma dc_wf_new i : dc_wf (Datacenter_new i).
Proof.
  constructor; simpl; try done.
  - apply NoDup_nil_2.
  - intros a. rewrite lookup_empty. split; [intros H; inversion H|intros [? H]; done].
Qed.

Lemma dc_wf_nio d ip port : dc_wf d -> dc_wf (set_nioServer ip port d).
Proof. intros [? ? ? ? ? ?]. by constructor. Qed.

Lemma dc_wf_sprintf d s d' : dc_wf d -> sprintf_nioIp s d = Ok d' -> dc_wf d'.
Proof. unfold sprintf_nioIp. intros H. case_match; [|done]. intros [= <-]. by apply dc_wf_nio. Qed.

Lemma dc_wf_handshake d h : dc_wf d -> dc_wf (set_handshakeState h d).
Proof. intros [? ? ? ? ? ?]. by constructor. Qed.

Lemma dc_wf_switch d : dc_wf d -> dc_wf (switchAddressOrPort d).
Proof.
  intros [N P U A I S]. unfold switchAddressOrPort.
  destruct (forced d); [by constructor|].
  destruct (Z.ltb_spec (currentPortIndex d) 10).
  - constructor; simpl; auto. rewrite wrapU_id by (unfold is_u; lia). lia.
  - destruct (Z.ltb_spec (currentAddressIndex d) (u32 (zlen (addresses d) - 1))) as [Hlt|Hge].
    + constructor; simpl; auto; [|lia]. intros Hne. specialize (A Hne).
      rewrite wrapU_id in Hlt by (unfold is_u; lia). rewrite wrapU_id by (unfold is_u; lia). lia.
    + constructor; simpl; auto; [|lia]. intros Hne. specialize (A Hne). lia.
Qed.

Section ServersLemmas.
Variable random_shuffle : list string -> list string.
Hypothesis shuffle_permutes : forall l, random_shuffle l ≡ₚ l.

Lemma dc_wf_add d a port :
  dc_wf d -> zlen (addresses d) + 1 < 2 ^ 32 ->
  exists d', addAddressAndPort random_shuffle a port d = Ok d' /\ dc_wf d' /\ nioIp d' = ""%string /\
    (a ∈ addresses d').
Proof.
  intros [N P U A I S] Hsz. unfold addAddressAndPort. simpl.
  case_decide as Ha.
  - destruct (proj1 (P a) Ha) as [[p1 p2] Hp]. rewrite Hp. eexists. split; [reflexivity|].
    split; [|done]. constructor; simpl; auto.
    + intros b. rewrite P. destruct (decide (a = b)) as [<-|Hne].
      * rewrite lookup_insert_eq, Hp. split; eauto.
      * by rewrite lookup_insert_ne.
    + intros b q1 q2. destruct (decide (a = b)) as [<-|Hne].
      * rewrite lookup_insert_eq. intros [= <- <-]. split; [by apply (U a p1 p2)|by apply wrapU_range].
      * rewrite lookup_insert_ne by done. apply U.
  - eexists. split; [reflexivity|]. split; [|split; [done|]].
    2: { simpl. rewrite shuffle_permutes. set_solver. }
    assert (Hlen : zlen (random_shuffle (addresses d ++ [a])) = zlen (addresses d) + 1).
    { unfold zlen. rewrite (Permutation_length (shuffle_permutes _)), length_app. simpl. lia. }
    pose proof (zlen_nonneg (addresses d)).
    constructor; simpl; auto; try lia.
    + rewrite shuffle_permutes. apply NoDup_app. split; [done|]. split; [|apply NoDup_singleton].
      intros b Hb ->%list_elem_of_singleton. done.
    + intros b. rewrite shuffle_permutes, elem_of_app, list_elem_of_singleton, P.
      destruct (decide (a = b)) as [<-|Hne].
      * rewrite lookup_insert_eq. split; eauto.
      * rewrite lookup_insert_ne by done. split; [intros [?|?]; [done|congruence]|auto].
    + intros b q1 q2. destruct (decide (a = b)) as [<-|Hne].
      * rewrite lookup_insert_eq. intros [= <- <-]. split; [by apply wrapU_range|done].
      * rewrite lookup_insert_ne by done. apply U.
Qed.
End ServersLemmas.

Lemma ports_nonempty d : dc_wf d -> ports d <> ∅ -> addresses d <> [].
Proof.
  intros H Hp E. apply Hp. apply map_eq. intros a. rewrite lookup_empty.
  destruct (ports d !! a) eqn:Ea; [|done].
  assert (a ∈ addresses d) as Hin by (apply (dw_ports _ H); rewrite Ea; eauto).
  rewrite E in Hin. inversion Hin.
Qed.

Lemma getCurrentAddress_spec d :
  dc_wf d -> exists a, getCurrentAddress d = Ok a /\
    (forced d = false -> addresses d <> [] ->
       addresses d !! Z.to_nat (currentAddressIndex d) = Some a /\ is_Some (ports d !! a)).
Proof.
  intros H. unfold getCurrentAddress. destruct (forced d); [by exists (nioIp d)|].
  destruct (addresses d) as [|a0 l] eqn:E; [by exists ""%string|].
  assert (Hi : 0 <= currentAddressIndex d < zlen (addresses d)) by (apply (dw_address _ H); by rewrite E).
  destruct (lookup_lt_is_Some_2 (addresses d) (Z.to_nat (currentAddressIndex d))) as [a Ha].
  { unfold zlen in Hi. lia. }
  rewrite <- E, Ha. exists a. split; [done|]. intros _ _. split; [done|].
  apply (dw_ports _ H). by eapply list_elem_of_lookup_2.
Qed.

(** ** The theorems on the server list *)

(** The servers after a sequence of calls from the manager; [CallSet] is the
    change [setAddressAndPort] makes to the datacenter. *)
Inductive dc_call : Type :=
  | CallAdd (address : string) (port : Z)
  | CallSet (address : string) (port : Z)
  | CallSwitch
  | CallPort.

Definition exec_call (shuffle : list string -> list string) (c : dc_call) (d : Datacenter) : res Datacenter :=
  match c with
  | CallAdd a p => addAddressAndPort shuffle a p d
  | CallSet a p => force_server a p d
  | CallSwitch => Ok (switchAddressOrPort d)
  | CallPort => snd <$> getCurrentPort d
  end.

Fixpoint exec_calls (shuffle : list string -> list string) (cs : list dc_call) (d : Datacenter) : res Datacenter :=
  match cs with
  | [] => Ok d
  | c :: cs' => d' ← exec_call shuffle c d; exec_calls shuffle cs' d'
  end.

Lemma getCurrentPort_ok d :
  dc_wf d -> exists p, getCurrentPort d = Ok (p, d) /\ (is_u 16 (nioPort d) -> is_u 16 p).
Proof.
  intros H. unfold getCurrentPort. destruct (forced d) eqn:Ef; [eauto|].
  case_decide as Hp; [by exists 443|].
  pose proof (dw_port _ H). destruct (Z.gtb_spec (currentPortIndex d) 10) as [|_]; [lia|].
  destruct (lookup_lt_is_Some_2 defaultPorts (Z.to_nat (currentPortIndex d))) as [q Hq]; [simpl; lia|].
  rewrite Hq. destruct (q =? -1); [|exists (u16 q); split; [done|intros _; by apply wrapU_range]].
  destruct (getCurrentAddress_spec d H) as (a & Ha & Hs). rewrite Ha. simpl.
  destruct (Hs Ef (ports_nonempty d H Hp)) as [_ [[p1 p2] Hq2]]. rewrite Hq2.
  eexists. split; [reflexivity|]. intros _. by apply wrapU_range.
Qed.

(** The address of a forced server ends inside [char nioIp[64]]. *)
Definition call_fits (c : dc_call) : bool :=
  match c with CallSet a _ => (String.length (c_str a) <? 64)%nat | _ => true end.

Lemma exec_call_wf shuffle c d :
  (forall l, shuffle l ≡ₚ l) -> dc_wf d -> zlen (addresses d) + 1 < 2 ^ 32 ->
  call_fits c = true ->
  exists d', exec_call shuffle c d = Ok d' /\ dc_wf d' /\ zlen (addresses d') <= zlen (addresses d) + 1.
Proof.
  intros Hsh H Hz Hc. destruct c as [a p|a p| |]; simpl in *.
  - destruct (dc_wf_add shuffle Hsh d a p H Hz) as (d' & E & W & _). exists d'. split; [done|]. split; [done|].
    unfold addAddressAndPort in E. simpl in E. case_decide.
    + destruct (ports d !! a) as [[? ?]|]; [|done]. injection E as <-. simpl. lia.
    + injection E as <-. simpl. unfold zlen. rewrite (Permutation_length (Hsh _)), length_app. simpl. lia.
  - unfold force_server, sprintf_nioIp. rewrite Hc. simpl.
    eexists. split; [reflexivity|]. split; [by do 2 apply dc_wf_nio|]. simpl. lia.
  - eexists. split; [reflexivity|]. split; [by apply dc_wf_switch|].
    unfold switchAddressOrPort. repeat case_match; simpl; lia.
  - destruct (getCurrentPort_ok d H) as (p & -> & _). simpl. exists d. split; [done|]. split; [done|lia].
Qed.

Lemma exec_calls_outcome shuffle cs d :
  (forall l, shuffle l ≡ₚ l) -> dc_wf d -> zlen (addresses d) + zlen cs < 2 ^ 32 - 1 ->
  if forallb call_fits cs then exists d', exec_calls shuffle cs d = Ok d' /\ dc_wf d'
  else exec_calls shuffle cs d = Fault OutOfBounds.
Proof.
  intros Hsh. revert d. induction cs as [|c cs IH]; intros d H Hz; [simpl; eauto|].
  rewrite zlen_cons in Hz. pose proof (zlen_nonneg cs). simpl. destruct (call_fits c) eqn:Hc; simpl.
  - destruct (exec_call_wf shuffle c d Hsh H ltac:(lia) Hc) as (d' & -> & H' & Hl). simpl. apply IH; [done|lia].
  - destruct c; try done. simpl in Hc |- *. unfold force_server, sprintf_nioIp. by rewrite Hc.
Qed.

(** C28: from the constructor on, any sequence of fewer than 2^32 - 1 calls on
    the server list (adding servers, writing a forced one, switching after a
    failure, asking for the port): when every forced address is shorter than
    64 characters it runs without a fault, keeps the indices inside the
    tables, and the address and the port to connect to are defined; with a
    longer one it writes past the end of [nioIp]. *)
Theorem servers_never_fault shuffle i cs :
  (forall l, shuffle l ≡ₚ l) -> zlen cs < 2 ^ 32 - 1 ->
  if forallb call_fits cs then
    exists d a p, exec_calls shuffle cs (Datacenter_new i) = Ok d /\ dc_wf d /\
      getCurrentAddress d = Ok a /\ getCurrentPort d = Ok (p, d)
  else exec_calls shuffle cs (Datacenter_new i) = Fault OutOfBounds.
Proof.
  intros Hsh Hn. pose proof (exec_calls_outcome shuffle cs (Datacenter_new i) Hsh (dc_wf_new i) Hn) as G.
  destruct (forallb call_fits cs); [|done]. destruct G as (d & E & H).
  destruct (getCurrentAddress_spec d H) as (a & Ha & _).
  destruct (getCurrentPort_ok d H) as (p & Hp & _). eauto 10.
Qed.

Lemma servers_never_fault_witness :
  exists d a p, exec_calls id [CallAdd "10.0.0.1" 9000; CallSwitch; CallAdd "10.0.0.1" 9001; CallSwitch; CallPort]
      (Datacenter_new 2) = Ok d /\ dc_wf d /\ getCurrentAddress d = Ok a /\ getCurrentPort d = Ok (p, d).
Proof.
  by apply (servers_never_fault id 2 [CallAdd "10.0.0.1" 9000; CallSwitch; CallAdd "10.0.0.1" 9001; CallSwitch; CallPort]).
Defined.

(** Walking [k] times after failures. *)
Definition switch_times (k : nat) (d : Datacenter) : Datacenter := Nat.iter k switchAddressOrPort d.

Lemma switch_times_frame k d :
  addresses (switch_times k d) = addresses d /\ ports (switch_times k d) = ports d /\
  nioIp (switch_times k d) = nioIp d.
Proof.
  unfold switch_times. induction k as [|k IH]; [done|]. simpl.
  assert (F : forall e, addresses (switchAddressOrPort e) = addresses e /\
    ports (switchAddressOrPort e) = ports e /\ nioIp (switchAddressOrPort e) = nioIp e).
  { intros e. unfold switchAddressOrPort. by repeat case_match. }
  destruct (F (Nat.iter k switchAddressOrPort d)) as (-> & -> & ->). done.
Qed.

(** C29: without a forced server and with at least one added, the failures
    walk over every port slot of every server: after [k] calls of
    [switchAddressOrPort] from both indices at 0 the port slot is
    [k mod 11] and the server is [k / 11] modulo their number. *)
Theorem switch_visits_all d k :
  dc_wf d -> forced d = false -> addresses d <> [] ->
  currentAddressIndex d = 0 -> currentPortIndex d = 0 ->
  currentPortIndex (switch_times k d) = Z.of_nat k mod 11 /\
  currentAddressIndex (switch_times k d) = (Z.of_nat k / 11) mod zlen (addresses d).
Proof.
  intros H Hf Hne Ha Hp. pose proof (dw_size _ H) as Hs.
  assert (Hn : 1 <= zlen (addresses d)).
  { destruct (addresses d); [done|]. rewrite zlen_cons. pose proof (zlen_nonneg l). lia. }
  induction k as [|k [IHp IHa]].
  - simpl. rewrite Ha, Hp. split; [done|]. rewrite Z.div_0_l, Z.mod_0_l by lia. done.
  - destruct (switch_times_frame k d) as (Fa & _ & Fn).
    change (switch_times (S k) d) with (switchAddressOrPort (switch_times k d)).
    unfold switchAddressOrPort, forced in *. rewrite Fn, Hf, Fa, IHp, IHa.
    rewrite (wrapU_id 32 (zlen (addresses d) - 1)) by (unfold is_u; lia).
    rewrite Nat2Z.inj_succ. unfold Z.succ. set (K := Z.of_nat k) in *. assert (0 <= K) by lia.
    destruct (Z.ltb_spec (K mod 11) 10).
    + cbn [currentPortIndex currentAddressIndex set_indices].
      rewrite wrapU_id by (unfold is_u; zlia).
      assert ((K + 1) mod 11 = K mod 11 + 1 /\ (K + 1) / 11 = K / 11) as [-> ->] by zlia. done.
    + assert (E : (K + 1) mod 11 = 0 /\ (K + 1) / 11 = K / 11 + 1) by zlia. destruct E as [-> ->].
      pose proof (Z.mod_pos_bound (K / 11) (zlen (addresses d)) ltac:(lia)) as Hb.
      assert (0 <= K / 11) by (apply Z.div_pos; lia).
      destruct (Z.ltb_spec ((K / 11) mod zlen (addresses d)) (zlen (addresses d) - 1));
        cbn [currentPortIndex currentAddressIndex set_indices]; (split; [done|]).
      * rewrite wrapU_id by (unfold is_u; lia).
        rewrite <- (Zplus_mod_idemp_l (K / 11) 1). symmetry. apply Z.mod_small. lia.
      * rewrite <- (Zplus_mod_idemp_l (K / 11) 1).
        replace ((K / 11) mod zlen (addresses d) + 1) with (zlen (addresses d)) by lia.
        by rewrite Z.mod_same by lia.
Qed.

(** Two servers, the first with two ports. *)
Definition demo_dc : Datacenter :=
  mkDatacenter ["a"; "b"]%string (<["a" := (9000, 9001)]> (<["b" := (9002, 0)]> ∅))%string
    HandshakeStateIdel 0 0 "" 443.

Lemma demo_dc_wf : dc_wf demo_dc.
Proof.
  constructor; simpl; try done.
  - apply NoDup_cons. split; [set_solver|apply NoDup_singleton].
  - intros a. rewrite elem_of_cons, list_elem_of_singleton.
    destruct (decide (a = "a"%string)) as [->|Ha]; [rewrite lookup_insert_eq; split; eauto|].
    rewrite lookup_insert_ne by done.
    destruct (decide (a = "b"%string)) as [->|Hb]; [rewrite lookup_insert_eq; split; eauto|].
    rewrite lookup_insert_ne, lookup_empty by done. split; [intros [?|?]; done|intros [? ?]; done].
  - intros a p1 p2. destruct (decide (a = "a"%string)) as [->|Ha].
    { rewrite lookup_insert_eq. intros [= <- <-]. done. }
    rewrite lookup_insert_ne by done. destruct (decide (a = "b"%string)) as [->|Hb].
    { rewrite lookup_insert_eq. intros [= <- <-]. done. }
    by rewrite lookup_insert_ne.
Qed.

Lemma switch_visits_all_witness :
  currentPortIndex (switch_times 13 demo_dc) = Z.of_nat 13 mod 11 /\
  currentAddressIndex (switch_times 13 demo_dc) = (Z.of_nat 13 / 11) mod zlen (addresses demo_dc).
Proof. apply switch_visits_all; [apply demo_dc_wf|done..]. Defined.

(** The ports tried on one server with two ports, in order. *)
Example ports_tried :
  (fun k => fst <$> getCurrentPort (switch_times k demo_dc)) <$> seq 0 11 =
  Ok <$> [9000; 80; 9001; 443; 9000; 443; 9001; 80; 9000; 443; 9001].
Proof. reflexivity. Qed.
