(* ===== verification/Request.v ===== *)
(** * Request: a request of the upper layer and its deadlines

    Models [src/fastsocks/cpp/tcp/Request.{h,cpp}] and the flags and error
    codes of [TcpConstant.h].  The callback object is represented by the
    number the caller gave it; [None] is a null [std::function]. *)

From S2P Require Import Prelude.
From S2P Require Import NativeByteBuffer.
From S2P Require Import BufferStorage.

Definition DEFAULT_PACK_TIMEOUT : Z := 30 * 1000.
Definition DEFAULT_RETRY_COUNT : Z := 3.
Definition MAX_REQUEST_TIMEOUT : Z := DEFAULT_PACK_TIMEOUT.
Definition MAX_RETRY_COUNT : Z := DEFAULT_RETRY_COUNT.

Definition RequestFlagWithoutAck : Z := 1.
Definition RequestFlagReSend : Z := 2.
Definition RequestFlagWithoutLogin : Z := 4.

Inductive errorCode : Type :=
  | errorCodeNone
  | errorCodeWithoutConnectin
  | errorCodeWithoutLogin
  | errorCodeConnectFail
  | errorCodeRequestTimeout
  | errorCodeRequestRetryLimit.

#[export] Instance errorCode_eq_dec : EqDecision errorCode.
Proof. solve_decision. Defined.

(** The number handed to the callback. *)
Definition errorCode_value (c : errorCode) : Z :=
  match c with
  | errorCodeNone => 0
  | errorCodeWithoutConnectin => 300101
  | errorCodeWithoutLogin => 300102
  | errorCodeConnectFail => 300103
  | errorCodeRequestTimeout => 300104
  | errorCodeRequestRetryLimit => 300105
  end.

Record Request : Type := mkRequest {
  requestFlags : Z;              (* uint32_t *)
  requestTimeout : Z;            (* uint64_t *)
  sendCompleteCallback : option Z;
  requestCmdId : Z;              (* int32_t *)
  requestBuffer : option addr;
  requestStartTime : Z;          (* int64_t *)
  currentRetryCount : Z;         (* int32_t *)
  currentConnectionToken : Z;    (* uint32_t *)
  requestSeq : Z                 (* int32_t messageSeq *)
}.

Definition Request_new (buffer : option addr) (cmdId flags timeout : Z) (callback : option Z) : Request :=
  mkRequest flags (if timeout >? 0 then timeout else MAX_REQUEST_TIMEOUT) callback (i32 cmdId) buffer 0 0 0 0.

Definition set_requestStartTime (t : Z) (r : Request) : Request :=
  mkRequest (requestFlags r) (requestTimeout r) (sendCompleteCallback r) (requestCmdId r) (requestBuffer r)
    t (currentRetryCount r) (currentConnectionToken r) (requestSeq r).
Definition set_currentRetryCount (n : Z) (r : Request) : Request :=
  mkRequest (requestFlags r) (requestTimeout r) (sendCompleteCallback r) (requestCmdId r) (requestBuffer r)
    (requestStartTime r) n (currentConnectionToken r) (requestSeq r).
Definition set_currentConnectionToken (t : Z) (r : Request) : Request :=
  mkRequest (requestFlags r) (requestTimeout r) (sendCompleteCallback r) (requestCmdId r) (requestBuffer r)
    (requestStartTime r) (currentRetryCount r) t (requestSeq r).
Definition set_requestBuffer (p : option addr) (r : Request) : Request :=
  mkRequest (requestFlags r) (requestTimeout r) (sendCompleteCallback r) (requestCmdId r) p
    (requestStartTime r) (currentRetryCount r) (currentConnectionToken r) (requestSeq r).
Definition set_requestSeq (q : Z) (r : Request) : Request :=
  mkRequest (requestFlags r) (requestTimeout r) (sendCompleteCallback r) (requestCmdId r) (requestBuffer r)
    (requestStartTime r) (currentRetryCount r) (currentConnectionToken r) q.

(** [requestFlags & flag] as a condition. *)
Definition has_flag (r : Request) (flag : Z) : bool := negb (Z.land (requestFlags r) flag =? 0).

(** [int64_t] minus [int64_t], converted to [uint64_t] by the comparison
    with the unsigned timeout. *)
Definition isTimeout (currentTime : Z) (r : Request) : bool :=
  negb (requestTimeout r =? 0) && (requestTimeout r <=? u64 (i64 (currentTime - requestStartTime r))).

Definition canRetry (r : Request) : bool :=
  if negb (currentRetryCount r =? 0) && (currentRetryCount r >? MAX_RETRY_COUNT) then false else true.

(** What [~Request] does to the pool: the packet's buffer is given back.  The
    global reference to the Java listener it drops is not part of the state;
    the clock its log statement reads is in [Requests.erase_request]. *)
Definition Request_delete (r : Request) : SR Storage unit :=
  match requestBuffer r with None => mret tt | Some p => reuse p end.

(** ** The theorems on deadlines *)

(** For times in order the request times out exactly when its timeout
    has passed; a clock that went back before the start of the request makes
    the unsigned difference huge, so the request times out at once. *)
Lemma isTimeout_spec now r :
  is_u 62 now -> is_u 62 (requestStartTime r) -> 0 < requestTimeout r <= 2 ^ 63 ->
  isTimeout now r =
    bool_decide (now < requestStartTime r \/ requestStartTime r + requestTimeout r <= now).
Proof.
  unfold isTimeout, is_u. intros Hn Hs Ht.
  destruct (Z.eqb_spec (requestTimeout r) 0); [lia|]. simpl.
  rewrite wrapS_id by (unfold is_s; lia).
  destruct (Z.lt_ge_cases now (requestStartTime r)).
  - rewrite bool_decide_eq_true_2 by auto. apply Z.leb_le.
    unfold wrapU. rewrite <- (Z.mod_add _ 1), Z.mod_small by lia. lia.
  - rewrite wrapU_id by (unfold is_u; lia). apply eq_bool_prop_intro.
    rewrite bool_decide_spec. rewrite Is_true_true, Z.leb_le. lia.
Qed.
