(* ===== verification/World.v ===== *)
(** * World: the state of the network thread and its environment

    The state of [ConnectionsManager], [TcpConnection] (with its base
    [TcpSocket] and its [Timer]) and [Datacenter], over the pool of buffers.
    The process has one manager, one datacenter and at most one connection
    object ([Datacenter::connection], created once and never deleted).

    Code outside the repository enters through the class [Env]: each system
    call and each question to the Java delegate is answered from the index of
    the call ([tick]), so an environment is an arbitrary sequence of answers.
    What the library does to the outside is recorded in [trace], newest
    first. *)

From S2P Require Import Prelude.
From S2P Require Import NativeByteBuffer.
From S2P Require Import BufferStorage.
From S2P Require Import ByteStream.
From S2P Require Import NetworkMessage.
From S2P Require Import Datacenter.
From S2P Require Import Request.

(** ** Data *)

Inductive ConnetionState : Type :=
  | ConnectionStateConnecting | ConnectionStateWaitingForNetwork | ConnectionStateConnected.

#[export] Instance ConnetionState_eq_dec : EqDecision ConnetionState.
Proof. solve_decision. Defined.

Inductive TcpConnectionStatus : Type :=
  | TcpConnectionStatusIdel | TcpConnectionStatusConnecting | TcpConnectionStatusReconnecting
  | TcpConnectionStatusConnected | TcpConnectionStatusClosed.

#[export] Instance TcpConnectionStatus_eq_dec : EqDecision TcpConnectionStatus.
Proof. solve_decision. Defined.

(** The identity of an [EventsDispatcher]; the only timer of the program is
    the connection's [reconnectTimer]. *)
Abbreviation dispatcher := positive.
Definition reconnectDispatcher : dispatcher := 1%positive.

(** [TcpSocket *]: the process has one socket object. *)
Inductive socket_ref : Type := TheConnection.

#[export] Instance socket_ref_eq_dec : EqDecision socket_ref.
Proof. solve_decision. Defined.

(** The closures given to [scheduleTask], by the method that makes them. *)
Inductive task : Type :=
  | TaskSetUin (uid : Z)
  | TaskApplySvrAddr (address : string) (port : Z) (singleSvr : bool)
  | TaskResumeNetwork (isPush : bool)
  | TaskSetNetworkAvailable (hasNetwork : bool)
  | TaskSendRequest (buffer : option addr) (cmdId flags timeout : Z) (callback : option Z)
  | TaskClearUp.

(** What the library does to the outside. *)
Inductive io : Type :=
  | IoConnect (fd : Z) (address : string) (port : Z)
  | IoClose (fd : Z)
  | IoSend (fd : Z) (data : list Z) (length : Z)         (* what was offered and the result *)
  | IoStateChanged (state : ConnetionState)
  | IoRecvMessages (cmd : Z) (data : list Z)
  | IoComplete (callback : Z) (code : errorCode) (data : option (list Z))
  | IoHandshake (data : option (list Z))
  | IoUpdate.

(** ** State *)

Record TcpSocket : Type := mkTcpSocket {
  socketFd : Z;
  lastEventTime : Z;
  onConnectedSent : bool;
  eventMsk : Z;
  socketTimeout : Z;
  outgoingByteStream : ByteStream
}.

Definition set_socketFd (x : Z) (k : TcpSocket) : TcpSocket :=
  mkTcpSocket x (lastEventTime k) (onConnectedSent k) (eventMsk k) (socketTimeout k) (outgoingByteStream k).
Definition set_lastEventTime (x : Z) (k : TcpSocket) : TcpSocket :=
  mkTcpSocket (socketFd k) x (onConnectedSent k) (eventMsk k) (socketTimeout k) (outgoingByteStream k).
Definition set_onConnectedSent (x : bool) (k : TcpSocket) : TcpSocket :=
  mkTcpSocket (socketFd k) (lastEventTime k) x (eventMsk k) (socketTimeout k) (outgoingByteStream k).
Definition set_eventMsk (x : Z) (k : TcpSocket) : TcpSocket :=
  mkTcpSocket (socketFd k) (lastEventTime k) (onConnectedSent k) x (socketTimeout k) (outgoingByteStream k).
Definition set_socketTimeout (x : Z) (k : TcpSocket) : TcpSocket :=
  mkTcpSocket (socketFd k) (lastEventTime k) (onConnectedSent k) (eventMsk k) x (outgoingByteStream k).
Definition set_outgoingByteStream (x : ByteStream) (k : TcpSocket) : TcpSocket :=
  mkTcpSocket (socketFd k) (lastEventTime k) (onConnectedSent k) (eventMsk k) (socketTimeout k) x.

Record Timer : Type := mkTimer {
  started : bool;
  timerTimeout : Z
}.

Definition set_started (x : bool) (t : Timer) : Timer :=
  mkTimer x (timerTimeout t).
Definition set_timerTimeout (x : Z) (t : Timer) : Timer :=
  mkTimer (started t) x.

Record TcpConnection : Type := mkTcpConnection {
  base : TcpSocket;
  resetOfData : option addr;
  lastPacketLength : Z;
  isTryingNextPort : bool;
  wasConnected : bool;
  currentConnectionRecvData : bool;
  willRetryConnectCount : Z;
  failedConnectionCount : Z;
  serverAddress : string;
  serverPort : Z;
  reconnectTimer : Timer;
  connectionToken : Z;
  tcpConnectionStatus : TcpConnectionStatus
}.

Definition set_base (x : TcpSocket) (c : TcpConnection) : TcpConnection :=
  mkTcpConnection x (resetOfData c) (lastPacketLength c) (isTryingNextPort c) (wasConnected c)
    (currentConnectionRecvData c) (willRetryConnectCount c) (failedConnectionCount c) (serverAddress c)
    (serverPort c) (reconnectTimer c) (connectionToken c) (tcpConnectionStatus c).
Definition set_resetOfData (x : option addr) (c : TcpConnection) : TcpConnection :=
  mkTcpConnection (base c) x (lastPacketLength c) (isTryingNextPort c) (wasConnected c) (currentConnectionRecvData c)
    (willRetryConnectCount c) (failedConnectionCount c) (serverAddress c) (serverPort c)
    (reconnectTimer c) (connectionToken c) (tcpConnectionStatus c).
Definition set_lastPacketLength (x : Z) (c : TcpConnection) : TcpConnection :=
  mkTcpConnection (base c) (resetOfData c) x (isTryingNextPort c) (wasConnected c) (currentConnectionRecvData c)
    (willRetryConnectCount c) (failedConnectionCount c) (serverAddress c) (serverPort c)
    (reconnectTimer c) (connectionToken c) (tcpConnectionStatus c).
Definition set_isTryingNextPort (x : bool) (c : TcpConnection) : TcpConnection :=
  mkTcpConnection (base c) (resetOfData c) (lastPacketLength c) x (wasConnected c) (currentConnectionRecvData c)
    (willRetryConnectCount c) (failedConnectionCount c) (serverAddress c) (serverPort c)
    (reconnectTimer c) (connectionToken c) (tcpConnectionStatus c).
Definition set_wasConnected (x : bool) (c : TcpConnection) : TcpConnection :=
  mkTcpConnection (base c) (resetOfData c) (lastPacketLength c) (isTryingNextPort c) x (currentConnectionRecvData c)
    (willRetryConnectCount c) (failedConnectionCount c) (serverAddress c) (serverPort c)
    (reconnectTimer c) (connectionToken c) (tcpConnectionStatus c).
Definition set_currentConnectionRecvData (x : bool) (c : TcpConnection) : TcpConnection :=
  mkTcpConnection (base c) (resetOfData c) (lastPacketLength c) (isTryingNextPort c) (wasConnected c) x
    (willRetryConnectCount c) (failedConnectionCount c) (serverAddress c) (serverPort c)
    (reconnectTimer c) (connectionToken c) (tcpConnectionStatus c).
Definition set_willRetryConnectCount (x : Z) (c : TcpConnection) : TcpConnection :=
  mkTcpConnection (base c) (resetOfData c) (lastPacketLength c) (isTryingNextPort c) (wasConnected c)
    (currentConnectionRecvData c) x (failedConnectionCount c) (serverAddress c) (serverPort c)
    (reconnectTimer c) (connectionToken c) (tcpConnectionStatus c).
Definition set_failedConnectionCount (x : Z) (c : TcpConnection) : TcpConnection :=
  mkTcpConnection (base c) (resetOfData c) (lastPacketLength c) (isTryingNextPort c) (wasConnected c)
    (currentConnectionRecvData c) (willRetryConnectCount c) x (serverAddress c) (serverPort c)
    (reconnectTimer c) (connectionToken c) (tcpConnectionStatus c).
Definition set_serverAddress (x : string) (c : TcpConnection) : TcpConnection :=
  mkTcpConnection (base c) (resetOfData c) (lastPacketLength c) (isTryingNextPort c) (wasConnected c)
    (currentConnectionRecvData c) (willRetryConnectCount c) (failedConnectionCount c) x (serverPort c)
    (reconnectTimer c) (connectionToken c) (tcpConnectionStatus c).
Definition set_serverPort (x : Z) (c : TcpConnection) : TcpConnection :=
  mkTcpConnection (base c) (resetOfData c) (lastPacketLength c) (isTryingNextPort c) (wasConnected c)
    (currentConnectionRecvData c) (willRetryConnectCount c) (failedConnectionCount c) (serverAddress c)
    x (reconnectTimer c) (connectionToken c) (tcpConnectionStatus c).
Definition set_reconnectTimer (x : Timer) (c : TcpConnection) : TcpConnection :=
  mkTcpConnection (base c) (resetOfData c) (lastPacketLength c) (isTryingNextPort c) (wasConnected c)
    (currentConnectionRecvData c) (willRetryConnectCount c) (failedConnectionCount c) (serverAddress c)
    (serverPort c) x (connectionToken c) (tcpConnectionStatus c).
Definition set_connectionToken (x : Z) (c : TcpConnection) : TcpConnection :=
  mkTcpConnection (base c) (resetOfData c) (lastPacketLength c) (isTryingNextPort c) (wasConnected c)
    (currentConnectionRecvData c) (willRetryConnectCount c) (failedConnectionCount c) (serverAddress c)
    (serverPort c) (reconnectTimer c) x (tcpConnectionStatus c).
Definition set_tcpConnectionStatus (x : TcpConnectionStatus) (c : TcpConnection) : TcpConnection :=
  mkTcpConnection (base c) (resetOfData c) (lastPacketLength c) (isTryingNextPort c) (wasConnected c)
    (currentConnectionRecvData c) (willRetryConnectCount c) (failedConnectionCount c) (serverAddress c)
    (serverPort c) (reconnectTimer c) (connectionToken c) x.

Record Manager : Type := mkManager {
  events : list dispatcher;
  eventTime : gmap dispatcher Z;
  tasks : list task;
  activeConnections : list socket_ref;
  delegate : bool;
  connetionState : ConnetionState;
  networkAvailable : bool;
  networkPaused : bool;
  lastPauseTime : Z;
  managerUin : Z;
  managerSeq : Z;
  requestsQueue : list Request;
  runningRequests : list Request;
  lastPackSendTime : Z;
  pingInterval : Z;
  nextSleepTimeout : Z;
  networkBuffer : addr
}.

Definition set_events (x : list dispatcher) (m : Manager) : Manager :=
  mkManager x (eventTime m) (tasks m) (activeConnections m) (delegate m) (connetionState m)
    (networkAvailable m) (networkPaused m) (lastPauseTime m) (managerUin m) (managerSeq m)
    (requestsQueue m) (runningRequests m) (lastPackSendTime m) (pingInterval m) (nextSleepTimeout m)
    (networkBuffer m).
Definition set_eventTime (x : gmap dispatcher Z) (m : Manager) : Manager :=
  mkManager (events m) x (tasks m) (activeConnections m) (delegate m) (connetionState m) (networkAvailable m)
    (networkPaused m) (lastPauseTime m) (managerUin m) (managerSeq m) (requestsQueue m)
    (runningRequests m) (lastPackSendTime m) (pingInterval m) (nextSleepTimeout m) (networkBuffer m).
Definition set_tasks (x : list task) (m : Manager) : Manager :=
  mkManager (events m) (eventTime m) x (activeConnections m) (delegate m) (connetionState m)
    (networkAvailable m) (networkPaused m) (lastPauseTime m) (managerUin m) (managerSeq m)
    (requestsQueue m) (runningRequests m) (lastPackSendTime m) (pingInterval m) (nextSleepTimeout m)
    (networkBuffer m).
Definition set_activeConnections (x : list socket_ref) (m : Manager) : Manager :=
  mkManager (events m) (eventTime m) (tasks m) x (delegate m) (connetionState m) (networkAvailable m)
    (networkPaused m) (lastPauseTime m) (managerUin m) (managerSeq m) (requestsQueue m)
    (runningRequests m) (lastPackSendTime m) (pingInterval m) (nextSleepTimeout m) (networkBuffer m).
Definition set_delegate (x : bool) (m : Manager) : Manager :=
  mkManager (events m) (eventTime m) (tasks m) (activeConnections m) x (connetionState m) (networkAvailable m)
    (networkPaused m) (lastPauseTime m) (managerUin m) (managerSeq m) (requestsQueue m)
    (runningRequests m) (lastPackSendTime m) (pingInterval m) (nextSleepTimeout m) (networkBuffer m).
Definition set_connetionState (x : ConnetionState) (m : Manager) : Manager :=
  mkManager (events m) (eventTime m) (tasks m) (activeConnections m) (delegate m) x (networkAvailable m)
    (networkPaused m) (lastPauseTime m) (managerUin m) (managerSeq m) (requestsQueue m)
    (runningRequests m) (lastPackSendTime m) (pingInterval m) (nextSleepTimeout m) (networkBuffer m).
Definition set_networkAvailable (x : bool) (m : Manager) : Manager :=
  mkManager (events m) (eventTime m) (tasks m) (activeConnections m) (delegate m) (connetionState m) x
    (networkPaused m) (lastPauseTime m) (managerUin m) (managerSeq m) (requestsQueue m)
    (runningRequests m) (lastPackSendTime m) (pingInterval m) (nextSleepTimeout m) (networkBuffer m).
Definition set_networkPaused (x : bool) (m : Manager) : Manager :=
  mkManager (events m) (eventTime m) (tasks m) (activeConnections m) (delegate m) (connetionState m)
    (networkAvailable m) x (lastPauseTime m) (managerUin m) (managerSeq m) (requestsQueue m)
    (runningRequests m) (lastPackSendTime m) (pingInterval m) (nextSleepTimeout m) (networkBuffer m).
Definition set_lastPauseTime (x : Z) (m : Manager) : Manager :=
  mkManager (events m) (eventTime m) (tasks m) (activeConnections m) (delegate m) (connetionState m)
    (networkAvailable m) (networkPaused m) x (managerUin m) (managerSeq m) (requestsQueue m)
    (runningRequests m) (lastPackSendTime m) (pingInterval m) (nextSleepTimeout m) (networkBuffer m).
Definition set_managerUin (x : Z) (m : Manager) : Manager :=
  mkManager (events m) (eventTime m) (tasks m) (activeConnections m) (delegate m) (connetionState m)
    (networkAvailable m) (networkPaused m) (lastPauseTime m) x (managerSeq m) (requestsQueue m)
    (runningRequests m) (lastPackSendTime m) (pingInterval m) (nextSleepTimeout m) (networkBuffer m).
Definition set_managerSeq (x : Z) (m : Manager) : Manager :=
  mkManager (events m) (eventTime m) (tasks m) (activeConnections m) (delegate m) (connetionState m)
    (networkAvailable m) (networkPaused m) (lastPauseTime m) (managerUin m) x (requestsQueue m)
    (runningRequests m) (lastPackSendTime m) (pingInterval m) (nextSleepTimeout m) (networkBuffer m).
Definition set_requestsQueue (x : list Request) (m : Manager) : Manager :=
  mkManager (events m) (eventTime m) (tasks m) (activeConnections m) (delegate m) (connetionState m)
    (networkAvailable m) (networkPaused m) (lastPauseTime m) (managerUin m) (managerSeq m) x
    (runningRequests m) (lastPackSendTime m) (pingInterval m) (nextSleepTimeout m) (networkBuffer m).
Definition set_runningRequests (x : list Request) (m : Manager) : Manager :=
  mkManager (events m) (eventTime m) (tasks m) (activeConnections m) (delegate m) (connetionState m)
    (networkAvailable m) (networkPaused m) (lastPauseTime m) (managerUin m) (managerSeq m)
    (requestsQueue m) x (lastPackSendTime m) (pingInterval m) (nextSleepTimeout m) (networkBuffer m).
Definition set_lastPackSendTime (x : Z) (m : Manager) : Manager :=
  mkManager (events m) (eventTime m) (tasks m) (activeConnections m) (delegate m) (connetionState m)
    (networkAvailable m) (networkPaused m) (lastPauseTime m) (managerUin m) (managerSeq m)
    (requestsQueue m) (runningRequests m) x (pingInterval m) (nextSleepTimeout m) (networkBuffer m).
Definition set_pingInterval (x : Z) (m : Manager) : Manager :=
  mkManager (events m) (eventTime m) (tasks m) (activeConnections m) (delegate m) (connetionState m)
    (networkAvailable m) (networkPaused m) (lastPauseTime m) (managerUin m) (managerSeq m)
    (requestsQueue m) (runningRequests m) (lastPackSendTime m) x (nextSleepTimeout m) (networkBuffer m).
Definition set_nextSleepTimeout (x : Z) (m : Manager) : Manager :=
  mkManager (events m) (eventTime m) (tasks m) (activeConnections m) (delegate m) (connetionState m)
    (networkAvailable m) (networkPaused m) (lastPauseTime m) (managerUin m) (managerSeq m)
    (requestsQueue m) (runningRequests m) (lastPackSendTime m) (pingInterval m) x (networkBuffer m).
Definition set_networkBuffer (x : addr) (m : Manager) : Manager :=
  mkManager (events m) (eventTime m) (tasks m) (activeConnections m) (delegate m) (connetionState m)
    (networkAvailable m) (networkPaused m) (lastPauseTime m) (managerUin m) (managerSeq m)
    (requestsQueue m) (runningRequests m) (lastPackSendTime m) (pingInterval m) (nextSleepTimeout m) x.

Record World : Type := mkWorld {
  pool : Storage;
  manager : Manager;
  datacenter : Datacenter;
  connection : option TcpConnection;
  lastConnectionToken : Z;
  tick : nat;
  trace : list io
}.

Definition set_pool (x : Storage) (w : World) : World :=
  mkWorld x (manager w) (datacenter w) (connection w) (lastConnectionToken w) (tick w) (trace w).
Definition set_manager (x : Manager) (w : World) : World :=
  mkWorld (pool w) x (datacenter w) (connection w) (lastConnectionToken w) (tick w) (trace w).
Definition set_datacenter (x : Datacenter) (w : World) : World :=
  mkWorld (pool w) (manager w) x (connection w) (lastConnectionToken w) (tick w) (trace w).
Definition set_connection (x : option TcpConnection) (w : World) : World :=
  mkWorld (pool w) (manager w) (datacenter w) x (lastConnectionToken w) (tick w) (trace w).
Definition set_lastConnectionToken (x : Z) (w : World) : World :=
  mkWorld (pool w) (manager w) (datacenter w) (connection w) x (tick w) (trace w).
Definition set_tick (x : nat) (w : World) : World :=
  mkWorld (pool w) (manager w) (datacenter w) (connection w) (lastConnectionToken w) x (trace w).
Definition set_trace (x : list io) (w : World) : World :=
  mkWorld (pool w) (manager w) (datacenter w) (connection w) (lastConnectionToken w) (tick w) x.

(** ** The environment *)

Class Env := {
  clock_gettime : nat -> Z * Z;
  sys_socket : nat -> Z;
  sys_inet_pton : string -> Z;
  sys_fcntl : nat -> Z -> Z;
  sys_connect : nat -> Z -> string -> Z -> Z * Z;        (* result, errno *)
  sys_epoll_ctl : nat -> Z -> Z -> Z -> Z;               (* operation, descriptor, mask *)
  sys_epoll_wait : nat -> Z -> list (bool * Z);          (* (true, mask): the connection; (false, _): the wake-up *)
  sys_getsockopt : nat -> Z -> Z * Z;                    (* result, SO_ERROR *)
  sys_recv : nat -> Z -> Z -> Z * list Z;
  sys_send : nat -> Z -> list Z -> Z;
  onHandshakeConnected : nat -> option addr -> Storage -> Z * Storage;
  random_shuffle : list string -> list string;
  z_stream : Type;
  inflateInit2 : list Z -> option z_stream;
  inflate : z_stream -> Z -> Z * list Z * z_stream;      (* code, the bytes put out *)
  uninitialised : Z                                      (* what new leaves in plain fields *)
}.

Definition EINPROGRESS : Z := 115.
Definition EPOLLIN : Z := 1.
Definition EPOLLOUT : Z := 4.
Definition EPOLLERR : Z := 8.
Definition EPOLLHUP : Z := 16.
Definition EPOLLRDHUP : Z := 8192.
Definition EPOLLET : Z := 2 ^ 31.
Definition EPOLL_CTL_ADD : Z := 1.
Definition EPOLL_CTL_DEL : Z := 2.
Definition EPOLL_CTL_MOD : Z := 3.
Definition READ_BUFFER_SIZE : Z := 1024 * 128.
Definition PUSH_PING_INTERVAL : Z := 60 * 1000.
Definition NORMAL_PING_INTERVAL : Z := 20 * 1000.
Definition CONNECTION_BACKGROUND_KEEP_TIME : Z := 60 * 1000.
Definition MAX_SINGLE_PACK_SIZE : Z := 3 * 1024.

(** ** Access to the state *)

Definition on_pool {A} (m : SR Storage A) : SR World A := fun w =>
  match m (pool w) with Ok (a, s) => Ok (a, set_pool s w) | Fault f => Fault f end.

Definition on_manager (f : Manager -> Manager) : SR World unit :=
  modify (fun w => set_manager (f (manager w)) w).

Definition on_datacenter (f : Datacenter -> res Datacenter) : SR World unit := fun w =>
  match f (datacenter w) with Ok d => Ok (tt, set_datacenter d w) | Fault e => Fault e end.

(** [this] of the connection; a null pointer is a fault. *)
Definition this {A} (f : TcpConnection -> A) : SR World A := fun w =>
  match connection w with Some c => Ok (f c, w) | None => Fault NullDereference end.

Definition on_this (f : TcpConnection -> TcpConnection) : SR World unit := fun w =>
  match connection w with
  | Some c => Ok (tt, set_connection (Some (f c)) w)
  | None => Fault NullDereference
  end.

Definition on_base (f : TcpSocket -> TcpSocket) : SR World unit :=
  on_this (fun c => set_base (f (base c)) c).

Definition mgr {A} (f : Manager -> A) : SR World A := gets (fun w => f (manager w)).

Definition next_tick : SR World nat := fun w => Ok (tick w, set_tick (S (tick w)) w).

Definition emit (e : io) : SR World unit := modify (fun w => set_trace (e :: trace w) w).

(** The bytes a callback finds in the buffer it is given. *)
Definition contents_of (p : addr) : SR World (list Z) :=
  b ← on_pool (deref p); mret (contents b).

Section Clock.
Context {E : Env}.

Definition getCurrentTimeMillis : SR World Z :=
  t ← next_tick;
  let '(tv_sec, tv_nsec) := clock_gettime t in
  mret (i64 (u64 (u64 (u64 tv_sec * 1000) + u64 tv_nsec / 1000000))).
End Clock.

(** [std::abs] of an [int]: undefined on the smallest one. *)
Definition c_abs (x : Z) : SR World Z :=
  if x =? - 2 ^ 31 then fault_with SignedOverflow else mret (Z.abs x).

(** ** Frames: what an operation leaves alone *)

Definition frames {A V} (view : World -> V) (m : SR World A) : Prop :=
  forall w a w', m w = Ok (a, w') -> view w' = view w.

Section Frames.
Context {V : Type} (view : World -> V).

Lemma frames_ret {A} (a : A) : frames view (mret a).
Proof. by intros w a' w' [= <- <-]. Qed.

Lemma frames_bind {A B} (m : SR World A) (k : A -> SR World B) :
  frames view m -> (forall a, frames view (k a)) -> frames view (m ≫= k).
Proof.
  intros Hm Hk w b w'. unfold mbind, SR_bind. destruct (m w) as [[a w1]|] eqn:E; [|done].
  intros Hb. by rewrite (Hk a w1 b w' Hb), (Hm w a w1 E).
Qed.

Lemma frames_gets {A} (f : World -> A) : frames view (gets f).
Proof. by intros w a' w' [= <- <-]. Qed.

Lemma frames_mgr {A} (f : Manager -> A) : frames view (mgr f).
Proof. apply frames_gets. Qed.

Lemma frames_fault {A} f : frames (A := A) view (fault_with f).
Proof. done. Qed.

Lemma frames_lift {A} (r : res A) : frames view (lift_res r).
Proof. intros w a w'. unfold lift_res. destruct r; [|done]. by intros [= <- <-]. Qed.

Lemma frames_this {A} (f : TcpConnection -> A) : frames view (this f).
Proof. intros w a w'. unfold this. destruct (connection w); [|done]. by intros [= <- <-]. Qed.

Lemma frames_modify f : (forall w, view (f w) = view w) -> frames view (modify f).
Proof. by intros H w a w' [= <- <-]. Qed.

Lemma frames_on_this f : (forall w c, view (set_connection (Some c) w) = view w) -> frames view (on_this f).
Proof. intros H w a w'. unfold on_this. destruct (connection w); [|done]. intros [= <- <-]. apply H. Qed.

Lemma frames_on_pool {A} (m : SR Storage A) : (forall w s, view (set_pool s w) = view w) -> frames view (on_pool m).
Proof.
  intros H w a w'. unfold on_pool. destruct (m (pool w)) as [[? ?]|]; [|done]. intros [= <- <-]. apply H.
Qed.

Lemma frames_on_datacenter f : (forall w s, view (set_datacenter s w) = view w) -> frames view (on_datacenter f).
Proof. intros H w a w'. unfold on_datacenter. destruct (f (datacenter w)); [|done]. intros [= <- <-]. apply H. Qed.

Lemma frames_tick : (forall w n, view (set_tick n w) = view w) -> frames view next_tick.
Proof. intros H w a w' [= <- <-]. apply H. Qed.

Lemma frames_when b m : frames view m -> frames view (when b m).
Proof. destruct b; [done|]. intros _. apply frames_ret. Qed.

Lemma frames_abs x : frames view (c_abs x).
Proof. unfold c_abs. case_match; [apply frames_fault|apply frames_ret]. Qed.
End Frames.

Create HintDb frames.
#[export] Hint Resolve frames_ret frames_gets frames_mgr frames_fault frames_lift frames_this frames_abs : frames.

(** Walks down the code of an operation and closes the leaves of which the
    view does not depend. *)
Ltac frame_step :=
  match goal with
  | |- frames _ (_ ≫= _) => apply frames_bind; [|intros ?]
  | |- frames _ (when _ _) => apply frames_when
  | |- frames _ (on_pool _) => apply frames_on_pool; reflexivity
  | |- frames _ (on_manager _) => apply frames_modify; reflexivity
  | |- frames _ (emit _) => apply frames_modify; reflexivity
  | |- frames _ (modify _) => apply frames_modify; reflexivity
  | |- frames _ (on_base _) => apply frames_on_this; reflexivity
  | |- frames _ (on_this _) => apply frames_on_this; reflexivity
  | |- frames _ (on_datacenter _) => apply frames_on_datacenter; reflexivity
  | |- frames _ next_tick => apply frames_tick; reflexivity
  | |- frames _ _ => solve [auto with frames]
  | |- frames _ (match ?x with _ => _ end) => destruct x
  end.
Ltac solve_frames := repeat frame_step.
