(* ===== verification/Connection.v ===== *)
(** * Connection: timers, the socket and the life of the connection

    Models [Timer.cpp], the event list and [onConnectionClosed] of
    [ConnectionsManager.cpp], [TcpSocket.cpp] (but for [onEvent], which is in
    [Manager.v]) and the part of [TcpConnection.cpp] that opens and closes
    connections, with [createConnection] and [getConnection] of
    [Datacenter.cpp].  No call chain of the code comes back to a function it
    is in, so the operations are plain definitions, callees first. *)

From S2P Require Import Prelude.
From S2P Require Import NativeByteBuffer.
From S2P Require Import BufferStorage.
From S2P Require Import ByteStream.
From S2P Require Import NetworkMessage.
From S2P Require Import Datacenter.
From S2P Require Import Request.
From S2P Require Import World.

(** ** The event list of the manager *)

(** The [time] field of the dispatcher. *)
Definition time_of (m : Manager) (e : dispatcher) : Z := default 0 (eventTime m !! e).

(** The position found by the loop of [scheduleEvent]: before the first
    event that is due later. *)
Fixpoint insert_event (time : dispatcher -> Z) (t : Z) (e : dispatcher) (l : list dispatcher) : list dispatcher :=
  match l with
  | [] => [e]
  | x :: l' => if time x >? t then e :: l else x :: insert_event time t e l'
  end.

Definition scheduleEvent (e : dispatcher) (time : Z) (m : Manager) : Manager :=
  let m := set_eventTime (<[e := u32 time]> (eventTime m)) m in
  set_events (insert_event (time_of m) (u32 time) e (events m)) m.

(** Erases the first occurrence. *)
Fixpoint remove_first (e : dispatcher) (l : list dispatcher) : list dispatcher :=
  match l with
  | [] => []
  | x :: l' => if decide (x = e) then l' else x :: remove_first e l'
  end.

Definition removeEvent (e : dispatcher) (m : Manager) : Manager := set_events (remove_first e (events m)) m.

(** ** The reconnect timer *)

Definition timer_start : SR World unit :=
  t ← this reconnectTimer;
  if started t || (timerTimeout t =? 0) then mret tt
  else
    on_this (fun c => set_reconnectTimer (set_started true (reconnectTimer c)) c);;
    on_manager (scheduleEvent reconnectDispatcher (timerTimeout t)).

Definition timer_stop : SR World unit :=
  t ← this reconnectTimer;
  if negb (started t) then mret tt
  else
    on_this (fun c => set_reconnectTimer (set_started false (reconnectTimer c)) c);;
    on_manager (removeEvent reconnectDispatcher).

Definition timer_setTimeout (ms : Z) : SR World unit :=
  t ← this reconnectTimer;
  if ms =? timerTimeout t then mret tt
  else
    on_this (fun c => set_reconnectTimer (set_timerTimeout ms (reconnectTimer c)) c);;
    when (started t)
      (on_manager (removeEvent reconnectDispatcher);;
       on_manager (scheduleEvent reconnectDispatcher ms)).

(** ** The connections of the event loop *)

Definition attachConnection (r : socket_ref) : SR World unit :=
  l ← mgr activeConnections;
  if decide (r ∈ l) then mret tt else on_manager (set_activeConnections (l ++ [r])).

(** [std::find] and [erase]: the first occurrence goes. *)
Fixpoint erase_first (r : socket_ref) (l : list socket_ref) : list socket_ref :=
  match l with
  | [] => []
  | x :: l' => if decide (x = r) then l' else x :: erase_first r l'
  end.

Definition detachConnection (r : socket_ref) : SR World unit :=
  on_manager (fun m => set_activeConnections (erase_first r (activeConnections m)) m).

(** [delegate->onConnectionStateChanged(connetionState)] *)
Definition notify_state : SR World unit :=
  m ← gets manager;
  when (delegate m) (emit (IoStateChanged (connetionState m))).

Definition change_state (st : ConnetionState) : SR World unit :=
  s ← mgr connetionState;
  when (negb (bool_decide (s = st))) (on_manager (set_connetionState st);; notify_state).

Definition onHandshakeConnectionClosed : SR World unit :=
  on_datacenter (fun d => Ok (set_handshakeState HandshakeStateIng d)).

Definition onConnectionClosed : SR World unit :=
  d ← gets datacenter;
  when (isHandshakeing d) onHandshakeConnectionClosed;;
  available ← mgr networkAvailable;
  if (available : bool) then change_state ConnectionStateConnecting
  else change_state ConnectionStateWaitingForNetwork.

(** [resetOfData->reuse(); resetOfData = nullptr;] when there is one. *)
Definition drop_resetOfData : SR World unit :=
  r ← this resetOfData;
  match r with
  | None => mret tt
  | Some p => on_pool (reuse p);; on_this (set_resetOfData None)
  end.

(** The last block of [onDisconnected], for an account that is logged in. *)
Definition prepare_reconnect (canSwitchToNextPort : bool) : SR World unit :=
  on_this (fun c => set_failedConnectionCount (u32 (failedConnectionCount c + 1))
                      (set_tcpConnectionStatus TcpConnectionStatusReconnecting c));;
  c ← this id;
  when (failedConnectionCount c =? 1)
    (on_this (set_willRetryConnectCount (if currentConnectionRecvData c then 5 else 1)));;
  available ← mgr networkAvailable;
  when available
    (c ← this id;
     when (canSwitchToNextPort || (failedConnectionCount c >? willRetryConnectCount c))
       (on_datacenter (fun d => Ok (switchAddressOrPort d));;
        on_this (set_failedConnectionCount 0));;
     on_this (set_isTryingNextPort true));;
  timer_setTimeout 1000;;
  timer_start.

Definition onDisconnected (reason : Z) : SR World unit :=
  timer_stop;;
  c ← this id;
  let canSwitchToNextPort := wasConnected c && negb (currentConnectionRecvData c) && (reason =? 2) in
  drop_resetOfData;;
  on_this (fun c => set_wasConnected false (set_lastPacketLength 0 (set_connectionToken 0 c)));;
  when (negb (bool_decide (tcpConnectionStatus c = TcpConnectionStatusClosed))
        || negb (bool_decide (tcpConnectionStatus c = TcpConnectionStatusIdel)))
    (on_this (set_tcpConnectionStatus TcpConnectionStatusIdel));;
  onConnectionClosed;;
  st ← this tcpConnectionStatus;
  d ← gets datacenter;
  when (bool_decide (st = TcpConnectionStatusIdel) && isHandshakeing d) (prepare_reconnect canSwitchToNextPort).

Section Socket.
Context {E : Env}.

Definition closeSocket (reason : Z) : SR World unit :=
  now ← getCurrentTimeMillis;
  on_base (set_lastEventTime now);;
  detachConnection TheConnection;;
  k ← this base;
  when (0 <=? socketFd k)
    (next_tick ;;                                   (* epoll_ctl(EPOLL_CTL_DEL), unchecked *)
     emit (IoClose (socketFd k));;
     on_base (set_socketFd (-1)));;
  on_base (set_onConnectedSent false);;
  k ← this base;
  st ← on_pool (clear_stream (outgoingByteStream k));
  on_base (set_outgoingByteStream st);;
  onDisconnected reason.

Definition checkScoketError : SR World bool :=
  k ← this base;
  if socketFd k <? 0 then mret true
  else
    t ← next_tick;
    let '(ret, code) := sys_getsockopt t (socketFd k) in
    mret (negb (ret =? 0) || negb (code =? 0)).

Definition adjustWriteOp : SR World unit :=
  k ← this base;
  more ← on_pool (hasData (outgoingByteStream k));
  let mask := Z.lor (Z.lor (Z.lor (Z.lor EPOLLIN EPOLLRDHUP) EPOLLERR) EPOLLET) (if (more : bool) then EPOLLOUT else 0) in
  on_base (set_eventMsk mask);;
  t ← next_tick;
  when (negb (sys_epoll_ctl t EPOLL_CTL_MOD (socketFd k) mask =? 0)) (closeSocket 1).

Definition writeBuffer (p : addr) : SR World unit :=
  on_base (fun k => set_outgoingByteStream (append (Some p) (outgoingByteStream k)) k);;
  adjustWriteOp.

Definition setTimeout (time : Z) : SR World unit :=
  on_base (set_socketTimeout time);;
  now ← getCurrentTimeMillis;
  on_base (set_lastEventTime now).

(** Both sides are 64 bits wide; with the timeouts the code sets (at most 70
    seconds) and a clock in milliseconds neither wraps. *)
Definition checkTimeout (now : Z) : SR World unit :=
  k ← this base;
  when ((0 <? socketTimeout k) && (i64 (socketTimeout k * 1000) <? i64 (now - lastEventTime k))) (closeSocket 2).

Definition dropConnection : SR World unit := closeSocket 0.

Definition isDisconnected : SR World bool := k ← this base; mret (socketFd k <? 0).

Definition openConnection (address : string) (port : Z) : SR World unit :=
  t ← next_tick;
  let fd := sys_socket t in
  on_base (set_socketFd fd);;
  if fd <? 0 then closeSocket 1
  else if negb (sys_inet_pton address =? 1) then closeSocket 1
  else
    t ← next_tick;
    if sys_fcntl t fd =? -1 then closeSocket 1
    else
      t ← next_tick;
      emit (IoConnect fd address port);;
      let '(ret, errno) := sys_connect t fd address port in
      if (ret =? -1) && negb (errno =? EINPROGRESS) then closeSocket 1
      else
        attachConnection TheConnection;;
        let mask := Z.lor (Z.lor (Z.lor (Z.lor EPOLLOUT EPOLLIN) EPOLLRDHUP) EPOLLERR) EPOLLET in
        on_base (set_eventMsk mask);;
        t ← next_tick;
        when (negb (sys_epoll_ctl t EPOLL_CTL_ADD fd mask =? 0)) (closeSocket 1).

(** ** The connection *)

Definition connect : SR World unit :=
  available ← mgr networkAvailable;
  if negb available then onConnectionClosed
  else
    st ← this tcpConnectionStatus;
    if bool_decide (st = TcpConnectionStatusConnected) || bool_decide (st = TcpConnectionStatusConnecting)
    then mret tt
    else
      d ← gets datacenter;
      address ← lift_res (getCurrentAddress d);
      '(port, d) ← lift_res (getCurrentPort d);
      on_datacenter (fun _ => Ok d);;
      on_this (fun c => set_tcpConnectionStatus TcpConnectionStatusConnecting
                          (set_serverPort port (set_serverAddress address c)));;
      timer_stop;;
      drop_resetOfData;;
      on_this (fun c => set_currentConnectionRecvData false (set_wasConnected false (set_lastPacketLength 0 c)));;
      openConnection address port;;
      trying ← this isTryingNextPort;
      setTimeout (if (trying : bool) then 8 else 15).

Definition closeConnect : SR World unit :=
  timer_stop;;
  st ← this tcpConnectionStatus;
  if bool_decide (st = TcpConnectionStatusIdel) || bool_decide (st = TcpConnectionStatusClosed) then mret tt
  else
    on_this (set_tcpConnectionStatus TcpConnectionStatusClosed);;
    dropConnection;;
    onConnectionClosed.

Definition reconnect : SR World unit :=
  closeConnect;;
  on_this (set_tcpConnectionStatus TcpConnectionStatusReconnecting);;
  connect.

Definition sendData (p : addr) : SR World unit :=
  st ← this tcpConnectionStatus;
  if bool_decide (st = TcpConnectionStatusIdel) || bool_decide (st = TcpConnectionStatusReconnecting)
     || bool_decide (st = TcpConnectionStatusClosed)
  then connect;; on_pool (reuse p)
  else
    closed ← isDisconnected;
    if (closed : bool) then on_pool (reuse p)
    else
      on_pool (update_buf p (fun b => Ok (rewind b)));;
      writeBuffer p.

Definition getConnectionToken : SR World Z := this connectionToken.

(** [new TcpConnection]: the plain fields without initialiser hold what the
    allocation left there. *)
Definition new_connection (now : Z) : TcpConnection :=
  mkTcpConnection
    (mkTcpSocket (-1) now false uninitialised uninitialised (mkByteStream []))
    None uninitialised false (negb (uninitialised =? 0)) false 5 0 "" uninitialised
    (mkTimer false uninitialised) 0 TcpConnectionStatusIdel.

Definition createConnection : SR World unit :=
  c ← gets connection;
  match c with
  | Some _ => mret tt
  | None => now ← getCurrentTimeMillis; modify (set_connection (Some (new_connection now)))
  end.

(** The assignments of [onConnected], which then tells the manager. *)
Definition mark_connected : SR World unit :=
  token ← gets lastConnectionToken;
  on_this (fun c => set_wasConnected true (set_connectionToken token
                      (set_tcpConnectionStatus TcpConnectionStatusConnected c)));;
  modify (set_lastConnectionToken (u32 (token + 1))).

(** The result is whether the returned pointer is not null. *)
Definition getConnection (create : bool) : SR World bool :=
  d ← gets datacenter;
  if negb (isHandshakeing d) then mret false
  else
    when create (createConnection;; connect);;
    c ← gets connection;
    mret (bool_decide (is_Some c)).

(** A method call through the returned pointer. *)
Definition via {A} (c : bool) (m : SR World A) : SR World A :=
  if c then m else fault_with NullDereference.
End Socket.

(** ** Specifications *)

Lemma wp_on_pool {A} (m : SR Storage A) Q w :
  wp (on_pool m) Q w = wp m (fun a s => Q a (set_pool s w)) (pool w).
Proof. unfold wp, on_pool. by destruct (m (pool w)) as [[? ?]|]. Qed.

Lemma wp_this {A} (f : TcpConnection -> A) Q w c :
  connection w = Some c -> Q (f c) w -> wp (this f) Q w.
Proof. intros H HQ. unfold wp, this. by rewrite H. Qed.

Lemma wp_on_this f Q w c :
  connection w = Some c -> Q tt (set_connection (Some (f c)) w) -> wp (on_this f) Q w.
Proof. intros H HQ. unfold wp, on_this. by rewrite H. Qed.

Lemma wp_on_base f Q w c :
  connection w = Some c -> Q tt (set_connection (Some (set_base (f (base c)) c)) w) -> wp (on_base f) Q w.
Proof. intros H HQ. by eapply wp_on_this. Qed.

Lemma wp_on_datacenter f Q w :
  wp (on_datacenter f) Q w =
    match f (datacenter w) with Ok d => Q tt (set_datacenter d w) | Fault _ => False end.
Proof. unfold wp, on_datacenter. by destruct (f (datacenter w)). Qed.

Lemma wp_tick Q w : wp next_tick Q w = Q (tick w) (set_tick (S (tick w)) w).
Proof. done. Qed.

Lemma wp_emit e Q w : wp (emit e) Q w = Q tt (set_trace (e :: trace w) w).
Proof. done. Qed.

Lemma wp_mgr {A} (f : Manager -> A) Q w : wp (mgr f) Q w = Q (f (manager w)) w.
Proof. done. Qed.

Lemma wp_on_manager f Q w : wp (on_manager f) Q w = Q tt (set_manager (f (manager w)) w).
Proof. done. Qed.

#[export] Hint Rewrite @wp_on_pool @wp_on_datacenter @wp_tick @wp_emit @wp_mgr @wp_on_manager : wp.

Lemma wp_clock {E : Env} Q w :
  (forall now, Q now (set_tick (S (tick w)) w)) -> wp getCurrentTimeMillis Q w.
Proof.
  intros H. unfold getCurrentTimeMillis. rewrite wp_bind, wp_tick.
  destruct (clock_gettime (tick w)) as [s n]. apply H.
Qed.

(** The buffers the connection holds. *)
Definition refs (c : TcpConnection) : list addr :=
  option_list (resetOfData c) ++ buffersQueue (outgoingByteStream (base c)).

(** Resources and bookkeeping: every buffer of the connection is its own,
    and its timer is in the event list exactly while it is started. *)
Record conn_ok (w : World) (c : TcpConnection) : Prop := {
  ck_conn : connection w = Some c;
  ck_pool : pool_wf (pool w);
  ck_dc : dc_wf (datacenter w);
  ck_refs : stream_ok (pool w) (refs c);
  ck_timer : events (manager w) = if started (reconnectTimer c) then [reconnectDispatcher] else []
}.

(** Descriptor, status, token and the loop's list of sockets agree. *)
Record status_ok (w : World) (c : TcpConnection) : Prop := {
  sk_fd : 0 <= socketFd (base c) <->
    tcpConnectionStatus c = TcpConnectionStatusConnecting \/ tcpConnectionStatus c = TcpConnectionStatusConnected;
  sk_token : connectionToken c <> 0 -> tcpConnectionStatus c = TcpConnectionStatusConnected;
  sk_active : activeConnections (manager w) = if 0 <=? socketFd (base c) then [TheConnection] else []
}.

(** What [onConnectionClosed] changes. *)
Record closed_rel (w w' : World) : Prop := {
  cr_pool : pool w' = pool w;
  cr_conn : connection w' = connection w;
  cr_tick : tick w' = tick w;
  cr_dc : datacenter w' = if isHandshakeing (datacenter w)
                          then set_handshakeState HandshakeStateIng (datacenter w) else datacenter w;
  cr_mgr : exists st, manager w' = set_connetionState st (manager w)
}.

Lemma change_state_wp st Q w :
  (forall w', pool w' = pool w -> connection w' = connection w -> tick w' = tick w ->
     datacenter w' = datacenter w -> (exists s, manager w' = set_connetionState s (manager w)) -> Q tt w') ->
  wp (change_state st) Q w.
Proof.
  intros H. unfold change_state, notify_state. wp_run.
  case_bool_decide as Hs; simpl; wp_run.
  - apply H; try done. exists (connetionState (manager w)). by destruct (manager w).
  - destruct (delegate (manager w)); simpl; apply H; try done; by eexists.
Qed.

Lemma onConnectionClosed_ok w : exists w', onConnectionClosed w = Ok (tt, w') /\ closed_rel w w'.
Proof.
  assert (G : wp onConnectionClosed (fun _ w' => closed_rel w w') w).
  { unfold onConnectionClosed, onHandshakeConnectionClosed. wp_run.
    destruct (isHandshakeing (datacenter w)) eqn:Eh; simpl; wp_run;
      destruct (networkAvailable _); apply change_state_wp; intros w' Hp Hc Ht Hd Hm;
      constructor; rewrite ?Eh; auto. }
  apply wp_run in G as ([] & w' & E & H). eauto.
Qed.

Lemma set_events_same m l : events m = l -> set_events l m = m.
Proof. intros <-. by destruct m. Qed.
Lemma set_manager_same w m : manager w = m -> set_manager m w = w.
Proof. intros <-. by destruct w. Qed.
Lemma set_connection_same w c : connection w = c -> set_connection c w = w.
Proof. intros <-. by destruct w. Qed.
Lemma set_started_same c b :
  started (reconnectTimer c) = b -> set_reconnectTimer (set_started b (reconnectTimer c)) c = c.
Proof. intros <-. destruct c as [? ? ? ? ? ? ? ? ? ? []]. done. Qed.

(** The connection with its timer stopped, and the world with that. *)
Definition stopped (c : TcpConnection) : TcpConnection :=
  set_reconnectTimer (set_started false (reconnectTimer c)) c.
Definition world_stopped (w : World) (c : TcpConnection) : World :=
  set_manager (set_events [] (manager w)) (set_connection (Some (stopped c)) w).

Lemma timer_stop_ok w c : conn_ok w c -> timer_stop w = Ok (tt, world_stopped w c).
Proof.
  intros [Hc _ _ _ Ht]. unfold timer_stop, this, on_this, mbind, SR_bind. rewrite Hc.
  destruct (started (reconnectTimer c)) eqn:Es; simpl.
  - rewrite Hc. simpl. unfold on_manager, modify. simpl. do 2 f_equal. unfold world_stopped, removeEvent.
    simpl. rewrite Ht. simpl. done.
  - unfold world_stopped, stopped. rewrite set_started_same by done.
    rewrite set_events_same by done. rewrite set_connection_same by done. by rewrite set_manager_same.
Qed.

Lemma conn_ok_stopped w c : conn_ok w c -> conn_ok (world_stopped w c) (stopped c).
Proof. intros [? ? ? ? ?]. by constructor. Qed.

(** Changes of fields that no other part refers to. *)
Lemma conn_ok_update w c f :
  conn_ok w c -> refs (f c) = refs c -> started (reconnectTimer (f c)) = started (reconnectTimer c) ->
  conn_ok (set_connection (Some (f c)) w) (f c).
Proof. intros [? ? ? ? ?] Hr Hs. constructor; simpl; try done; [by rewrite Hr|by rewrite Hs]. Qed.

Lemma stream_ok_sub s q r : stream_ok s q -> r ⊆+ q -> stream_ok s r.
Proof.
  intros [N B] H. split.
  - apply submseteq_Permutation in H as [k Hk]. rewrite Hk in N. by apply NoDup_app in N as [? _].
  - intros p Hp. apply B. by eapply elem_of_submseteq.
Qed.

Lemma stream_ok_released_all s ps s' q :
  released_all s ps s' -> (forall p, p ∈ q -> p ∉ ps) -> stream_ok s q -> stream_ok s' q.
Proof.
  intros HR Hd [N B]. split; [done|]. intros p Hp.
  by destruct (pool_buf_released_all s ps s' p HR (Hd p Hp) (B p Hp)).
Qed.

Lemma refs_split w c : conn_ok w c ->
  stream_ok (pool w) (option_list (resetOfData c)) /\
  stream_ok (pool w) (buffersQueue (outgoingByteStream (base c))) /\
  (forall p, p ∈ buffersQueue (outgoingByteStream (base c)) -> p ∉ option_list (resetOfData c)).
Proof.
  intros H. pose proof (ck_refs _ _ H) as Hr. unfold refs in Hr. split; [|split].
  - eapply stream_ok_sub; [done|]. by apply submseteq_inserts_r.
  - eapply stream_ok_sub; [done|]. by apply submseteq_inserts_l.
  - destruct Hr as [N _]. apply NoDup_app in N as (_ & N & _). intros p Hp Hq. by apply (N p).
Qed.

(** [drop_resetOfData] releases the partial packet. *)
Lemma drop_resetOfData_ok w c :
  conn_ok w c ->
  exists s, drop_resetOfData w = Ok (tt, set_connection (Some (set_resetOfData None c)) (set_pool s w)) /\
    released_all (pool w) (option_list (resetOfData c)) s /\
    conn_ok (set_connection (Some (set_resetOfData None c)) (set_pool s w)) (set_resetOfData None c).
Proof.
  intros H. pose proof H as [Hc Hp Hd Hr Ht]. destruct (refs_split w c H) as (Hr1 & Hr2 & Hd12).
  unfold drop_resetOfData, this, mbind, SR_bind. rewrite Hc.
  destruct (resetOfData c) as [p|] eqn:Ep.
  - destruct (reuse_all_spec (pool w) [p] Hp) as (s & E & HR); [done|].
    assert (E' : reuse p (pool w) = Ok (tt, s)).
    { simpl in E. unfold mbind, SR_bind in E. by destruct (reuse p (pool w)) as [[[] ?]|]. }
    unfold on_pool, on_this. rewrite E'. simpl. rewrite Hc. exists s.
    split; [done|]. split; [done|]. constructor; simpl; try done; [apply HR|].
    unfold refs. simpl. by eapply stream_ok_released_all.
  - exists (pool w). simpl. assert (set_resetOfData None c = c) as ->.
    { rewrite <- Ep. by destruct c. }
    rewrite set_connection_same by (by destruct w).
    assert (set_pool (pool w) w = w) as -> by (by destruct w).
    split; [done|]. split; [by apply released_all_nil|done].
Qed.

Lemma wp_eq {St A} (m : SR St A) (Q : A -> St -> Prop) s a s' : m s = Ok (a, s') -> Q a s' -> wp m Q s.
Proof. intros H HQ. unfold wp. by rewrite H. Qed.

(** The timer armed with the reconnect delay. *)
Definition armed (c : TcpConnection) : TcpConnection := set_reconnectTimer (mkTimer true 1000) c.
Definition world_armed (w : World) (c : TcpConnection) : World :=
  set_manager (set_events [reconnectDispatcher]
                 (set_eventTime (<[reconnectDispatcher := 1000]> (eventTime (manager w))) (manager w)))
    (set_connection (Some (armed c)) w).

Lemma timer_arm_ok w c :
  conn_ok w c -> started (reconnectTimer c) = false ->
  (timer_setTimeout 1000;; timer_start) w = Ok (tt, world_armed w c).
Proof.
  intros [Hc _ _ _ Ht] Hs. rewrite Hs in Ht.
  unfold timer_setTimeout, timer_start, this, on_this, mbind, SR_bind. rewrite Hc.
  destruct (Z.eqb_spec 1000 (timerTimeout (reconnectTimer c))) as [Ee|Ee].
  - simpl. rewrite Hc, Hs, <- Ee. simpl. rewrite Hc. simpl.
    unfold on_manager, modify, world_armed, scheduleEvent. simpl. rewrite Ht. simpl.
    unfold armed, set_started. by rewrite <- Ee.
  - simpl. rewrite Hc, Hs. simpl. rewrite Hs. simpl.
    unfold on_manager, modify, world_armed, scheduleEvent. simpl. by rewrite Ht.
Qed.

Lemma conn_ok_armed w c : conn_ok w c -> conn_ok (world_armed w c) (armed c).
Proof. intros [? ? ? ? ?]. by constructor. Qed.

Lemma isHandshakeing_ing d : isHandshakeing (set_handshakeState HandshakeStateIng d) = true.
Proof. done. Qed.

Lemma closed_handshakeing w w' :
  closed_rel w w' -> isHandshakeing (datacenter w') = isHandshakeing (datacenter w).
Proof. intros H. rewrite (cr_dc _ _ H). by destruct (isHandshakeing (datacenter w)) eqn:E. Qed.

Lemma conn_ok_closed w w' c : conn_ok w c -> closed_rel w w' -> conn_ok w' c.
Proof.
  intros [? ? ? ? ?] H. destruct (cr_mgr _ _ H) as [st Hm]. constructor.
  - by rewrite (cr_conn _ _ H).
  - by rewrite (cr_pool _ _ H).
  - rewrite (cr_dc _ _ H). destruct (isHandshakeing (datacenter w)); [by apply dc_wf_handshake|done].
  - by rewrite (cr_pool _ _ H).
  - by rewrite Hm.
Qed.

Lemma handshakeing_switch d : isHandshakeing (switchAddressOrPort d) = isHandshakeing d.
Proof. unfold switchAddressOrPort. by repeat case_match. Qed.

(** What a closed connection is like: it is going to reconnect exactly if
    the account is logged in. *)
Record dropped (w : World) (c : TcpConnection) (w' : World) (c' : TcpConnection) : Prop := {
  dr_ok : conn_ok w' c';
  dr_base : base c' = base c;
  dr_reset : resetOfData c' = None;
  dr_token : connectionToken c' = 0;
  dr_status : tcpConnectionStatus c' =
    if isHandshakeing (datacenter w) then TcpConnectionStatusReconnecting else TcpConnectionStatusIdel;
  dr_timer : started (reconnectTimer c') = isHandshakeing (datacenter w);
  dr_due : isHandshakeing (datacenter w) = true -> time_of (manager w') reconnectDispatcher = 1000;
  dr_pool : released_all (pool w) (option_list (resetOfData c)) (pool w');
  dr_active : activeConnections (manager w') = activeConnections (manager w);
  dr_handshake : isHandshakeing (datacenter w') = isHandshakeing (datacenter w);
  dr_available : networkAvailable (manager w') = networkAvailable (manager w)
}.

(** The part of [onDisconnected] before the state change is told. *)
Definition cleared (c : TcpConnection) : TcpConnection :=
  set_tcpConnectionStatus TcpConnectionStatusIdel
    (set_wasConnected false (set_lastPacketLength 0 (set_connectionToken 0 (set_resetOfData None (stopped c))))).

(** Changes of counters and flags of a connection, and of the server index. *)
Definition same_session (c c' : TcpConnection) : Prop :=
  base c' = base c /\ resetOfData c' = resetOfData c /\ connectionToken c' = connectionToken c /\
  tcpConnectionStatus c' = tcpConnectionStatus c /\ reconnectTimer c' = reconnectTimer c.

Lemma same_session_trans c1 c2 c3 : same_session c1 c2 -> same_session c2 c3 -> same_session c1 c3.
Proof. intros (? & ? & ? & ? & ?) (? & ? & ? & ? & ?). repeat split; congruence. Qed.

(** The worlds that [prepare_reconnect] goes through before the timer. *)
Definition between (w : World) (c : TcpConnection) (w' : World) : Prop :=
  exists c' d, w' = set_connection (Some c') (set_datacenter d w) /\ same_session c c' /\
    dc_wf d /\ isHandshakeing d = isHandshakeing (datacenter w).

Lemma between_on_this w c w' f (Q : unit -> World -> Prop) :
  between w c w' -> (forall c', same_session c' (f c')) ->
  (forall w'', between w c w'' -> Q tt w'') -> wp (on_this f) Q w'.
Proof.
  intros (c' & d & -> & S & Wd & Ed) Hf HQ. eapply wp_on_this; [done|]. apply HQ.
  exists (f c'), d. split; [done|]. split; [by eapply same_session_trans|done].
Qed.

Lemma between_switch w c w' (Q : unit -> World -> Prop) :
  between w c w' -> (forall w'', between w c w'' -> Q tt w'') ->
  wp (on_datacenter (fun d => Ok (switchAddressOrPort d))) Q w'.
Proof.
  intros (c' & d & -> & S & Wd & Ed) HQ. rewrite wp_on_datacenter. apply HQ.
  exists c', (switchAddressOrPort d). split; [done|]. split; [done|].
  split; [by apply dc_wf_switch|by rewrite handshakeing_switch].
Qed.

Lemma between_this {A} w c w' (f : TcpConnection -> A) (Q : A -> World -> Prop) :
  between w c w' -> (forall x, Q x w') -> wp (this f) Q w'.
Proof. intros (c' & d & -> & _) HQ. eapply wp_this; [done|]. apply HQ. Qed.

Lemma conn_ok_between w c w' :
  conn_ok w c -> between w c w' -> exists c', connection w' = Some c' /\ same_session c c' /\ conn_ok w' c'.
Proof.
  intros [? ? ? ? ?] (c' & d & -> & S & Wd & _). exists c'. split; [done|]. split; [done|].
  destruct S as (Hb & Hr & _ & _ & Ht). constructor; simpl; try done.
  - unfold refs. by rewrite Hb, Hr.
  - by rewrite Ht.
Qed.

(** The state after [prepare_reconnect]. *)
Lemma prepare_reconnect_ok b w c :
  conn_ok w c -> started (reconnectTimer c) = false ->
  let c0 := set_tcpConnectionStatus TcpConnectionStatusReconnecting c in
  wp (prepare_reconnect b) (fun _ w' => exists w1 c1,
    w' = world_armed w1 c1 /\ between w c0 w1 /\ same_session c0 c1 /\ conn_ok w1 c1) w.
Proof.
  intros H Hs c0. pose proof H as [Hc Hp Hd Hr Ht]. unfold prepare_reconnect.
  assert (H0 : conn_ok (set_connection (Some c0) w) c0)
    by (by apply (conn_ok_update w c (fun c => set_tcpConnectionStatus TcpConnectionStatusReconnecting c))).
  assert (L : forall w1, between w c0 w1 -> wp (timer_setTimeout 1000;; timer_start) (fun _ w' => exists w1 c1,
    w' = world_armed w1 c1 /\ between w c0 w1 /\ same_session c0 c1 /\ conn_ok w1 c1) w1).
  { intros w1 B. destruct (conn_ok_between (set_connection (Some c0) w) c0 w1 H0) as (c1 & E1 & S1 & K1).
    { destruct B as (c1 & d & -> & B). exists c1, d. by destruct w. }
    eapply wp_eq; [apply (timer_arm_ok _ c1 K1)|eauto 10]. by destruct S1 as (_ & _ & _ & _ & ->). }
  rewrite wp_bind. eapply wp_on_this; [done|].
  set (w1 := set_connection _ w). assert (B1 : between w c0 w1).
  { eexists _, (datacenter w). split; [by destruct w|done]. }
  rewrite wp_bind. eapply between_this; [done|]. intros c1.
  rewrite wp_bind, wp_when.
  assert (M : forall w2, between w c0 w2 -> wp (available ← mgr networkAvailable;
     when available
       (c ← this id;
        when (b || (failedConnectionCount c >? willRetryConnectCount c))
          (on_datacenter (fun d => Ok (switchAddressOrPort d));;
           on_this (set_failedConnectionCount 0));;
        on_this (set_isTryingNextPort true));;
     timer_setTimeout 1000;; timer_start) (fun _ w' => exists w1 c1,
    w' = world_armed w1 c1 /\ between w c0 w1 /\ same_session c0 c1 /\ conn_ok w1 c1) w2).
  { intros w2 B2. rewrite wp_bind, wp_mgr, wp_bind, wp_when.
    destruct (networkAvailable (manager w2)); [|by apply L].
    rewrite wp_bind. eapply between_this; [done|]. intros c2. rewrite wp_bind, wp_when.
    destruct (_ || _); [rewrite wp_bind; eapply between_switch; [done|]; intros w3 B3;
      eapply between_on_this; [done|done|]; intros w4 B4; eapply between_on_this; [done|done|apply L]|].
    eapply between_on_this; [done|done|apply L]. }
  destruct (_ =? 1); [|by apply M]. eapply between_on_this; [done|done|apply M].
Qed.

Lemma onDisconnected_ok reason w c :
  conn_ok w c -> exists w' c', onDisconnected reason w = Ok (tt, w') /\ dropped w c w' c'.
Proof.
  intros H.
  assert (G : wp (onDisconnected reason) (fun _ w' => exists c', dropped w c w' c') w).
  2: { apply wp_run in G as ([] & w' & E & c' & HD). eauto. }
  unfold onDisconnected. rewrite wp_bind. eapply wp_eq; [by apply timer_stop_ok|].
  pose proof (conn_ok_stopped _ _ H) as H1. set (w1 := world_stopped w c) in *.
  rewrite wp_bind. eapply wp_this; [apply H1|]. cbn [id]. rewrite wp_bind.
  destruct (drop_resetOfData_ok _ _ H1) as (s & E2 & R2 & H2). eapply wp_eq; [done|]. clear E2.
  set (w2 := set_connection _ (set_pool s w1)) in *.
  rewrite wp_bind. eapply wp_on_this; [apply H2|].
  rewrite wp_bind, wp_when.
  assert (negb (bool_decide (tcpConnectionStatus (stopped c) = TcpConnectionStatusClosed))
          || negb (bool_decide (tcpConnectionStatus (stopped c) = TcpConnectionStatusIdel)) = true) as ->.
  { by destruct (tcpConnectionStatus (stopped c)). }
  eapply wp_on_this; [done|]. rewrite wp_bind.
  set (w3 := set_connection _ _). assert (H3 : conn_ok w3 (cleared c)).
  { by apply (conn_ok_update w2 _ (fun c => set_tcpConnectionStatus TcpConnectionStatusIdel
      (set_wasConnected false (set_lastPacketLength 0 (set_connectionToken 0 c))))). }
  destruct (onConnectionClosed_ok w3) as (w4 & E4 & C4). eapply wp_eq; [done|]. clear E4.
  pose proof (conn_ok_closed _ _ _ H3 C4) as H4. pose proof (closed_handshakeing _ _ C4) as Hh.
  destruct (cr_mgr _ _ C4) as [st Hm].
  rewrite wp_bind. eapply wp_this; [apply H4|]. rewrite wp_bind, wp_gets, wp_when, Hh.
  change (datacenter w3) with (datacenter w) in *.
  change (bool_decide (tcpConnectionStatus (cleared c) = TcpConnectionStatusIdel)) with true.
  assert (HP : released_all (pool w) (option_list (resetOfData c)) (pool w4)) by (by rewrite (cr_pool _ _ C4)).
  destruct (isHandshakeing (datacenter w)) eqn:Eh; simpl andb; cbv iota.
  2: { exists (cleared c). by constructor; rewrite ?Hm, ?Eh, ?Hh. }
  eapply wp_mono; [by apply prepare_reconnect_ok|].
  intros [] w' (w5 & c5 & -> & B & S & K). exists (armed c5).
  destruct B as (c6 & d & E5 & _ & Wd & Ed). destruct S as (S1 & S2 & S3 & S4 & S5).
  constructor; try (by rewrite ?Eh); try (subst w5; simpl; by rewrite ?Hm, ?Ed, ?Hh, ?Eh).
  - by apply conn_ok_armed.
  - intros _. unfold time_of. simpl. by rewrite lookup_insert_eq.
Qed.

Lemma released_all_trans s ps s1 qs s2 rs :
  released_all s ps s1 -> released_all s1 qs s2 -> (forall p, p ∈ ps ++ qs -> p ∈ rs) -> released_all s rs s2.
Proof.
  intros [_ K1] [W2 K2] Hsub. split; [done|]. intros q Hq Ho.
  destruct (K1 q) as [Ho1 E1]; [intros ?; apply Hq, Hsub; apply elem_of_app; by left|done|].
  destruct (K2 q) as [Ho2 E2]; [intros ?; apply Hq, Hsub; apply elem_of_app; by right|done|].
  split; [done|congruence].
Qed.

(** What [closeSocket] leaves. *)
Record shut (w : World) (c : TcpConnection) (w' : World) (c' : TcpConnection) : Prop := {
  sh_ok : conn_ok w' c';
  sh_fd : socketFd (base c') < 0;
  sh_sent : onConnectedSent (base c') = false;
  sh_refs : refs c' = [];
  sh_token : connectionToken c' = 0;
  sh_status : tcpConnectionStatus c' =
    if isHandshakeing (datacenter w) then TcpConnectionStatusReconnecting else TcpConnectionStatusIdel;
  sh_timer : started (reconnectTimer c') = isHandshakeing (datacenter w);
  sh_due : isHandshakeing (datacenter w) = true -> time_of (manager w') reconnectDispatcher = 1000;
  sh_pool : released_all (pool w) (refs c) (pool w');
  sh_active : activeConnections (manager w') = [];
  sh_handshake : isHandshakeing (datacenter w') = isHandshakeing (datacenter w);
  sh_available : networkAvailable (manager w') = networkAvailable (manager w)
}.

Definition active_ok (w : World) : Prop :=
  activeConnections (manager w) = [] \/ activeConnections (manager w) = [TheConnection].

Lemma status_ok_shut w c w' c' : shut w c w' c' -> status_ok w' c'.
Proof.
  intros H. pose proof (sh_fd _ _ _ _ H). constructor.
  - rewrite (sh_status _ _ _ _ H). split; [lia|]. destruct (isHandshakeing _); intros [?|?]; done.
  - by rewrite (sh_token _ _ _ _ H).
  - rewrite (sh_active _ _ _ _ H). by destruct (Z.leb_spec 0 (socketFd (base c'))); [lia|].
Qed.

(** Releasing the send queue. *)
Lemma clear_outgoing_ok w c :
  conn_ok w c ->
  exists s, clear_stream (outgoingByteStream (base c)) (pool w) = Ok (mkByteStream [], s) /\
    released_all (pool w) (buffersQueue (outgoingByteStream (base c))) s /\
    let c' := set_base (set_outgoingByteStream (mkByteStream []) (base c)) c in
    conn_ok (set_connection (Some c') (set_pool s w)) c' /\ refs c' = option_list (resetOfData c).
Proof.
  intros H. pose proof H as [Hc Hp Hd Hr Ht]. destruct (refs_split w c H) as (Hr1 & Hr2 & Hd12).
  destruct (clear_stream_spec (pool w) _ Hp Hr2) as (s & E & HR).
  exists s. split; [done|]. split; [done|]. simpl.
  assert (refs (set_base (set_outgoingByteStream (mkByteStream []) (base c)) c) = option_list (resetOfData c)) as Er
    by (unfold refs; simpl; by rewrite app_nil_r).
  split; [|done]. constructor; simpl; try done; [apply HR|]. rewrite Er.
  eapply stream_ok_released_all; [done| |done]. intros p Hp1 Hp2. by apply (Hd12 p).
Qed.

(** The connection that the world of the goal holds. *)
Ltac exists_conn := match goal with |- context [set_connection (Some ?x) _] => exists x end.

Section SocketSpecs.
Context {E : Env}.

Lemma closeSocket_tail reason w c :
  conn_ok w c -> socketFd (base c) < 0 -> activeConnections (manager w) = [] ->
  wp (on_base (set_onConnectedSent false);;
      k ← this base;
      st ← on_pool (clear_stream (outgoingByteStream k));
      on_base (set_outgoingByteStream st);;
      onDisconnected reason) (fun _ w' => exists c', shut w c w' c') w.
Proof.
  intros H Hf HA. rewrite wp_bind. eapply wp_on_base; [apply H|].
  set (c1 := set_base _ c). set (w1 := set_connection _ w).
  assert (H1 : conn_ok w1 c1) by (by apply (conn_ok_update w c (fun c => set_base (set_onConnectedSent false (base c)) c))).
  rewrite wp_bind. eapply wp_this; [done|]. rewrite wp_bind, wp_on_pool.
  destruct (clear_outgoing_ok w1 c1 H1) as (s & E1 & R1 & H2 & Er). eapply wp_eq; [done|].
  rewrite wp_bind. eapply wp_on_base; [done|].
  set (c2 := set_base _ c1) in *. set (w2 := set_connection (Some c2) _) in *.
  assert (H2' : conn_ok w2 c2) by done.
  destruct (onDisconnected_ok reason w2 c2 H2') as (w' & c' & E3 & HD). eapply wp_eq; [done|].
  exists c'. destruct HD as [K B R T S M D P A Hh V]. constructor; try done.
  - by rewrite B.
  - by rewrite B.
  - unfold refs. by rewrite B, R.
  - eapply released_all_trans; [exact R1|exact P|].
    intros p. unfold refs. rewrite !elem_of_app. simpl. tauto.
  - by rewrite A.
Qed.

(** Starting from a world that differs in nothing [shut] looks at. *)
Lemma shut_from w c w1 c1 w' c' :
  pool w1 = pool w -> refs c1 = refs c -> datacenter w1 = datacenter w ->
  networkAvailable (manager w1) = networkAvailable (manager w) -> shut w1 c1 w' c' -> shut w c w' c'.
Proof.
  intros Ep Er Ed En [K F S R T St M D P A Hh V].
  constructor; congruence || (rewrite <- ?Ed, <- ?Ep, <- ?Er; done).
Qed.

Lemma closeSocket_ok reason w c :
  conn_ok w c -> active_ok w -> exists w' c', closeSocket reason w = Ok (tt, w') /\ shut w c w' c'.
Proof.
  intros H HA. pose proof H as [Hc Hp Hd Hr Ht].
  assert (G : wp (closeSocket reason) (fun _ w' => exists c', shut w c w' c') w).
  2: { apply wp_run in G as ([] & w' & E1 & c' & HD). eauto. }
  unfold closeSocket, detachConnection. rewrite wp_bind. apply wp_clock. intros now.
  rewrite wp_bind. eapply wp_on_base; [done|]. rewrite wp_bind, wp_on_manager.
  rewrite wp_bind. eapply wp_this; [done|]. rewrite wp_bind, wp_when.
  set (c1 := set_base _ c). set (w1 := set_manager _ _).
  assert (A1 : activeConnections (manager w1) = []) by (simpl; by destruct HA as [-> | ->]).
  assert (H1 : conn_ok w1 c1) by (by constructor).
  destruct (Z.leb_spec 0 (socketFd (base c1))) as [Hfd|Hfd].
  - rewrite wp_bind, wp_tick, wp_bind, wp_emit. eapply wp_on_base; [done|].
    set (c2 := set_base _ c1). set (w2 := set_connection _ _).
    eapply wp_mono; [apply (closeSocket_tail reason w2 c2); [by constructor|done|done]|].
    intros [] w' [c' HS]. exists c'. by eapply shut_from; [..|done].
  - eapply wp_mono; [apply (closeSocket_tail reason w1 c1); [done|done|done]|].
    intros [] w' [c' HS]. exists c'. by eapply shut_from; [..|done].
Qed.

(** The invariant between two calls. *)
Definition live (w : World) (c : TcpConnection) : Prop := conn_ok w c /\ status_ok w c.

Lemma live_active w c : live w c -> active_ok w.
Proof. intros [_ H]. unfold active_ok. rewrite (sk_active _ _ H). case_match; auto. Qed.

(** A step of the connection that was given the buffers [ps]: the invariant
    holds again, and no buffer but those and its own was touched. *)
Record moved_with (ps : list addr) (w : World) (c : TcpConnection) (w' : World) (c' : TcpConnection) : Prop := {
  mv_live : live w' c';
  mv_refs : forall p, p ∈ refs c' -> p ∈ ps ++ refs c;
  mv_pool : released_all (pool w) (ps ++ refs c) (pool w');
  mv_handshake : isHandshakeing (datacenter w') = isHandshakeing (datacenter w);
  mv_available : networkAvailable (manager w') = networkAvailable (manager w)
}.

Abbreviation moved := (moved_with []).

Lemma moved_shut w c w' c' : shut w c w' c' -> moved w c w' c'.
Proof.
  intros H. pose proof (status_ok_shut _ _ _ _ H). destruct H. constructor; try done.
  intros p. rewrite sh_refs0. set_solver.
Qed.

Lemma moved_same w c w' c' :
  live w' c' -> refs c' = refs c -> pool w' = pool w ->
  isHandshakeing (datacenter w') = isHandshakeing (datacenter w) ->
  networkAvailable (manager w') = networkAvailable (manager w) -> moved w c w' c'.
Proof.
  intros HL Er Ep Eh En. constructor; try done; [by rewrite Er|]. rewrite Ep. split; [|done].
  rewrite <- Ep. apply HL.
Qed.

Lemma moved_trans ps w c w1 c1 w2 c2 :
  moved_with ps w c w1 c1 -> moved w1 c1 w2 c2 -> moved_with ps w c w2 c2.
Proof.
  intros [L1 R1 P1 H1 A1] [L2 R2 P2 H2 A2]. constructor; try congruence; auto.
  eapply released_all_trans; [done..|]. intros p [?|?]%elem_of_app; auto.
Qed.

Lemma live_closed w w' c : live w c -> closed_rel w w' -> moved w c w' c.
Proof.
  intros [K S] C. destruct (cr_mgr _ _ C) as [st Hm]. apply moved_same; try done.
  - split; [by eapply conn_ok_closed|]. destruct S. constructor; try done. by rewrite Hm.
  - apply C.
  - by apply closed_handshakeing.
  - by rewrite Hm.
Qed.

Lemma openConnection_ok address port w c :
  conn_ok w c -> activeConnections (manager w) = [] ->
  tcpConnectionStatus c = TcpConnectionStatusConnecting -> connectionToken c = 0 ->
  wp (openConnection address port) (fun _ w' => exists c', moved w c w' c') w.
Proof.
  intros H HA Hs Htok. unfold openConnection. rewrite wp_bind, wp_tick, wp_bind.
  set (fd := sys_socket (tick w)). eapply wp_on_base; [apply H|].
  set (c1 := set_base _ c).
  assert (K : forall w1 c1, conn_ok w1 c1 -> active_ok w1 -> pool w1 = pool w -> datacenter w1 = datacenter w ->
    networkAvailable (manager w1) = networkAvailable (manager w) -> refs c1 = refs c ->
    wp (closeSocket 1) (fun _ w' => exists c', moved w c w' c') w1).
  { intros w1 c2 K1 A1 Ep Ed En Er. destruct (closeSocket_ok 1 w1 c2 K1 A1) as (w2 & c3 & E1 & HS).
    eapply wp_eq; [done|]. exists c3. apply moved_shut. by eapply shut_from; [..|done]. }
  assert (H1 : forall n, conn_ok (set_connection (Some c1) (set_tick n w)) c1) by (intros n; destruct H; by constructor).
  destruct (Z.ltb_spec fd 0); [by eapply K; [done|left|..]|].
  destruct (negb _); [by eapply K; [done|left|..]|].
  rewrite wp_bind, wp_tick. destruct (_ =? -1); [by eapply K; [by destruct H; constructor|left|..]|].
  rewrite wp_bind, wp_tick, wp_bind, wp_emit. destruct (sys_connect _ _ _ _) as [ret errno].
  destruct (_ && _); [by eapply K; [by destruct H; constructor|left|..]|].
  rewrite wp_bind. unfold attachConnection. rewrite wp_bind, wp_mgr.
  cbn [manager set_connection set_tick set_trace]. rewrite HA, decide_False by set_solver.
  rewrite wp_on_manager, wp_bind. eapply wp_on_base; [done|]. rewrite wp_bind, wp_tick, wp_when.
  destruct (negb _); [by eapply K; [by destruct H; constructor|right|..]|].
  exists_conn. apply moved_same; try done. split; [by destruct H; constructor|]. constructor; simpl.
  - rewrite Hs. split; [auto|lia].
  - by rewrite Htok.
  - by destruct (Z.leb_spec 0 fd); [|lia].
Qed.

Lemma setTimeout_ok time w c :
  live w c -> wp (setTimeout time) (fun _ w' => exists c', moved w c w' c') w.
Proof.
  intros [H S]. unfold setTimeout. rewrite wp_bind. eapply wp_on_base; [apply H|].
  rewrite wp_bind. apply wp_clock. intros now. eapply wp_on_base; [done|].
  exists_conn. apply moved_same; try done. split; [by destruct H; constructor|by destruct S; constructor].
Qed.

Lemma connect_ok w c : live w c -> wp connect (fun _ w' => exists c', moved w c w' c') w.
Proof.
  intros L. pose proof L as [H S]. unfold connect. rewrite wp_bind, wp_mgr.
  destruct (networkAvailable (manager w)) eqn:En; simpl negb; cbv iota.
  2: { destruct (onConnectionClosed_ok w) as (w' & E1 & C). eapply wp_eq; [done|].
       exists c. by apply live_closed. }
  rewrite wp_bind. eapply wp_this; [apply H|].
  destruct (_ || _) eqn:Est; [exists c; by apply moved_same|].
  assert (Hfd : socketFd (base c) < 0 /\ connectionToken c = 0 /\ activeConnections (manager w) = []).
  { assert (~ (tcpConnectionStatus c = TcpConnectionStatusConnecting \/
               tcpConnectionStatus c = TcpConnectionStatusConnected)) as Hn.
    { intros [e|e]; rewrite e in Est; done. }
    pose proof (proj1 (sk_fd _ _ S)). assert (socketFd (base c) < 0) by (apply Z.nle_gt; tauto).
    split; [done|]. split; [|rewrite (sk_active _ _ S); by destruct (Z.leb_spec 0 (socketFd (base c))); [lia|]].
    destruct (decide (connectionToken c = 0)) as [|Hne]; [done|]. destruct Hn. right. by apply (sk_token _ _ S). }
  destruct Hfd as (Hfd & Htok & HA). clear Est.
  rewrite wp_bind, wp_gets, wp_bind, wp_lift.
  destruct (getCurrentAddress_spec _ (ck_dc _ _ H)) as (a & -> & _).
  rewrite wp_bind, wp_lift. destruct (getCurrentPort_ok _ (ck_dc _ _ H)) as (port & -> & _).
  rewrite wp_bind, wp_on_datacenter, wp_bind. eapply wp_on_this; [apply H|].
  set (c1 := set_tcpConnectionStatus _ _). set (w1 := set_connection _ _).
  assert (H1 : conn_ok w1 c1) by (destruct H; by constructor).
  rewrite wp_bind. eapply wp_eq; [by apply timer_stop_ok|]. apply conn_ok_stopped in H1.
  rewrite wp_bind. destruct (drop_resetOfData_ok _ _ H1) as (s & E2 & R2 & H2). eapply wp_eq; [done|].
  rewrite wp_bind. eapply wp_on_this; [apply H2|].
  set (c3 := set_currentConnectionRecvData _ _). set (w3 := set_connection _ _).
  assert (H3 : conn_ok w3 c3) by (destruct H2; by constructor).
  rewrite wp_bind. eapply wp_mono; [by apply (openConnection_ok a port w3 c3)|].
  intros [] w4 [c4 M4]. pose proof (mv_live _ _ _ _ _ M4) as [H4 _].
  rewrite wp_bind. eapply wp_this; [apply H4|].
  eapply wp_mono; [by apply (setTimeout_ok _ w4 c4), M4|]. intros [] w5 [c5 M5]. exists c5.
  destruct (moved_trans _ _ _ _ _ _ _ M4 M5) as [L5 R5 P5 Hh5 V5]. constructor; try done.
  - intros p Hp. apply R5 in Hp. unfold refs in *. simpl in Hp. rewrite app_nil_l. apply elem_of_app. by right.
  - eapply released_all_trans; [exact R2|exact P5|]. unfold refs. simpl.
    intros p [Hp|Hp]%elem_of_app; apply elem_of_app; [by left|by right].
Qed.

Lemma not_open w c :
  live w c -> tcpConnectionStatus c <> TcpConnectionStatusConnecting ->
  tcpConnectionStatus c <> TcpConnectionStatusConnected -> socketFd (base c) < 0 /\ connectionToken c = 0.
Proof.
  intros [_ S] H1 H2. split.
  - apply Z.nle_gt. intros [?|?]%(sk_fd _ _ S); done.
  - destruct (decide (connectionToken c = 0)) as [|Hne]; [done|]. by apply (sk_token _ _ S) in Hne.
Qed.

Lemma closeConnect_ok w c :
  live w c -> wp closeConnect (fun _ w' => exists c', moved w c w' c' /\ socketFd (base c') < 0 /\
    connectionToken c' = 0) w.
Proof.
  intros L. pose proof L as [H S]. unfold closeConnect. rewrite wp_bind.
  eapply wp_eq; [by apply timer_stop_ok|]. pose proof (conn_ok_stopped _ _ H) as H1.
  assert (S1 : status_ok (world_stopped w c) (stopped c)) by (destruct S; by constructor).
  rewrite wp_bind. eapply wp_this; [done|].
  destruct (_ || _) eqn:Est.
  - exists (stopped c). destruct (not_open _ _ (conj H1 S1)) as [Hf Ht];
      [intros e; by rewrite e in Est|intros e; by rewrite e in Est|].
    split; [by apply moved_same|done].
  - rewrite wp_bind. eapply wp_on_this; [done|]. set (c2 := set_tcpConnectionStatus _ _). set (w2 := set_connection _ _).
    assert (H2 : conn_ok w2 c2) by (destruct H1; by constructor).
    unfold dropConnection. rewrite wp_bind.
    destruct (closeSocket_ok 0 w2 c2 H2) as (w3 & c3 & E3 & HS); [by apply (live_active _ _ (conj H1 S1))|].
    eapply wp_eq; [done|]. destruct (onConnectionClosed_ok w3) as (w4 & E4 & C4). eapply wp_eq; [done|].
    pose proof (sh_fd _ _ _ _ HS). pose proof (sh_token _ _ _ _ HS).
    assert (M : moved w c w3 c3) by (apply moved_shut; by eapply shut_from; [..|done]).
    exists c3. split; [|done]. eapply moved_trans; [done|]. apply live_closed; [apply M|done].
Qed.

Lemma reconnect_ok w c : live w c -> wp reconnect (fun _ w' => exists c', moved w c w' c') w.
Proof.
  intros L. unfold reconnect. rewrite wp_bind. eapply wp_mono; [by apply closeConnect_ok|].
  intros [] w1 (c1 & M1 & Hf & Ht). pose proof (mv_live _ _ _ _ _ M1) as [H1 S1].
  rewrite wp_bind. eapply wp_on_this; [apply H1|]. set (c2 := set_tcpConnectionStatus _ _). set (w2 := set_connection _ _).
  assert (L2 : live w2 c2).
  { split; [by destruct H1; constructor|]. destruct S1 as [? ? A]. constructor; simpl; try done.
    split; [lia|intros [?|?]; done]. }
  eapply wp_mono; [by apply connect_ok|]. intros [] w3 [c3 M3]. exists c3.
  eapply moved_trans; [done|]. eapply moved_trans; [|done]. by apply moved_same.
Qed.

Lemma adjustWriteOp_ok w c : live w c -> wp adjustWriteOp (fun _ w' => exists c', moved w c w' c') w.
Proof.
  intros L. pose proof L as [H S]. unfold adjustWriteOp. rewrite wp_bind. eapply wp_this; [apply H|].
  rewrite wp_bind, wp_on_pool. destruct (refs_split _ _ H) as (_ & Hq & _).
  eapply wp_eq; [by apply hasData_from_spec|]. rewrite wp_bind. eapply wp_on_base; [apply H|].
  rewrite wp_bind, wp_tick, wp_when. set (c1 := set_base _ _). set (w1 := set_tick _ _).
  assert (L1 : live w1 c1) by (split; [by destruct H; constructor|by destruct S; constructor]).
  destruct (negb (_ =? 0)); [|exists c1; by apply moved_same].
  destruct (closeSocket_ok 1 w1 c1) as (w2 & c2 & E2 & HS); [apply L1|by eapply live_active|].
  eapply wp_eq; [done|]. exists c2. apply moved_shut. by eapply shut_from; [..|done].
Qed.

(** A buffer at the end of the send queue. *)
Lemma live_enqueued p b w c :
  live w c -> pool_buf (pool w) p -> heap (pool w) !! p = Some b -> p ∉ refs c ->
  let c' := set_base (set_outgoingByteStream (append (Some p) (outgoingByteStream (base c))) (base c)) c in
  live (set_connection (Some c') (set_pool (set_heap (<[p := rewind b]> (heap (pool w))) (pool w)) w)) c'.
Proof.
  intros [H S] [Ho (b' & Hb' & Hw & Hc & Hl)] Hb Hn c'. rewrite Hb in Hb'. injection Hb' as <-.
  split; [|by destruct S; constructor]. destruct H as [Hc0 Hp0 Hd0 [N B] Ht0].
  constructor; simpl; try done; [by apply pool_wf_insert|].
  assert (refs c' = refs c ++ [p]) as -> by (unfold refs; simpl; by rewrite app_assoc). split.
  - apply NoDup_app. split; [done|]. split; [|apply NoDup_singleton].
    intros q Hq ->%list_elem_of_singleton. done.
  - intros q [Hq| ->%list_elem_of_singleton]%elem_of_app.
    + destruct (B q Hq) as [Hoq (bq & Hbq & Hwq)]. split; [by apply owned_insert|].
      exists bq. simpl. rewrite lookup_insert_ne; [done|]. by intros ->.
    + split; [by apply owned_insert|]. exists (rewind b). simpl. rewrite lookup_insert_eq.
      split; [done|]. split; [by apply wf_rewind|]. done.
Qed.

(** [sendData] takes over the buffer: it ends in the send queue or back in
    the pool. *)
Lemma sendData_ok p w c :
  live w c -> pool_buf (pool w) p -> p ∉ refs c ->
  wp (sendData p) (fun _ w' => exists c', moved_with [p] w c w' c') w.
Proof.
  intros L Hp Hn. pose proof L as [H S]. unfold sendData. rewrite wp_bind. eapply wp_this; [apply H|].
  assert (R : forall w1 c1, moved w c w1 c1 ->
    wp (on_pool (reuse p)) (fun _ w' => exists c', moved_with [p] w c w' c') w1).
  { intros w1 c1 M. rewrite wp_on_pool. pose proof (mv_live _ _ _ _ _ M) as [K1 S1].
    destruct (pool_buf_released_all _ _ _ _ (mv_pool _ _ _ _ _ M) Hn Hp) as [Hp1 _].
    destruct (reuse_pool_buf (pool w1) p (ck_pool _ _ K1) Hp1) as (s & E1 & HR). eapply wp_eq; [done|].
    assert (p ∉ refs c1) as Hn1 by (intros Hin; by apply Hn, (mv_refs _ _ _ _ _ M)).
    assert (RA : released_all (pool w1) [p] s).
    { destruct HR as (W & _ & K). split; [done|]. intros q Hq. apply K. set_solver. }
    exists c1. destruct M as [ML MR MP MH MA]. constructor; try done.
    - split; [|by destruct S1; constructor]. destruct K1. constructor; try done; [apply RA|].
      eapply stream_ok_released_all; [done| |done]. intros q Hq. set_solver.
    - intros q Hq. apply elem_of_app. right. by apply MR.
    - eapply released_all_trans; [exact MP|exact RA|]. set_solver. }
  destruct (_ || _).
  { rewrite wp_bind. eapply wp_mono; [by apply connect_ok|]. intros [] w1 [c1 M1]. by eapply R. }
  rewrite wp_bind. unfold isDisconnected. rewrite wp_bind. eapply wp_this; [apply H|]. rewrite wp_ret.
  destruct (Z.ltb_spec (socketFd (base c)) 0); [eapply R; by apply moved_same|].
  rewrite wp_bind, wp_on_pool. destruct Hp as [Ho (b & Hb & Hw & Hc & Hl)].
  eapply wp_eq; [by eapply update_buf_Ok|].
  unfold writeBuffer. rewrite wp_bind. eapply wp_on_base; [apply H|].
  set (c1 := set_base _ _). set (w1 := set_connection _ _).
  assert (Er : refs c1 = refs c ++ [p]) by (unfold refs; simpl; by rewrite app_assoc).
  assert (L1 : live w1 c1) by (apply live_enqueued; [done|by split; [|exists b]|done|done]).
  eapply wp_mono; [by apply adjustWriteOp_ok|]. intros [] w2 [c2 M2]. exists c2.
  destruct M2 as [ML MR MP MH MA]. constructor; try done.
  - intros q Hq. apply MR in Hq. rewrite Er in Hq. set_solver.
  - assert (RA : released_all (pool w) [p] (pool w1)).
    { split; [by apply pool_wf_insert; [apply H|]|]. intros q Hq Hoq. split; [by apply owned_insert|].
      simpl. rewrite lookup_insert_ne; [done|]. set_solver. }
    eapply released_all_trans; [exact RA|exact MP|]. rewrite app_nil_l, Er. set_solver.
Qed.

Lemma checkTimeout_ok now w c : live w c -> wp (checkTimeout now) (fun _ w' => exists c', moved w c w' c') w.
Proof.
  intros L. pose proof L as [H S]. unfold checkTimeout. rewrite wp_bind. eapply wp_this; [apply H|].
  rewrite wp_when. destruct (_ && _); [|exists c; by apply moved_same].
  destruct (closeSocket_ok 2 w c H) as (w2 & c2 & E2 & HS); [by eapply live_active|].
  eapply wp_eq; [done|]. exists c2. by apply moved_shut.
Qed.

(** The callback of the reconnect timer. *)
Definition reconnectTimer_callback : SR World unit := timer_stop;; connect.

Lemma live_stopped w c : live w c -> moved w c (world_stopped w c) (stopped c).
Proof.
  intros [H S]. apply moved_same; try done. split; [by apply conn_ok_stopped|]. destruct S. by constructor.
Qed.

Lemma reconnectTimer_callback_ok w c :
  live w c -> wp reconnectTimer_callback (fun _ w' => exists c', moved w c w' c') w.
Proof.
  intros L. unfold reconnectTimer_callback. rewrite wp_bind. eapply wp_eq; [apply timer_stop_ok, L|].
  pose proof (live_stopped _ _ L) as M. eapply wp_mono; [apply connect_ok, M|].
  intros [] w1 [c1 M1]. exists c1. by eapply moved_trans.
Qed.

(** ** Any sequence of calls *)

Section Calls.
Context {J : Jni} {JL : JniLaws J}.

Inductive conn_call : Type :=
  | CcConnect | CcClose | CcReconnect
  | CcSend (size : Z)              (* sendData of a buffer taken from the pool *)
  | CcCheckTimeout (now : Z)
  | CcTimer                        (* the reconnect timer fires *)
  | CcWritable                     (* the first writable event of an open descriptor *)
  | CcNetwork (available : bool).  (* the network appears or disappears *)

(** The kernel reports events only for a watched, open descriptor; what the
    manager does when it is told of the connection is not part of this. *)
Definition writable_first : SR World unit :=
  k ← this base;
  when ((0 <=? socketFd k) && negb (onConnectedSent k))
    (mark_connected;;
     now ← getCurrentTimeMillis;
     on_base (set_lastEventTime now);;
     on_base (set_onConnectedSent true)).

Definition exec_conn_call (k : conn_call) : SR World unit :=
  match k with
  | CcConnect => connect
  | CcClose => closeConnect
  | CcReconnect => reconnect
  | CcSend size => p ← on_pool (getBuffer size); sendData p
  | CcCheckTimeout now => checkTimeout now
  | CcTimer => reconnectTimer_callback
  | CcWritable => writable_first
  | CcNetwork b => on_manager (set_networkAvailable b)
  end.

Fixpoint exec_conn_calls (ks : list conn_call) : SR World unit :=
  match ks with
  | [] => mret tt
  | k :: ks' => exec_conn_call k;; exec_conn_calls ks'
  end.

(** Sends of at most 131272 bytes: [sendData] may give its buffer back, and
    giving back a larger one reads it after its deletion. *)
Definition call_ok (k : conn_call) : Prop :=
  match k with CcSend size => 0 <= size <= pool_max | _ => True end.

Lemma writable_first_ok w c : live w c -> wp writable_first (fun _ w' => exists c', live w' c') w.
Proof.
  intros L. pose proof L as [H S]. unfold writable_first. rewrite wp_bind. eapply wp_this; [apply H|]. rewrite wp_when.
  destruct (Z.leb_spec 0 (socketFd (base c))) as [Hf|]; [|by exists c].
  destruct (onConnectedSent (base c)); [by exists c|]. simpl. unfold mark_connected.
  rewrite !wp_bind, wp_gets. rewrite wp_bind. eapply wp_on_this; [apply H|]. rewrite wp_modify.
  rewrite wp_bind. apply wp_clock. intros now. rewrite wp_bind. eapply wp_on_base; [done|]. eapply wp_on_base; [done|].
  eexists. split; [by destruct H; constructor|]. constructor; simpl; [|done|by destruct S]. split; [by right|done].
Qed.

(** A fresh buffer is nobody's, and the connection keeps its own. *)
Lemma getBuffer_live size w c :
  live w c -> is_u32 size -> allocates (capacity_for size) ->
  wp (on_pool (getBuffer size)) (fun p w' => exists b, live w' c /\ owned (pool w') p /\ heap (pool w') !! p = Some b /\
    wf b /\ _capacity b = capacity_for size /\ p ∉ refs c) w.
Proof.
  intros [H S] Hz Ha. rewrite wp_on_pool. destruct H as [Hc Hp Hd [N B] Ht].
  destruct (getBuffer_full size (pool w) Hp Hz) as (p & b & s & E1 & (W & Hno & Ho & K) & Hb & Hw & Hp0 & Hl & Hcap); [done|].
  eapply wp_eq; [done|]. exists b.
  assert (Hpn : p ∉ refs c). { intros Hin. apply Hno. apply (B p Hin). }
  split; [|done]. split; [|by destruct S; constructor]. constructor; simpl; try done. split; [done|].
  intros q Hq. destruct (B q Hq) as [Hoq (bq & Hbq & Hr)]. destruct (K q Hoq) as [Ho' Hh].
  split; [done|]. exists bq. by rewrite Hh.
Qed.

(** A connection that is not open gives the buffer back after it started to
    connect. *)
Lemma sendData_big p b w c :
  live w c -> owned (pool w) p -> heap (pool w) !! p = Some b -> pool_max < _capacity b -> p ∉ refs c ->
  tcpConnectionStatus c = TcpConnectionStatusIdel -> sendData p w = Fault UseAfterFree.
Proof.
  intros L Ho Hb Hc Hn Hs. pose proof L as [H _]. unfold sendData, this, mbind at 1, SR_bind at 1.
  rewrite (ck_conn _ _ H), Hs. rewrite bool_decide_eq_true_2 by done. cbn [orb].
  pose proof (connect_ok w c L) as G. apply wp_run in G as ([] & w1 & E1 & c1 & M1).
  rewrite (bind_Ok _ _ _ _ _ E1). destruct (mv_pool _ _ _ _ _ M1) as [_ K]. destruct (K p Hn Ho) as [_ Hh].
  unfold on_pool. rewrite (reuse_big_use_after_free p b); [done|by rewrite Hh|done].
Qed.

Lemma send_big_fails size w c :
  live w c -> tcpConnectionStatus c = TcpConnectionStatusIdel -> is_u32 size -> pool_max < size ->
  exec_conn_call (CcSend size) w = Fault ProcessExit \/ exec_conn_call (CcSend size) w = Fault UseAfterFree.
Proof.
  intros L Hs Hz Hb. simpl. unfold mbind, SR_bind. pose proof (capacity_for_ge size) as Hge.
  destruct (allocates_or_exit (capacity_for size)) as [Ha|Ha].
  - right. pose proof (getBuffer_live size w c L Hz Ha) as G.
    apply wp_run in G as (p & w1 & -> & b & L1 & Ho & Hp & _ & Hcap & Hn). apply (sendData_big p b w1 c); (done || lia).
  - left. unfold on_pool. rewrite getBuffer_exit; [done| |done]. intros cl Hcl.
    apply class_of_fits in Hcl. pose proof (byteCount_bound cl). unfold pool_max in *. lia.
Qed.

Lemma exec_conn_call_ok k w c :
  live w c -> call_ok k -> wp (exec_conn_call k) (fun _ w' => exists c', live w' c') w.
Proof.
  assert (M : forall m : SR World unit, wp m (fun _ w' => exists c', moved w c w' c') w ->
    wp m (fun _ w' => exists c', live w' c') w).
  { intros m Hm. eapply wp_mono; [done|]. intros [] w' [c' HM]. exists c'. apply HM. }
  intros L Hk. destruct k; simpl.
  - by apply M, connect_ok.
  - eapply wp_mono; [by apply closeConnect_ok|]. intros [] w' (c' & HM & _). exists c'. apply HM.
  - by apply M, reconnect_ok.
  - rewrite wp_bind. eapply wp_mono; [apply (getBuffer_live size w c L)|].
    { unfold call_ok, is_u, pool_max in *. lia. }
    { by apply allocates_for. }
    intros p w1 (b & L1 & Ho & Hb & Hw & Hcap & Hn).
    assert (Hp : pool_buf (pool w1) p).
    { split; [done|]. exists b. split; [done|]. split; [done|]. split; [by eapply capacity_for_pool|].
      rewrite Hcap. apply capacity_for_small. unfold call_ok, pool_max in *. lia. }
    eapply wp_mono; [by apply (sendData_ok p w1 c)|]. intros [] w' [c' HM]. exists c'. apply HM.
  - by apply M, checkTimeout_ok.
  - by apply M, reconnectTimer_callback_ok.
  - by apply (writable_first_ok w c).
  - rewrite wp_on_manager. exists c. destruct L as [[] []]. split; by constructor.
Qed.

(** The manager at start-up, before there is a connection. *)
Definition idle (w : World) : Prop :=
  connection w = None /\ pool_wf (pool w) /\ dc_wf (datacenter w) /\
  events (manager w) = [] /\ activeConnections (manager w) = [].

Lemma createConnection_idle w :
  idle w -> wp createConnection (fun _ w' => exists c, live w' c /\ tcpConnectionStatus c = TcpConnectionStatusIdel) w.
Proof.
  intros (Hn & Hp & Hd & He & Ha). unfold createConnection. rewrite wp_bind, wp_gets, Hn.
  rewrite wp_bind. apply wp_clock. intros now. rewrite wp_modify. exists_conn. split; [split|done].
  - constructor; simpl; try done. split; [apply NoDup_nil_2|]. intros p Hq. inversion Hq.
  - constructor; simpl; try done. split; [lia|intros [?|?]; done].
Qed.

(** C4: whatever the kernel answers, any sequence of calls on a fresh
    connection (connecting, closing, sending at most 131272 bytes, timing
    out, the timer, the first writable event of an open descriptor, the
    network going and coming) runs without a fault as long as memory for
    buffers of these sizes lasts, and after it the descriptor is open exactly
    while the status is connecting or connected, a token is only held by a
    connected connection, the event loop watches exactly the open descriptor,
    and the timer is in the event list exactly while it is started.  The
    bound is needed: a first send above it ends the process or uses the
    buffer after its deletion. *)
Theorem connection_calls_safe w :
  idle w ->
  (forall ks, Forall call_ok ks ->
    exists w' c, (createConnection;; exec_conn_calls ks) w = Ok (tt, w') /\ connection w' = Some c /\
      (0 <= socketFd (base c) <-> tcpConnectionStatus c = TcpConnectionStatusConnecting \/
                                  tcpConnectionStatus c = TcpConnectionStatusConnected) /\
      (connectionToken c <> 0 -> tcpConnectionStatus c = TcpConnectionStatusConnected) /\
      activeConnections (manager w') = (if 0 <=? socketFd (base c) then [TheConnection] else []) /\
      events (manager w') = (if started (reconnectTimer c) then [reconnectDispatcher] else [])) /\
  (forall size, is_u32 size -> 131272 < size ->
    let r := (createConnection;; exec_conn_call (CcSend size)) w in r = Fault ProcessExit \/ r = Fault UseAfterFree).
Proof.
  intros Hi. split.
  - intros ks Hks. assert (G : wp (createConnection;; exec_conn_calls ks) (fun _ w' => exists c, live w' c) w).
    { rewrite wp_bind. eapply wp_mono; [by apply createConnection_idle|]. intros [] w1 (c0 & HL & _).
      assert (HL1 : exists c, live w1 c) by (by exists c0). clear Hi w HL c0. revert w1 HL1.
      induction Hks as [|k ks Hk _ IH]; intros w [c HL]; simpl; [by exists c|].
      rewrite wp_bind. eapply wp_mono; [by apply (exec_conn_call_ok k w c)|]. intros [] w2 HL2. by apply IH. }
    apply wp_run in G as ([] & w' & E1 & c & [Kc Kp Kd Kr Kt] & [Sf St Sa]). exists w', c. eauto 10.
  - intros size Hz Hb. pose proof (createConnection_idle w Hi) as G. apply wp_run in G as ([] & w1 & E1 & c & L & Hs).
    cbn zeta. rewrite (bind_Ok _ _ _ _ _ E1). by apply (send_big_fails size w1 c).
Qed.
End Calls.

(** C30: closing the connection of a logged-in account does not keep it
    closed: the status that was set to prevent it is overwritten, the
    connection is waiting to reconnect, and its timer is armed with the
    absolute time 1000, which has passed on any real clock. *)
Theorem closeConnect_reconnects w c :
  live w c -> isHandshakeing (datacenter w) = true ->
  tcpConnectionStatus c = TcpConnectionStatusConnected ->
  exists w' c', closeConnect w = Ok (tt, w') /\ connection w' = Some c' /\
    tcpConnectionStatus c' = TcpConnectionStatusReconnecting /\
    events (manager w') = [reconnectDispatcher] /\ time_of (manager w') reconnectDispatcher = 1000.
Proof.
  intros [H S] Hh Hs.
  assert (G : wp closeConnect (fun _ w' => exists c', connection w' = Some c' /\
    tcpConnectionStatus c' = TcpConnectionStatusReconnecting /\
    events (manager w') = [reconnectDispatcher] /\ time_of (manager w') reconnectDispatcher = 1000) w).
  2: { apply wp_run in G as ([] & w' & E1 & c' & G). eauto. }
  unfold closeConnect. rewrite wp_bind. eapply wp_eq; [by apply timer_stop_ok|].
  pose proof (conn_ok_stopped _ _ H) as H1. rewrite wp_bind. eapply wp_this; [done|].
  simpl tcpConnectionStatus. rewrite Hs. simpl. rewrite wp_bind. eapply wp_on_this; [done|].
  set (c2 := set_tcpConnectionStatus _ _). set (w2 := set_connection _ _).
  assert (H2 : conn_ok w2 c2) by (destruct H1; by constructor).
  unfold dropConnection. rewrite wp_bind.
  destruct (closeSocket_ok 0 w2 c2 H2) as (w3 & c3 & E3 & HS); [by apply (live_active w c)|].
  eapply wp_eq; [done|]. destruct (onConnectionClosed_ok w3) as (w4 & E4 & C4). eapply wp_eq; [done|].
  destruct (cr_mgr _ _ C4) as [st Hm]. exists c3. destruct HS as [K3 _ _ _ _ Ss Sm Sd _ _ _ _].
  rewrite (cr_conn _ _ C4), Hm. change (datacenter w2) with (datacenter w) in *. rewrite Hh in *.
  split; [apply K3|]. split; [done|]. split; [|by apply Sd].
  simpl. rewrite (ck_timer _ _ K3). by rewrite Sm.
Qed.
End SocketSpecs.

(** ** A concrete environment for the examples *)

(** A kernel that answers every call with success, a clock that advances by
    one second per reading, a server that never sends, a delegate without
    handshake data, and a decompressor that knows one stream. *)
#[export] Instance quiet_env : Env := {|
  clock_gettime := fun t => (1500000000 + Z.of_nat t, 0);
  sys_socket := fun _ => 5;
  sys_inet_pton := fun _ => 1;
  sys_fcntl := fun _ _ => 0;
  sys_connect := fun _ _ _ _ => (-1, EINPROGRESS);
  sys_epoll_ctl := fun _ _ _ _ => 0;
  sys_epoll_wait := fun _ _ => [];
  sys_getsockopt := fun _ _ => (0, 0);
  sys_recv := fun _ _ _ => (0, []);
  sys_send := fun _ _ bs => zlen bs;
  onHandshakeConnected := fun _ _ s => (0, s);
  random_shuffle := id;
  z_stream := unit;
  inflateInit2 := fun _ => Some tt;
  inflate := fun _ _ => (1, [104; 105], tt);
  uninitialised := 0
|}.

Definition demo_manager (queue running : list Request) (uin : Z) : Manager :=
  mkManager [] ∅ [] [] true ConnectionStateConnecting true false 0 uin 0 queue running 0
    NORMAL_PING_INTERVAL CONNECTION_BACKGROUND_KEEP_TIME 1%positive.

(** A logged-in account, nothing connected yet. *)
Definition demo_world (s : Storage) : World :=
  mkWorld s (demo_manager [] [] 7) (set_handshakeState HandshakeStateIng (Datacenter_new 2)) None 1 0 [].

Lemma idle_demo bs : idle (demo_world (bare_pool bs)).
Proof.
  split; [done|]. split; [apply pool_wf_bare|]. split; [apply dc_wf_handshake, dc_wf_new|]. done.
Qed.

(** The first writable event leaves the connection connected, with a token. *)
Lemma connection_calls_safe_witness :
  (exists w' c, (createConnection;; exec_conn_calls [CcConnect; CcWritable; CcSend 20])
      (demo_world (bare_pool [])) = Ok (tt, w') /\ connection w' = Some c /\
    (0 <= socketFd (base c) <-> tcpConnectionStatus c = TcpConnectionStatusConnecting \/
                                tcpConnectionStatus c = TcpConnectionStatusConnected) /\
    (connectionToken c <> 0 -> tcpConnectionStatus c = TcpConnectionStatusConnected) /\
    activeConnections (manager w') = (if 0 <=? socketFd (base c) then [TheConnection] else []) /\
    events (manager w') = (if started (reconnectTimer c) then [reconnectDispatcher] else [])) /\
  (tcpConnectionStatus <$> match (createConnection;; exec_conn_calls [CcConnect; CcWritable; CcSend 20])
      (demo_world (bare_pool [])) with Ok (_, w') => connection w' | Fault _ => None end) =
    Some TcpConnectionStatusConnected.
Proof.
  split; [|vm_compute; reflexivity].
  apply (connection_calls_safe (demo_world (bare_pool []))); [apply idle_demo|repeat constructor; done].
Defined.

(** A connection that is up: descriptor 5, token 9. *)
Definition demo_connection : TcpConnection :=
  mkTcpConnection (mkTcpSocket 5 0 true 0 30 (mkByteStream [])) None 0 false true true 5 0 "192.168.1.112" 443
    (mkTimer false 0) 9 TcpConnectionStatusConnected.

Definition connected_world (s : Storage) : World :=
  mkWorld s (set_activeConnections [TheConnection] (demo_manager [] [] 7))
    (set_handshakeState HandshakeStateSuccessed (Datacenter_new 2)) (Some demo_connection) 10 0 [].

Lemma live_connected bs : live (connected_world (bare_pool bs)) demo_connection.
Proof.
  split.
  - constructor; simpl; try done; [apply pool_wf_bare|apply dc_wf_handshake, dc_wf_new|].
    split; [apply NoDup_nil_2|]. intros p Hp. inversion Hp.
  - constructor; simpl; try done. split; [auto|lia].
Qed.

Lemma closeConnect_reconnects_witness :
  exists w' c', closeConnect (connected_world (bare_pool [])) = Ok (tt, w') /\ connection w' = Some c' /\
    tcpConnectionStatus c' = TcpConnectionStatusReconnecting /\
    events (manager w') = [reconnectDispatcher] /\ time_of (manager w') reconnectDispatcher = 1000.
Proof. by apply (closeConnect_reconnects _ demo_connection); [apply live_connected|..]. Defined.
