(* ===== verification/Requests.v ===== *)
(** * Requests: the request queues and the handshake

    Models the part of [ConnectionsManager.cpp] that moves requests through
    [requestsQueue] and [runningRequests], batches their packets and answers
    them, with [beginHandshake], [onHandshakeResult], [sendPing] and the
    related functions of [Datacenter.cpp], [TcpConnection::onConnected] and
    [decompressGZip].

    The loops over the two lists erase the current element or go on to the
    next one, and nothing they call changes those lists, so each loop is a
    recursion that returns the requests it keeps. *)

From S2P Require Import Prelude.
From S2P Require Import NativeByteBuffer.
From S2P Require Import BufferStorage.
From S2P Require Import ByteStream.
From S2P Require Import NetworkMessage.
From S2P Require Import Datacenter.
From S2P Require Import Request.
From S2P Require Import World.
From S2P Require Import Connection.

(** What a turn of a loop leaves: the request if it stays in the list, the
    message to send, and whether the message stands in for a ping. *)
Abbreviation verdict := (option Request * option NetworkMessage * bool)%type.

Section Requests.
Context {E : Env} {J : Jni}.

(** ** Completion *)

Definition onComplete (r : Request) (buffer : option addr) (code : errorCode) : SR World unit :=
  match sendCompleteCallback r with
  | None => mret tt
  | Some callback =>
      match buffer with
      | None => emit (IoComplete callback code None)
      | Some p => data ← contents_of p; emit (IoComplete callback code (Some data))
      end
  end.

(** [erase] of a [unique_ptr] runs [~Request]; its log statement reads the
    clock of a request that was started. *)
Definition erase_request (r : Request) : SR World unit :=
  on_pool (Request_delete r);;
  when (negb (requestStartTime r =? 0)) (getCurrentTimeMillis;; mret tt).

Definition generateMessageSeq (cmd : Z) : SR World Z :=
  let requestSeq := widthSpecialSeq (i32 cmd) in
  if negb (requestSeq =? 0) then mret requestSeq
  else
    seq ← mgr managerSeq;
    if seq =? 2 ^ 31 - 1 then fault_with SignedOverflow
    else on_manager (set_managerSeq (seq + 1));; mret seq.

(** ** Sending *)

Fixpoint write_bodies (sendBuffer : addr) (ms : list NetworkMessage) : SR World unit :=
  match ms with
  | [] => mret tt
  | m :: ms' =>
      match outgoingBody m with
      | None => fault_with NullDereference
      | Some body =>
          on_pool (update_buf body (fun b => Ok (rewind b)));;
          on_pool (writeBytes_heap sendBuffer body);;
          write_bodies sendBuffer ms'
      end
  end.

(** The loop of [sendMessageToConnection]: packets are gathered until they
    reach [MAX_SINGLE_PACK_SIZE] or are the last ones. *)
Fixpoint send_batches (c : bool) (ms bufferMessages : list NetworkMessage) (currentSize : Z) : SR World unit :=
  match ms with
  | [] => mret tt
  | m :: ms' =>
      let bufferMessages := bufferMessages ++ [m] in
      let currentSize := u32 (currentSize + packLength m) in
      if (MAX_SINGLE_PACK_SIZE <=? currentSize) || bool_decide (ms' = []) then
        sendBuffer ← on_pool (getBuffer currentSize);
        write_bodies sendBuffer bufferMessages;;
        via c (sendData sendBuffer);;
        send_batches c ms' [] 0
      else send_batches c ms' bufferMessages currentSize
  end.

Definition sendMessageToConnection (ms : list NetworkMessage) (resetPingTime : bool) : SR World unit :=
  if bool_decide (ms = []) then mret tt
  else
    c ← getConnection true;
    when resetPingTime (now ← getCurrentTimeMillis; on_manager (set_lastPackSendTime now));;
    send_batches c ms [] 0.

(** ** The two queues *)

(** [onComplete] with an error, then the erasure. *)
Definition finish (r : Request) (code : errorCode) : SR World verdict :=
  onComplete r None code;; erase_request r;; mret (None, None, false).

Definition check_running (currentTime : Z) (r : Request) : SR World verdict :=
  c ← getConnection true;
  available ← mgr networkAvailable;
  lost ← (if (available : bool) then token ← via c getConnectionToken; mret (token =? 0) else mret true);
  if lost && negb (has_flag r RequestFlagReSend) then
    finish (set_requestStartTime currentTime r) errorCodeConnectFail
  else
    token ← via c getConnectionToken;
    d ← gets datacenter;
    if (0 <? token) && negb (token =? currentConnectionToken r)
       && (isHandshakeSuccess d || has_flag r RequestFlagWithoutLogin) then
      match requestBuffer r with
      | None => fault_with NullDereference
      | Some p =>
          b ← on_pool (deref p);
          mret (Some (set_requestStartTime currentTime (set_currentConnectionToken token r)),
                Some (mkNetworkMessage (Some p) (requestCmdId r) uninitialised (u16 (limit b))),
                negb (has_flag r RequestFlagWithoutAck))
      end
    else if isTimeout currentTime r then
      if has_flag r RequestFlagReSend then
        let r := set_currentRetryCount (i32 (currentRetryCount r + 1)) r in
        if negb (canRetry r) then finish r errorCodeRequestRetryLimit
        else mret (Some (set_requestStartTime currentTime r), None, false)
      else finish r errorCodeRequestTimeout
    else mret (Some r, None, false).

(** [removeToRunning]: the packet is built and the request waits for the
    answer, or is done if it expects none. *)
Definition launch (token : Z) (r : Request) : SR World verdict :=
  getCurrentTimeMillis ;;
  seq ← generateMessageSeq 0;
  uin ← mgr managerUin;
  m ← on_pool (serializeToBuffer uin (new_message (requestCmdId r) seq) (requestBuffer r));
  now ← getCurrentTimeMillis;
  let r := set_requestStartTime now (set_requestSeq seq
             (set_requestBuffer (outgoingBody m) (set_currentConnectionToken token r))) in
  if negb (has_flag r RequestFlagWithoutAck) then
    on_manager (fun x => set_runningRequests (runningRequests x ++ [r]) x);;
    mret (None, Some m, true)
  else
    onComplete r None errorCodeNone;; erase_request r;; mret (None, Some m, false).

Definition check_queued (r : Request) : SR World verdict :=
  c ← getConnection true;
  if negb c then mret (Some r, None, false)
  else
    token ← getConnectionToken;
    d ← gets datacenter;
    if token =? 0 then
      if negb (has_flag r RequestFlagReSend) then finish r errorCodeWithoutConnectin else launch token r
    else if isHandshakeSuccess d then launch token r
    else if has_flag r RequestFlagWithoutLogin then launch token r
    else finish r errorCodeWithoutLogin.

Fixpoint each_request (turn : Request -> SR World verdict) (rs : list Request)
    : SR World (list Request * list NetworkMessage * bool) :=
  match rs with
  | [] => mret ([], [], false)
  | r :: rs' =>
      v ← turn r;
      rest ← each_request turn rs';
      mret (option_list v.1.1 ++ rest.1.1, option_list v.1.2 ++ rest.1.2, v.2 || rest.2)
  end.

Definition processRequestQueue : SR World unit :=
  currentTime ← getCurrentTimeMillis;
  rs ← mgr runningRequests;
  x ← each_request (check_running currentTime) rs;
  on_manager (set_runningRequests x.1.1);;
  qs ← mgr requestsQueue;
  y ← each_request check_queued qs;
  on_manager (set_requestsQueue y.1.1);;
  sendMessageToConnection (x.1.2 ++ y.1.2) (x.2 || y.2).

(** ** Handshake and ping *)

(** The cast of an [int] to a pointer. *)
Definition pointer_of (z : Z) : option addr := if u32 z =? 0 then None else Some (Z.to_pos (u32 z)).

(** [delegate->onHandshakeConnected]: Java may take and fill buffers. *)
Definition call_java (t : nat) (buffer : option addr) : SR World Z := fun w =>
  let '(z, s) := onHandshakeConnected t buffer (pool w) in Ok (z, set_pool s w).

Definition ask_handshake (buffer : option addr) : SR World Z :=
  data ← (match buffer with None => mret None | Some p => d ← contents_of p; mret (Some d) end);
  t ← next_tick;
  emit (IoHandshake data);;
  call_java t buffer.

Definition manager_beginHandshake : SR World Z :=
  now ← getCurrentTimeMillis;
  on_manager (set_lastPackSendTime now);;
  present ← mgr delegate;
  if (present : bool) then ask_handshake None else mret 0.

Definition handshakeResult (buffer : addr) : SR World Z :=
  present ← mgr delegate;
  if (present : bool) then ask_handshake (Some buffer) else mret 0.

(** A message of the library itself, sent through [getConnection(false)]. *)
Definition send_special (cmd : Z) (buffer : option addr) : SR World unit :=
  uin ← mgr managerUin;
  m ← on_pool (serializeToBuffer uin (new_message cmd (widthSpecialSeq cmd)) buffer);
  c ← getConnection false;
  match outgoingBody m with
  | None => fault_with NullDereference
  | Some p => via c (sendData p)
  end.

Definition set_handshake (h : HandshakeState) : SR World unit :=
  on_datacenter (fun d => Ok (set_handshakeState h d)).

Definition beginHandshake (reCreate : bool) : SR World unit :=
  set_handshake HandshakeStateIng;;
  if reCreate then
    createConnection;; closeConnect;; createConnection;; connect
  else
    z ← manager_beginHandshake;
    match pointer_of z with
    | None => mret tt
    | Some p => send_special HANDSHAKE_CMD (Some p)
    end.

Definition onHandshakeConnectionConnected : SR World unit :=
  d ← gets datacenter;
  if isHandshakeSuccess d then mret tt else beginHandshake false.

Definition onHandshakeResult (buffer : addr) : SR World unit :=
  z ← handshakeResult buffer;
  if z =? 0 then set_handshake HandshakeStateSuccessed
  else createConnection;; closeConnect;; createConnection;; connect.

Definition sendPing : SR World unit := send_special PING_CMD None.

Definition setAddressAndPort (address : string) (port : Z) : SR World unit :=
  on_datacenter (force_server address port);;
  c ← getConnection false;
  via c reconnect.

Definition onConnectionConected : SR World unit :=
  d ← gets datacenter;
  if isHandshakeing d then onHandshakeConnectionConnected else processRequestQueue.

Definition onConnected : SR World unit := mark_connected;; onConnectionConected.

(** ** Answers and pushed messages *)

Definition Z_OK : Z := 0.
Definition Z_STREAM_END : Z := 1.

(** The loop of [decompressGZip]: [off] is [next_out] in [result] and
    [avail] is [avail_out].  A turn that does not end the stream doubles the
    buffer; [fuel] bounds the turns. *)
Fixpoint inflate_loop (fuel : nat) (z : z_stream) (result : addr) (off avail total : Z) : SR World addr :=
  match fuel with
  | O => fault_with OutOfFuel
  | S fuel' =>
      let '(retCode, out, z') := inflate z avail in
      on_pool (update_buf result (fun b => m ← write_at (buffer b) off out; Ok (set_buffer m b)));;
      let total := u32 (total + zlen out) in
      if retCode =? Z_STREAM_END then
        on_pool (update_buf result (fun b => Ok (limit_to total b)));; mret result
      else if retCode =? Z_OK then
        b ← on_pool (deref result);
        newResult ← on_pool (getBuffer (u32 (capacity b * 2)));
        on_pool (update_buf newResult (fun n =>
          src ← read_at (buffer b) 0 (capacity b); m ← write_at (buffer n) 0 src; Ok (set_buffer m n)));;
        n ← on_pool (deref newResult);
        on_pool (reuse result);;
        inflate_loop fuel' z' newResult (capacity b) (u32 (capacity n - capacity b)) total
      else fault_with ProcessExit
  end.

(** Every turn at least doubles a capacity of at least 8 bytes, so that the
    copy into the wrapped 32-bit size leaves the block before the 32nd turn. *)
Definition decompressGZip (data : addr) : SR World addr :=
  b ← on_pool (deref data);
  input ← lift_res (read_at (bytes b) (position b + 1) (u32 (remaining b - 1)));
  match inflateInit2 input with
  | None => fault_with ProcessExit
  | Some z =>
      result ← on_pool (getBuffer (u32 (u32 (remaining b - 1) * 4)));
      r ← on_pool (deref result);
      inflate_loop 32 z result 0 (capacity r) 0
  end.

(** [sendRequest->messageSeq == seq && sendRequest->requestCmdId == cmd - 1] *)
Definition answers (seq cmd : Z) (r : Request) : SR World bool :=
  if u32 (requestSeq r) =? seq then
    if cmd =? - 2 ^ 31 then fault_with SignedOverflow else mret (requestCmdId r =? cmd - 1)
  else mret false.

(** The first running request the packet answers, and the other ones. *)
Fixpoint find_request (seq cmd : Z) (rs : list Request) : SR World (option (Request * list Request)) :=
  match rs with
  | [] => mret None
  | r :: rs' =>
      hit ← answers seq cmd r;
      if (hit : bool) then mret (Some (r, rs'))
      else x ← find_request seq cmd rs';
           mret (match x with None => None | Some (q, rest) => Some (q, r :: rest) end)
  end.

Definition onConnectionRecviedData (cmd : Z) (p : addr) (seq : Z) : SR World unit :=
  change_state ConnectionStateConnected;;
  b ← on_pool (deref p);
  zipped ← (if hasRemaining b then x ← lift_res (read_one (bytes b) (position b)); mret (x =? 7) else mret false);
  decompressBuffer ← (if (zipped : bool) then q ← decompressGZip p; mret (Some q) else mret None);
  let buffer := default p decompressBuffer in
  d ← gets datacenter;
  (if (seq =? u32 (-1)) && negb (isHandshakeSuccess d) && isHandshakeing d then onHandshakeResult buffer
   else if (seq =? u32 (-2)) && isHandshakeSuccess d then mret tt
   else
     rs ← mgr runningRequests;
     x ← find_request seq cmd rs;
     match x with
     | Some (r, rest) =>
         onComplete r (Some buffer) errorCodeNone;;
         on_manager (set_runningRequests rest);;
         erase_request r
     | None =>
         present ← mgr delegate;
         when present (data ← contents_of buffer; emit (IoRecvMessages cmd data))
     end);;
  match decompressBuffer with None => mret tt | Some q => on_pool (reuse q) end.
End Requests.

(** ** Bookkeeping of the requests *)

(** The callbacks that were called. *)
Definition completed (l : list io) : list Z :=
  omap (fun e => match e with IoComplete callback _ _ => Some callback | _ => None end) l.

(** What only the request code changes, and the receive buffer. *)
Definition books (w : World) : list Request * list Request * list Z * addr :=
  (runningRequests (manager w), requestsQueue (manager w), completed (trace w), networkBuffer (manager w)).

Section Books.
Context {E : Env} {J : Jni}.


Lemma books_clock : frames books getCurrentTimeMillis.
Proof. unfold getCurrentTimeMillis. solve_frames. Qed.
Hint Resolve books_clock : frames.
Lemma books_stop : frames books timer_stop.
Proof. unfold timer_stop. solve_frames. Qed.
Lemma books_start : frames books timer_start.
Proof. unfold timer_start. solve_frames. Qed.
Lemma books_timeout ms : frames books (timer_setTimeout ms).
Proof. unfold timer_setTimeout. solve_frames. Qed.
Lemma books_change st : frames books (change_state st).
Proof. unfold change_state, notify_state. solve_frames. Qed.
Hint Resolve books_stop books_start books_timeout books_change : frames.
Lemma books_closed : frames books onConnectionClosed.
Proof. unfold onConnectionClosed, onHandshakeConnectionClosed. solve_frames. Qed.
Lemma books_drop : frames books drop_resetOfData.
Proof. unfold drop_resetOfData. solve_frames. Qed.
Hint Resolve books_closed books_drop : frames.
Lemma books_disconnected r : frames books (onDisconnected r).
Proof. unfold onDisconnected, prepare_reconnect. solve_frames. Qed.
Hint Resolve books_disconnected : frames.
Lemma books_closeSocket r : frames books (closeSocket r).
Proof. unfold closeSocket, detachConnection. solve_frames. Qed.
Hint Resolve books_closeSocket : frames.
Lemma books_open a p : frames books (openConnection a p).
Proof. unfold openConnection, attachConnection. solve_frames. Qed.
Lemma books_setTimeout t : frames books (setTimeout t).
Proof. unfold setTimeout. solve_frames. Qed.
Hint Resolve books_open books_setTimeout : frames.
Lemma books_connect : frames books connect.
Proof. unfold connect. solve_frames. Qed.
Lemma books_closeConnect : frames books closeConnect.
Proof. unfold closeConnect, dropConnection. solve_frames. Qed.
Lemma books_create : frames books createConnection.
Proof. unfold createConnection. solve_frames. Qed.
Hint Resolve books_connect books_closeConnect books_create : frames.
Lemma books_getConnection b : frames books (getConnection b).
Proof. unfold getConnection. solve_frames. Qed.
Lemma books_sendData p : frames books (sendData p).
Proof. unfold sendData, isDisconnected, writeBuffer, adjustWriteOp. solve_frames. Qed.
Hint Resolve books_getConnection books_sendData : frames.

Definition ids (rs : list Request) : list Z := omap sendCompleteCallback rs.

Arguments ids : simpl never.

Lemma ids_app rs qs : ids (rs ++ qs) = ids rs ++ ids qs.
Proof. apply omap_app. Qed.

Lemma onComplete_books r buffer code w w' :
  onComplete r buffer code w = Ok (tt, w') ->
  books w' = (runningRequests (manager w), requestsQueue (manager w), ids [r] ++ completed (trace w), networkBuffer (manager w)).
Proof.
  unfold onComplete, ids. simpl. destruct (sendCompleteCallback r) as [cb|]; [|by intros [= <-]].
  destruct buffer as [p|]; [|by intros [= <-]]. intros H. back H d w1 E1.
  assert (books w1 = books w) as Hb by (eapply (_ : frames books (contents_of p)); exact E1).
  injection H as <-. unfold books in *. simpl. by injection Hb as <- <- <- <-.
  Unshelve. unfold contents_of. solve_frames.
Qed.

Lemma erase_books r : frames books (erase_request r).
Proof. unfold erase_request. solve_frames. Qed.
Hint Resolve erase_books : frames.

Lemma finish_books r code w v w' :
  finish r code w = Ok (v, w') -> v.1.1 = None /\
  books w' = (runningRequests (manager w), requestsQueue (manager w), ids [r] ++ completed (trace w), networkBuffer (manager w)).
Proof.
  unfold finish. intros H. back H x w1 E1. back H y w2 E2. injection H as <- <-. destruct x, y.
  rewrite (erase_books r w1 tt w2 E2). split; [done|]. by apply (onComplete_books r None code).
Qed.

(** Running and completed requests. *)
Definition owes (w : World) : list Z := ids (runningRequests (manager w)) ++ completed (trace w).

(** A turn on [r] that keeps the request or completes it, and nothing else. *)
Definition settles (r : Request) (m : SR World verdict) : Prop :=
  forall w v w', m w = Ok (v, w') ->
    runningRequests (manager w') = runningRequests (manager w) /\
    requestsQueue (manager w') = requestsQueue (manager w) /\
    completed (trace w') ++ ids (option_list v.1.1) ≡ₚ completed (trace w) ++ ids [r].

(** A turn on [r] that may also start it. *)
Definition launches (r : Request) (m : SR World verdict) : Prop :=
  forall w v w', m w = Ok (v, w') ->
    requestsQueue (manager w') = requestsQueue (manager w) /\
    owes w' ++ ids (option_list v.1.1) ≡ₚ owes w ++ ids [r].

Lemma settles_bind {A} r (m : SR World A) k :
  frames books m -> (forall a, settles r (k a)) -> settles r (m ≫= k).
Proof.
  intros Hm Hk w v w' H. back H a w1 E1. pose proof (Hm w a w1 E1) as Hb. injection Hb as B1 B2 B3 B4.
  destruct (Hk a w1 v w' H) as (? & ? & ?). by rewrite <- B1, <- B2, <- B3.
Qed.

Lemma launches_bind {A} r (m : SR World A) k :
  frames books m -> (forall a, launches r (k a)) -> launches r (m ≫= k).
Proof.
  intros Hm Hk w v w' H. back H a w1 E1. pose proof (Hm w a w1 E1) as Hb. injection Hb as B1 B2 B3 B4.
  unfold launches, owes in *. destruct (Hk a w1 v w' H) as (? & ?). by rewrite <- B1, <- B2, <- B3.
Qed.

Lemma settles_launches r m : settles r m -> launches r m.
Proof.
  intros Hm w v w' H. destruct (Hm w v w' H) as (B1 & B2 & B3). unfold owes.
  split; [done|]. by rewrite <- !app_assoc, B1, B3.
Qed.

Lemma settles_finish r r' code :
  sendCompleteCallback r' = sendCompleteCallback r -> settles r (finish r' code).
Proof.
  intros Hc w v w' H. apply finish_books in H as [Hv Hb]. injection Hb as -> -> -> _. rewrite Hv.
  unfold ids. simpl. rewrite Hc, app_nil_r. split; [done|]. split; [done|]. by rewrite Permutation_app_comm.
Qed.

Lemma settles_keep r r' m b :
  sendCompleteCallback r' = sendCompleteCallback r -> settles r (mret (Some r', m, b)).
Proof. intros Hc w v w' [= <- <-]. simpl. unfold ids. simpl. by rewrite Hc. Qed.

Lemma settles_fault r f : settles r (fault_with f).
Proof. done. Qed.

Lemma books_via {A} c (m : SR World A) : frames books m -> frames books (via c m).
Proof. destruct c; [done|]. intros _. apply frames_fault. Qed.

Lemma books_token c : frames books (via c getConnectionToken).
Proof. apply books_via, frames_this. Qed.
Hint Resolve books_token : frames.

Lemma check_running_settles now r : settles r (check_running now r).
Proof.
  unfold check_running. apply settles_bind; [auto with frames|]. intros c.
  apply settles_bind; [auto with frames|]. intros available.
  apply settles_bind; [solve_frames|]. intros lost.
  destruct (_ && _); [by apply settles_finish|].
  apply settles_bind; [auto with frames|]. intros token.
  apply settles_bind; [auto with frames|]. intros d.
  destruct (_ && _).
  { destruct (requestBuffer r); [|apply settles_fault].
    apply settles_bind; [solve_frames|]. intros b. by apply settles_keep. }
  destruct (isTimeout now r); [|by apply settles_keep].
  destruct (has_flag r RequestFlagReSend); [|by apply settles_finish].
  destruct (negb _); [by apply settles_finish|by apply settles_keep].
Qed.

Lemma books_seq cmd : frames books (generateMessageSeq cmd).
Proof. unfold generateMessageSeq. solve_frames. Qed.
Hint Resolve books_seq : frames.

Lemma launch_launches token r : launches r (launch token r).
Proof.
  unfold launch.
  apply launches_bind; [auto with frames|]; intros t0.
  apply launches_bind; [auto with frames|]; intros seq.
  apply launches_bind; [auto with frames|]; intros uin.
  apply launches_bind; [solve_frames|]; intros m.
  apply launches_bind; [auto with frames|]; intros now. cbv zeta.
  set (r1 := set_requestStartTime _ _). assert (ids [r1] = ids [r]) as Er by done.
  intros w v w' H. destruct (negb _).
  - back H x w1 E1. injection E1 as <- <-. injection H as <- <-. unfold owes. simpl.
    split; [done|]. rewrite ids_app, Er, app_nil_r, <- !app_assoc. by rewrite (Permutation_app_comm (ids [r])).
  - back H x w1 E1. back H y w2 E2. injection H as <- <-. destruct x, y.
    pose proof (erase_books _ _ _ _ E2) as Hb. apply onComplete_books in E1. rewrite E1 in Hb.
    injection Hb as B1 B2 B3 B4. change (completed (trace w2) = ids [r] ++ completed (trace w)) in B3.
    unfold owes. simpl. rewrite B1, B2, B3, app_nil_r, <- app_assoc.
    split; [done|]. by rewrite (Permutation_app_comm (ids [r])).
Qed.

Lemma check_queued_launches r : launches r (check_queued r).
Proof.
  unfold check_queued. apply launches_bind; [auto with frames|]. intros c.
  destruct c; [|by apply settles_launches, settles_keep].
  apply launches_bind; [apply frames_this|]. intros token.
  apply launches_bind; [auto with frames|]. intros d.
  destruct (token =? 0).
  - destruct (negb _); [by apply settles_launches, settles_finish|apply launch_launches].
  - destruct (isHandshakeSuccess d); [apply launch_launches|].
    destruct (has_flag r RequestFlagWithoutLogin); [apply launch_launches|].
    by apply settles_launches, settles_finish.
Qed.

Lemma perm_chain (c0 c1 c2 kv ky r rs : list Z) :
  c1 ++ kv ≡ₚ c0 ++ r -> c2 ++ ky ≡ₚ c1 ++ rs -> c2 ++ (kv ++ ky) ≡ₚ c0 ++ (r ++ rs).
Proof.
  intros H1 H2. rewrite (Permutation_app_comm kv), app_assoc, H2.
  rewrite <- app_assoc, (Permutation_app_comm rs), app_assoc, H1. by rewrite <- app_assoc.
Qed.

Lemma each_settles now rs w x w' :
  each_request (check_running now) rs w = Ok (x, w') ->
    runningRequests (manager w') = runningRequests (manager w) /\
    requestsQueue (manager w') = requestsQueue (manager w) /\
    completed (trace w') ++ ids x.1.1 ≡ₚ completed (trace w) ++ ids rs.
Proof.
  revert w x w'. induction rs as [|r rs IH]; intros w x w' H; [by injection H as <- <-|].
  back H v w1 E1. back H y w2 E2. injection H as <- <-. simpl.
  apply check_running_settles in E1 as (A1 & A2 & A3). apply IH in E2 as (B1 & B2 & B3).
  split; [congruence|]. split; [congruence|]. rewrite ids_app. change (r :: rs) with ([r] ++ rs).
  rewrite ids_app. by eapply perm_chain.
Qed.

Lemma each_launches rs w y w' :
  each_request check_queued rs w = Ok (y, w') ->
    requestsQueue (manager w') = requestsQueue (manager w) /\ owes w' ++ ids y.1.1 ≡ₚ owes w ++ ids rs.
Proof.
  revert w y w'. induction rs as [|r rs IH]; intros w y w' H; [by injection H as <- <-|].
  back H v w1 E1. back H z w2 E2. injection H as <- <-. simpl.
  apply check_queued_launches in E1 as (A1 & A2). apply IH in E2 as (B1 & B2).
  split; [congruence|]. rewrite ids_app. change (r :: rs) with ([r] ++ rs).
  rewrite ids_app. by eapply perm_chain.
Qed.

Lemma books_bodies p ms : frames books (write_bodies p ms).
Proof. induction ms as [|m ms IH]; simpl; [apply frames_ret|]. destruct (outgoingBody m); [|apply frames_fault]. solve_frames. Qed.
Hint Resolve books_bodies : frames.

Lemma books_batches c ms ps n : frames books (send_batches c ms ps n).
Proof.
  revert ps n. induction ms as [|m ms IH]; intros ps n; simpl; [apply frames_ret|].
  destruct (_ || _); [|apply IH]. solve_frames. apply books_via; auto with frames.
Qed.
Hint Resolve books_batches : frames.

Lemma books_send ms b : frames books (sendMessageToConnection ms b).
Proof. unfold sendMessageToConnection. solve_frames. Qed.

(** The callbacks of the queued and running requests and those already
    called. *)
Definition ledger (w : World) : list Z := ids (requestsQueue (manager w)) ++ owes w.

(** C5: processing the queues neither loses nor repeats a completion: after
    it every request is still queued, is running, or its callback has been
    called once more, and no other callback has. *)
Theorem requests_conserved w w' :
  processRequestQueue w = Ok (tt, w') -> ledger w' ≡ₚ ledger w.
Proof.
  unfold processRequestQueue. intros H.
  back H now w1 E1. pose proof (books_clock _ _ _ E1) as Hb. injection Hb as B1 B2 B3 B4.
  back H rs w2 E2. injection E2 as <- <-. back H x w3 E3. apply each_settles in E3 as (C1 & C2 & C3).
  back H u w4 E4. injection E4 as <- <-. back H qs w5 E5. injection E5 as <- <-.
  back H y w6 E6. apply each_launches in E6 as (D1 & D2).
  back H u w7 E7. injection E7 as <- <-. apply books_send in H. injection H as F1 F2 F3 F4.
  unfold ledger, owes in *. simpl in *. rewrite F1, F2, F3, <- B1, <- B2, <- B3.
  rewrite (Permutation_app_comm (ids y.1.1)), D2, C2.
  rewrite <- (Permutation_app_comm (completed (trace w1)) (ids (runningRequests (manager w1)))), <- C3.
  rewrite (Permutation_app_comm (ids x.1.1)). by rewrite Permutation_app_comm.
Qed.
End Books.

(** ** A request that is started *)

(** The body of a request as the upper layer hands it over. *)
Definition body_ok (s : Storage) (p : addr) (b : NBuf) : Prop :=
  pool_buf s p /\ heap s !! p = Some b /\ _position b = 0 /\ _limit b <= 65515.

Section Launch.
Context {E : Env} {J : Jni} {L : JniLaws J}.

(** What [serializeToBuffer] leaves of a body of at most 65515 bytes. *)
Record packed (uin cmd sq : Z) (p : addr) (b : NBuf) (s : Storage) (out : addr) (o : NBuf) (s' : Storage) : Prop := {
  pk_heap : heap s' !! out = Some o;
  pk_wf : wf o;
  pk_bytes : contents (rewind o) = header_bytes (20 + _limit b) cmd uin sq ++ contents b;
  pk_pool : pool_wf s';
  pk_new : ~ owned s out;
  pk_owned : owned s' out;
  pk_body : ~ owned s' p;
  pk_keep : forall q, q <> p -> owned s q -> owned s' q /\ heap s' !! q = heap s !! q;
  pk_capacity : _capacity o = capacity_for (20 + _limit b);
  pk_lists : exists s1, getBuffer (20 + _limit b) s = Ok (out, s1) /\
    forall c, class_of (_capacity b) <> Some c -> free_list c s' = free_list c s1
}.

Definition started_request (token sq now : Z) (out : addr) (r : Request) : Request :=
  set_requestStartTime now (set_requestSeq sq (set_requestBuffer (Some out) (set_currentConnectionToken token r))).

(** The last part of [launch]. *)
Definition launch_end (r : Request) (m : NetworkMessage) : SR World verdict :=
  if negb (has_flag r RequestFlagWithoutAck) then
    on_manager (fun x => set_runningRequests (runningRequests x ++ [r]) x);;
    mret (None, Some m, true)
  else
    onComplete r None errorCodeNone;; erase_request r;; mret (None, Some m, false).

(** The world at that point. *)
Definition launching (sq : Z) (k : nat) (s : Storage) (w : World) : World :=
  set_tick k (set_pool s (set_manager (set_managerSeq (sq + 1) (manager w)) w)).

Lemma launch_wp token r p b w (Q : verdict -> World -> Prop) :
  pool_wf (pool w) -> body_ok (pool w) p b -> requestBuffer r = Some p -> managerSeq (manager w) <> 2 ^ 31 - 1 ->
  let sq := managerSeq (manager w) in let uin := managerUin (manager w) in
  (forall out o s k now, packed uin (requestCmdId r) sq p b (pool w) out o s ->
     wp (launch_end (started_request token sq now out r)
           (mkNetworkMessage (Some out) (requestCmdId r) sq (20 + _limit b))) Q (launching sq k s w)) ->
  wp (launch token r) Q w.
Proof.
  intros Hp (Hpb & Hb & Hb0 & Hbl) Hr Hs sq uin HQ. unfold launch. rewrite wp_bind. apply wp_clock. intros now0.
  rewrite wp_bind. unfold generateMessageSeq. change (negb (widthSpecialSeq (i32 0) =? 0)) with false. cbv iota.
  rewrite wp_bind, wp_mgr. destruct (Z.eqb_spec (managerSeq (manager (set_tick (S (tick w)) w))) (2 ^ 31 - 1)); [done|].
  rewrite wp_bind, wp_on_manager, wp_ret, wp_bind, wp_mgr, wp_bind, wp_on_pool, Hr.
  destruct (serialize_body (pool w) p b (new_message (requestCmdId r) sq) uin Hp Hpb Hb Hb0 Hbl)
    as (out & o & s1 & Es & R1 & R2 & _ & R3 & R4 & R5 & R6 & R7 & R8 & R9 & R10).
  eapply wp_eq; [exact Es|]. rewrite wp_bind. apply wp_clock. intros now.
  apply (HQ out o s1 (S (S (tick w))) now). exact (Build_packed _ _ _ _ _ _ _ _ _ R1 R2 R3 R4 R5 R6 R7 R8 R9 R10).
Qed.

(** A connected, logged-in manager. *)
Record signed_in (w : World) (c : TcpConnection) : Prop := {
  rd_conn : connection w = Some c;
  rd_status : tcpConnectionStatus c = TcpConnectionStatusConnected \/ tcpConnectionStatus c = TcpConnectionStatusConnecting;
  rd_network : networkAvailable (manager w) = true;
  rd_login : isHandshakeSuccess (datacenter w) = true;
  rd_token : connectionToken c <> 0
}.

Lemma success_handshakeing d : isHandshakeSuccess d = true -> isHandshakeing d = true.
Proof. unfold isHandshakeSuccess, isHandshakeing. intros ->%bool_decide_eq_true. done. Qed.

(** Asking for the connection then changes nothing. *)
Lemma getConnection_ready w c : signed_in w c -> getConnection true w = Ok (true, w).
Proof.
  intros [Hc Hs Hn Hl Ht]. unfold getConnection, createConnection, connect, mgr, this, gets, mbind, SR_bind.
  rewrite (success_handshakeing _ Hl). cbn [negb when]. unfold mbind, SR_bind. rewrite Hc. cbn [mret SR_ret].
  rewrite Hn. cbn [negb]. rewrite Hc.
  assert (bool_decide (tcpConnectionStatus c = TcpConnectionStatusConnected) ||
          bool_decide (tcpConnectionStatus c = TcpConnectionStatusConnecting) = true) as ->
    by (by destruct Hs as [-> | ->]).
  cbn. by rewrite Hc.
Qed.

Lemma check_queued_ready r w c : signed_in w c -> check_queued r w = launch (connectionToken c) r w.
Proof.
  intros R. pose proof R as [Hc _ _ Hl Ht]. unfold check_queued. rewrite (bind_Ok _ _ _ _ _ (getConnection_ready w c R)).
  cbn [negb]. unfold getConnectionToken, this, mbind, SR_bind, gets. rewrite Hc.
  destruct (Z.eqb_spec (connectionToken c) 0); [done|]. by rewrite Hl.
Qed.

Lemma wp_queued r w c Q : signed_in w c -> wp (launch (connectionToken c) r) Q w -> wp (check_queued r) Q w.
Proof. intros R. unfold wp. by rewrite (check_queued_ready r w c R). Qed.

Lemma ready_launching sq k s w c : signed_in w c -> signed_in (launching sq k s w) c.
Proof. intros [? ? ? ? ?]. by constructor. Qed.

(** A request that expects no answer: its packet's buffer goes back to the pool
    before anything is sent. *)
Lemma no_ack_end r m out o cl w :
  has_flag r RequestFlagWithoutAck = true -> requestBuffer r = Some out -> heap (pool w) !! out = Some o ->
  _capacity o = byteCount cl -> free_list cl (pool w) = [] ->
  exists k, launch_end r m w =
    Ok ((None, Some m, false),
        set_tick k (set_pool (set_free_list cl [out] (pool w))
          (set_trace (match sendCompleteCallback r with Some cb => IoComplete cb errorCodeNone None :: trace w | None => trace w end) w))).
Proof.
  intros Hf Hr Ho Hc Hl. unfold launch_end. rewrite Hf. cbn [negb].
  assert (Ec : onComplete r None errorCodeNone w = Ok (tt, set_trace (match sendCompleteCallback r with
    Some cb => IoComplete cb errorCodeNone None :: trace w | None => trace w end) w)).
  { unfold onComplete. destruct (sendCompleteCallback r); [done|]. by destruct w. }
  rewrite (bind_Ok _ _ _ _ _ Ec). set (w1 := set_trace _ w).
  assert (Er : on_pool (Request_delete r) w1 = Ok (tt, set_pool (set_free_list cl [out] (pool w)) w1)).
  { unfold on_pool, Request_delete. rewrite Hr, (reuse_into_list out o cl (pool w1)); [|done|by rewrite Hc, class_of_byteCount|].
    - cbn [w1 pool set_trace]. by rewrite Hl.
    - cbn [w1 pool set_trace]. rewrite Hl, zlen_nil. apply maxSize_pos. }
  unfold erase_request. unfold mbind, SR_bind. rewrite Er. destruct (negb (requestStartTime r =? 0)); cbn [when].
  - unfold getCurrentTimeMillis, next_tick, mbind, SR_bind. destruct (clock_gettime _). eexists. reflexivity.
  - exists (tick w). by destruct w.
Qed.

(** The pool after that; another body is as it was. *)
Lemma packet_recycled uin cmd sq p b s out o s' cl q b' :
  packed uin cmd sq p b s out o s' -> _capacity o = byteCount cl -> free_list cl s' = [] -> body_ok s q b' -> p <> q ->
  pool_wf (set_free_list cl [out] s') /\ body_ok (set_free_list cl [out] s') q b'.
Proof.
  intros K Hcap Hl ([Ho (b1 & Hb & Hx)] & Hb2 & Hy) Hne. split.
  - pose proof (free_list_append_wf s' cl out o (pk_pool _ _ _ _ _ _ _ _ _ K) (pk_owned _ _ _ _ _ _ _ _ _ K)
      (pk_heap _ _ _ _ _ _ _ _ _ K) (pk_wf _ _ _ _ _ _ _ _ _ K) Hcap) as P. rewrite Hl in P. apply P.
    rewrite zlen_nil. apply maxSize_pos.
  - destruct (pk_keep _ _ _ _ _ _ _ _ _ K q) as [Ho2 Hh2]; [done|done|].
    assert (Hneo : out <> q) by (intros ->; by apply (pk_new _ _ _ _ _ _ _ _ _ K)).
    split; [|split; [by cbn; rewrite Hh2|done]]. split; [|exists b1; by cbn; rewrite Hh2].
    split; [by cbn; apply Ho2|]. intros d. rewrite free_list_set. case_decide; [|apply Ho2].
    by intros <-%list_elem_of_singleton.
Qed.

End Launch.

(** ** Concrete runs *)

(** Two requests in the queue of a connected manager. *)
Definition two_requests (flags : Z) : World :=
  set_manager (set_requestsQueue [Request_new (Some 1%positive) 300 flags 0 (Some 11);
                                  Request_new (Some 2%positive) 301 flags 0 (Some 12)]
                 (set_activeConnections [TheConnection] (demo_manager [] [] 7)))
    (connected_world demo_pool).

(** The bytes waiting in the send queue. *)
Definition to_send (w : World) : list Z :=
  match connection w with
  | None => []
  | Some c => stream_bytes (pool w) (outgoingByteStream (base c))
  end.

Lemma requests_conserved_witness :
  exists w', processRequestQueue (two_requests RequestFlagWithoutAck) = Ok (tt, w') /\
    ledger w' ≡ₚ ledger (two_requests RequestFlagWithoutAck).
Proof.
  assert (exists w', processRequestQueue (two_requests RequestFlagWithoutAck) = Ok (tt, w')) as [w' E].
  { eexists. vm_compute. reflexivity. }
  exists w'. split; [exact E|]. apply requests_conserved. exact E.
Defined.

(** On the concrete queue: the second packet overwrites the first, yet both
    callbacks report success.  The same requests with answers expected go out
    one after the other. *)
Lemma no_ack_two_requests :
  let first := header_bytes 23 300 7 0 ++ [1; 2; 3] in
  let second := header_bytes 22 301 7 1 ++ [4; 5] in
  (exists w, processRequestQueue (two_requests RequestFlagWithoutAck) = Ok (tt, w) /\
     trace w = [IoComplete 12 errorCodeNone None; IoComplete 11 errorCodeNone None] /\
     take 22 (to_send w) = second /\ zlen (to_send w) = 45) /\
  (exists w, processRequestQueue (two_requests 0) = Ok (tt, w) /\ to_send w = first ++ second).
Proof.
  split; (eexists; split; [vm_compute; reflexivity|]); vm_compute; auto.
Qed.


