(* ===== verification/Framing.v ===== *)
(** * Framing: from the received chunks to packets

    Models [TcpConnection::onRecvData] and [restHeader].  The chunks arrive in
    the shared [networkBuffer]; what is left of a chunk after its last whole
    packet is kept in [resetOfData], with [lastPacketLength] zero while the
    header is incomplete and the length of the packet after that.  The parsed
    buffer and [resetOfData] may be the same object, so all accesses go
    through the heap.

    A whole packet is passed on to a [Receiver]; the interface says what the
    framing relies on, and [Manager.v] shows that
    [onConnectionRecviedData] provides it. *)

From S2P Require Import Prelude.
From S2P Require Import FormatTools.
From S2P Require Import NativeByteBuffer.
From S2P Require Import BufferStorage.
From S2P Require Import ByteStream.
From S2P Require Import NetworkMessage.
From S2P Require Import Datacenter.
From S2P Require Import Request.
From S2P Require Import World.
From S2P Require Import Connection.

(** Who takes the packets. *)
Class Receiver := { deliver : Z -> addr -> Z -> SR World unit }.

Section Framing.
Context {E : Env} {J : Jni} {R : Receiver}.

Definition update (p : addr) (f : NBuf -> NBuf) : SR World unit := on_pool (update_buf p (fun b => Ok (f b))).

Definition give_back (p : option addr) : SR World unit :=
  match p with None => mret tt | Some q => on_pool (reuse q) end.

Definition restHeader (p : addr) : SR World unit :=
  r ← this resetOfData;
  fresh ← (match r with
           | None => mret true
           | Some q => b ← on_pool (deref q); mret (negb (position b =? 0))
           end);
  if (fresh : bool) then
    q ← on_pool (getBuffer (16 * 1028));
    on_this (set_resetOfData (Some q));;
    on_pool (writeBytes_heap q p);;
    update q (fun b => limit_to (position b) b);;
    on_this (set_lastPacketLength 0);;
    give_back r
  else
    match r with
    | None => mret tt
    | Some q => update q (fun b => position_to (limit b) b)
    end.

(** An incomplete packet of [len] bytes whose header starts at
    [markPosition]: it moves to [resetOfData], or stays there. *)
Definition keep_partial (p : addr) (markPosition len : Z) : SR World unit :=
  r ← this resetOfData;
  small ← (match r with
           | None => mret false
           | Some q => b ← on_pool (deref q); mret (capacity b <? len)
           end);
  let reuseLater := if (small : bool) then r else None in
  when small (on_this (set_resetOfData None));;
  r' ← this resetOfData;
  match r' with
  | None =>
      update p (position_to markPosition);;
      q ← on_pool (getBuffer len);
      on_this (set_resetOfData (Some q));;
      on_pool (writeBytes_heap q p)
  | Some q =>
      update q (fun b => position_to (limit b) b);;
      update q (limit_to len)
  end;;
  on_this (set_lastPacketLength len);;
  give_back reuseLater.

(** After a packet: [resetOfData] is done, or its rest moves to the front. *)
Definition advance_rest : SR World unit :=
  r ← this resetOfData;
  match r with
  | None => mret tt
  | Some q =>
      b ← on_pool (deref q);
      len ← this lastPacketLength;
      if (negb (len =? 0) && (position b =? len)) || ((len =? 0) && negb (hasRemaining b)) then
        on_pool (reuse q);; on_this (set_resetOfData None)
      else
        on_pool (update_buf q compact);;
        update q (fun b => limit_to (position b) b);;
        update q (position_to 0)
  end.

(** The first data of a connection show that it works. *)
Definition note_recv : SR World unit :=
  seen ← this currentConnectionRecvData;
  when (negb seen) (on_this (set_isTryingNextPort false);; setTimeout 30);;
  on_this (set_currentConnectionRecvData true).

(** The [while] loop over the packets of buffer [p]; after the first packet
    it goes on with [parseLaterBuffer] if there is one. *)
Fixpoint parse_packets (fuel : nat) (p : addr) (parseLaterBuffer : option addr) : SR World unit :=
  match fuel with
  | O => fault_with OutOfFuel
  | S fuel' =>
      b ← on_pool (deref p);
      if negb (hasRemaining b) then mret tt
      else
        note_recv;;
        let markPosition := position b in
        if remaining b <? 20 then restHeader p
        else
          bs ← lift_res (read_at (bytes b) markPosition sizeof_PacketHeader);
          let packetHeader := PacketHeader_of_bytes bs in
          if negb (checkHeader packetHeader) then reconnect
          else
            let headLength := headLen packetHeader in
            if (headLength >? 20) && (remaining b <? headLength) then restHeader p
            else
              update p (position_to (u32 (markPosition + headLength)));;
              b ← on_pool (deref p);
              let packetLength := u32 (ntohs (pkgLen packetHeader) - headLength) in
              if packetLength >? remaining b then keep_partial p markPosition (u32 (packetLength + headLength))
              else
                let oldLimit := limit b in
                update p (limit_to (u32 (position b + packetLength)));;
                deliver (i32 (ntohl (cmd packetHeader))) p (ntohl (seq packetHeader));;
                update p (fun b => position_to (limit b) b);;
                update p (limit_to oldLimit);;
                advance_rest;;
                match parseLaterBuffer with
                | Some q => parse_packets fuel' q None
                | None => parse_packets fuel' p None
                end
  end.

(** [buffer->rewind()] and the loop.  A turn of the loop ends it or uses up
    at least one byte, so the bytes of the two buffers bound the turns. *)
Definition parse (p : addr) (parseLaterBuffer : option addr) : SR World unit :=
  update p rewind;;
  b ← on_pool (deref p);
  later ← (match parseLaterBuffer with
           | None => mret 0
           | Some q => n ← on_pool (deref q); mret (remaining n)
           end);
  parse_packets (2 + Z.to_nat (remaining b) + Z.to_nat later) p parseLaterBuffer.

Definition onRecvData (p : addr) : SR World unit :=
  on_this (set_failedConnectionCount 0);;
  r ← this resetOfData;
  match r with
  | None => parse p None
  | Some q =>
      rest ← on_pool (deref q);
      n ← on_pool (deref p);
      len ← this lastPacketLength;
      if len =? 0 then
        if limit n <=? u32 (capacity rest - position rest) then
          update q (limit_to (u32 (position rest + limit n)));;
          on_pool (writeBytes_heap q p);;
          parse q None
        else
          newBuffer ← on_pool (getBuffer (u32 (limit rest + limit n)));
          update q rewind;;
          on_pool (writeBytes_heap newBuffer q);;
          on_pool (writeBytes_heap newBuffer p);;
          on_pool (reuse q);;
          on_this (set_resetOfData (Some newBuffer));;
          parse newBuffer None
      else
        let missing := u32 (len - position rest) in
        let take := if missing <=? limit n then missing else limit n in
        let oldLimit := limit n in
        update p (limit_to take);;
        on_pool (writeBytes_heap q p);;
        update p (limit_to oldLimit);;
        rest ← on_pool (deref q);
        if position rest =? len then
          n ← on_pool (deref p);
          parse q (if hasRemaining n then Some p else None)
        else mret tt
  end.

(** [recv] fills the block of the network buffer. *)
Definition recv_into (p : addr) (data : list Z) : SR World unit :=
  on_pool (update_buf p (fun b => m ← write_at (buffer b) 0 data; Ok (set_buffer m b))).

(** The turn of the read loop of [onEvent] for received bytes. *)
Definition accept_chunk (p : addr) (readCount : Z) : SR World unit :=
  update p (limit_to (u32 readCount));;
  now ← getCurrentTimeMillis;
  on_base (set_lastEventTime now);;
  onRecvData p.

(** The read loop on a sequence of received pieces. *)
Fixpoint recv_chunks (p : addr) (chunks : list (list Z)) : SR World unit :=
  match chunks with
  | [] => mret tt
  | data :: chunks' =>
      update p rewind;;
      recv_into p data;;
      accept_chunk p (zlen data);;
      recv_chunks p chunks'
  end.
End Framing.
