(* ===== verification/FramingSpec.v ===== *)
(** * FramingSpec: the framing delivers exactly the packets that were sent

    The contract of [onRecvData]: however the byte stream is cut into chunks,
    the receiver gets the packets of the stream, in order, each once, and the
    bytes of an incomplete last packet are kept for the next chunk. *)

From S2P Require Import Prelude.
From S2P Require Import FormatTools.
From S2P Require Import NativeByteBuffer.
From S2P Require Import BufferStorage.
From S2P Require Import ByteStream.
From S2P Require Import NetworkMessage.
From S2P Require Import Datacenter.
From S2P Require Import Request.
From S2P Require Import World.
From S2P Require Import Connection.
From S2P Require Import Framing.

(** ** Packets of the stream *)

Definition header (bs : list Z) : PacketHeader := PacketHeader_of_bytes bs.
Arguments header : simpl never.
Definition packet_len (bs : list Z) : Z := ntohs (pkgLen (header bs)).

(** Extended headers of more than 200 bytes are left out: the buffer that
    joins such a piece with a full chunk would exceed the largest size class. *)
Definition good_head (bs : list Z) : Prop := checkHeader (header bs) = true /\ headLen (header bs) <= 200.

Record good_packet (pk : list Z) : Prop := {
  gp_len : 20 <= zlen pk;
  gp_head : good_head pk;
  gp_whole : packet_len pk = zlen pk
}.

(** A proper beginning of a packet. *)
Definition incomplete (bs : list Z) : Prop :=
  zlen bs < 20 \/ (good_head bs /\ zlen bs < packet_len bs).

(** Command, sequence number and body, as the receiver gets them. *)
Definition packet_cmd (bs : list Z) : Z := i32 (ntohl (cmd (header bs))).
Definition packet_seq (bs : list Z) : Z := ntohl (seq (header bs)).
Definition packet_body (bs : list Z) : list Z := drop (Z.to_nat (headLen (header bs))) bs.

(** ** Lemmas on headers *)

Lemma slice_prefix {A} (l m : list A) off n : 0 <= off -> 0 <= n -> off + n <= zlen l -> slice (l ++ m) off n = slice l off n.
Proof.
  unfold slice, zlen. intros. rewrite drop_app_le by lia. apply take_app_le. rewrite length_drop. lia.
Qed.

Lemma header_app bs tl : 20 <= zlen bs -> header (bs ++ tl) = header bs.
Proof. intros H. unfold header, PacketHeader_of_bytes. by rewrite !slice_prefix by lia. Qed.

Lemma header_take bs : 20 <= zlen bs -> header (slice bs 0 20) = header bs.
Proof.
  intros H. rewrite <- (header_app (slice bs 0 20) (drop 20 bs)).
  - f_equal. unfold slice. simpl. apply take_drop.
  - by rewrite zlen_slice by lia.
Qed.

Lemma htons_range x : 0 <= htons x < 65536.
Proof.
  unfold htons. apply (be_value_lt _ 2); [apply Forall_rev_bytes, be_bytes_bytes|].
  rewrite zlen_rev, zlen_be_bytes. lia.
Qed.

Lemma good_head_facts bs : good_head bs -> 20 <= headLen (header bs) <= 200 /\
  headLen (header bs) <= packet_len bs < 65536 /\ checkHeader (header bs) = true.
Proof.
  intros [Hc H2]. pose proof (htons_range (pkgLen (header bs))). unfold packet_len, ntohs.
  revert Hc. unfold checkHeader. destruct (_ && _); [done|].
  destruct (Z.gtb_spec (headLen (header bs)) (htons (pkgLen (header bs)))); [done|].
  destruct (Z.ltb_spec (headLen (header bs)) 20); [done|]. lia.
Qed.

Lemma good_head_app bs tl : 20 <= zlen bs -> good_head (bs ++ tl) <-> good_head bs.
Proof. intros H. unfold good_head. by rewrite header_app. Qed.

Lemma packet_len_app bs tl : 20 <= zlen bs -> packet_len (bs ++ tl) = packet_len bs.
Proof. intros H. unfold packet_len. by rewrite header_app. Qed.

(** ** One buffer of the heap *)

Definition poke (p : addr) (b : NBuf) (w : World) : World :=
  set_pool (set_heap (<[p := b]> (heap (pool w))) (pool w)) w.

Lemma poke_poke p b b' w : poke p b' (poke p b w) = poke p b' w.
Proof. unfold poke, set_heap, set_pool. simpl. by rewrite insert_insert_eq. Qed.

Lemma poke_same p b w : heap (pool w) !! p = Some b -> poke p b w = w.
Proof.
  intros H. unfold poke. rewrite insert_id by done. unfold set_heap, set_pool. by destruct w as [[] ? ? ? ? ? ?].
Qed.

Lemma poke_eq p b w : heap (pool (poke p b w)) !! p = Some b.
Proof. apply lookup_insert_eq. Qed.

Lemma poke_ne p q b w : p <> q -> heap (pool (poke p b w)) !! q = heap (pool w) !! q.
Proof. intros. simpl. by apply lookup_insert_ne. Qed.

Lemma poke_owned p b q w : owned (pool w) q -> owned (pool (poke p b w)) q.
Proof. apply owned_insert. Qed.

Lemma poke_wf p b w : pool_wf (pool w) -> owned (pool w) p -> pool_wf (pool (poke p b w)).
Proof. apply pool_wf_insert. Qed.

Lemma poke_room p b w k : room (pool (poke p b w)) k <-> room (pool w) k.
Proof. unfold room. split; intros H c; specialize (H c); revert H; simpl; by rewrite free_list_set_heap. Qed.

Lemma wp_deref p b Q w :
  heap (pool w) !! p = Some b -> Q b w -> wp (on_pool (deref p)) Q w.
Proof.
  intros H HQ. rewrite wp_on_pool. eapply wp_eq; [by apply deref_Ok|]. by destruct w.
Qed.

Lemma wp_update p f b Q w :
  heap (pool w) !! p = Some b -> Q tt (poke p (f b) w) -> wp (update p f) Q w.
Proof. intros H HQ. unfold update. rewrite wp_on_pool. by eapply wp_eq; [by eapply update_buf_Ok|]. Qed.

Lemma wp_update_res p f b b' Q w :
  heap (pool w) !! p = Some b -> f b = Ok b' -> Q tt (poke p b' w) -> wp (on_pool (update_buf p f)) Q w.
Proof. intros H Hf HQ. rewrite wp_on_pool. by eapply wp_eq; [by eapply update_buf_Ok|]. Qed.

(** Copying the unread bytes of [src] behind the position of [dst]. *)
Lemma wp_writeBytes dst src d s Q w :
  dst <> src -> heap (pool w) !! dst = Some d -> heap (pool w) !! src = Some s -> wf d -> wf s ->
  _position d + (_limit s - _position s) <= _limit d ->
  (forall d', wf d' -> same_shape d d' -> _position d' = _position d + zlen (contents s) ->
     buffer d' = splice (buffer d) (_position d) (contents s) ->
     Q tt (poke src (set__position (_limit s) s) (poke dst d' w))) ->
  wp (on_pool (writeBytes_heap dst src)) Q w.
Proof.
  intros Hne Hd Hs Wd Ws Hf HQ. rewrite wp_on_pool.
  destruct (writeBytes_fits d s None Wd Ws Hf) as (d' & E & W' & S' & P' & M').
  unfold writeBytes_heap. rewrite decide_False by done.
  rewrite wp_bind. eapply wp_eq; [by apply deref_Ok|]. rewrite wp_bind. eapply wp_eq; [by apply deref_Ok|].
  rewrite E, wp_bind, wp_lift, wp_bind. unfold store. rewrite !wp_modify. cbn [fst snd].
  by apply (HQ d').
Qed.

(** The unread bytes after a copy to the front of an empty buffer. *)
Lemma written_front d d' bs :
  wf d -> _position d = 0 -> buffer d' = splice (buffer d) 0 bs -> zlen bs <= _limit d ->
  slice (buffer d') 0 (zlen bs) = bs.
Proof. intros H Hp -> Hl. wf_facts H. apply slice_splice_same; lia. Qed.

(** ** What the framing relies on *)

(** While the manager is [ready], a [plain] packet is recorded in the inbox
    with nothing else touched. *)
Class ReceiverLaws (R : Receiver) := {
  ready : Manager -> Datacenter -> Prop;
  plain : Z -> Z -> list Z -> Prop;
  inbox : list io -> list (Z * list Z);
  deliver_ok : forall w cmd p sq b,
    ready (manager w) (datacenter w) -> heap (pool w) !! p = Some b -> wf b -> plain cmd sq (contents b) ->
    wp (deliver cmd p sq) (fun _ w' =>
      ready (manager w') (datacenter w') /\ pool w' = pool w /\ connection w' = connection w /\
      inbox (trace w') = inbox (trace w) ++ [(cmd, contents b)]) w
}.

Lemma position_to_in b n : n <= _limit b -> position_to n b = set__position n b.
Proof. intros H. unfold position_to. by destruct (Z.gtb_spec n (_limit b)); [lia|]. Qed.

Lemma limit_to_in b n : _position b <= n <= _capacity b -> limit_to n b = set__limit n b.
Proof.
  intros H. unfold limit_to. destruct (Z.gtb_spec n (_capacity b)); [lia|].
  by destruct (Z.gtb_spec (_position b) n); [lia|].
Qed.

Lemma contents_slice b n : wf b -> 0 <= n -> _position b + n <= _limit b ->
  slice (buffer b) (_position b) n = slice (contents b) 0 n.
Proof.
  intros H Hn Hl. wf_facts H. unfold contents, slice.
  change (Z.to_nat 0) with 0%nat. rewrite drop_0, take_take. f_equal. lia.
Qed.

(** Moving the position over a prefix of the unread bytes. *)
Lemma contents_advance b pk tl :
  wf b -> contents b = pk ++ tl -> contents (set__position (_position b + zlen pk) b) = tl.
Proof.
  intros H Hc. wf_facts H. pose proof (zlen_contents b H) as Hz. rewrite Hc, zlen_app in Hz.
  pose proof (zlen_nonneg pk). pose proof (zlen_nonneg tl).
  apply (f_equal (drop (length pk))) in Hc. rewrite drop_app_length in Hc.
  rewrite <- Hc. unfold contents, slice, zlen in *. simpl.
  rewrite skipn_firstn_comm, drop_drop. f_equal; [lia|f_equal; lia].
Qed.

(** Projections of the cursor operations. *)
Ltac bsimpl := cbn [position limit capacity bytes _position _limit _capacity buffer calculateSizeOnly set__position set__limit set_buffer].

Ltac bsimpl_in H := cbn [position limit capacity bytes _position _limit _capacity buffer calculateSizeOnly
  set__position set__limit set_buffer] in H.

Section Spec.
Context {E : Env} {J : Jni} {JL : JniLaws J} {R : Receiver} {RL : ReceiverLaws R}.

Definition is_ready (w : World) : Prop := ready (manager w) (datacenter w).
Definition arrived (w : World) : list (Z * list Z) := inbox (trace w).

(** The packet as the inbox shows it. *)
Definition entry (pk : list Z) : Z * list Z := (packet_cmd pk, packet_body pk).
Definition plain_packet (pk : list Z) : Prop := plain (packet_cmd pk) (packet_seq pk) (packet_body pk).

Lemma note_recv_ok w c Q :
  connection w = Some c ->
  (forall n c', resetOfData c' = resetOfData c -> lastPacketLength c' = lastPacketLength c ->
     Q tt (set_connection (Some c') (set_tick n w))) -> wp note_recv Q w.
Proof.
  intros Hc HQ. unfold note_recv, setTimeout. rewrite wp_bind. eapply wp_this; [done|]. rewrite wp_bind, wp_when.
  destruct (negb _).
  - rewrite wp_bind. eapply wp_on_this; [done|]. rewrite wp_bind. eapply wp_on_base; [done|].
    rewrite wp_bind. apply wp_clock. intros now. eapply wp_on_base; [done|]. eapply wp_on_this; [done|].
    by apply HQ.
  - eapply wp_on_this; [done|]. replace w with (set_tick (tick w) w) by (by destruct w). by apply HQ.
Qed.

(** One turn of the loop on a whole packet. *)
Lemma parse_step fuel p later w c b pk tl Q :
  connection w = Some c -> heap (pool w) !! p = Some b -> wf b -> is_ready w ->
  contents b = pk ++ tl -> good_packet pk -> plain_packet pk ->
  (forall w1 c1, connection w1 = Some c1 -> resetOfData c1 = resetOfData c ->
     lastPacketLength c1 = lastPacketLength c -> is_ready w1 -> arrived w1 = arrived w ++ [entry pk] ->
     pool w1 = pool (poke p (set__position (_position b + zlen pk) b) w) ->
     wp (advance_rest;; match later with
                        | Some q => parse_packets fuel q None
                        | None => parse_packets fuel p None
                        end) Q w1) ->
  wp (parse_packets (S fuel) p later) Q w.
Proof.
  intros Hc Hb Hw Hr Hcon [Hl Hh Hlen] Hpl HQ. wf_facts Hw.
  pose proof (zlen_contents b Hw) as Hz. rewrite Hcon, zlen_app in Hz. pose proof (zlen_nonneg tl).
  destruct (good_head_facts pk Hh) as (Hhl & Hpk & Hck). rewrite Hlen in Hpk.
  cbn [parse_packets]. rewrite wp_bind. eapply wp_deref; [done|].
  unfold hasRemaining. destruct (Z.ltb_spec (_position b) (_limit b)); [|lia]. cbn [negb].
  rewrite wp_bind. eapply note_recv_ok; [done|]. intros n c1 Er El.
  rewrite remaining_wf by done. destruct (Z.ltb_spec (_limit b - _position b) 20); [lia|].
  rewrite wp_bind, wp_lift. unfold bytes, position. rewrite read_at_Ok by (unfold sizeof_PacketHeader; lia).
  unfold sizeof_PacketHeader. rewrite contents_slice, Hcon by (done || lia).
  rewrite slice_prefix by lia.
  change (PacketHeader_of_bytes (slice pk 0 20)) with (header (slice pk 0 20)). rewrite header_take by done.
  rewrite Hck. cbn [negb].
  destruct (_ && _) eqn:Eh. { apply andb_true_iff in Eh as [_ Eh%Z.ltb_lt]. lia. }
  rewrite wp_bind. eapply wp_update; [done|].
  rewrite (u32_id (_position b + headLen (header pk))) by lia. rewrite position_to_in by lia.
  set (b1 := set__position _ b). rewrite wp_bind. eapply wp_deref; [apply poke_eq|].
  assert (W1 : wf b1) by (apply wf_set_position; [done|lia]).
  fold (packet_len pk). rewrite Hlen, (u32_id (zlen pk - headLen (header pk))) by lia.
  rewrite remaining_wf by done. cbn [b1 set__position _limit _position].
  rewrite Z.gtb_ltb. destruct (Z.ltb_spec (_limit b - (_position b + headLen (header pk))) (zlen pk - headLen (header pk))); [lia|].
  rewrite wp_bind. eapply wp_update; [apply poke_eq|]. rewrite poke_poke.
  cbn [b1 set__position position _position]. rewrite u32_id by lia. rewrite limit_to_in by (unfold b1; bsimpl; lia).
  set (b2 := set__limit _ b1). assert (W2 : wf b2) by (apply wf_set_limit; [done|unfold b1; bsimpl; lia]).
  assert (C2 : contents b2 = packet_body pk).
  { transitivity (slice (buffer b) (_position b + headLen (header pk)) (zlen pk - headLen (header pk))).
    - unfold contents, b2, b1. simpl. f_equal. lia.
    - assert (Hp : slice (buffer b) (_position b) (zlen pk) = pk).
      { rewrite contents_slice, Hcon by (done || lia). rewrite slice_prefix by lia. apply slice_full. }
      transitivity (drop (Z.to_nat (headLen (header pk))) (slice (buffer b) (_position b) (zlen pk)));
        [|by rewrite Hp].
      unfold slice. rewrite skipn_firstn_comm, drop_drop. f_equal; [lia|f_equal; lia]. }
  rewrite wp_bind. eapply wp_mono; [apply (deliver_ok _ _ p _ b2); [exact Hr|apply poke_eq|done|by rewrite C2]|].
  intros [] w2 (Hr2 & Hp2 & Hc2 & Ha2). rewrite C2 in Ha2.
  rewrite wp_bind. eapply wp_update; [rewrite Hp2; apply poke_eq|]. rewrite position_to_in by (unfold b2, b1; bsimpl; lia).
  rewrite wp_bind. eapply wp_update; [apply poke_eq|]. rewrite poke_poke. rewrite limit_to_in by (unfold b2, b1; bsimpl; lia).
  apply (HQ _ c1); try done.
  unfold poke. simpl. rewrite Hp2. simpl. rewrite insert_insert_eq.
  apply (f_equal (fun x => set_heap (<[p := x]> (heap (pool w))) (pool w))).
  destruct b; unfold b2, b1; bsimpl. unfold set__limit, set__position. simpl. f_equal. lia.
Qed.

(** ** The kept bytes *)

(** [resetOfData] and [lastPacketLength] represent the bytes [pend] of an
    incomplete packet, in a buffer that nobody else holds and for which the
    pool has room. *)
Definition rest_ok (s : Storage) (p0 : addr) (r : option addr) (len : Z) (pend : list Z) : Prop :=
  match r with
  | None => pend = [] /\ room s none_held
  | Some q => q <> p0 /\ owned s q /\ exists b cl,
      heap s !! q = Some b /\ wf b /\ _capacity b = byteCount cl /\ room s (one_held cl) /\
      0 < zlen pend /\ _position b = zlen pend /\ slice (buffer b) 0 (zlen pend) = pend /\
      ((len = 0 /\ _limit b = zlen pend /\
          (zlen pend < 20 \/ good_head pend /\ zlen pend < headLen (header pend))) \/
       (len = packet_len pend /\ _limit b = len /\ 20 <= zlen pend /\ good_head pend /\ zlen pend < len))
  end.

(** The end of a chunk: the packets [ps] were delivered, [rest] is kept, and
    of the buffers somebody held only the [touched] ones changed. *)
Definition settled (w : World) (p0 : addr) (touched : list addr) (ps : list (list Z)) (rest : list Z)
    (w' : World) : Prop :=
  exists c' nb', connection w' = Some c' /\ heap (pool w') !! p0 = Some nb' /\ wf nb' /\
    _capacity nb' = READ_BUFFER_SIZE /\ owned (pool w') p0 /\ is_ready w' /\ arrived w' = arrived w ++ (entry <$> ps) /\
    rest_ok (pool w') p0 (resetOfData c') (lastPacketLength c') rest /\
    released_all (pool w) touched (pool w').

Lemma wp_getBuffer size cl k w Q :
  pool_wf (pool w) -> 0 <= size -> class_of size = Some cl -> room (pool w) k -> (forall c, k c <= 1) ->
  (forall q d s, ~ owned (pool w) q -> pool_wf s -> owned s q -> heap s !! q = Some d -> wf d ->
     _position d = 0 -> _limit d = size -> _capacity d = byteCount cl ->
     (forall x, owned (pool w) x -> owned s x /\ heap s !! x = heap (pool w) !! x) ->
     room s (fun c => k c + one_held cl c) -> Q q (set_pool s w)) ->
  wp (on_pool (getBuffer size)) Q w.
Proof.
  intros Hp Hs Hcl Hr Hk HQ. rewrite wp_on_pool.
  pose proof (class_of_fits _ _ Hcl). pose proof (byteCount_bound cl).
  destruct (getBuffer_small size (pool w) Hp) as (q & d & s & E1 & (W & Hno & Ho & K) & Hd & Wd & P0 & L0 & C0);
    [unfold pool_max; lia|].
  eapply wp_eq; [done|]. unfold capacity_for in C0. rewrite Hcl in C0.
  apply (HQ q d s); try done. by eapply getBuffer_room.
Qed.

Lemma none_held_le c : none_held c <= 1.
Proof. done. Qed.

Lemma one_held_le cl c : one_held cl c <= 1.
Proof. unfold one_held. case_decide; lia. Qed.

(** The bytes at the front after the copy, and the owners of the others. *)
Lemma owned_ne s x y : owned s x -> ~ owned s y -> x <> y.
Proof. intros H1 H2 ->. done. Qed.

Lemma restHeader_fresh w c p0 b rest :
  connection w = Some c -> pool_wf (pool w) -> owned (pool w) p0 -> heap (pool w) !! p0 = Some b -> wf b ->
  _capacity b = READ_BUFFER_SIZE ->
  is_ready w -> resetOfData c = None -> room (pool w) none_held -> contents b = rest -> 0 < zlen rest ->
  (zlen rest < 20 \/ good_head rest /\ zlen rest < headLen (header rest)) ->
  wp (restHeader p0) (fun _ => settled w p0 [p0] [] rest) w.
Proof.
  intros Hc Hp Ho Hb Hw Hk0 Hr Hn Hm Hcon Hpos Hinc. wf_facts Hw.
  assert (Hz : zlen rest < 200).
  { destruct Hinc as [?|[Hg ?]]; [lia|]. apply good_head_facts in Hg. lia. }
  pose proof (zlen_contents b Hw) as Hzc. rewrite Hcon in Hzc.
  unfold restHeader. rewrite wp_bind. eapply wp_this; [done|]. rewrite Hn, wp_bind, wp_ret.
  rewrite wp_bind. eapply (wp_getBuffer (16 * 1028) Free16k none_held); [done|lia|done|done|apply none_held_le|].
  intros q d s Hno Ws Hoq Hd Wd P0 L0 C0 K Rm.
  rewrite wp_bind. eapply wp_on_this; [done|]. rewrite wp_bind.
  assert (Hne : q <> p0) by (by intros ->). destruct (K p0 Ho) as [Ho1 Hb1].
  eapply (wp_writeBytes q p0 d b); [done|done|simpl; by rewrite Hb1|done|done|lia|].
  intros d' Wd' (Sl & Sc & Sz) Pd' Md'. rewrite Hcon in *. rewrite P0 in *. rewrite Z.add_0_l in Pd'.
  rewrite wp_bind. eapply wp_update; [rewrite poke_ne by done; apply poke_eq|].
  wf_facts Wd'. unfold position. rewrite limit_to_in by lia.
  rewrite wp_bind. eapply wp_on_this; [done|]. simpl give_back. rewrite wp_ret.
  eexists _, _. split; [done|]. split; [simpl; rewrite lookup_insert_ne by done; apply lookup_insert_eq|].
  split; [apply wf_set_position; [done|lia]|]. split; [done|]. split; [by do 3 apply poke_owned|].
  split; [done|]. split; [by rewrite app_nil_r|]. split.
  - cbn [rest_ok resetOfData lastPacketLength set_resetOfData set_lastPacketLength].
    split; [done|]. split; [by do 3 apply poke_owned|].
    exists (set__limit (zlen rest) d'), Free16k. rewrite Pd'.
    split; [apply lookup_insert_eq|]. split; [apply wf_set_limit; [done|lia]|].
    split; [bsimpl; congruence|]. split; [|split; [done|]; split; [done|]; split; [|by left]].
    + do 3 apply poke_room. eapply room_weaken; [exact Rm|]. done.
    + simpl. eapply (written_front d); try done. lia.
  - split; [by do 3 (apply poke_wf; [|by repeat apply poke_owned])|].
    intros x Hx Hox. assert (x <> p0) by set_solver. assert (x <> q) by (by eapply owned_ne).
    destruct (K x Hox) as [Hox' Hhx]. split; [by do 3 apply poke_owned|].
    simpl. by rewrite !lookup_insert_ne by done.
Qed.

Lemma class_of_some size : size <= 128 * 1024 + 200 -> exists cl, class_of size = Some cl.
Proof. intros H. destruct (class_of size) eqn:Ec; [eauto|]. apply class_of_big in Ec. lia. Qed.

Lemma keep_partial_fresh w c p0 b mark rest :
  connection w = Some c -> pool_wf (pool w) -> owned (pool w) p0 -> heap (pool w) !! p0 = Some b -> wf b ->
  _capacity b = READ_BUFFER_SIZE ->
  is_ready w -> resetOfData c = None -> room (pool w) none_held ->
  0 <= mark <= _limit b -> contents (set__position mark b) = rest ->
  20 <= zlen rest -> good_head rest -> zlen rest < packet_len rest ->
  wp (keep_partial p0 mark (packet_len rest)) (fun _ => settled w p0 [p0] [] rest) w.
Proof.
  intros Hc Hp Ho Hb Hw Hk0 Hr Hn Hm Hmark Hcon H20 Hg Hlt.
  destruct (good_head_facts _ Hg) as (Hh1 & Hh2 & _). destruct (class_of_some (packet_len rest)) as [cl Hcl]; [lia|].
  assert (Wb : wf (set__position mark b)) by (by apply wf_set_position).
  pose proof (zlen_contents _ Wb) as Hzc. rewrite Hcon in Hzc. bsimpl_in Hzc.
  unfold keep_partial. rewrite wp_bind. eapply wp_this; [done|]. rewrite Hn, wp_bind, wp_ret. cbv zeta.
  rewrite wp_bind, wp_when. rewrite wp_bind. eapply wp_this; [done|]. rewrite Hn.
  rewrite wp_bind. rewrite wp_bind. eapply wp_update; [done|]. rewrite position_to_in by lia.
  set (b1 := set__position mark b) in *. set (w1 := poke p0 b1 w).
  rewrite wp_bind. eapply (wp_getBuffer _ cl none_held);
    [by apply poke_wf|lia|done|by apply poke_room|apply none_held_le|].
  intros q d s Hno Ws Hoq Hd Wd P0 L0 C0 K Rm.
  rewrite wp_bind. eapply wp_on_this; [done|].
  assert (Ho0 : owned (pool w1) p0) by (by apply poke_owned).
  assert (Hne : q <> p0) by (by intros ->). destruct (K p0 Ho0) as [Ho1 Hb1].
  eapply (wp_writeBytes q p0 d b1); [done|done|simpl; rewrite Hb1; apply poke_eq|done|done|rewrite L0, P0; unfold b1; bsimpl; lia|].
  intros d' Wd' (Sl & Sc & Sz) Pd' Md'. rewrite Hcon in *. rewrite P0 in *. rewrite Z.add_0_l in Pd'.
  rewrite wp_bind. eapply wp_on_this; [done|]. simpl give_back. rewrite wp_ret. wf_facts Wd'.
  eexists _, _. split; [done|]. split; [apply poke_eq|].
  split; [apply wf_set_position; [done|unfold b1; bsimpl; lia]|]. split; [done|]. split; [by do 2 apply poke_owned|].
  split; [done|]. split; [by rewrite app_nil_r|]. split.
  - cbn [rest_ok resetOfData lastPacketLength set_resetOfData set_lastPacketLength].
    split; [done|]. split; [by do 2 apply poke_owned|].
    exists d', cl. split; [simpl; rewrite lookup_insert_ne by done; apply lookup_insert_eq|].
    split; [done|]. split; [congruence|]. split; [by do 2 apply poke_room|].
    split; [lia|]. split; [done|]. split; [eapply (written_front d); try done; lia|].
    right. split; [done|]. split; [congruence|done].
  - split; [by do 2 (apply poke_wf; [|by repeat apply poke_owned])|].
    intros x Hx Hox. assert (x <> p0) by set_solver.
    assert (Hox1 : owned (pool w1) x) by (by apply poke_owned).
    assert (x <> q) by (by eapply owned_ne).
    destruct (K x Hox1) as [Hox' Hhx]. split; [by do 2 apply poke_owned|].
    simpl in *. rewrite !lookup_insert_ne by done. rewrite Hhx. by rewrite lookup_insert_ne.
Qed.

Lemma settled_trans w w1 p0 ps qs rest w' touched :
  arrived w1 = arrived w ++ (entry <$> ps) -> released_all (pool w) touched (pool w1) ->
  settled w1 p0 touched qs rest w' -> settled w p0 touched (ps ++ qs) rest w'.
Proof.
  intros Ha HR (c' & nb' & ? & ? & ? & ? & ? & ? & Ha' & ? & HR').
  exists c', nb'. do 6 (split; [done|]). split; [by rewrite Ha', Ha, fmap_app, app_assoc|]. split; [done|].
  eapply released_all_trans; [exact HR|exact HR'|]. intros p. rewrite elem_of_app. tauto.
Qed.

(** The last turn: what remains is an incomplete packet or nothing. *)
Lemma parse_net_end fuel w c p0 b rest :
  connection w = Some c -> pool_wf (pool w) -> owned (pool w) p0 -> heap (pool w) !! p0 = Some b -> wf b ->
  _capacity b = READ_BUFFER_SIZE ->
  is_ready w -> resetOfData c = None -> room (pool w) none_held -> contents b = rest -> incomplete rest ->
  wp (parse_packets (S fuel) p0 None) (fun _ => settled w p0 [p0] [] rest) w.
Proof.
  intros Hc Hp Ho Hb Hw Hk0 Hr Hn Hm Hcon Hinc. wf_facts Hw.
  pose proof (zlen_contents _ Hw) as Hzc. rewrite Hcon in Hzc.
  cbn [parse_packets]. rewrite wp_bind. eapply wp_deref; [done|]. unfold hasRemaining.
  destruct (Z.ltb_spec (_position b) (_limit b)); cbn [negb].
  2: { rewrite wp_ret. exists c, b. do 6 (split; [done|]). split; [by rewrite app_nil_r|].
       rewrite Hn. split; [|by split]. split; [|done]. apply nil_length_inv. unfold zlen in Hzc. lia. }
  rewrite wp_bind. eapply note_recv_ok; [done|]. intros n c1 Er El.
  set (w1 := set_connection _ _).
  assert (S1 : forall (m : SR World unit), wp m (fun _ => settled w1 p0 [p0] [] rest) w1 ->
    wp m (fun _ => settled w p0 [p0] [] rest) w1) by done.
  rewrite remaining_wf by done. rewrite Hn in Er.
  destruct (Z.ltb_spec (_limit b - _position b) 20).
  { apply S1. eapply (restHeader_fresh w1 c1); try done; [lia|left; lia]. }
  destruct Hinc as [Hinc|[Hg Hlt]]; [lia|]. destruct (good_head_facts _ Hg) as (Hh1 & Hh2 & Hck).
  rewrite wp_bind, wp_lift. unfold bytes, position. rewrite read_at_Ok by (unfold sizeof_PacketHeader; lia).
  unfold sizeof_PacketHeader. rewrite contents_slice, Hcon by (done || lia).
  change (PacketHeader_of_bytes (slice rest 0 20)) with (header (slice rest 0 20)). rewrite header_take by lia.
  rewrite Hck. cbn [negb]. destruct (_ && _) eqn:Eh.
  { apply andb_true_iff in Eh as [_ Eh%Z.ltb_lt]. apply S1.
    eapply (restHeader_fresh w1 c1); try done; [lia|right; split; [done|lia]]. }
  assert (Hhl : headLen (header rest) <= zlen rest).
  { apply andb_false_iff in Eh as [Eh|Eh]; [rewrite Z.gtb_ltb in Eh|]; apply Z.ltb_ge in Eh; lia. }
  rewrite wp_bind. eapply wp_update; [done|].
  rewrite (u32_id (_position b + headLen (header rest))) by lia. rewrite position_to_in by lia.
  set (b1 := set__position _ b). assert (W1 : wf b1) by (apply wf_set_position; [done|lia]).
  rewrite wp_bind. eapply wp_deref; [apply poke_eq|].
  fold (packet_len rest). rewrite (u32_id (packet_len rest - headLen (header rest))) by lia.
  rewrite remaining_wf by done. unfold b1 at 1 2. bsimpl. rewrite Z.gtb_ltb.
  destruct (Z.ltb_spec (_limit b - (_position b + headLen (header rest))) (packet_len rest - headLen (header rest))); [|lia].
  rewrite u32_id by lia. replace (packet_len rest - headLen (header rest) + headLen (header rest)) with (packet_len rest) by lia.
  set (w2 := poke p0 b1 w1).
  eapply wp_mono; [eapply (keep_partial_fresh w2 c1 p0 b1 (_position b) rest);
    first [done | by apply poke_wf | by apply poke_owned | apply poke_eq | by apply poke_room
          | unfold b1; bsimpl; lia | rewrite <- Hcon; by destruct b | lia]|].
  intros [] w' HS. apply (settled_trans w w2 p0 [] [] rest w' [p0]); [by rewrite app_nil_r| |done].
  split; [by apply poke_wf|]. intros x Hx Hox. split; [by apply poke_owned|].
  etransitivity; [apply poke_ne; set_solver|done].
Qed.

Lemma advance_none w c Q : connection w = Some c -> resetOfData c = None -> Q tt w -> wp advance_rest Q w.
Proof. intros Hc Hn HQ. unfold advance_rest. rewrite wp_bind. eapply wp_this; [done|]. by rewrite Hn. Qed.

(** What a poke at [p] touches. *)
Lemma poke_released p b w touched :
  pool_wf (pool w) -> owned (pool w) p -> p ∈ touched -> released_all (pool w) touched (pool (poke p b w)).
Proof.
  intros Hp Ho Hin. split; [by apply poke_wf|]. intros x Hx Hox. split; [by apply poke_owned|].
  apply poke_ne. by intros ->.
Qed.

(** The loop over a chunk, with nothing kept from before. *)
Lemma parse_net ps : forall fuel w c p0 b rest,
  connection w = Some c -> pool_wf (pool w) -> owned (pool w) p0 -> heap (pool w) !! p0 = Some b -> wf b ->
  _capacity b = READ_BUFFER_SIZE ->
  is_ready w -> resetOfData c = None -> room (pool w) none_held ->
  contents b = mjoin ps ++ rest -> Forall good_packet ps -> Forall plain_packet ps -> incomplete rest ->
  (length ps < fuel)%nat ->
  wp (parse_packets fuel p0 None) (fun _ => settled w p0 [p0] ps rest) w.
Proof.
  induction ps as [|pk ps IH]; intros [|fuel] w c p0 b rest Hc Hp Ho Hb Hw Hk0 Hr Hn Hm Hcon Hg Hpl Hi Hf;
    try (simpl in Hf; lia).
  { by eapply parse_net_end. }
  apply Forall_cons in Hg as [Hpk Hg]. apply Forall_cons in Hpl as [Hpp Hpl].
  simpl in Hcon. rewrite <- app_assoc in Hcon.
  eapply parse_step; try done. intros w1 c1 Hc1 Er El Hr1 Ha1 Hp1.
  rewrite wp_bind. eapply advance_none; [done|by rewrite Er|].
  set (b1 := set__position _ b) in *.
  assert (W1 : wf b1).
  { apply wf_set_position; [done|]. wf_facts Hw. pose proof (zlen_contents _ Hw) as Hz.
    rewrite Hcon, zlen_app in Hz. pose proof (zlen_nonneg pk). pose proof (zlen_nonneg (mjoin ps ++ rest)). lia. }
  eapply wp_mono; [apply (IH fuel w1 c1 p0 b1 rest)|]; rewrite ?Hp1; try done;
    first [by apply poke_wf | by apply poke_owned | apply poke_eq | by rewrite Er | by apply poke_room
          | by apply contents_advance | simpl in Hf; lia | idtac].
  intros [] w' HS. apply (settled_trans w w1 p0 [pk] ps rest w' [p0]); [done| |done].
  rewrite Hp1. apply poke_released; [done|done|left].
Qed.

(** ** Chunks that complete kept bytes *)

Lemma reuse_kept q b cl k s :
  pool_wf s -> owned s q -> heap s !! q = Some b -> wf b -> _capacity b = byteCount cl -> room s k -> 1 <= k cl ->
  exists s1, reuse q s = Ok (tt, s1) /\ heap s1 = heap s /\ room s1 (fun d => k d - one_held cl d) /\ released s q s1.
Proof.
  intros Hs Ho Hb Hw Hc Hr Hk. destruct (reuse_room cl k q b s Hb Hc Hr Hk) as [E1 R1].
  destruct (reuse_spec q b s Hs Ho Hb Hw) as (s' & E2 & HR).
  - unfold pool_capacity. by rewrite Hc, class_of_byteCount.
  - rewrite Hc. apply byteCount_bound.
  - rewrite E1 in E2. injection E2 as <-. eauto.
Qed.

(** [q] holds all of the bytes [bs] and is being parsed from the start. *)
Record parsing (w : World) (c : TcpConnection) (p0 q : addr) (b : NBuf) (cl : size_class) : Prop := {
  pa_conn : connection w = Some c;
  pa_pool : pool_wf (pool w);
  pa_net : owned (pool w) p0;
  pa_nb : exists nb, heap (pool w) !! p0 = Some nb /\ wf nb /\ _capacity nb = READ_BUFFER_SIZE;
  pa_ne : q <> p0;
  pa_own : owned (pool w) q;
  pa_buf : heap (pool w) !! q = Some b;
  pa_wf : wf b;
  pa_cap : _capacity b = byteCount cl;
  pa_room : room (pool w) (one_held cl);
  pa_reset : resetOfData c = Some q;
  pa_ready : is_ready w
}.

Lemma parsing_poke w c p0 q b cl b' :
  parsing w c p0 q b cl -> wf b' -> _capacity b' = byteCount cl -> parsing (poke q b' w) c p0 q b' cl.
Proof.
  intros [? ? ? (nb & Hnb & Wnb & Knb) ? ? ? ? ? ? ? ?] Hw Hc.
  constructor; first [by apply poke_wf | by apply poke_owned | by exists nb; rewrite poke_ne | apply poke_eq
                     | by apply poke_room | done].
Qed.

Lemma parsing_conn w c p0 q b cl c' n :
  parsing w c p0 q b cl -> resetOfData c' = resetOfData c ->
  parsing (set_connection (Some c') (set_tick n w)) c' p0 q b cl.
Proof. intros [] Hr. constructor; try done. by rewrite Hr. Qed.

(** The end of a chunk that leaves its rest in [q]. *)
Lemma parsing_settled w c p0 q b cl len rest :
  parsing w c p0 q b cl -> lastPacketLength c = len ->
  0 < zlen rest -> _position b = zlen rest -> slice (buffer b) 0 (zlen rest) = rest ->
  ((len = 0 /\ _limit b = zlen rest /\
      (zlen rest < 20 \/ good_head rest /\ zlen rest < headLen (header rest))) \/
   (len = packet_len rest /\ _limit b = len /\ 20 <= zlen rest /\ good_head rest /\ zlen rest < len)) ->
  settled w p0 [p0; q] [] rest w.
Proof.
  intros [? ? ? (nb & Hnb & Wnb & Knb) ? ? ? ? ? ? ? ?] Hl Hz Hp Hs Hc.
  exists c, nb. do 6 (split; [done|]). split; [by rewrite app_nil_r|]. split; [|by split].
  unfold rest_ok. rewrite pa_reset0, Hl. split; [done|]. split; [done|]. exists b, cl. eauto 12.
Qed.

Lemma settled_poke w p0 q b rest w' c nb cl :
  parsing w c p0 q nb cl -> settled (poke q b w) p0 [p0; q] [] rest w' -> settled w p0 [p0; q] [] rest w'.
Proof.
  intros H HS. apply (settled_trans w (poke q b w) p0 [] [] rest w' [p0; q]); [by rewrite app_nil_r| |done].
  apply poke_released; [apply H|apply H|]. set_solver.
Qed.

Lemma restHeader_stay w c p0 q b cl rest :
  parsing w c p0 q b cl -> lastPacketLength c = 0 -> _position b = 0 -> contents b = rest -> 0 < zlen rest ->
  (zlen rest < 20 \/ good_head rest /\ zlen rest < headLen (header rest)) ->
  wp (restHeader q) (fun _ => settled w p0 [p0; q] [] rest) w.
Proof.
  intros H Hl Hp Hcon Hz Hc. pose proof (pa_wf _ _ _ _ _ _ H) as Hw. wf_facts Hw.
  pose proof (zlen_contents _ Hw) as Hzc. rewrite Hcon, Hp, Z.sub_0_r in Hzc.
  unfold restHeader. rewrite wp_bind. eapply wp_this; [apply H|]. rewrite (pa_reset _ _ _ _ _ _ H), wp_bind.
  rewrite wp_bind. eapply wp_deref; [apply H|]. rewrite wp_ret. unfold position. rewrite Hp. cbn [Z.eqb negb].
  eapply wp_update; [apply H|]. unfold limit. rewrite position_to_in by lia.
  eapply settled_poke; [done|]. eapply (parsing_settled _ c _ _ (set__position (_limit b) b) cl 0); try done.
  - apply parsing_poke with b; [done|apply wf_set_position; [done|lia]|apply H].
  - bsimpl. rewrite Hzc, <- Hcon. unfold contents. by rewrite Hp, Z.sub_0_r.
  - left. split; [done|]. split; [bsimpl; lia|done].
Qed.

Lemma keep_partial_stay w c p0 q b cl rest :
  parsing w c p0 q b cl -> slice (buffer b) 0 (_limit b) = rest ->
  20 <= zlen rest -> good_head rest -> zlen rest < packet_len rest -> packet_len rest <= byteCount cl ->
  wp (keep_partial q 0 (packet_len rest)) (fun _ => settled w p0 [p0; q] [] rest) w.
Proof.
  intros H Hs H20 Hg Hlt Hfit. pose proof (pa_wf _ _ _ _ _ _ H) as Hw. wf_facts Hw.
  pose proof (pa_cap _ _ _ _ _ _ H) as Hcap.
  assert (Hz : zlen rest = _limit b) by (rewrite <- Hs; apply zlen_slice; lia).
  unfold keep_partial. rewrite wp_bind. eapply wp_this; [apply H|]. rewrite (pa_reset _ _ _ _ _ _ H), wp_bind.
  rewrite wp_bind. eapply wp_deref; [apply H|]. rewrite wp_ret. unfold capacity. rewrite Hcap.
  destruct (Z.ltb_spec (byteCount cl) (packet_len rest)); [lia|]. cbv zeta.
  rewrite wp_bind, wp_when, wp_bind. eapply wp_this; [apply H|]. rewrite (pa_reset _ _ _ _ _ _ H).
  rewrite wp_bind, wp_bind. eapply wp_update; [apply H|]. unfold limit. rewrite position_to_in by lia.
  eapply wp_update; [apply poke_eq|]. rewrite poke_poke, limit_to_in by (bsimpl; lia).
  set (b2 := set__limit _ _).
  assert (HB2 : parsing (poke q b2 w) c p0 q b2 cl).
  { apply parsing_poke with b; [done| |done]. apply wf_set_limit; [apply wf_set_position; [done|lia]|bsimpl; lia]. }
  rewrite wp_bind. eapply wp_on_this; [apply HB2|]. simpl give_back. rewrite wp_ret.
  apply (settled_poke w p0 q b2 rest _ c b cl); [done|]. set (w3 := set_connection _ _).
  apply (settled_trans _ w3 p0 [] []); [by rewrite app_nil_r| |].
  { split; [exact (pa_pool _ _ _ _ _ _ HB2)|]. intros x _ Hx. by split. }
  eapply (parsing_settled _ _ _ _ b2 cl); [|reflexivity| |unfold b2; bsimpl; lia| |].
  - unfold w3. replace (poke q b2 w) with (set_tick (tick w) (poke q b2 w)) by (by destruct w). by eapply parsing_conn.
  - lia.
  - unfold b2. bsimpl. by rewrite Hz.
  - right. split; [done|]. split; [done|]. done.
Qed.

Lemma keep_partial_swap w c p0 q b cl rest :
  parsing w c p0 q b cl -> slice (buffer b) 0 (_limit b) = rest ->
  20 <= zlen rest -> good_head rest -> zlen rest < packet_len rest -> byteCount cl < packet_len rest ->
  wp (keep_partial q 0 (packet_len rest)) (fun _ => settled w p0 [p0; q] [] rest) w.
Proof.
  intros H Hs H20 Hg Hlt Hfit. pose proof (pa_wf _ _ _ _ _ _ H) as Hw. wf_facts Hw.
  pose proof (pa_cap _ _ _ _ _ _ H) as Hcap. pose proof (pa_reset _ _ _ _ _ _ H) as Hres.
  assert (Hz : zlen rest = _limit b) by (rewrite <- Hs; apply zlen_slice; lia).
  destruct (good_head_facts _ Hg) as (Hh1 & Hh2 & _). destruct (class_of_some (packet_len rest)) as [cl' Hcl]; [lia|].
  unfold keep_partial. rewrite wp_bind. eapply wp_this; [apply H|]. rewrite Hres, wp_bind.
  rewrite wp_bind. eapply wp_deref; [apply H|]. rewrite wp_ret. unfold capacity. rewrite Hcap.
  destruct (Z.ltb_spec (byteCount cl) (packet_len rest)); [|lia]. cbv zeta.
  rewrite wp_bind, wp_when. eapply wp_on_this; [apply H|]. rewrite wp_bind. eapply wp_this; [done|].
  cbn [resetOfData set_resetOfData]. rewrite wp_bind, wp_bind. eapply wp_update; [apply H|].
  rewrite position_to_in by lia. set (b1 := set__position 0 b). set (c1 := set_resetOfData None c).
  set (w1 := poke q b1 _).
  assert (W1 : wf b1) by (apply wf_set_position; [done|lia]).
  assert (C1 : contents b1 = rest) by (unfold contents, b1; bsimpl; by rewrite Z.sub_0_r).
  pose proof (parsing_poke _ _ _ _ _ _ b1 H W1 Hcap) as HB1.
  rewrite wp_bind. eapply (wp_getBuffer _ cl' (one_held cl)); [apply HB1|lia|done|apply HB1|apply one_held_le|].
  intros q' d s Hno Ws Hoq Hd Wd P0 L0 C0 K Rm.
  rewrite wp_bind. eapply wp_on_this; [done|].
  destruct (K q (pa_own _ _ _ _ _ _ HB1)) as [Ho1 Hb1]. destruct (K p0 (pa_net _ _ _ _ _ _ HB1)) as [Hop Hbp].
  assert (Hne : q' <> q) by (intros ->; apply Hno, HB1). assert (Hnp : q' <> p0) by (intros ->; apply Hno, HB1).
  eapply (wp_writeBytes q' q d b1); [done|done|simpl; rewrite Hb1; apply poke_eq|done|done|
    rewrite L0, P0; unfold b1; bsimpl; lia|].
  intros d' Wd' (Sl & Sc & Sz) Pd' Md'. rewrite C1 in *. rewrite P0 in *. rewrite Z.add_0_l in Pd'.
  rewrite wp_bind. eapply wp_on_this; [done|]. cbn [give_back]. rewrite wp_on_pool.
  set (bq := set__position (_limit b1) b1). set (w3 := poke q bq (poke q' d' _)).
  assert (Wq : wf bq) by (apply wf_set_position; [done|unfold b1; bsimpl; lia]).
  destruct (reuse_kept q bq cl (fun x => one_held cl x + one_held cl' x) (pool w3)) as (s1 & E1 & Eh & R1 & HR).
  { unfold w3. apply poke_wf; [apply poke_wf; done|by apply poke_owned]. }
  { unfold w3. by do 2 apply poke_owned. }
  { apply poke_eq. }
  { done. }
  { done. }
  { by do 2 apply poke_room. }
  { unfold one_held. rewrite (decide_True (P := cl = cl)) by done. case_decide; lia. }
  eapply wp_eq; [exact E1|].
  assert (O3 : forall x, owned (pool w) x -> x <> q -> owned s1 x /\ heap s1 !! x = heap (pool w) !! x).
  { intros x Hox Hx. assert (owned (pool (poke q b1 w)) x) as Hox1 by (by apply poke_owned).
    destruct (K x Hox1) as [Hox2 Hhx]. assert (x <> q') by (intros ->; by apply Hno).
    destruct HR as (_ & _ & HK). destruct (HK x Hx) as [Hox3 _]; [by do 2 apply poke_owned|].
    split; [done|]. rewrite Eh. unfold w3. rewrite !poke_ne by done. simpl in *. rewrite Hhx.
    by rewrite lookup_insert_ne. }
  destruct (pa_nb _ _ _ _ _ _ H) as (nb & Hnb & Wnb & Knb).
  destruct (O3 p0) as [Hop3 Hhp3]; [apply H|by intros ->; apply (pa_ne _ _ _ _ _ _ H)|].
  eexists _, nb. split; [done|]. split; [simpl; by rewrite Hhp3|]. split; [done|]. split; [done|]. split; [done|].
  split; [apply H|]. split; [by rewrite app_nil_r|]. split.
  - cbn [rest_ok resetOfData lastPacketLength set_resetOfData set_lastPacketLength].
    destruct HR as (_ & _ & HK). destruct (HK q' Hne) as [Hoq3 _]; [by do 2 apply poke_owned|].
    split; [done|]. split; [done|]. exists d', cl'.
    split; [simpl; rewrite Eh; unfold w3; rewrite poke_ne by done; apply poke_eq|].
    split; [done|]. split; [congruence|]. split; [eapply room_weaken; [exact R1|]; intros x; simpl; lia|].
    split; [lia|]. split; [done|]. split; [eapply (written_front d); try done; lia|].
    right. split; [done|]. split; [congruence|done].
  - split; [apply HR|]. intros x Hx Hox. apply O3; [done|]. set_solver.
Qed.

(** The last turn on [q] itself. *)
Lemma parse_rest_end fuel w c p0 q b cl rest :
  parsing w c p0 q b cl -> lastPacketLength c = 0 -> _position b = 0 -> contents b = rest -> 0 < zlen rest ->
  incomplete rest -> wp (parse_packets (S fuel) q None) (fun _ => settled w p0 [p0; q] [] rest) w.
Proof.
  intros H Hl Hp Hcon Hz Hinc. pose proof (pa_wf _ _ _ _ _ _ H) as Hw. wf_facts Hw.
  pose proof (zlen_contents _ Hw) as Hzc. rewrite Hcon in Hzc.
  cbn [parse_packets]. rewrite wp_bind. eapply wp_deref; [apply H|]. unfold hasRemaining.
  destruct (Z.ltb_spec (_position b) (_limit b)); [|lia]. cbn [negb].
  rewrite wp_bind. eapply note_recv_ok; [apply H|]. intros n c1 Er El. rewrite Hl in El.
  pose proof (parsing_conn _ _ _ _ _ _ c1 n H Er) as HB1. set (w1 := set_connection _ _) in *.
  assert (S1 : forall (m : SR World unit), wp m (fun _ => settled w1 p0 [p0; q] [] rest) w1 ->
    wp m (fun _ => settled w p0 [p0; q] [] rest) w1) by done.
  rewrite remaining_wf by done. destruct (Z.ltb_spec (_limit b - _position b) 20).
  { apply S1. eapply restHeader_stay; try done. left. lia. }
  destruct Hinc as [Hinc|[Hg Hlt]]; [lia|]. destruct (good_head_facts _ Hg) as (Hh1 & Hh2 & Hck).
  rewrite wp_bind, wp_lift. unfold bytes, position. rewrite read_at_Ok by (unfold sizeof_PacketHeader; lia).
  unfold sizeof_PacketHeader. rewrite contents_slice, Hcon by (done || lia).
  change (PacketHeader_of_bytes (slice rest 0 20)) with (header (slice rest 0 20)). rewrite header_take by lia.
  rewrite Hck. cbn [negb]. destruct (_ && _) eqn:Eh.
  { apply andb_true_iff in Eh as [_ Eh%Z.ltb_lt]. apply S1.
    eapply restHeader_stay; try done. right. split; [done|lia]. }
  assert (Hhl : headLen (header rest) <= zlen rest).
  { apply andb_false_iff in Eh as [Eh|Eh]; [rewrite Z.gtb_ltb in Eh|]; apply Z.ltb_ge in Eh; lia. }
  rewrite Hp in *. rewrite wp_bind. eapply wp_update; [apply HB1|].
  rewrite (u32_id (0 + headLen (header rest))) by lia. rewrite position_to_in by lia.
  set (b1 := set__position _ b). assert (W1 : wf b1) by (apply wf_set_position; [done|lia]).
  rewrite wp_bind. eapply wp_deref; [apply poke_eq|].
  fold (packet_len rest). rewrite (u32_id (packet_len rest - headLen (header rest))) by lia.
  rewrite remaining_wf by done. unfold b1 at 1 2. bsimpl. rewrite Z.gtb_ltb.
  destruct (Z.ltb_spec (_limit b - (0 + headLen (header rest))) (packet_len rest - headLen (header rest))); [|lia].
  rewrite u32_id by lia. replace (packet_len rest - headLen (header rest) + headLen (header rest)) with (packet_len rest) by lia.
  assert (HB2 : parsing (poke q b1 w1) c1 p0 q b1 cl) by (apply parsing_poke with b; [done|done|apply H]).
  assert (Hs : slice (buffer b1) 0 (_limit b1) = rest).
  { unfold b1. bsimpl. rewrite <- Hcon. unfold contents. by rewrite Hp, Z.sub_0_r. }
  eapply wp_mono.
  - destruct (Z.le_gt_cases (packet_len rest) (byteCount cl)).
    + eapply (keep_partial_stay _ c1 p0 q b1 cl); try done. lia.
    + eapply (keep_partial_swap _ c1 p0 q b1 cl); try done. lia.
  - intros [] w' HS. change (settled w1 p0 [p0; q] [] rest w'). by eapply settled_poke.
Qed.

(** Reaching the end of [q]: it goes back to the pool, and stays readable. *)
Lemma advance_done w c p0 q b cl Q :
  parsing w c p0 q b cl -> _position b = _limit b ->
  (lastPacketLength c = 0 \/ lastPacketLength c <> 0 /\ lastPacketLength c = _limit b) ->
  (forall s1, heap s1 = heap (pool w) -> pool_wf s1 -> room s1 none_held ->
     (forall x, x <> q -> owned (pool w) x -> owned s1 x) ->
     Q tt (set_connection (Some (set_resetOfData None c)) (set_pool s1 w))) ->
  wp advance_rest Q w.
Proof.
  intros H Hp Hl HQ. unfold advance_rest. rewrite wp_bind. eapply wp_this; [apply H|].
  rewrite (pa_reset _ _ _ _ _ _ H), wp_bind. eapply wp_deref; [apply H|]. rewrite wp_bind. eapply wp_this; [apply H|].
  assert ((negb (lastPacketLength c =? 0) && (position b =? lastPacketLength c)
           || (lastPacketLength c =? 0) && negb (hasRemaining b)) = true) as ->.
  { unfold position, hasRemaining. rewrite Hp, Z.ltb_irrefl.
    destruct Hl as [-> | [Hne Hl]]; [done|]. rewrite Hl in *. rewrite Z.eqb_refl.
    destruct (Z.eqb_spec (_limit b) 0); done. }
  rewrite wp_bind, wp_on_pool.
  destruct (reuse_kept q b cl (one_held cl) (pool w)) as (s1 & E1 & Eh & R1 & (W1 & _ & K1)); try apply H.
  { unfold one_held. rewrite decide_True by done. lia. }
  eapply wp_eq; [done|]. eapply wp_on_this; [apply H|]. apply HQ; try done.
  - eapply room_weaken; [exact R1|]. intros d. unfold none_held. lia.
  - intros x Hx Hox. by apply K1.
Qed.

(** Bytes left after a packet: they move to the front of [q]. *)
Lemma advance_compact w c p0 q b cl Q :
  parsing w c p0 q b cl -> _position b < _limit b -> lastPacketLength c = 0 ->
  (forall b', wf b' -> _capacity b' = byteCount cl -> _position b' = 0 -> contents b' = contents b ->
     Q tt (poke q b' w)) ->
  wp advance_rest Q w.
Proof.
  intros H Hp Hl HQ. pose proof (pa_wf _ _ _ _ _ _ H) as Hw. wf_facts Hw.
  unfold advance_rest. rewrite wp_bind. eapply wp_this; [apply H|].
  rewrite (pa_reset _ _ _ _ _ _ H), wp_bind. eapply wp_deref; [apply H|]. rewrite wp_bind. eapply wp_this; [apply H|].
  rewrite Hl. unfold hasRemaining. destruct (Z.ltb_spec (_position b) (_limit b)); [|lia]. cbn [Z.eqb negb andb orb].
  destruct (compact_spec b Hw Hp) as (b1 & E1 & W1 & C1 & Z1 & P1 & L1 & S1). wf_facts W1.
  rewrite wp_bind. eapply wp_update_res; [apply H|done|].
  rewrite wp_bind. eapply wp_update; [apply poke_eq|]. unfold position. rewrite poke_poke, limit_to_in by lia.
  eapply wp_update; [apply poke_eq|]. rewrite poke_poke, position_to_in by (bsimpl; lia).
  apply HQ.
  - apply wf_set_position; [apply wf_set_limit; [done|lia]|bsimpl; lia].
  - bsimpl. rewrite C1. apply H.
  - done.
  - unfold contents at 1. bsimpl. by rewrite Z.sub_0_r.
Qed.

(** A loop whose buffer has nothing left. *)
Lemma parse_nothing fuel w q b Q :
  heap (pool w) !! q = Some b -> _position b = _limit b -> Q tt w -> wp (parse_packets (S fuel) q None) Q w.
Proof.
  intros Hb Hp HQ. cbn [parse_packets]. rewrite wp_bind. eapply wp_deref; [done|].
  unfold hasRemaining. by rewrite Hp, Z.ltb_irrefl.
Qed.

Lemma parsing_after w c p0 q b cl w1 c1 b1 :
  parsing w c p0 q b cl -> connection w1 = Some c1 -> resetOfData c1 = resetOfData c -> is_ready w1 ->
  pool w1 = pool (poke q b1 w) -> wf b1 -> _capacity b1 = _capacity b -> parsing w1 c1 p0 q b1 cl.
Proof.
  intros H Hc Hr Hrd Hp Wb Cb. pose proof (parsing_poke _ _ _ _ _ _ b1 H Wb) as H1.
  rewrite Cb in H1. destruct (H1 (pa_cap _ _ _ _ _ _ H)) as [? ? ? ? ? ? ? ? ? ? ? ?].
  constructor; rewrite ?Hp; try done. by rewrite Hr.
Qed.

(** The loop over the kept bytes joined with a chunk. *)
Lemma parse_rest ps : forall fuel w c p0 q b cl rest,
  parsing w c p0 q b cl -> lastPacketLength c = 0 -> _position b = 0 ->
  contents b = mjoin ps ++ rest -> 0 < zlen (contents b) ->
  Forall good_packet ps -> Forall plain_packet ps -> incomplete rest -> (length ps + 1 < fuel)%nat ->
  wp (parse_packets fuel q None) (fun _ => settled w p0 [p0; q] ps rest) w.
Proof.
  induction ps as [|pk ps IH]; intros [|[|fuel]] w c p0 q b cl rest H Hl Hp Hcon Hz Hg Hpl Hi Hf;
    try (simpl in Hf; lia).
  { eapply parse_rest_end; try done. by rewrite Hcon in Hz. }
  apply Forall_cons in Hg as [Hpk Hg]. apply Forall_cons in Hpl as [Hpp Hpl].
  simpl in Hcon. rewrite <- app_assoc in Hcon.
  pose proof (pa_wf _ _ _ _ _ _ H) as Hw. pose proof (zlen_contents _ Hw) as Hzc. rewrite Hcon, zlen_app in Hzc.
  pose proof (zlen_nonneg pk). pose proof (zlen_nonneg (mjoin ps ++ rest)).
  eapply parse_step; try done; try apply H. intros w1 c1 Hc1 Er El Hr1 Ha1 Hp1. rewrite Hl in El.
  set (b1 := set__position _ b) in *.
  assert (W1 : wf b1) by (apply wf_set_position; [done|lia]).
  assert (C1 : contents b1 = mjoin ps ++ rest) by (by apply contents_advance).
  assert (HB1 : parsing w1 c1 p0 q b1 cl) by (by eapply parsing_after).
  assert (R1 : released_all (pool w) [p0; q] (pool w1)).
  { rewrite Hp1. apply poke_released; [apply H|apply H|set_solver]. }
  rewrite wp_bind. destruct (decide (_position b1 = _limit b1)) as [He|Hne].
  - assert (mjoin ps ++ rest = []) as Hnil.
    { rewrite <- C1. apply nil_length_inv. pose proof (zlen_contents _ W1). unfold zlen in *. lia. }
    apply app_eq_nil in Hnil as [Hj ->].
    assert (ps = []) as ->.
    { destruct ps as [|pk' ps']; [done|]. apply Forall_cons in Hg as [[Hlen _ _] _]. simpl in Hj.
      apply app_eq_nil in Hj as [-> _]. done. }
    eapply advance_done; [done|done|by left|]. intros s1 Eh Ws Rm K1.
    eapply parse_nothing; [simpl; rewrite Eh; apply HB1|done|].
    destruct (pa_nb _ _ _ _ _ _ HB1) as (nb & Hnb & Wnb & Knb).
    eexists _, nb. split; [done|]. split; [simpl; by rewrite Eh|]. split; [done|]. split; [done|].
    split; [apply K1; [intros Hq; by apply (pa_ne _ _ _ _ _ _ HB1)|apply HB1]|]. split; [done|].
    split; [done|]. split; [by split|]. split; [done|]. intros x Hx Hox.
    destruct R1 as [_ K]. destruct (K x Hx Hox) as [Hox1 Hhx]. split; [apply K1; [set_solver|done]|].
    simpl. by rewrite Eh.
  - wf_facts W1. eapply advance_compact; [done|lia|done|]. intros b2 W2 Cb2 P2 C2. rewrite C1 in C2.
    assert (HB2 : parsing (poke q b2 w1) c1 p0 q b2 cl) by (by eapply parsing_poke).
    assert (0 < zlen (contents b2)).
    { rewrite C2, <- C1, zlen_contents by done. lia. }
    eapply wp_mono; [eapply (IH (S fuel) _ c1 p0 q b2 cl rest); try done; simpl in Hf; lia|].
    intros [] w' HS. apply (settled_trans w (poke q b2 w1) p0 [pk] ps rest w'); [done| |done].
    eapply released_all_trans; [exact R1|apply (poke_released q b2 w1 [p0; q]); [apply HB1|apply HB1|set_solver]|].
    intros x. rewrite elem_of_app. tauto.
Qed.

(** A completed packet in [q], then the rest of the chunk. *)
Lemma parse_full ps fuel w c p0 q b cl nb pk rest :
  parsing w c p0 q b cl -> lastPacketLength c = _limit b -> _position b = 0 -> contents b = pk ->
  good_packet pk -> plain_packet pk -> heap (pool w) !! p0 = Some nb -> wf nb -> _capacity nb = READ_BUFFER_SIZE ->
  contents nb = mjoin ps ++ rest -> Forall good_packet ps -> Forall plain_packet ps -> incomplete rest ->
  (length ps + 1 < fuel)%nat ->
  wp (parse_packets fuel q (if hasRemaining nb then Some p0 else None))
    (fun _ => settled w p0 [p0; q] (pk :: ps) rest) w.
Proof.
  intros H Hl Hp Hcon Hpk Hpp Hnb Wnb Knb Hcn Hg Hpl Hi Hf. destruct fuel as [|[|fuel]]; [lia|lia|].
  pose proof (pa_wf _ _ _ _ _ _ H) as Hw. wf_facts Hw. pose proof (zlen_contents _ Hw) as Hzc.
  pose proof (gp_len _ Hpk). rewrite Hcon, Hp, Z.sub_0_r in Hzc.
  eapply (parse_step (S fuel) q _ w c b pk []); try done; try apply H; [by rewrite app_nil_r|].
  intros w1 c1 Hc1 Er El Hr1 Ha1 Hp1. set (b1 := set__position _ b) in *.
  assert (W1 : wf b1) by (apply wf_set_position; [done|lia]).
  assert (HB1 : parsing w1 c1 p0 q b1 cl) by (by eapply parsing_after).
  assert (Hq0 : q <> p0) by apply H.
  assert (Hnb1 : heap (pool w1) !! p0 = Some nb) by (rewrite Hp1, poke_ne by done; done).
  assert (R1 : released_all (pool w) [p0; q] (pool w1)).
  { rewrite Hp1. apply poke_released; [apply H|apply H|set_solver]. }
  rewrite wp_bind. eapply advance_done; [done|unfold b1; bsimpl; lia| |].
  { right. rewrite El. unfold b1. bsimpl. split; [lia|done]. }
  intros s1 Eh Ws Rm K1. set (w2 := set_connection _ _).
  assert (Ho2 : owned (pool w2) p0) by (apply K1; [done|apply HB1]).
  assert (Hnb2 : heap (pool w2) !! p0 = Some nb) by (simpl; by rewrite Eh).
  assert (R2 : released_all (pool w) [p0; q] (pool w2)).
  { split; [done|]. intros x Hx Hox. destruct R1 as [_ K]. destruct (K x Hx Hox) as [Hox1 Hhx].
    split; [apply K1; [set_solver|done]|]. simpl. by rewrite Eh. }
  pose proof (zlen_contents _ Wnb) as Hzn. unfold hasRemaining.
  destruct (Z.ltb_spec (_position nb) (_limit nb)).
  - eapply wp_mono; [eapply (parse_net ps (S fuel) w2 _ p0 nb rest); try done; lia|].
    intros [] w' (c' & nb' & ? & ? & ? & ? & ? & ? & Ha' & ? & HR').
    exists c', nb'. do 6 (split; [done|]). split; [rewrite Ha'; change (arrived w2) with (arrived w1); rewrite Ha1; by rewrite <- app_assoc|].
    split; [done|]. eapply released_all_trans; [exact R2|exact HR'|]. set_solver.
  - assert (contents nb = []) as Hnil by (apply nil_length_inv; unfold zlen in *; wf_facts Wnb; lia).
    rewrite Hcn in Hnil. apply app_eq_nil in Hnil as [Hj ->].
    assert (ps = []) as ->.
    { destruct ps as [|pk' ps']; [done|]. apply Forall_cons in Hg as [[Hlen _ _] _]. simpl in Hj.
      apply app_eq_nil in Hj as [-> _]. done. }
    eapply parse_nothing; [simpl; rewrite Eh; apply HB1|unfold b1; bsimpl; lia|].
    eexists _, nb. do 6 (split; [done|]). split; [done|]. split; [by split|done].
Qed.

(** ** One chunk *)

Lemma length_packets ps : Forall good_packet ps -> Z.of_nat (length ps) <= zlen (mjoin ps).
Proof.
  induction 1 as [|pk ps [H _ _] _ IH]; [done|]. simpl mjoin. rewrite zlen_app. simpl length. lia.
Qed.

(** The first packet of a stream whose beginning is known. *)
Lemma first_packet pend data ps rest :
  20 <= zlen pend -> pend ++ data = mjoin ps ++ rest -> Forall good_packet ps -> incomplete rest ->
  (zlen (pend ++ data) < packet_len pend /\ ps = [] /\ rest = pend ++ data) \/
  (exists pk ps', ps = pk :: ps' /\ zlen pk = packet_len pend /\ pend ++ data = pk ++ (mjoin ps' ++ rest)).
Proof.
  intros H20 Heq Hg Hi. destruct ps as [|pk ps'].
  - left. simpl in Heq. subst rest. destruct Hi as [Hi|[_ Hi]].
    + rewrite zlen_app in Hi. pose proof (zlen_nonneg data). lia.
    + rewrite packet_len_app in Hi by done. done.
  - right. exists pk, ps'. apply Forall_cons in Hg as [[Hl _ Hw] _]. simpl in Heq. rewrite <- app_assoc in Heq.
    split; [done|]. split; [|done]. rewrite <- Hw, <- (packet_len_app pend data), Heq by done.
    by rewrite packet_len_app.
Qed.

Lemma rewind_zero b : _position b = 0 -> rewind b = b.
Proof. destruct b; simpl. by intros ->. Qed.

(** The chunk as [onEvent] hands it over. *)
Record chunk (w : World) (c : TcpConnection) (p0 : addr) (nb : NBuf) (data : list Z) : Prop := {
  ch_conn : connection w = Some c;
  ch_pool : pool_wf (pool w);
  ch_net : owned (pool w) p0;
  ch_nb : heap (pool w) !! p0 = Some nb;
  ch_wf : wf nb;
  ch_cap : _capacity nb = READ_BUFFER_SIZE;
  ch_pos : _position nb = 0;
  ch_data : contents nb = data;
  ch_size : 0 < zlen data <= READ_BUFFER_SIZE;
  ch_ready : is_ready w
}.

Lemma parse_start p later w b Q n :
  heap (pool w) !! p = Some b ->
  (later = None /\ n = 0 \/
   exists q nb, later = Some q /\ q <> p /\ heap (pool w) !! q = Some nb /\ wf nb /\ n = remaining nb) ->
  wp (parse_packets (2 + Z.to_nat (remaining (rewind b)) + Z.to_nat n) p later) Q (poke p (rewind b) w) ->
  wp (parse p later) Q w.
Proof.
  intros Hb Hl HQ. unfold parse. rewrite wp_bind. eapply wp_update; [done|].
  rewrite wp_bind. eapply wp_deref; [apply poke_eq|]. rewrite wp_bind.
  destruct Hl as [[-> ->]|(q & nb & -> & Hne & Hnb & Wnb & ->)]; [done|].
  rewrite wp_bind. eapply wp_deref; [by rewrite poke_ne|]. done.
Qed.

Lemma onRecvData_fresh w c p0 nb data ps rest :
  chunk w c p0 nb data -> resetOfData c = None -> room (pool w) none_held ->
  data = mjoin ps ++ rest -> Forall good_packet ps -> Forall plain_packet ps -> incomplete rest ->
  wp (onRecvData p0) (fun _ => settled w p0 [p0] ps rest) w.
Proof.
  intros H Hn Hm Heq Hg Hpl Hi. unfold onRecvData. rewrite wp_bind. eapply wp_on_this; [apply H|].
  rewrite wp_bind. eapply wp_this; [done|]. cbn [resetOfData set_failedConnectionCount]. rewrite Hn.
  eapply (parse_start p0 None _ nb _ 0); [apply H|by left|]. rewrite rewind_zero by apply H.
  set (w1 := set_connection _ w).
  rewrite (poke_same p0 nb w1) by apply H.
  pose proof (zlen_contents _ (ch_wf _ _ _ _ _ H)) as Hz. rewrite (ch_data _ _ _ _ _ H) in Hz.
  eapply wp_mono; [eapply (parse_net ps _ w1 _ p0 nb rest); try done; try apply H|intros [] w' HS; exact HS].
  - rewrite <- Heq. apply H.
  - rewrite remaining_wf by apply H. rewrite <- Hz, Heq, zlen_app.
    pose proof (length_packets ps Hg). pose proof (zlen_nonneg rest). lia.
Qed.

(** The parse of [q] once it holds everything. *)
Lemma parse_joined w c p0 q b cl ps rest :
  parsing w c p0 q b cl -> lastPacketLength c = 0 -> slice (buffer b) 0 (_limit b) = mjoin ps ++ rest ->
  0 < _limit b -> Forall good_packet ps -> Forall plain_packet ps -> incomplete rest ->
  wp (parse q None) (fun _ => settled w p0 [p0; q] ps rest) w.
Proof.
  intros H Hl Hs Hz Hg Hpl Hi. pose proof (pa_wf _ _ _ _ _ _ H) as Hw. wf_facts Hw.
  eapply (parse_start q None w b _ 0); [apply H|by left|].
  assert (Wr : wf (rewind b)) by (by apply wf_rewind).
  assert (Cr : contents (rewind b) = mjoin ps ++ rest) by (by rewrite contents_rewind).
  pose proof (zlen_contents _ Wr) as Hzc. rewrite Cr in Hzc. simpl in Hzc.
  assert (HB : parsing (poke q (rewind b) w) c p0 q (rewind b) cl) by (eapply parsing_poke; [done|done|apply H]).
  eapply wp_mono; [eapply (parse_rest ps _ _ c p0 q (rewind b) cl rest); try done|].
  - rewrite Cr, Hzc. lia.
  - rewrite remaining_wf by done. simpl. rewrite zlen_app in Hzc.
    pose proof (length_packets ps Hg). pose proof (zlen_nonneg rest). lia.
  - intros [] w' HS. apply (settled_trans w (poke q (rewind b) w) p0 [] ps rest w' [p0; q]); [by rewrite app_nil_r| |done].
    apply poke_released; [apply H|apply H|set_solver].
Qed.

(** Kept bytes of an incomplete header: [q] with them at its front. *)
Record kept (w : World) (c : TcpConnection) (p0 q : addr) (b : NBuf) (cl : size_class) (pend : list Z) : Prop := {
  kp_reset : resetOfData c = Some q;
  kp_ne : q <> p0;
  kp_own : owned (pool w) q;
  kp_buf : heap (pool w) !! q = Some b;
  kp_wf : wf b;
  kp_cap : _capacity b = byteCount cl;
  kp_room : room (pool w) (one_held cl);
  kp_pend : 0 < zlen pend;
  kp_pos : _position b = zlen pend;
  kp_bytes : slice (buffer b) 0 (zlen pend) = pend
}.

(** Appending behind the kept bytes. *)
Lemma slice_appended (m : list Z) k bs pend :
  0 <= k -> k + zlen bs <= zlen m -> slice m 0 k = pend -> slice (splice m k bs) 0 (k + zlen bs) = pend ++ bs.
Proof.
  intros Hk Hl Hs. pose proof (zlen_nonneg bs). rewrite slice_app by lia. rewrite slice_splice_before by lia. rewrite Hs.
  f_equal. apply slice_splice_same; lia.
Qed.

Lemma onRecvData_head_fits w c p0 nb data q b cl pend ps rest :
  chunk w c p0 nb data -> kept w c p0 q b cl pend -> lastPacketLength c = 0 -> _limit b = zlen pend ->
  zlen data <= byteCount cl - zlen pend ->
  pend ++ data = mjoin ps ++ rest -> Forall good_packet ps -> Forall plain_packet ps -> incomplete rest ->
  wp (onRecvData p0) (fun _ => settled w p0 [p0; q] ps rest) w.
Proof.
  intros [Cc Cp Cn Cb Cw Ck C0 Cd Cs Cr] [Kr Kn Ko Kb Kw Kc Km Kp Kq Ky] Hl Hlim Hfit Heq Hg Hpl Hi.
  wf_facts Kw. wf_facts Cw. pose proof (zlen_contents _ Cw) as Hz. rewrite Cd, C0, Z.sub_0_r in Hz.
  unfold onRecvData. rewrite wp_bind. eapply wp_on_this; [done|].
  rewrite wp_bind. eapply wp_this; [done|]. cbn [resetOfData set_failedConnectionCount]. rewrite Kr.
  rewrite wp_bind. eapply wp_deref; [done|]. rewrite wp_bind. eapply wp_deref; [done|].
  rewrite wp_bind. eapply wp_this; [done|]. cbn [lastPacketLength set_failedConnectionCount]. rewrite Hl. cbn [Z.eqb].
  unfold limit, capacity, position. rewrite (u32_id (_capacity b - _position b)) by lia.
  destruct (Z.leb_spec (_limit nb) (_capacity b - _position b)); [|lia].
  rewrite (u32_id (_position b + _limit nb)) by lia.
  rewrite wp_bind. eapply wp_update; [done|]. rewrite limit_to_in by lia.
  set (b1 := set__limit _ b). assert (W1 : wf b1) by (apply wf_set_limit; [done|lia]).
  rewrite wp_bind. eapply (wp_writeBytes q p0 b1 nb);
    [done|apply poke_eq|by rewrite poke_ne|done|done|unfold b1; bsimpl; lia|].
  intros d' Wd (Sl & Sc & Sz) Pd Md. rewrite Cd in *.
  set (w1 := set_connection _ w). set (nb1 := set__position (_limit nb) nb).
  set (w2 := poke p0 nb1 (poke q d' (poke q b1 w1))).
  assert (P2 : parsing w2 (set_failedConnectionCount 0 c) p0 q d' cl).
  { assert (Wn : wf nb1) by (apply wf_set_position; [done|lia]).
    constructor; first [by do 3 apply poke_owned | by rewrite Sc | by do 3 apply poke_room
      | by do 3 (apply poke_wf; [|by repeat apply poke_owned])
      | by exists nb1; split; [apply poke_eq|] | by unfold w2; rewrite poke_ne by done; apply poke_eq | done]. }
  assert (Sd : slice (buffer d') 0 (_limit d') = mjoin ps ++ rest).
  { rewrite <- Heq, Md, Sl. unfold b1. bsimpl. rewrite Kq, <- Hz. apply slice_appended; lia || done. }
  assert (R2 : released_all (pool w) [p0; q] (pool w2)).
  { split; [apply P2|]. intros x Hx Hox. split; [by do 3 apply poke_owned|].
    unfold w2. rewrite !poke_ne by set_solver. done. }
  eapply wp_mono; [eapply (parse_joined w2 _ p0 q d' cl ps rest); try done|].
  - rewrite Sl. unfold b1. bsimpl. lia.
  - intros [] w' HS. by apply (settled_trans w w2 p0 [] ps rest w' [p0; q]); [rewrite app_nil_r| |].
Qed.

Lemma onRecvData_head_grows w c p0 nb data q b cl pend ps rest :
  chunk w c p0 nb data -> kept w c p0 q b cl pend -> lastPacketLength c = 0 -> _limit b = zlen pend ->
  zlen pend <= 200 -> byteCount cl - zlen pend < zlen data ->
  pend ++ data = mjoin ps ++ rest -> Forall good_packet ps -> Forall plain_packet ps -> incomplete rest ->
  wp (onRecvData p0) (fun _ => settled w p0 [p0; q] ps rest) w.
Proof.
  intros [Cc Cp Cn Cb Cw Ck C0 Cd Cs Cr] [Kr Kn Ko Kb Kw Kc Km Kp Kq Ky] Hl Hlim H200 Hfit Heq Hg Hpl Hi.
  unfold READ_BUFFER_SIZE in Cs.
  wf_facts Kw. wf_facts Cw. pose proof (zlen_contents _ Cw) as Hz. rewrite Cd, C0, Z.sub_0_r in Hz.
  unfold onRecvData. rewrite wp_bind. eapply wp_on_this; [done|].
  rewrite wp_bind. eapply wp_this; [done|]. cbn [resetOfData set_failedConnectionCount]. rewrite Kr.
  rewrite wp_bind. eapply wp_deref; [done|]. rewrite wp_bind. eapply wp_deref; [done|].
  rewrite wp_bind. eapply wp_this; [done|]. cbn [lastPacketLength set_failedConnectionCount]. rewrite Hl. cbn [Z.eqb].
  unfold limit, capacity, position. rewrite (u32_id (_capacity b - _position b)) by lia.
  destruct (Z.leb_spec (_limit nb) (_capacity b - _position b)); [lia|].
  rewrite (u32_id (_limit b + _limit nb)) by lia. set (w1 := set_connection _ w).
  destruct (class_of_some (_limit b + _limit nb)) as [cl' Hcl]; [lia|].
  rewrite wp_bind. eapply (wp_getBuffer _ cl' (one_held cl) w1); [done|lia|done|done|apply one_held_le|].
  intros n d s Hno Ws Hon Hd Wd P0 L0 C0' K Rm.
  destruct (K q Ko) as [Hoq Hhq]. destruct (K p0 Cn) as [Hop Hhp].
  assert (Nq : n <> q) by (by intros ->). assert (Np : n <> p0) by (by intros ->).
  rewrite wp_bind. eapply wp_update; [simpl; by rewrite Hhq|].
  set (w2 := poke q (rewind b) (set_pool s w1)).
  assert (Wr : wf (rewind b)) by (by apply wf_rewind).
  assert (Cq : contents (rewind b) = pend) by (by rewrite contents_rewind, Hlim).
  rewrite wp_bind. eapply (wp_writeBytes n q d (rewind b));
    [done|unfold w2; by rewrite poke_ne|apply poke_eq|done|done|simpl; lia|].
  intros d1 Wd1 (Sl1 & Sc1 & Sz1) Pd1 Md1. rewrite Cq in *. rewrite P0, Z.add_0_l in Pd1.
  set (q1 := set__position (_limit (rewind b)) (rewind b)). set (w3 := poke q q1 (poke n d1 w2)).
  rewrite wp_bind. eapply (wp_writeBytes n p0 d1 nb).
  { done. }
  { unfold w3. rewrite poke_ne by done. apply poke_eq. }
  { unfold w3, w2. rewrite !poke_ne by done. simpl. by rewrite Hhp. }
  { done. }
  { done. }
  { lia. }
  intros d2 Wd2 (Sl2 & Sc2 & Sz2) Pd2 Md2. rewrite Cd in *.
  set (nb1 := set__position (_limit nb) nb). set (w4 := poke p0 nb1 (poke n d2 w3)).
  assert (Wq1 : wf q1) by (apply wf_set_position; [done|simpl; lia]).
  assert (Q4 : heap (pool w4) !! q = Some q1) by (unfold w4, w3; rewrite !poke_ne by done; apply poke_eq).
  rewrite wp_bind, wp_on_pool.
  destruct (reuse_kept q q1 cl (fun x => one_held cl x + one_held cl' x) (pool w4)) as (s5 & E5 & Eh & R5 & (W5 & _ & K5)).
  { unfold w4, w3, w2. by do 5 (apply poke_wf; [|by repeat apply poke_owned]). }
  { by do 5 apply poke_owned. }
  { done. }
  { done. }
  { done. }
  { by do 5 apply poke_room. }
  { unfold one_held. rewrite (decide_True (P := cl = cl)) by done. case_decide; lia. }
  eapply wp_eq; [exact E5|]. rewrite wp_bind. eapply wp_on_this; [done|].
  set (c6 := set_resetOfData (Some n) _). set (w6 := set_connection _ _).
  assert (N4 : heap (pool w4) !! n = Some d2) by (unfold w4; rewrite poke_ne by done; apply poke_eq).
  assert (P6 : parsing w6 c6 p0 n d2 cl').
  { constructor; try done.
    - destruct (K5 p0) as [? _]; [done|by do 5 apply poke_owned|done].
    - exists nb1. split; [simpl; rewrite Eh; apply poke_eq|]. split; [apply wf_set_position; [done|lia]|done].
    - destruct (K5 n) as [? _]; [done|by do 5 apply poke_owned|done].
    - simpl. by rewrite Eh.
    - congruence.
    - eapply room_weaken; [exact R5|]. intros x. simpl. lia. }
  assert (Sd : slice (buffer d2) 0 (_limit d2) = mjoin ps ++ rest).
  { rewrite <- Heq, Md2, Sl2, Sl1, L0, Pd1, Hlim, <- Hz. wf_facts Wd1.
    apply slice_appended; [lia|lia|]. rewrite Md1, P0. wf_facts Wd. apply slice_splice_same; lia. }
  assert (R6 : released_all (pool w) [p0; q] (pool w6)).
  { split; [done|]. intros x Hx Hox. destruct (K x Hox) as [Hox1 Hhx]. assert (x <> n) by (by intros ->).
    destruct (K5 x) as [Hox5 _]; [set_solver|by do 5 apply poke_owned|]. split; [done|].
    simpl pool. rewrite Eh. unfold w4, w3, w2. rewrite !poke_ne by set_solver. simpl. by rewrite Hhx. }
  eapply wp_mono; [eapply (parse_joined w6 c6 p0 n d2 cl' ps rest); try done; lia|].
  intros [] w' (c' & nb' & ? & ? & ? & ? & ? & ? & Ha' & ? & [W' K']).
  exists c', nb'. do 6 (split; [done|]). split; [done|]. split; [done|]. split; [done|].
  intros x Hx Hox. destruct R6 as [_ K6]. destruct (K6 x Hx Hox) as [Ho6 Hh6].
  destruct (K' x) as [Ho7 Hh7]; [assert (x <> n) by (by intros ->); set_solver|done|]. split; [done|congruence].
Qed.

(** [buffer->limit(len)] on a chunk. *)
Lemma cut_chunk nb n : wf nb -> _position nb = 0 -> 0 <= n <= _limit nb ->
  limit_to n nb = set__limit n nb /\ wf (set__limit n nb) /\ contents (set__limit n nb) = take (Z.to_nat n) (contents nb).
Proof.
  intros H Hp Hn. wf_facts H. split; [apply limit_to_in; lia|]. split; [apply wf_set_limit; [done|lia]|].
  unfold contents, slice. bsimpl. rewrite Hp, !Z.sub_0_r, take_take. f_equal. lia.
Qed.

Lemma onRecvData_body w c p0 nb data q b cl pend ps rest :
  chunk w c p0 nb data -> kept w c p0 q b cl pend ->
  lastPacketLength c = packet_len pend -> _limit b = packet_len pend -> 20 <= zlen pend -> good_head pend ->
  zlen pend < packet_len pend ->
  pend ++ data = mjoin ps ++ rest -> Forall good_packet ps -> Forall plain_packet ps -> incomplete rest ->
  wp (onRecvData p0) (fun _ => settled w p0 [p0; q] ps rest) w.
Proof.
  intros [Cc Cp Cn Cb Cw Ck C0 Cd Cs Cr] [Kr Kn Ko Kb Kw Kc Km Kp Kq Ky] Hl Hlim H20 Hgh Hlt Heq Hg Hpl Hi.
  wf_facts Kw. wf_facts Cw. pose proof (zlen_contents _ Cw) as Hz. rewrite Cd, C0, Z.sub_0_r in Hz.
  unfold onRecvData. rewrite wp_bind. eapply wp_on_this; [done|].
  rewrite wp_bind. eapply wp_this; [done|]. cbn [resetOfData set_failedConnectionCount]. rewrite Kr.
  rewrite wp_bind. eapply wp_deref; [done|]. rewrite wp_bind. eapply wp_deref; [done|].
  rewrite wp_bind. eapply wp_this; [done|]. cbn [lastPacketLength set_failedConnectionCount]. rewrite Hl.
  destruct (Z.eqb_spec (packet_len pend) 0) as [|_]; [lia|]. cbv zeta.
  unfold limit, position. rewrite (u32_id (packet_len pend - _position b)) by lia.
  set (n := if _ <=? _ then _ else _). assert (Hn : 0 <= n <= _limit nb /\ n <= packet_len pend - zlen pend /\
    (n = packet_len pend - zlen pend \/ n = _limit nb)) by (unfold n; rewrite Kq; split_test; lia).
  destruct (cut_chunk nb n Cw C0) as (En & Wn & Cn'); [lia|]. rewrite Cd in Cn'.
  assert (Hzt : zlen (take (Z.to_nat n) data) = n) by (unfold zlen in *; rewrite length_take; lia).
  set (w1 := set_connection _ w). rewrite wp_bind. eapply wp_update; [done|]. rewrite En. set (nb1 := set__limit n nb) in *.
  rewrite wp_bind. eapply (wp_writeBytes q p0 b nb1); [done|by rewrite poke_ne|apply poke_eq|done|done|unfold nb1; bsimpl; lia|].
  intros d' Wd (Sl & Sc & Sz) Pd Md. rewrite Cn' in *. rewrite Hzt, Kq in Pd.
  rewrite wp_bind. eapply wp_update; [apply poke_eq|]. rewrite poke_poke. unfold limit. rewrite limit_to_in by (unfold nb1; bsimpl; lia).
  set (nb2 := set__limit _ _). set (w2 := poke p0 nb2 (poke q d' (poke p0 nb1 w1))).
  assert (Wnb2 : wf nb2). { apply wf_set_limit; [apply wf_set_position; [done|]|]; unfold nb1; bsimpl; lia. }
  assert (Cnb2 : contents nb2 = drop (Z.to_nat n) data).
  { rewrite <- Cd. unfold contents, nb2, nb1, slice. bsimpl. rewrite C0, skipn_firstn_comm, drop_drop. f_equal; first [lia | f_equal; lia]. }
  assert (P2 : parsing w2 (set_failedConnectionCount 0 c) p0 q d' cl).
  { constructor; first [by do 3 apply poke_owned | by rewrite Sc | by do 3 apply poke_room
      | by do 3 (apply poke_wf; [|by repeat apply poke_owned])
      | by exists nb2; split; [apply poke_eq|] | by unfold w2; rewrite poke_ne by done; apply poke_eq | done]. }
  assert (R2 : released_all (pool w) [p0; q] (pool w2)).
  { split; [apply P2|]. intros x Hx Hox. split; [by do 3 apply poke_owned|].
    unfold w2. rewrite !poke_ne by set_solver. done. }
  assert (Sd : slice (buffer d') 0 (zlen pend + n) = pend ++ take (Z.to_nat n) data).
  { rewrite Md, Kq. replace (zlen pend + n) with (zlen pend + zlen (take (Z.to_nat n) data)) by lia.
    apply slice_appended; [lia|rewrite Hzt; lia|done]. }
  rewrite wp_bind. eapply wp_deref; [unfold w2; rewrite poke_ne by done; apply poke_eq|].
  unfold position. rewrite Pd.
  destruct (first_packet pend data ps rest H20 Heq Hg Hi) as [(Hsh & -> & ->)|(pk & ps' & -> & Hpk & Heq')].
  - assert (n = zlen data) as Hnd by (rewrite zlen_app in Hsh; lia).
    rewrite zlen_app in Hsh. destruct (Z.eqb_spec (zlen pend + n) (packet_len pend)); [lia|]. rewrite wp_ret.
    apply (settled_trans w w2 p0 [] [] _ _ [p0; q]); [by rewrite app_nil_r|done|].
    assert (take (Z.to_nat n) data = data) as Htd by (apply take_ge; unfold zlen in *; lia).
    rewrite Htd in Sd. eapply (parsing_settled w2 _ p0 q d' cl (packet_len pend)); try done.
    + rewrite zlen_app. lia.
    + rewrite zlen_app. lia.
    + by rewrite zlen_app, <- Hnd.
    + right. rewrite packet_len_app by done. rewrite good_head_app by done. rewrite zlen_app.
      split; [done|]. split; [congruence|]. split; [lia|]. split; [done|lia].
  - assert (Hm : n = packet_len pend - zlen pend).
    { destruct Hn as (_ & Hn2 & [?|Hnl]); [done|]. apply (f_equal zlen) in Heq'. rewrite !zlen_app in Heq'.
      pose proof (zlen_nonneg (mjoin ps')). pose proof (zlen_nonneg rest). lia. }
    assert (pk = pend ++ take (Z.to_nat n) data /\ mjoin ps' ++ rest = drop (Z.to_nat n) data) as [-> Hrest].
    { rewrite <- (take_drop (Z.to_nat n) data) in Heq'. rewrite app_assoc in Heq'.
      apply app_inj_1 in Heq' as [? ?]; [done|]. pose proof (f_equal Z.to_nat Hpk).
      unfold zlen in *. rewrite length_app in *. lia. }
    apply Forall_cons in Hg as [Hgp Hg]. apply Forall_cons in Hpl as [Hpp Hpl].
    destruct (Z.eqb_spec (zlen pend + n) (packet_len pend)); [|lia].
    rewrite wp_bind. eapply wp_deref; [apply poke_eq|].
    eapply (parse_start q _ w2 d' _ (remaining nb2)); [unfold w2; rewrite poke_ne by done; apply poke_eq| |].
    { unfold hasRemaining. destruct (Z.ltb_spec (_position nb2) (_limit nb2)).
      - right. exists p0, nb2. split; [done|]. split; [done|]. split; [apply poke_eq|done].
      - left. split; [done|]. rewrite remaining_wf by done. wf_facts Wnb2. lia. }
    assert (Wr : wf (rewind d')) by (by apply wf_rewind).
    assert (P3 : parsing (poke q (rewind d') w2) (set_failedConnectionCount 0 c) p0 q (rewind d') cl)
      by (eapply parsing_poke; [done|done|by rewrite <- Kc, <- Sc]).
    eapply wp_mono; [eapply (parse_full ps' _ _ _ p0 q (rewind d') cl nb2 (pend ++ take (Z.to_nat n) data) rest); try done|].
    + simpl. congruence.
    + rewrite contents_rewind, Sl, Hlim. rewrite <- Sd. f_equal. lia.
    + rewrite poke_ne by done. apply poke_eq.
    + by rewrite Cnb2.
    + rewrite !remaining_wf by done. pose proof (length_packets ps' Hg).
      pose proof (zlen_contents _ Wnb2) as Hz2. rewrite Cnb2, <- Hrest, zlen_app in Hz2.
      pose proof (zlen_nonneg rest). simpl rewind. bsimpl. lia.
    + intros [] w' HS. apply (settled_trans w (poke q (rewind d') w2) p0 [] (_ :: ps') rest w' [p0; q]);
        [by rewrite app_nil_r| |done].
      eapply released_all_trans; [exact R2|apply (poke_released q _ w2 [p0; q]); [apply P2|apply P2|set_solver]|].
      intros x. rewrite elem_of_app. tauto.
Qed.

(** The state between two chunks, with the bytes [pend] kept. *)
Definition waiting (w : World) (p0 : addr) (pend : list Z) : Prop :=
  exists c nb, connection w = Some c /\ pool_wf (pool w) /\ heap (pool w) !! p0 = Some nb /\ wf nb /\
    _capacity nb = READ_BUFFER_SIZE /\ owned (pool w) p0 /\ is_ready w /\
    rest_ok (pool w) p0 (resetOfData c) (lastPacketLength c) pend.

(** Every chunk, with whatever was kept before it. *)
Lemma onRecvData_ok w c p0 nb data pend ps rest :
  chunk w c p0 nb data -> rest_ok (pool w) p0 (resetOfData c) (lastPacketLength c) pend ->
  pend ++ data = mjoin ps ++ rest -> Forall good_packet ps -> Forall plain_packet ps -> incomplete rest ->
  wp (onRecvData p0) (fun _ => settled w p0 (p0 :: option_list (resetOfData c)) ps rest) w.
Proof.
  intros H HR Heq Hg Hpl Hi. destruct (resetOfData c) as [q|] eqn:Er; unfold rest_ok in HR.
  2: { destruct HR as [-> Hm]. by eapply onRecvData_fresh. }
  destruct HR as (Hne & Ho & b & cl & Hb & Hw & Hc & Hm & Hz & Hp & Hs & Hcase).
  assert (K : kept w c p0 q b cl pend) by (by constructor). wf_facts Hw.
  destruct Hcase as [(Hl & Hlim & Hh)|(Hl & Hlim & H20 & Hgh & Hlt)].
  - assert (zlen pend <= 200).
    { destruct Hh as [?|[Hgh ?]]; [lia|]. destruct (good_head_facts _ Hgh). lia. }
    destruct (Z.le_gt_cases (zlen data) (byteCount cl - zlen pend)).
    + by eapply onRecvData_head_fits.
    + by eapply onRecvData_head_grows.
  - eapply onRecvData_body; try done; congruence.
Qed.

Lemma chunk_ready w p0 data pend ps rest :
  waiting w p0 pend -> Forall is_byte data -> 0 < zlen data <= READ_BUFFER_SIZE ->
  pend ++ data = mjoin ps ++ rest -> Forall good_packet ps -> Forall plain_packet ps -> incomplete rest ->
  wp (update p0 rewind;; recv_into p0 data;; accept_chunk p0 (zlen data))
    (fun _ w' => waiting w' p0 rest /\ arrived w' = arrived w ++ (entry <$> ps)) w.
Proof.
  intros (c & nb & Hc & Hp & Hb & Hw & Hk & Ho & Hr & HR) Hby Hz Heq Hg Hpl Hi. wf_facts Hw.
  unfold READ_BUFFER_SIZE in Hz. unfold READ_BUFFER_SIZE in Hk.
  rewrite wp_bind. eapply wp_update; [done|]. rewrite wp_bind. unfold recv_into.
  eapply wp_update_res; [apply poke_eq|rewrite write_at_Ok by (simpl; lia); reflexivity|]. rewrite poke_poke.
  unfold accept_chunk. rewrite wp_bind. eapply wp_update; [apply poke_eq|]. rewrite poke_poke.
  rewrite u32_id by lia. rewrite limit_to_in by (simpl; lia).
  set (nb1 := set__limit _ _). rewrite wp_bind. apply wp_clock. intros now.
  rewrite wp_bind. eapply wp_on_base; [done|]. set (c1 := set_base _ _). set (w1 := set_connection _ _).
  assert (W1 : wf nb1).
  { assert (wf (set_buffer (splice (buffer (rewind nb)) 0 data) (rewind nb))) as Ws.
    { apply wf_set_buffer; [by apply wf_rewind|simpl; rewrite zlen_splice by lia; done|].
      apply Forall_splice; [done|done]. }
    apply wf_set_limit; [done|simpl; lia]. }
  assert (C1 : contents nb1 = data).
  { unfold contents. simpl. rewrite Z.sub_0_r. apply slice_splice_same; lia. }
  assert (HR1 : rest_ok (pool w1) p0 (resetOfData c1) (lastPacketLength c1) pend).
  { cbn [c1 resetOfData lastPacketLength set_base]. destruct (resetOfData c) as [q|]; unfold rest_ok in HR |- *.
    - destruct HR as (Hne & Hoq & b & cl & Hbq & Hq). split; [done|]. split; [by apply poke_owned|].
      exists b, cl. split; [simpl; by rewrite lookup_insert_ne|]. destruct Hq as (? & ? & Rm & ?).
      split; [done|]. split; [done|]. split; [|done]. by apply (poke_room p0 nb1 w).
    - destruct HR as [-> Rm]. split; [done|]. by apply (poke_room p0 nb1 w). }
  assert (HC1 : chunk w1 c1 p0 nb1 data).
  { constructor; first [by apply poke_wf | by apply poke_owned | apply poke_eq | done]. }
  eapply wp_mono; [by eapply (onRecvData_ok w1 c1)|].
  intros [] w' (c' & nb' & ? & ? & ? & ? & ? & ? & Ha & HR' & HP). split; [|done].
  exists c', nb'. by destruct HP.
Qed.

(** An incomplete packet holds no whole one. *)
Lemma incomplete_no_packet ps rest : Forall good_packet ps -> incomplete (mjoin ps ++ rest) -> ps = [].
Proof.
  destruct ps as [|pk ps]; [done|]. intros [[H1 H2 H3] _]%Forall_cons Hinc. exfalso.
  simpl in Hinc. rewrite <- app_assoc in Hinc. pose proof (zlen_nonneg (mjoin ps ++ rest)).
  destruct Hinc as [Hx|[_ Hx]]; rewrite zlen_app in Hx; [lia|]. rewrite packet_len_app in Hx by done. lia.
Qed.

(** Any beginning of a stream of packets is packets and an incomplete one. *)
Lemma split_stream ps : forall x more rest,
  x ++ more = mjoin ps ++ rest -> Forall good_packet ps -> incomplete rest ->
  exists ps1 ps2 r, ps = ps1 ++ ps2 /\ x = mjoin ps1 ++ r /\ r ++ more = mjoin ps2 ++ rest /\ incomplete r.
Proof.
  assert (P : forall x y : list Z, 20 <= zlen x -> good_head (x ++ y) -> zlen x < packet_len (x ++ y) -> incomplete x).
  { intros x y H20 Hg Hlt. right. rewrite good_head_app, packet_len_app in * by done. done. }
  induction ps as [|pk ps IH]; intros x more rest Heq Hg Hi.
  - exists [], [], x. split; [done|]. split; [done|]. split; [done|]. simpl in Heq.
    destruct (Z.lt_ge_cases (zlen x) 20); [by left|]. rewrite <- Heq in Hi. pose proof (zlen_nonneg more).
    destruct Hi as [Hi|[Hh Hlt]]; rewrite zlen_app in *; [lia|]. eapply P; [done|done|lia].
  - apply Forall_cons in Hg as [Hpk Hg]. simpl in Heq. rewrite <- app_assoc in Heq.
    destruct (Z.lt_ge_cases (zlen x) (zlen pk)) as [Hlt|Hge].
    + exists [], (pk :: ps), x. split; [done|]. split; [done|]. split; [simpl; by rewrite <- app_assoc|].
      destruct (Z.lt_ge_cases (zlen x) 20); [by left|].
      assert (exists y, pk = x ++ y) as [y ->].
      { exists (take (length pk - length x) more). apply (f_equal (take (length pk))) in Heq.
        rewrite take_app_length in Heq.
        transitivity (take (length pk) (x ++ more)); [done|]. apply take_app_ge. unfold zlen in *. lia. }
      destruct Hpk as [H1 H2 H3]. eapply P; [done|done|by rewrite H3].
    + assert (x = pk ++ drop (length pk) x) as Hx.
      { apply (f_equal (take (length pk))) in Heq. rewrite take_app_length, take_app_le in Heq by (unfold zlen in *; lia).
        rewrite <- Heq at 1. by rewrite take_drop. }
      rewrite Hx, <- app_assoc in Heq. apply app_inv_head in Heq.
      destruct (IH _ _ _ Heq Hg Hi) as (ps1 & ps2 & r & -> & E1 & E2 & E3).
      exists (pk :: ps1), ps2, r. split; [done|]. split; [simpl; rewrite <- app_assoc, <- E1; done|done].
Qed.

Lemma chunks_delivered p0 chunks rest :
  Forall (fun data => Forall is_byte data /\ 0 < zlen data <= READ_BUFFER_SIZE) chunks -> incomplete rest ->
  forall w pend ps, waiting w p0 pend -> pend ++ mjoin chunks = mjoin ps ++ rest -> Forall good_packet ps -> Forall plain_packet ps ->
  wp (recv_chunks p0 chunks) (fun _ w' => waiting w' p0 rest /\ arrived w' = arrived w ++ (entry <$> ps)) w.
Proof.
  intros Hc Hi. induction Hc as [|data chunks [Hb Hz] _ IH]; intros w pend ps Hw Heq Hg Hpl.
  - simpl in Heq. rewrite app_nil_r in Heq. simpl. rewrite wp_ret.
    assert (ps = [] /\ pend = rest) as [-> ->].
    { destruct Hw as (c & nb & _ & _ & _ & _ & _ & _ & _ & HR).
      assert (Hinc : incomplete pend).
      { destruct (resetOfData c) as [q|]; unfold rest_ok in HR; [|by destruct HR as [-> _]; left].
        destruct HR as (_ & _ & b & cl & _ & _ & _ & _ & _ & _ & _ & [(_ & _ & [?|[Hgh Hlt]])|(-> & _ & _ & Hgh & Hlt)]);
          [by left| |by right].
        right. split; [done|]. destruct (good_head_facts _ Hgh). lia. }
      rewrite Heq in Hinc. pose proof (incomplete_no_packet ps rest Hg Hinc) as ->. done. }
    split; [done|]. by rewrite app_nil_r.
  - simpl in Heq. rewrite app_assoc in Heq.
    destruct (split_stream ps _ _ _ Heq Hg Hi) as (ps1 & ps2 & r & -> & E1 & E2 & Hr).
    apply Forall_app in Hg as [Hg1 Hg2]. apply Forall_app in Hpl as [Hp1 Hp2].
    cbn [recv_chunks].
    apply (wp_mono _ (fun _ w' => waiting w' p0 rest /\ arrived w' = arrived w ++ (entry <$> ps1 ++ ps2))); [|done].
    pose proof (chunk_ready w p0 data pend ps1 r Hw Hb Hz E1 Hg1 Hp1 Hr) as G.
    repeat (rewrite wp_bind in G |- *). eapply wp_mono; [exact G|]. intros [] w1 G1. 
    rewrite wp_bind in G1 |- *. eapply wp_mono; [exact G1|]. intros [] w2 G2.
    rewrite wp_bind. eapply wp_mono; [exact G2|]. intros [] w3 [Hw3 Ha3].
    eapply wp_mono; [by apply (IH w3 r ps2)|]. intros [] w4 [Hw4 Ha4]. split; [done|].
    by rewrite Ha4, Ha3, fmap_app, app_assoc.
Qed.

End Spec.
