(* ===== verification/Manager.v ===== *)
(** * Manager: the event loop

    Models [TcpSocket::onEvent], [EventsDispatcher::onEvent] and the rest of
    [ConnectionsManager.cpp]: the tasks, the timed events, [select] and the
    calls of the upper layer, and instantiates the framing with
    [onConnectionRecviedData]. *)

From S2P Require Import Prelude.
From S2P Require Import FormatTools.
From S2P Require Import NativeByteBuffer.
From S2P Require Import BufferStorage.
From S2P Require Import ByteStream.
From S2P Require Import NetworkMessage.
From S2P Require Import Datacenter.
From S2P Require Import Request.
From S2P Require Import World.
From S2P Require Import Connection.
From S2P Require Import Requests.
From S2P Require Import Framing.
From S2P Require Import FramingSpec.

(** Packets go to the manager. *)
#[export] Instance manager_receiver {E : Env} {J : Jni} : Receiver := {| deliver := onConnectionRecviedData |}.

Section Manager.
Context {E : Env} {J : Jni}.

(** [events & flag] *)
Definition has_event (events flag : Z) : bool := negb (Z.land events flag =? 0).

(** ** The socket's events *)

(** The read loop: it goes on while whole buffers are received; the result
    is whether [onEvent] returns.  [rounds] bounds the turns. *)
Fixpoint read_loop (rounds : nat) (recvBuffer : addr) : SR World bool :=
  match rounds with
  | O => fault_with OutOfFuel
  | S rounds' =>
      update recvBuffer rewind;;
      k ← this base;
      t ← next_tick;
      let '(readCount, data) := sys_recv t (socketFd k) READ_BUFFER_SIZE in
      if readCount <? 0 then closeSocket 0;; mret true
      else
        recv_into recvBuffer data;;
        when (0 <? readCount) (accept_chunk recvBuffer readCount);;
        if negb (readCount =? READ_BUFFER_SIZE) then mret false else read_loop rounds' recvBuffer
  end.

Definition on_readable (rounds : nat) : SR World bool :=
  failed ← checkScoketError;
  if (failed : bool) then closeSocket 1;; mret true
  else recvBuffer ← mgr networkBuffer; read_loop rounds recvBuffer.

(** The first writable event tells that the connection is up. *)
Definition note_connected : SR World unit :=
  k ← this base;
  when (negb (onConnectedSent k))
    (onConnected;;
     now ← getCurrentTimeMillis;
     on_base (set_lastEventTime now);;
     on_base (set_onConnectedSent true)).

Definition on_writable : SR World bool :=
  failed ← checkScoketError;
  if (failed : bool) then closeSocket 1;; mret true
  else
    note_connected;;
    p ← mgr networkBuffer;
    update p clear;;
    k ← this base;
    on_pool (get (outgoingByteStream k) (Some p));;
    update p flip;;
    b ← on_pool (deref p);
    if 0 <? remaining b then
      k ← this base;
      t ← next_tick;
      data ← lift_res (read_at (bytes b) 0 (remaining b));
      let length := sys_send t (socketFd k) data in
      emit (IoSend (socketFd k) data length);;
      if length <? 0 then closeSocket 1;; mret true
      else
        st ← on_pool (discard (u32 length) (outgoingByteStream k));
        on_base (set_outgoingByteStream st);;
        adjustWriteOp;;
        mret false
    else mret false.

Definition socket_onEvent (rounds : nat) (events : Z) : SR World unit :=
  stop ← (if has_event events EPOLLIN then on_readable rounds else mret false);
  if (stop : bool) then mret tt
  else
    stop ← (if has_event events EPOLLOUT then on_writable else mret false);
    if (stop : bool) then mret tt
    else when (has_event events EPOLLRDHUP || has_event events EPOLLHUP) (closeSocket 1).

(** ** Timed events *)

(** [eventsDispatcher->onEvent(0)] of a scheduled dispatcher: the only one
    is the reconnect timer. *)
Definition timer_onEvent (e : dispatcher) : SR World unit :=
  if decide (e = reconnectDispatcher) then reconnectTimer_callback else mret tt.

(** The element after [e]. *)
Fixpoint next_event (e : dispatcher) (l : list dispatcher) : option dispatcher :=
  match l with
  | [] => None
  | x :: l' => if decide (x = e) then head l' else next_event e l'
  end.

(** The loop of [callEvents]: [iter] is the event the iterator points to.
    The erased event runs; if it removes the next one, the iterator is
    invalid.  The result is the waiting time, if the loop decides it. *)
Fixpoint run_events (fuel : nat) (now : Z) (iter : option dispatcher) : SR World (option Z) :=
  match fuel with
  | O => fault_with OutOfFuel
  | S fuel' =>
      match iter with
      | None => mret None
      | Some e =>
          m ← gets manager;
          if negb (bool_decide (e ∈ events m)) then fault_with InvalidIterator
          else if time_of m e <=? now then
            on_manager (removeEvent e);;
            timer_onEvent e;;
            run_events fuel' now (next_event e (events m))
          else
            let diff := i32 (time_of m e - now) in
            mret (Some (if diff >? 1000 then 1000 else diff))
      end
  end.

Definition callEvents (now : Z) : SR World Z :=
  m ← gets manager;
  if managerUin m =? 0 then mret (-1)
  else
    r ← run_events (2 + length (events m)) now (head (events m));
    match r with
    | Some wait => mret wait
    | None =>
        m ← gets manager;
        if negb (networkPaused m) then mret 1000
        else
          elapsed ← c_abs (i32 (now - lastPackSendTime m));
          let timeToPing := i32 (pingInterval m - elapsed) in
          mret (if timeToPing <=? 0 then 1000 else timeToPing)
    end.

(** ** Tasks *)

Fixpoint complete_all (rs : list Request) (code : errorCode) : SR World unit :=
  match rs with
  | [] => mret tt
  | r :: rs' => onComplete r None code;; erase_request r;; complete_all rs' code
  end.

(** The task of [clearUp]; the second loop erases its iterator from the
    other list. *)
Definition task_clearUp : SR World unit :=
  on_manager (set_managerUin 0);;
  qs ← mgr requestsQueue;
  complete_all qs errorCodeWithoutLogin;;
  on_manager (set_requestsQueue []);;
  rs ← mgr runningRequests;
  match rs with
  | [] => mret tt
  | r :: _ => onComplete r None errorCodeWithoutLogin;; fault_with InvalidIterator
  end;;
  c ← getConnection false;
  via c closeConnect;;
  set_handshake HandshakeStateIdel.

(** [mDatacenter->getConnection(false)->setTimeout(t)] of a connection that
    is up. *)
Definition set_live_timeout (t : Z) : SR World unit :=
  c ← getConnection false;
  token ← via c getConnectionToken;
  when (negb (token =? 0)) (c ← getConnection false; via c (setTimeout t)).

Definition task_resumeNetwork (isPush : bool) : SR World unit :=
  if isPush then
    m ← gets manager;
    when (networkPaused m || negb (lastPauseTime m =? 0))
      (now ← getCurrentTimeMillis;
       on_manager (set_lastPauseTime now);;
       on_manager (set_networkPaused false))
  else
    on_manager (set_lastPauseTime 0);;
    on_manager (set_networkPaused false);;
    set_live_timeout 30.

Definition task_setNetworkAvailable (hasNetwork : bool) : SR World unit :=
  on_manager (set_networkAvailable hasNetwork);;
  (if negb hasNetwork then on_manager (set_connetionState ConnectionStateWaitingForNetwork)
   else
     d ← gets datacenter;
     uin ← mgr managerUin;
     when (isHandshakeing d && negb (uin =? 0)) (createConnection;; connect));;
  notify_state.

Definition run_task (t : task) : SR World unit :=
  match t with
  | TaskSetUin uid => on_manager (set_managerUin uid)
  | TaskApplySvrAddr address port singleSvr =>
      if singleSvr then setAddressAndPort address port
      else on_datacenter (addAddressAndPort random_shuffle address port)
  | TaskResumeNetwork isPush => task_resumeNetwork isPush
  | TaskSetNetworkAvailable hasNetwork => task_setNetworkAvailable hasNetwork
  | TaskSendRequest buffer cmdId flags timeout callback =>
      on_manager (fun m => set_requestsQueue (requestsQueue m ++ [Request_new buffer cmdId flags timeout callback]) m);;
      processRequestQueue
  | TaskClearUp => task_clearUp
  end.

(** What was pushed since the loop last held the mutex, by other threads or by
    callbacks of the task that ran, is in the queue when it takes it again. *)
Definition arrive (arrivals : list (list task)) : SR World unit :=
  on_manager (fun m => set_tasks (tasks m ++ default [] (head arrivals)) m).

(** [arrivals] lists the pushes before each taking of the mutex. *)
Fixpoint pop_tasks (arrivals : list (list task)) (fuel : nat) : SR World unit :=
  match fuel with
  | O => fault_with OutOfFuel
  | S fuel' =>
      arrive arrivals;;
      l ← mgr tasks;
      match l with
      | [] => mret tt
      | t :: l' => on_manager (set_tasks l');; run_task t;; pop_tasks (tail arrivals) fuel'
      end
  end.

(** Every turn but the last pops a task, so those queued and those that
    arrive bound the turns. *)
Definition checkPendingTasks (arrivals : list (list task)) : SR World unit :=
  l ← mgr tasks; pop_tasks arrivals (S (length l + length (mjoin arrivals))).

(** ** The calls of the upper layer *)

(** Under the mutex; the wake-up of the loop has no effect on the state. *)
Definition scheduleTask (t : task) : SR World unit :=
  on_manager (fun m => set_tasks (tasks m ++ [t]) m).

Definition init (uid : Z) : SR World unit := on_manager (set_managerUin uid).

Definition setUin (uid : Z) : SR World unit :=
  uin ← mgr managerUin;
  when (negb (uid =? 0) && negb (uid =? uin)) (scheduleTask (TaskSetUin uid)).

Definition applySvrAddr (address : string) (port : Z) (singleSvr : bool) : SR World unit :=
  scheduleTask (TaskApplySvrAddr address port singleSvr).

Definition resumeNetwork (isPush : bool) : SR World unit := scheduleTask (TaskResumeNetwork isPush).

Definition pauseNetwork : SR World unit :=
  last ← mgr lastPauseTime;
  if negb (last =? 0) then mret tt
  else now ← getCurrentTimeMillis; on_manager (set_lastPauseTime now).

Definition setNetworkAvailable (hasNetwork : bool) : SR World unit :=
  scheduleTask (TaskSetNetworkAvailable hasNetwork).

Definition senRequest (buffer : option addr) (cmdId flags timeout : Z) (callback : option Z) : SR World unit :=
  uin ← mgr managerUin;
  if uin =? 0 then
    give_back buffer;;
    match callback with
    | None => mret tt
    | Some cb => emit (IoComplete cb errorCodeWithoutLogin None)
    end
  else scheduleTask (TaskSendRequest buffer cmdId flags timeout callback).

Definition clearUp : SR World unit := scheduleTask TaskClearUp.

(** ** One turn of the loop *)

Fixpoint dispatch (rounds : nat) (evs : list (bool * Z)) : SR World unit :=
  match evs with
  | [] => mret tt
  | (isConnection, mask) :: evs' =>
      when isConnection (socket_onEvent rounds mask);;
      dispatch rounds evs'
  end.

(** [for i < actConnectionCount: activeConnections[i]->checkTimeout(now)] *)
Fixpoint check_timeouts (count : nat) (i : nat) (now : Z) : SR World unit :=
  match count with
  | O => mret tt
  | S count' =>
      l ← mgr activeConnections;
      match l !! i with
      | None => fault_with OutOfBounds
      | Some TheConnection => checkTimeout now
      end;;
      check_timeouts count' (S i) now
  end.

(** [lastPauseTime] is old enough: the background state begins. *)
Definition check_pause (now : Z) : SR World unit :=
  m ← gets manager;
  if lastPauseTime m =? 0 then mret tt
  else
    elapsed ← c_abs (i32 (now - lastPauseTime m));
    when ((nextSleepTimeout m <=? elapsed) && negb (networkPaused m))
      (on_manager (set_networkPaused true);; set_live_timeout 70).

Definition check_ping (now : Z) : SR World unit :=
  m ← gets manager;
  when (negb (lastPackSendTime m =? 0) && (pingInterval m <=? now - lastPackSendTime m))
    (t ← getCurrentTimeMillis;
     on_manager (set_lastPackSendTime t);;
     sendPing;;
     paused ← mgr networkPaused;
     when paused
       (on_manager (set_networkPaused false);;
        on_manager (set_lastPauseTime (now - 50 * 1000)))).

(** [before] and [after] are the pushes during the two runs of the tasks. *)
Definition select (before after : list (list task)) (rounds : nat) : SR World unit :=
  checkPendingTasks before;;
  t0 ← getCurrentTimeMillis;
  wait ← callEvents t0;
  t ← next_tick;
  let evs := sys_epoll_wait t wait in
  checkPendingTasks after;;
  now ← getCurrentTimeMillis;
  callEvents now;;
  dispatch rounds evs;;
  act ← mgr activeConnections;
  check_timeouts (length act) 0 now;;
  check_pause now;;
  on_manager (fun m => set_pingInterval (if networkPaused m then PUSH_PING_INTERVAL else NORMAL_PING_INTERVAL) m);;
  present ← mgr delegate;
  when present (emit IoUpdate);;
  d ← gets datacenter;
  uin ← mgr managerUin;
  if negb (isHandshakeing d) && negb (uin =? 0) then beginHandshake true
  else check_ping now;; processRequestQueue.

(** The body of the network thread: [done] is never set, so the loop goes
    on; these are its first turns, with the pushes during each of them. *)
Fixpoint attachThread (rounds : nat) (turns : list (list (list task) * list (list task))) : SR World unit :=
  match turns with
  | [] => mret tt
  | (before, after) :: turns' => select before after rounds;; attachThread rounds turns'
  end.
End Manager.

(** ** The manager as receiver of packets *)

(** The messages handed to the delegate, oldest first. *)
Definition messages (l : list io) : list (Z * list Z) :=
  rev (omap (fun e => match e with IoRecvMessages cmd data => Some (cmd, data) | _ => None end) l).

(** No request is waiting for an answer. *)
Definition no_requests (m : Manager) (d : Datacenter) : Prop := delegate m = true /\ runningRequests m = [].

(** Neither compressed nor one of the library's own packets. *)
Definition pushed (cmd sq : Z) (body : list Z) : Prop :=
  head body <> Some 7 /\ sq <> u32 (-1) /\ sq <> u32 (-2).

Lemma contents_head b : wf b -> hasRemaining b = true -> exists x, read_one (bytes b) (position b) = Ok x /\ head (contents b) = Some x.
Proof.
  intros H Hr. wf_facts H. unfold hasRemaining in Hr. apply Z.ltb_lt in Hr.
  destruct (lookup_lt_is_Some_2 (buffer b) (Z.to_nat (_position b))) as [x Hx]; [unfold zlen in *; lia|].
  exists x. split; [apply read_one_lookup; [unfold position; lia|done]|].
  unfold contents, slice. rewrite (drop_S _ x (Z.to_nat (_position b))) by done.
  replace (Z.to_nat (_limit b - _position b)) with (S (Z.to_nat (_limit b - _position b - 1))) by lia. done.
Qed.

Section ManagerReceiver.
Context {E : Env} {J : Jni}.

Lemma change_state_trace st Q w :
  (forall w', pool w' = pool w -> connection w' = connection w -> datacenter w' = datacenter w ->
     (exists s, manager w' = set_connetionState s (manager w)) -> messages (trace w') = messages (trace w) -> Q tt w') ->
  wp (change_state st) Q w.
Proof.
  intros H. unfold change_state, notify_state. wp_run.
  case_bool_decide as Hs; simpl; wp_run.
  - apply H; try done. exists (connetionState (manager w)). by destruct (manager w).
  - destruct (delegate (manager w)); simpl; apply H; try done; by eexists.
Qed.

Lemma push_delivered w cmd p sq b :
  no_requests (manager w) (datacenter w) -> heap (pool w) !! p = Some b -> wf b -> pushed cmd sq (contents b) ->
  wp (onConnectionRecviedData cmd p sq) (fun _ w' =>
    no_requests (manager w') (datacenter w') /\ pool w' = pool w /\ connection w' = connection w /\
    messages (trace w') = messages (trace w) ++ [(cmd, contents b)]) w.
Proof.
  intros [Hd Hr] Hb Hw (H7 & H1 & H2). unfold onConnectionRecviedData.
  rewrite wp_bind. apply change_state_trace. intros w1 Ep Ec Ed [st Em] Et.
  assert (Hb1 : heap (pool w1) !! p = Some b) by (by rewrite Ep).
  rewrite wp_bind. eapply wp_deref; [done|]. rewrite wp_bind.
  assert (Z : forall Q : bool -> World -> Prop, Q false w1 -> wp (if hasRemaining b
     then x ← lift_res (read_one (bytes b) (position b)); mret (x =? 7) else mret false) Q w1).
  { intros Q HQ. destruct (hasRemaining b) eqn:Eh; [|done].
    destruct (contents_head b Hw Eh) as (x & Hx & Hh). rewrite wp_bind, wp_lift, Hx, wp_ret.
    destruct (Z.eqb_spec x 7) as [->|]; [by rewrite Hh in H7|done]. }
  apply Z. clear Z. rewrite wp_bind, wp_ret. cbn [default]. rewrite wp_bind, wp_gets.
  destruct (Z.eqb_spec sq (u32 (-1))); [done|]. destruct (Z.eqb_spec sq (u32 (-2))); [done|]. cbn [andb].
  rewrite wp_bind, wp_bind, wp_mgr, Em. simpl runningRequests. rewrite Hr. simpl find_request.
  rewrite wp_bind, wp_ret, wp_bind, wp_mgr, Em. simpl delegate. rewrite Hd, wp_when.
  unfold contents_of. rewrite wp_bind, wp_bind. eapply wp_deref; [done|].
  rewrite wp_ret, wp_emit, wp_ret. cbn [manager datacenter pool connection trace set_trace]. rewrite Em.
  split; [done|]. split; [done|]. split; [done|]. by rewrite <- Et.
Qed.

#[export] Instance manager_receiver_laws : ReceiverLaws manager_receiver :=
  {| ready := no_requests; plain := pushed; inbox := messages; deliver_ok := push_delivered |}.
End ManagerReceiver.


(** The network buffer of the constructor: 128 kB of zeros. *)
Definition net_buf : NBuf := mkNBuf wide_block 0 0 131072 false true JavaNull.

Lemma wf_block m n : zlen m = n -> Forall is_byte m -> 0 <= n < 2 ^ 32 -> wf (mkNBuf m 0 0 n false true JavaNull).
Proof. intros Hz Hb Hn. constructor; simpl; rewrite ?Hz; try lia; done. Qed.

Lemma wf_net_buf : wf net_buf.
Proof.
  unfold net_buf. apply wf_block; [exact zlen_wide|exact bytes_wide|lia].
Qed.

(** A connected manager that waits for data. *)
Definition net_world : World := connected_world (bare_pool [net_buf]).

Lemma net_waiting : waiting net_world 1%positive [].
Proof.
  exists demo_connection, net_buf. split; [done|]. split; [apply pool_wf_bare|]. split; [reflexivity|].
  split; [apply wf_net_buf|]. split; [reflexivity|]. split; [apply owned_bare; by eexists|]. split; [by split|].
  split; [done|]. intros []; vm_compute; discriminate.
Qed.

(** The framing of the real manager on one packet cut in the middle of
    its header and of its body. *)
Example framing_example :
  let pk := header_bytes 23 300 7 5 ++ [1; 2; 3] in
  match recv_chunks 1%positive [take 9 pk; take 13 (drop 9 pk); drop 22 pk] net_world with
  | Ok (_, w) => messages (trace w) = [(300, [1; 2; 3])]
  | Fault _ => False
  end.
Proof. vm_compute. reflexivity. Qed.

Definition demo_packet : list Z := header_bytes 23 300 7 5 ++ [1; 2; 3].


(** ** What goes wrong *)

Section Faults.
Context {E : Env} {J : Jni}.

(** C40: before the first login the calls that reach for the connection
    dereference a null pointer: leaving the background, forcing a server,
    and logging out. *)
Theorem idle_null_dereference w address port :
  isHandshakeing (datacenter w) = false -> requestsQueue (manager w) = [] -> runningRequests (manager w) = [] ->
  (String.length (c_str address) < 64)%nat ->
  run_task (TaskResumeNetwork false) w = Fault NullDereference /\
  run_task (TaskApplySvrAddr address port true) w = Fault NullDereference /\
  run_task TaskClearUp w = Fault NullDereference.
Proof.
  intros Hh Hq Hr Ha. split; [|split].
  - cbn [run_task]. unfold task_resumeNetwork, set_live_timeout, getConnection, on_manager, modify, gets, mbind, SR_bind.
    simpl. by rewrite Hh.
  - cbn [run_task]. unfold setAddressAndPort, force_server, sprintf_nioIp, on_datacenter, getConnection, gets, mbind, SR_bind.
    rewrite (proj2 (Nat.ltb_lt _ _) Ha). simpl. unfold isHandshakeing in *. simpl. by rewrite Hh.
  - cbn [run_task]. unfold task_clearUp, getConnection, on_manager, modify, mgr, gets, mbind, SR_bind.
    simpl. rewrite Hq. simpl. rewrite Hr. simpl. by rewrite Hh.
Qed.

(** Logging out while a request waits for its answer erases the
    request's iterator from the other list. *)
Lemma logout_invalid_iterator w r rs :
  requestsQueue (manager w) = [] -> runningRequests (manager w) = r :: rs ->
  run_task TaskClearUp w = Fault InvalidIterator.
Proof.
  intros Hq Hr. cbn [run_task]. unfold task_clearUp, on_manager, modify, mgr, gets, mbind, SR_bind.
  simpl. rewrite Hq. simpl. rewrite Hr. simpl. unfold onComplete.
  by destruct (sendCompleteCallback r).
Qed.
End Faults.

Lemma idle_null_dereference_witness :
  let w := set_datacenter (Datacenter_new 2) (demo_world (bare_pool [])) in
  run_task (TaskResumeNetwork false) w = Fault NullDereference /\
  run_task (TaskApplySvrAddr "10.0.0.1" 443 true) w = Fault NullDereference /\
  run_task TaskClearUp w = Fault NullDereference.
Proof. apply idle_null_dereference; [done|done|done|vm_compute; lia]. Defined.
