(* ===== verification/Sending.v ===== *)
(** * Sending: from a message to the bytes on the wire

    The send path through [ConnectionsManager::sendMessageToConnection] (the
    batching of packets), [TcpConnection::sendData], [TcpSocket::writeBuffer]
    and the writable event of [TcpSocket::onEvent].  The operations are those of
    [NetworkMessage.v], [Connection.v], [Requests.v] and [Manager.v]. *)

From S2P Require Import Prelude.
From S2P Require Import FormatTools.
From S2P Require Import NativeByteBuffer.
From S2P Require Import BufferStorage.
From S2P Require Import ByteStream.
From S2P Require Import NetworkMessage.
From S2P Require Import Datacenter.
From S2P Require Import Request.
From S2P Require Import World.
From S2P Require Import Connection.
From S2P Require Import Requests.
From S2P Require Import Framing.
From S2P Require Import FramingSpec.
From S2P Require Import Manager.

(** ** What left the library *)

(** The bytes the kernel took, oldest first. *)
Fixpoint taken (l : list io) : list Z :=
  match l with
  | [] => []
  | IoSend _ data n :: l' => taken l' ++ take (Z.to_nat n) data
  | _ :: l' => taken l'
  end.

(** How often a socket was closed. *)
Fixpoint closes (l : list io) : nat :=
  match l with
  | [] => 0
  | IoClose _ :: l' => S (closes l')
  | _ :: l' => closes l'
  end.

(** What was handed over so far: on the wire or in the send queue. *)
Definition handed (w : World) : list Z := taken (trace w) ++ to_send w.

(** ** Operations only add to the trace *)

Definition grows {A} (m : SR World A) : Prop :=
  forall w a w', m w = Ok (a, w') -> (closes (trace w) <= closes (trace w'))%nat.

Lemma grows_frames {A} (m : SR World A) : frames trace m -> grows m.
Proof. intros H w a w' E. by rewrite (H w a w' E). Qed.

Lemma grows_bind {A B} (m : SR World A) (k : A -> SR World B) : grows m -> (forall a, grows (k a)) -> grows (m ≫= k).
Proof.
  intros Hm Hk w b w'. unfold mbind, SR_bind. destruct (m w) as [[a w1]|] eqn:E; [|done].
  intros Hb. etrans; [by eapply Hm|by eapply Hk].
Qed.

Lemma grows_emit e : grows (emit e).
Proof. intros w a w' [= _ <-]. simpl. destruct e; lia. Qed.

Lemma grows_when b m : grows m -> grows (when b m).
Proof. destruct b; [done|]. intros _. apply grows_frames, frames_ret. Qed.

Create HintDb grows.

Ltac grow_step :=
  match goal with
  | |- grows (_ ≫= _) => apply grows_bind; [|intros ?]
  | |- grows (when _ _) => apply grows_when
  | |- grows (emit _) => apply grows_emit
  | |- grows _ => solve [auto with grows]
  | |- grows _ => apply grows_frames; solve [frame_step]
  | |- grows (match ?x with _ => _ end) => destruct x
  end.
Ltac solve_grows := repeat grow_step.

Section Grows.
Context {E : Env} {J : Jni}.

Lemma grows_clock : grows getCurrentTimeMillis.
Proof. unfold getCurrentTimeMillis. solve_grows. Qed.
Lemma grows_stop : grows timer_stop.
Proof. unfold timer_stop. solve_grows. Qed.
Lemma grows_start : grows timer_start.
Proof. unfold timer_start. solve_grows. Qed.
#[local] Hint Resolve grows_clock grows_stop grows_start : grows.
Lemma grows_timeout ms : grows (timer_setTimeout ms).
Proof. unfold timer_setTimeout. solve_grows. Qed.
Lemma grows_change st : grows (change_state st).
Proof. unfold change_state, notify_state. solve_grows. Qed.
#[local] Hint Resolve grows_timeout grows_change : grows.
Lemma grows_closed : grows onConnectionClosed.
Proof. unfold onConnectionClosed, onHandshakeConnectionClosed. solve_grows. Qed.
Lemma grows_drop : grows drop_resetOfData.
Proof. unfold drop_resetOfData. solve_grows. Qed.
#[local] Hint Resolve grows_closed grows_drop : grows.
Lemma grows_disconnected r : grows (onDisconnected r).
Proof. unfold onDisconnected, prepare_reconnect. solve_grows. Qed.
#[local] Hint Resolve grows_disconnected : grows.
Lemma grows_closeSocket r : grows (closeSocket r).
Proof. unfold closeSocket, detachConnection. solve_grows. Qed.
#[local] Hint Resolve grows_closeSocket : grows.
Lemma grows_open a p : grows (openConnection a p).
Proof. unfold openConnection, attachConnection. solve_grows. Qed.
Lemma grows_setTimeout t : grows (setTimeout t).
Proof. unfold setTimeout. solve_grows. Qed.
#[local] Hint Resolve grows_open grows_setTimeout : grows.
Lemma grows_connect : grows connect.
Proof. unfold connect. solve_grows. Qed.
#[local] Hint Resolve grows_connect : grows.
Lemma grows_sendData p : grows (sendData p).
Proof. unfold sendData, isDisconnected, writeBuffer, adjustWriteOp. solve_grows. Qed.
Lemma grows_bodies p ms : grows (write_bodies p ms).
Proof.
  induction ms as [|m ms IH]; simpl; [solve_grows|]. destruct (outgoingBody m); [|solve_grows]. solve_grows; done.
Qed.
Lemma grows_batches c ms ps n : grows (send_batches c ms ps n).
Proof.
  revert ps n. induction ms as [|m ms IH]; intros ps n; simpl; [solve_grows|].
  destruct (_ || _); [|apply IH]. repeat (apply grows_bind; [|intros ?]).
  - solve_grows.
  - apply grows_bodies.
  - unfold via. destruct c; [apply grows_sendData|solve_grows].
  - apply IH.
Qed.

(** Closing an open socket is on the record. *)
Lemma closeSocket_closes r w c w' :
  connection w = Some c -> 0 <= socketFd (base c) -> closeSocket r w = Ok (tt, w') ->
  (closes (trace w) < closes (trace w'))%nat.
Proof.
  intros Hc Hfd H. unfold closeSocket, detachConnection in H.
  back H now w1 E1. assert (F1 : frames (fun w => (trace w, connection w)) getCurrentTimeMillis)
    by (unfold getCurrentTimeMillis; solve_frames).
  apply F1 in E1. injection E1 as T1 C1.
  back H u2 w2 E2. unfold on_base, on_this in E2. rewrite C1, Hc in E2. injection E2 as <- <-.
  back H u3 w3 E3. injection E3 as <- <-. back H k w4 E4. injection E4 as <- <-.
  back H u4 w5 E5. cbn [socketFd base set_base set_lastEventTime] in E5.
  rewrite (proj2 (Z.leb_le 0 _) Hfd) in E5. injection E5 as <- <-.
  apply Nat.lt_le_trans with (closes (IoClose (socketFd (base c)) :: trace w)); [simpl; lia|].
  rewrite <- T1. match type of H with _ ?w0 = _ => change (closes (trace w0) <= closes (trace w'))%nat end.
  match type of H with ?m _ = _ => assert (G : grows m) end; [|by eapply G].
  solve_grows.
Qed.
End Grows.

(** ** Messages ready to be sent *)

(** The packet of a message: its body from the start. *)
Definition packet (s : Storage) (m : NetworkMessage) : list Z :=
  match outgoingBody m with
  | Some p => match heap s !! p with Some b => contents (rewind b) | None => [] end
  | None => []
  end.

Definition message_ok (s : Storage) (m : NetworkMessage) : Prop :=
  exists p b, outgoingBody m = Some p /\ owned s p /\ heap s !! p = Some b /\ wf b /\
    packLength m = _limit b /\ _limit b <= 65535 /\ pool_capacity b /\ _capacity b <= pool_max.

(** The buffers of the messages. *)
Definition bodies (ms : list NetworkMessage) : list addr := omap outgoingBody ms.

(** Every message keeps its packet. *)
Definition keeps_messages (s s' : Storage) (except : list addr) : Prop :=
  forall m, message_ok s m -> (forall p, outgoingBody m = Some p -> p ∉ except) -> message_ok s' m /\ packet s' m = packet s m.

Lemma keeps_trans s1 s2 s3 ps : keeps_messages s1 s2 ps -> keeps_messages s2 s3 ps -> keeps_messages s1 s3 ps.
Proof.
  intros H1 H2 m Hm Hn. destruct (H1 m Hm Hn) as [Hm2 E2]. destruct (H2 m Hm2 Hn) as [Hm3 E3].
  split; [done|congruence].
Qed.

Lemma keeps_sub s s' ps qs : keeps_messages s s' ps -> ps ⊆ qs -> keeps_messages s s' qs.
Proof. intros H Hs m Hm Hn. apply H; [done|]. intros p Hp Hin. by apply (Hn p Hp), Hs. Qed.

Lemma keeps_released s s' ps : released_all s ps s' -> keeps_messages s s' ps.
Proof.
  intros [_ K] m (p & b & Hp & Ho & Hb & Hr) Hn. destruct (K p (Hn p Hp) Ho) as [Ho' Hh].
  split; [exists p, b; by rewrite Hh|]. unfold packet. by rewrite Hp, Hh.
Qed.

(** A change of the position of a buffer does not matter. *)
Lemma keeps_position w p b k :
  heap (pool w) !! p = Some b -> 0 <= k <= _limit b ->
  keeps_messages (pool w) (pool (poke p (set__position k b) w)) [].
Proof.
  intros Hb Hk m (q & b' & Hq & Ho & Hb' & Hw & Hl) _. destruct (decide (p = q)) as [<-|Hne].
  - rewrite Hb in Hb'. injection Hb' as <-. split.
    + exists p, (set__position k b). split; [done|]. split; [by apply poke_owned|]. split; [apply poke_eq|].
      split; [by apply wf_set_position|done].
    + unfold packet. by rewrite Hq, poke_eq, Hb.
  - split; [exists q, b'; rewrite poke_ne by done; eauto 10 using poke_owned|]. unfold packet. by rewrite Hq, poke_ne.
Qed.

Lemma keeps_poke w p b : keeps_messages (pool w) (pool (poke p b w)) [p].
Proof.
  intros m (q & b' & Hq & Ho & Hb' & Hr) Hn. assert (p <> q) by (intros ->; apply (Hn q Hq); left).
  split; [exists q, b'; rewrite poke_ne by done; eauto 10 using poke_owned|]. unfold packet. by rewrite Hq, poke_ne.
Qed.

Lemma released_poke w p b : pool_wf (pool w) -> owned (pool w) p -> released_all (pool w) [p] (pool (poke p b w)).
Proof.
  intros Hp Ho. split; [by apply poke_wf|]. intros q Hq Hoq. split; [by apply poke_owned|].
  apply poke_ne. intros ->. apply Hq. left.
Qed.

(** What [write_bodies] did to the send buffer [out]. *)
Record wrote (w : World) (out : addr) (ms : list NetworkMessage) (d d' : NBuf) (w' : World) : Prop := {
  wr_out : heap (pool w') !! out = Some d';
  wr_wf : wf d';
  wr_shape : same_shape d d';
  wr_pos : _position d' = _position d + zlen (mjoin (packet (pool w) <$> ms));
  wr_mem : buffer d' = splice (buffer d) (_position d) (mjoin (packet (pool w) <$> ms));
  wr_keeps : keeps_messages (pool w) (pool w') [out];
  wr_pool : released_all (pool w) (out :: bodies ms) (pool w');
  wr_owned : owned (pool w') out;
  wr_world : w' = set_pool (pool w') w
}.

Lemma packet_keeps s s' ps ms :
  keeps_messages s s' ps -> Forall (message_ok s) ms -> (forall p, p ∈ bodies ms -> p ∉ ps) ->
  Forall (message_ok s') ms /\ packet s' <$> ms = packet s <$> ms.
Proof.
  intros K. induction 1 as [|m ms Hm _ IH]; intros Hn; [done|].
  destruct Hm as (p & b & Hp & Hr). destruct (K m) as [Hm' E'].
  - exists p, b. done.
  - intros q Hq. apply Hn. unfold bodies. simpl. rewrite Hq. left.
  - destruct IH as [IH1 IH2].
    { intros q Hq. apply Hn. unfold bodies. simpl. rewrite Hp. by right. }
    split; [by constructor|]. csimpl. by rewrite E', IH2.
Qed.

Section Bodies.
Context {J : Jni}.

Lemma write_bodies_ok ms : forall w out d,
  pool_wf (pool w) -> owned (pool w) out -> heap (pool w) !! out = Some d -> wf d ->
  out ∉ bodies ms -> Forall (message_ok (pool w)) ms ->
  _position d + zlen (mjoin (packet (pool w) <$> ms)) <= _limit d ->
  wp (write_bodies out ms) (fun _ w' => exists d', wrote w out ms d d' w') w.
Proof.
  induction ms as [|m ms IH]; intros w out d Hp Ho Hd Hw Hn Hms Hz.
  - simpl. rewrite wp_ret. exists d. constructor; try done.
    + csimpl. change (zlen []) with 0. lia.
    + csimpl. by rewrite splice_nil.
    + by destruct w.
  - apply Forall_cons in Hms as [Hm Hms]. pose proof Hm as (p & b & Hpm & Hop & Hb & Hwb & Hl & _).
    cbn [write_bodies]. rewrite Hpm. unfold bodies in Hn. cbn [omap list_omap] in Hn. rewrite Hpm in Hn.
    apply not_elem_of_cons in Hn as [Hne Hn].
    assert (Ep : packet (pool w) m = contents (rewind b)) by (unfold packet; by rewrite Hpm, Hb).
    wf_facts Hwb. pose proof (zlen_contents (rewind b) (wf_rewind b Hwb)) as Hcl. csimpl in Hz. 
    rewrite Ep, zlen_app in Hz. cbn [rewind set__position _position _limit] in Hcl.
    rewrite wp_bind. eapply wp_update_res; [done|done|]. rewrite wp_bind.
    set (w1 := poke p (rewind b) w).
    apply (wp_writeBytes out p d (rewind b)); [done|by unfold w1; rewrite poke_ne|apply poke_eq|done|by apply wf_rewind| |].
    { simpl. pose proof (zlen_nonneg (mjoin (packet (pool w) <$> ms))). lia. }
    intros d' Wd' Sd' Pd' Md'. cbn [rewind set__position _limit _position] in *.
    set (w3 := poke p _ (poke out d' w1)).
    assert (Hd3 : heap (pool w3) !! out = Some d') by (unfold w3; rewrite poke_ne by done; apply poke_eq).
    assert (O1 : forall q, owned (pool w) q -> owned (pool w3) q) by (intros q Hq; by do 3 apply poke_owned).
    assert (P1 : pool_wf (pool w1)) by (by apply poke_wf).
    assert (P2 : pool_wf (pool (poke out d' w1))) by (apply poke_wf; [done|by apply poke_owned]).
    assert (P3 : pool_wf (pool w3)) by (apply poke_wf; [done|by do 2 apply poke_owned]).
    assert (K3 : keeps_messages (pool w) (pool w3) [out]).
    { eapply keeps_trans; [apply (keeps_sub _ _ []); [apply (keeps_position w p b 0 Hb); lia|set_solver]|].
      eapply keeps_trans; [apply keeps_poke|]. apply (keeps_sub _ _ []); [|set_solver].
      apply (keeps_position (poke out d' w1) p (rewind b)); [|simpl; lia].
      rewrite poke_ne by done. apply poke_eq. }
    destruct (packet_keeps _ _ _ ms K3 Hms) as [Hms3 E3].
    { intros q Hq ->%list_elem_of_singleton. done. }
    pose proof Sd' as (Sl & Sc & Sz).
    eapply wp_mono; [apply (IH w3 out d'); try done; [by apply O1|rewrite E3; lia]|].
    intros [] w' [d'' [R1 R2 R3 R4 R5 R6 R7 R8 R9]]. exists d''. rewrite E3 in R4, R5. constructor; try done.
    + destruct R3 as (? & ? & ?). repeat split; congruence.
    + csimpl. rewrite Ep, zlen_app. lia.
    + csimpl. rewrite Ep, R5, Md', Pd'. apply splice_splice; [wf_facts Hw; lia|]. wf_facts Hw. lia.
    + by eapply keeps_trans.
    + unfold bodies. cbn [omap list_omap]. rewrite Hpm.
      eapply released_all_trans; [apply (released_poke w p (rewind b)); done|
        eapply released_all_trans; [apply (released_poke w1 out d'); [done|by apply poke_owned]|
          eapply released_all_trans; [apply (released_poke (poke out d' w1) p); [done|by do 2 apply poke_owned]|exact R7|]|]|];
        intros q Hq; exact Hq || set_solver.
Qed.
End Bodies.

(** ** One step of the send path *)

Definition opened (w : World) (c : TcpConnection) : Prop := live w c /\ 0 <= socketFd (base c).

(** The socket was closed on the way, or [bs] was handed over. *)
Definition passed (w : World) (c : TcpConnection) (bs : list Z) (w' : World) : Prop :=
  (closes (trace w) < closes (trace w'))%nat \/
  (closes (trace w') = closes (trace w) /\ handed w' = handed w ++ bs /\
   exists c', opened w' c' /\ onConnectedSent (base c') = onConnectedSent (base c)).

Lemma wp_and {St A} (m : SR St A) (P Q : A -> St -> Prop) s : wp m P s -> wp m Q s -> wp m (fun a s' => P a s' /\ Q a s') s.
Proof. unfold wp. destruct (m s) as [[a s']|]; auto. Qed.

Lemma wp_grows {A} (m : SR World A) (P : A -> World -> Prop) w :
  grows m -> wp m P w -> wp m (fun a w' => P a w' /\ (closes (trace w) <= closes (trace w'))%nat) w.
Proof. intros G H. apply wp_run in H as (a & w' & E & HP). apply wp_run. eauto 6. Qed.

Lemma passed_trans w c xs w1 c1 ys w2 :
  passed w c xs w1 -> connection w1 = Some c1 ->
  (opened w1 c1 -> onConnectedSent (base c1) = onConnectedSent (base c) -> passed w1 c1 ys w2) -> (closes (trace w1) <= closes (trace w2))%nat -> passed w c (xs ++ ys) w2.
Proof.
  intros [Hl|(He & Hh & c' & [L F] & Ho)] Hc H G; [left; lia|].
  assert (c1 = c') as -> by (pose proof (ck_conn _ _ (proj1 L)); congruence).
  destruct (H (conj L F) Ho) as [?|(He2 & Hh2 & c2 & O2 & Ho2)]; [left; lia|].
  right. split; [congruence|]. split; [by rewrite Hh2, Hh, app_assoc|]. exists c2. split; [done|congruence].
Qed.

Lemma to_send_conn w c : connection w = Some c -> to_send w = stream_bytes (pool w) (outgoingByteStream (base c)).
Proof. intros H. unfold to_send. by rewrite H. Qed.

(** The result of [send(2)]. *)
Class SendLaws (E : Env) := { send_at_most : forall t fd data, sys_send t fd data <= zlen data }.

Section Steps.
Context {E : Env} {J : Jni}.

Lemma adjustWriteOp_passes w c : opened w c -> wp adjustWriteOp (fun _ w' => passed w c [] w') w.
Proof.
  intros [L Hfd]. pose proof L as [H S]. unfold adjustWriteOp. rewrite wp_bind. eapply wp_this; [apply H|].
  rewrite wp_bind, wp_on_pool. destruct (refs_split _ _ H) as (_ & Hq & _).
  eapply wp_eq; [by apply hasData_from_spec|]. rewrite wp_bind. eapply wp_on_base; [apply H|].
  rewrite wp_bind, wp_tick, wp_when. set (c1 := set_base _ _). set (w1 := set_tick _ _).
  assert (L1 : live w1 c1) by (split; [by destruct H; constructor|by destruct S; constructor]).
  destruct (negb (_ =? 0)).
  - destruct (closeSocket_ok 1 w1 c1) as (w2 & c2 & E2 & HS); [apply L1|by eapply live_active|].
    eapply wp_eq; [done|]. left. apply (closeSocket_closes 1 w1 c1 w2); [apply L1|done|done].
  - right. split; [done|]. split; [|by exists c1].
    rewrite app_nil_r. unfold handed. rewrite (to_send_conn w c), (to_send_conn w1 c1) by (apply H || apply L1).
    by destruct w as [[] ? ? ? ? ? ?].
Qed.

Lemma sendData_passes p b w c :
  opened w c -> heap (pool w) !! p = Some b -> pool_buf (pool w) p -> p ∉ refs c ->
  wp (sendData p) (fun _ w' => passed w c (contents (rewind b)) w') w.
Proof.
  intros [L Hfd] Hb Hpb Hn. pose proof L as [H S]. unfold sendData. rewrite wp_bind. eapply wp_this; [apply H|].
  assert (Hst : tcpConnectionStatus c = TcpConnectionStatusConnecting \/ tcpConnectionStatus c = TcpConnectionStatusConnected)
    by (by apply (sk_fd _ _ S)).
  assert (bool_decide (tcpConnectionStatus c = TcpConnectionStatusIdel) || bool_decide (tcpConnectionStatus c = TcpConnectionStatusReconnecting)
          || bool_decide (tcpConnectionStatus c = TcpConnectionStatusClosed) = false) as ->
    by (by destruct Hst as [-> | ->]).
  rewrite wp_bind. unfold isDisconnected. rewrite wp_bind. eapply wp_this; [apply H|]. rewrite wp_ret.
  destruct (Z.ltb_spec (socketFd (base c)) 0); [lia|].
  rewrite wp_bind, wp_on_pool. eapply wp_eq; [by eapply update_buf_Ok|].
  unfold writeBuffer. rewrite wp_bind. eapply wp_on_base; [apply H|].
  set (c1 := set_base _ _). set (w1 := set_connection _ _).
  assert (L1 : live w1 c1) by (by apply live_enqueued).
  eapply wp_mono; [apply (adjustWriteOp_passes w1 c1); by split|]. intros [] w'.
  intros [Hl|(He & Hh & c' & O' & Ho')]; [by left|]. right. split; [done|]. split; [|by exists c'].
  rewrite Hh, app_nil_r. unfold handed. rewrite (to_send_conn w c), (to_send_conn w1 c1) by (apply H || apply L1).
  rewrite <- app_assoc. f_equal. unfold stream_bytes. cbn [base c1 set_base outgoingByteStream set_outgoingByteStream append buffersQueue].
  rewrite fmap_app, join_app. destruct (refs_split _ _ H) as (_ & Hq & _).
  assert (Hpq : p ∉ buffersQueue (outgoingByteStream (base c))) by (intros Hin; apply Hn; apply elem_of_app; by right).
  destruct (stream_ok_insert_ne (pool w) p (rewind b) _ Hpq Hq) as [_ Su]. cbn [pool w1 set_connection set_pool].
  rewrite Su. f_equal. csimpl. by rewrite unread_insert, app_nil_r.
Qed.

(** A step that may read through the buffers [ps] besides those of the
    connection; messages outside keep their packets, those in [ks] perhaps
    not. *)
Record step_ok (ks ps : list addr) (w : World) (c : TcpConnection) (w' : World) (c' : TcpConnection) : Prop := {
  st_live : live w' c';
  st_owned : forall p, owned (pool w) p -> p ∉ refs c -> owned (pool w') p /\ p ∉ refs c';
  st_heap : forall p, owned (pool w) p -> p ∉ ps ++ refs c -> heap (pool w') !! p = heap (pool w) !! p;
  st_keeps : keeps_messages (pool w) (pool w') (ks ++ refs c);
  st_handshake : isHandshakeing (datacenter w') = isHandshakeing (datacenter w)
}.

Lemma step_trans ks ps qs w c w1 c1 w2 c2 :
  step_ok ks ps w c w1 c1 -> step_ok ks qs w1 c1 w2 c2 -> step_ok ks (ps ++ qs) w c w2 c2.
Proof.
  intros [L1 O1 P1 K1 H1] [L2 O2 P2 K2 H2]. constructor; [done| | | |congruence].
  - intros p Ho Hn. destruct (O1 p Ho Hn). by apply O2.
  - intros q Ho Hq. rewrite !not_elem_of_app in Hq. destruct Hq as [[Hq1 Hq2] Hq3].
    destruct (O1 q Ho Hq3). rewrite P2, P1 by (done || by rewrite not_elem_of_app). done.
  - intros m Hm Hn. destruct (K1 m Hm Hn) as [Hm1 E1]. destruct (K2 m Hm1) as [Hm2 E2].
    { intros p Hp. pose proof Hm as (p' & b & Hp' & Ho & _). rewrite Hp in Hp'. injection Hp' as <-.
      pose proof (Hn p Hp) as [Hx Hy]%not_elem_of_app. rewrite not_elem_of_app. split; [done|]. by apply O1. }
    split; [done|congruence].
Qed.

Lemma step_weaken ks ps w c w' c' : step_ok [] ps w c w' c' -> step_ok ks ps w c w' c'.
Proof. intros [L O P K H]. constructor; try done. eapply keeps_sub; [exact K|]. set_solver. Qed.

(** The bytes of the packets. *)
Definition wire (s : Storage) (ms : list NetworkMessage) : list Z := mjoin (packet s <$> ms).

Lemma wire_app s ms ns : wire s (ms ++ ns) = wire s ms ++ wire s ns.
Proof. unfold wire. by rewrite fmap_app, join_app. Qed.

Lemma message_length s m : message_ok s m -> packLength m = zlen (packet s m) /\ 0 <= packLength m <= 65535.
Proof.
  intros (p & b & Hp & Ho & Hb & Hw & Hl & Hz). wf_facts Hw. unfold packet. rewrite Hp, Hb.
  rewrite (zlen_contents (rewind b)) by (by apply wf_rewind). simpl. lia.
Qed.

Context {L : JniLaws J}.

(** A fresh buffer [p] that holds the packets. *)
Record gathered (w : World) (c : TcpConnection) (ms : list NetworkMessage) (p : addr) (d : NBuf) (w2 : World) : Prop := {
  ga_live : live w2 c;
  ga_buf : heap (pool w2) !! p = Some d;
  ga_pool : pool_buf (pool w2) p;
  ga_refs : p ∉ refs c;
  ga_bytes : contents (rewind d) = wire (pool w) ms;
  ga_same : trace w2 = trace w /\ handed w2 = handed w /\ datacenter w2 = datacenter w;
  ga_owned : forall q, owned (pool w) q -> owned (pool w2) q /\ q <> p;
  ga_heap : forall q, owned (pool w) q -> q ∉ bodies ms -> heap (pool w2) !! q = heap (pool w) !! q;
  ga_keeps : keeps_messages (pool w) (pool w2) []
}.

Lemma keeps_fresh s p s' : fresh_from s p s' -> keeps_messages s s' [].
Proof.
  intros (_ & _ & _ & K) m (q & b & Hq & Ho & Hb & Hr) _. destruct (K q Ho) as [Ho' Hh].
  split; [exists q, b; by rewrite Hh|]. unfold packet. by rewrite Hq, Hh.
Qed.

Lemma bodies_owned s ms p : Forall (message_ok s) ms -> p ∈ bodies ms -> owned s p /\ exists m, m ∈ ms /\ outgoingBody m = Some p.
Proof.
  intros Hms (m & Hm & Hp)%list_elem_of_omap. rewrite Forall_forall in Hms.
  destruct (Hms m Hm) as (q & b & Hq & Ho & _). split; [congruence|eauto].
Qed.

(** The bytes of the send queue do not depend on other buffers. *)
Lemma to_send_keep w w' c :
  connection w = Some c -> connection w' = Some c ->
  (forall q, q ∈ refs c -> heap (pool w') !! q = heap (pool w) !! q) -> to_send w' = to_send w.
Proof.
  intros Hc Hc' K. rewrite (to_send_conn w c Hc), (to_send_conn w' c Hc'). unfold stream_bytes. f_equal.
  apply list_fmap_ext. intros i q Hq%list_elem_of_lookup_2. unfold unread. rewrite K; [done|]. apply elem_of_app. by right.
Qed.

Lemma live_keep w w' c :
  live w c -> pool_wf (pool w') -> w' = set_pool (pool w') w ->
  (forall q, q ∈ refs c -> owned (pool w') q /\ heap (pool w') !! q = heap (pool w) !! q) -> live w' c.
Proof.
  intros [[Hc Hp Hd [N B] Ht] S] Hp' -> K. split; [|by destruct S; constructor]. constructor; try done.
  split; [done|]. intros q Hq. destruct (B q Hq) as [_ (b & Hb & Hx)]. destruct (K q Hq) as [Ho Hh].
  split; [done|]. exists b. by rewrite Hh.
Qed.

Lemma gather_ok ms w c size (Q : addr -> World -> Prop) :
  live w c -> Forall (message_ok (pool w)) ms -> (forall p, p ∈ bodies ms -> p ∉ refs c) ->
  size = zlen (wire (pool w) ms) -> size <= 128 * 1024 + 200 ->
  (forall p d w2, gathered w c ms p d w2 -> Q p w2) ->
  wp (on_pool (getBuffer size)) (fun p w1 => wp (write_bodies p ms) (fun _ w2 => Q p w2) w1) w.
Proof.
  intros HL Hms Hn Hsz Hmax HQ. pose proof HL as [[Hc Hp Hd [N B] Ht] S]. pose proof (zlen_nonneg (wire (pool w) ms)).
  rewrite wp_on_pool.
  destruct (getBuffer_small size (pool w) Hp) as (p & b & s & E1 & F & Hb & Hw & Hp0 & Hl & Hcap); [unfold pool_max; lia|].
  pose proof F as (W1 & Hno & Ho & K). eapply wp_eq; [done|]. set (w1 := set_pool s w).
  pose proof (keeps_fresh _ _ _ F) as KM. change s with (pool w1) in KM.
  destruct (packet_keeps _ _ _ ms KM Hms) as [Hms1 Ew]; [set_solver|].
  assert (Hpb : p ∉ bodies ms) by (by intros [? _]%(bodies_owned _ _ _ Hms)).
  eapply wp_mono; [apply (write_bodies_ok ms w1 p b); try done; rewrite Ew; fold (wire (pool w) ms); lia|].
  intros [] w2 [d [R1 R2 (Sl & Sc & Sz) R4 R5 R6 [R7w R7] R8 R9]]. apply (HQ p d w2).
  rewrite Ew, Hp0 in R5. fold (wire (pool w) ms) in R5.
  assert (Hpr : p ∉ refs c) by (intros Hin; apply Hno, (B p Hin)).
  assert (Kr : forall q, q ∈ refs c -> owned (pool w2) q /\ heap (pool w2) !! q = heap (pool w) !! q).
  { intros q Hq. destruct (K q) as [Ho1 <-]; [by apply B|]. apply R7; [|done].
    intros [-> |Hin]%elem_of_cons; [done|by apply (Hn q)]. }
  assert (E2 : w2 = set_pool (pool w2) w) by (rewrite R9 at 1; done).
  assert (Ko : forall q, owned (pool w) q -> owned (pool w2) q /\ q <> p).
  { intros q Hq. split; [|by intros ->]. destruct (decide (q ∈ bodies ms)) as [Hin|Hnin].
    - apply (bodies_owned _ _ _ Hms1) in Hin as [_ (m & Hm & Hqm)]. rewrite Forall_forall in Hms1.
      destruct (R6 m (Hms1 m Hm)) as [(q' & bq & Hq' & Hoq & _) _]; [|congruence].
      intros q' Hq' ->%list_elem_of_singleton. congruence.
    - apply R7; [|by apply K]. rewrite not_elem_of_cons. split; [by intros ->|done]. }
  constructor; try done.
  - by apply (live_keep w).
  - split; [done|]. exists d. split; [done|]. split; [done|]. unfold pool_capacity. rewrite Sc.
    split; [by eapply capacity_for_pool|]. rewrite Hcap. apply capacity_for_small. lia.
  - wf_facts Hw. rewrite contents_rewind, Sl, Hl, R5, Hsz. apply slice_splice_same; lia.
  - rewrite E2. split; [done|]. split; [|done]. unfold handed. f_equal. apply (to_send_keep _ _ c); [done|done|].
    intros q Hq. by apply Kr.
  - intros q Hq Hnq. destruct (K q Hq) as [Hq1 <-]. apply R7; [|done]. rewrite not_elem_of_cons. split; [by intros ->|done].
  - intros m Hm _. destruct (KM m Hm) as [Hm1 E3]; [set_solver|]. pose proof Hm as (q & bq & Hq & Hoq & _).
    destruct (R6 m Hm1) as [Hm2 E4]; [|split; [done|congruence]].
    intros q' Hq' ->%list_elem_of_singleton. by destruct (Ko q Hoq) as [_ ?]; congruence.
Qed.

(** One batch: a fresh buffer takes the packets and is handed over. *)
Lemma batch_ok ms w c size :
  live w c -> Forall (message_ok (pool w)) ms -> (forall p, p ∈ bodies ms -> p ∉ refs c) ->
  size = zlen (wire (pool w) ms) -> size <= 128 * 1024 + 200 ->
  wp (sendBuffer ← on_pool (getBuffer size); write_bodies sendBuffer ms;; via true (sendData sendBuffer))
    (fun _ w' => (exists c', step_ok [] (bodies ms) w c w' c') /\ (opened w c -> passed w c (wire (pool w) ms) w')) w.
Proof.
  intros HL Hms Hn Hsz Hmax. rewrite wp_bind. eapply wp_mono; [|intros p w1 G; rewrite wp_bind; exact G].
  apply (gather_ok ms w c size); try done. intros p d w2 [L2 R1 Hpool Hpr Cd (Et & Eh & Ed) Ko Kh KM]. cbn [via].
  eapply wp_mono; [apply wp_and; [by apply (sendData_ok p w2 c)|]|].
  { instantiate (1 := fun _ w' => opened w c -> passed w c (wire (pool w) ms) w').
    destruct (decide (0 <= socketFd (base c))).
    - eapply wp_mono; [by apply (sendData_passes p d w2 c)|]. intros [] w' HP _. unfold passed in *. by rewrite <- Et, <- Eh, <- Cd.
    - eapply wp_mono; [by apply (sendData_ok p w2 c)|]. intros [] w' _ [_ ?]. done. }
  intros [] w' [[c' [ML MR [MW MP] MH MA]] HP]. split; [|done]. exists c'. constructor; [done| | | |].
  - intros q Hq Hnq. destruct (Ko q Hq) as [Hq2 Hqp].
    assert (q ∉ [p] ++ refs c) by (rewrite not_elem_of_app, list_elem_of_singleton; done).
    split; [by apply MP|]. intros Hin. by apply MR in Hin.
  - intros q Hq [Hq1 Hq2]%not_elem_of_app. destruct (Ko q Hq) as [Hqo Hqp].
    destruct (MP q) as [_ ->]; [rewrite not_elem_of_app, list_elem_of_singleton; done|done|by apply Kh].
  - intros m Hm Hnm. destruct (KM m Hm) as [Hm2 E4]; [set_solver|].
    pose proof Hm as (q & bq & Hq & Hoq & _). destruct (Ko q Hoq) as [Hqo Hqp].
    destruct (keeps_released _ _ _ (conj MW MP) m Hm2) as [Hm3 E5]; [|split; [done|congruence]].
    intros q' Hq'. rewrite not_elem_of_app, list_elem_of_singleton. split; [congruence|by apply Hnm].
  - by rewrite MH, Ed.
Qed.

(** A step and what it passed on. *)
Definition sent (ks ps : list addr) (w : World) (c : TcpConnection) (bs : list Z) (w' : World) : Prop :=
  (exists c', step_ok ks ps w c w' c') /\ (opened w c -> passed w c bs w') /\ (closes (trace w) <= closes (trace w'))%nat.

Lemma sent_trans ks ps qs w c xs w1 ys w2 :
  sent ks ps w c xs w1 -> (forall c1, step_ok ks ps w c w1 c1 -> sent ks qs w1 c1 ys w2) -> sent ks (ps ++ qs) w c (xs ++ ys) w2.
Proof.
  intros ([c1 S1] & P1 & G1) H. destruct (H c1 S1) as ([c2 S2] & P2 & G2). split; [|split; [|lia]].
  - exists c2. by eapply step_trans.
  - intros O. eapply passed_trans; [by apply P1|apply (st_live _ _ _ _ _ _ S1)|auto|done].
Qed.

Lemma send_batches_ok ms : forall w c acc size,
  live w c -> Forall (message_ok (pool w)) (acc ++ ms) -> (forall p, p ∈ bodies (acc ++ ms) -> p ∉ refs c) ->
  size = zlen (wire (pool w) acc) -> size < MAX_SINGLE_PACK_SIZE -> (ms = [] -> acc = []) ->
  wp (send_batches true ms acc size) (fun _ w' => sent [] (bodies (acc ++ ms)) w c (wire (pool w) (acc ++ ms)) w') w.
Proof.
  induction ms as [|m ms IH]; intros w c acc size HL Hms Hn Hsz Hmax Hemp; change MAX_SINGLE_PACK_SIZE with 3072 in Hmax.
  - rewrite Hemp by done. cbn [send_batches]. rewrite wp_ret. split; [|split; [|done]].
    + by exists c.
    + intros O. right. split; [done|]. split; [by rewrite app_nil_r|]. by exists c.
  - assert (Hm : message_ok (pool w) m) by (rewrite Forall_app, Forall_cons in Hms; tauto).
    destruct (message_length _ _ Hm) as [Hlen Hlen2]. cbn [send_batches].
    assert (Hu : u32 (size + packLength m) = size + packLength m).
    { apply u32_id. pose proof (zlen_nonneg (wire (pool w) acc)). lia. }
    assert (Hsz' : u32 (size + packLength m) = zlen (wire (pool w) (acc ++ [m]))).
    { rewrite wire_app, zlen_app. unfold wire at 2. csimpl. rewrite app_nil_r, <- Hsz, <- Hlen.
      exact Hu. }
    assert (Eacc : acc ++ m :: ms = (acc ++ [m]) ++ ms) by (by rewrite <- app_assoc).
    rewrite Eacc in Hms, Hn |- *.
    change MAX_SINGLE_PACK_SIZE with 3072. destruct ((3072 <=? u32 (size + packLength m)) || bool_decide (ms = [])) eqn:Eb.
    + apply Forall_app in Hms as [Hms1 Hms2].
      assert (Eb2 : bodies ((acc ++ [m]) ++ ms) = bodies (acc ++ [m]) ++ bodies ms) by apply omap_app.
      rewrite Eb2 in Hn |- *. rewrite wire_app.
      assert (B : wp _ _ w) by (apply (batch_ok (acc ++ [m]) w c (u32 (size + packLength m)) HL Hms1);
        [set_solver|done|lia]).
      apply wp_grows in B; [|apply grows_bind; [solve_grows|intros ?]; apply grows_bind; [apply grows_bodies|intros ?; apply grows_sendData]].
      rewrite wp_bind in B |- *. eapply wp_mono; [exact B|]. intros p w1 B1.
      cbv beta in B1. rewrite wp_bind in B1 |- *. eapply wp_mono; [exact B1|]. intros [] w2 B2.
      rewrite wp_bind. eapply wp_mono; [exact B2|]. intros [] w3 [[[c3 S3] P3] G3].
      destruct (packet_keeps _ _ _ ms (st_keeps _ _ _ _ _ _ S3) Hms2) as [Hms3 Ew]; [set_solver|].
      eapply wp_mono; [apply (IH w3 c3 [] 0); try done; [apply S3|]|].
      { intros q Hq. apply (st_owned _ _ _ _ _ _ S3); [|set_solver].
        unfold bodies in Hq. apply list_elem_of_omap in Hq as (m' & Hm' & Hq). rewrite Forall_forall in Hms2.
        destruct (Hms2 m' Hm') as (q' & b & Hq' & Ho & _). congruence. }
      intros [] w4 HS. eapply (sent_trans _ _ _ _ _ _ w3); [by split; [exists c3|]|].
      intros c1 S1. assert (c1 = c3) as ->.
      { pose proof (ck_conn _ _ (proj1 (st_live _ _ _ _ _ _ S1))). pose proof (ck_conn _ _ (proj1 (st_live _ _ _ _ _ _ S3))). congruence. }
      unfold wire in HS |- *. rewrite app_nil_l, Ew in HS. exact HS.
    + apply IH; try done; [|].
      * apply orb_false_iff in Eb as [Eb _]. change MAX_SINGLE_PACK_SIZE with 3072. lia.
      * intros ->. by rewrite orb_true_r in Eb.
Qed.

Lemma moved_step w c w' c' : moved_with [] w c w' c' -> step_ok [] [] w c w' c'.
Proof.
  intros [ML MR MP MH MA]. constructor; try done.
  - intros p Ho Hn. split; [by apply MP|]. intros Hin. by apply Hn, MR.
  - intros p Ho Hn. by apply MP.
  - by apply keeps_released.
Qed.

Lemma passed_same w c w' :
  trace w' = trace w -> pool w' = pool w -> connection w' = connection w -> opened w' c -> passed w c [] w'.
Proof.
  intros Et Ep Ec O. right. rewrite Et, app_nil_r. split; [done|]. split; [|by exists c].
  unfold handed, to_send. by rewrite Et, Ep, Ec.
Qed.

Lemma taken_closed w : wp onConnectionClosed (fun _ w' => taken (trace w') = taken (trace w) /\ closes (trace w') = closes (trace w)) w.
Proof.
  destruct (onConnectionClosed_ok w) as (w' & E1 & _). apply wp_run. exists tt, w'. split; [done|].
  assert (F : frames (fun w => (taken (trace w), closes (trace w))) onConnectionClosed).
  { unfold onConnectionClosed, onHandshakeConnectionClosed, change_state, notify_state. solve_frames. }
  apply F in E1. by injection E1 as -> ->.
Qed.

(** [connect] leaves an open connection alone. *)
Lemma connect_sent w c : live w c -> wp connect (fun _ w' => sent [] [] w c [] w') w.
Proof.
  intros L0. pose proof (wp_grows _ _ _ grows_connect (connect_ok w c L0)) as G.
  eapply wp_mono; [apply wp_and; [exact G|]|].
  { instantiate (1 := fun _ w' => opened w c -> passed w c [] w').
    destruct (decide (0 <= socketFd (base c))) as [Hfd|Hfd].
    2: { eapply wp_mono; [exact G|]. intros [] w' _ [_ ?]. done. }
    pose proof L0 as [H S]. unfold connect. rewrite wp_bind, wp_mgr.
    destruct (networkAvailable (manager w)) eqn:En; simpl negb; cbv iota.
    - rewrite wp_bind. eapply wp_this; [apply H|].
      assert (bool_decide (tcpConnectionStatus c = TcpConnectionStatusConnected) ||
              bool_decide (tcpConnectionStatus c = TcpConnectionStatusConnecting) = true) as ->.
      { destruct (proj1 (sk_fd _ _ S) Hfd) as [-> | ->]; done. }
      rewrite wp_ret. by intros _; apply passed_same.
    - destruct (onConnectionClosed_ok w) as (w' & E1 & C). pose proof (taken_closed w) as T.
      apply wp_run in T as ([] & w'' & E2 & T1 & T2). rewrite E1 in E2. injection E2 as <-.
      eapply wp_eq; [done|]. intros _. right. split; [done|]. rewrite app_nil_r. split.
      + unfold handed, to_send. by rewrite T1, (cr_pool _ _ C), (cr_conn _ _ C).
      + exists c. split; [|done]. split; [|done]. by eapply mv_live, live_closed. }
  intros [] w' [[[c' M] G'] P]. split; [|done]. exists c'. by apply moved_step.
Qed.

Lemma sent_refl w c w' :
  live w' c -> trace w' = trace w -> pool w' = pool w -> connection w' = connection w ->
  isHandshakeing (datacenter w') = isHandshakeing (datacenter w) -> sent [] [] w c [] w'.
Proof.
  intros HL Et Ep Ec Eh. split; [|split; [|by rewrite Et]].
  - exists c. constructor; rewrite ?Ep; done.
  - intros [_ Hfd]. by apply passed_same.
Qed.

(** The send call of the manager, for a logged-in account. *)
Lemma sendMessage_ok ms r w c :
  live w c -> isHandshakeing (datacenter w) = true -> Forall (message_ok (pool w)) ms ->
  (forall p, p ∈ bodies ms -> p ∉ refs c) ->
  wp (sendMessageToConnection ms r) (fun _ w' => sent [] (bodies ms) w c (wire (pool w) ms) w') w.
Proof.
  intros HL Hh Hms Hn. unfold sendMessageToConnection. case_bool_decide as Em.
  { subst ms. rewrite wp_ret. apply sent_refl; done. }
  rewrite wp_bind. unfold getConnection. rewrite wp_bind, wp_gets, Hh. cbn [negb].
  rewrite wp_bind, wp_when. cbv iota. rewrite wp_bind. unfold createConnection.
  rewrite wp_bind, wp_gets, (ck_conn _ _ (proj1 HL)), wp_ret.
  eapply wp_mono; [by apply (connect_sent w c)|]. intros [] w1 S1. pose proof S1 as ([c1 T1] & _ & _).
  pose proof (st_live _ _ _ _ _ _ T1) as L1.
  rewrite wp_bind, wp_gets, (ck_conn _ _ (proj1 L1)), wp_ret. rewrite bool_decide_eq_true_2 by done.
  rewrite wp_bind.
  assert (W : wp (when r (now ← getCurrentTimeMillis; on_manager (set_lastPackSendTime now)))
    (fun _ w2 => sent [] [] w1 c1 [] w2 /\ live w2 c1 /\ pool w2 = pool w1) w1).
  { rewrite wp_when. destruct r.
    - rewrite wp_bind. apply wp_clock. intros now. rewrite wp_on_manager.
      assert (live (set_manager (set_lastPackSendTime now (manager (set_tick (S (tick w1)) w1))) (set_tick (S (tick w1)) w1)) c1).
      { destruct L1 as [[] []]. split; by constructor. }
      split; [|done]. by apply sent_refl.
    - split; [|done]. by apply sent_refl. }
  eapply wp_mono; [exact W|]. intros [] w2 (S2 & L2 & Ep2).
  destruct (packet_keeps _ _ _ ms (st_keeps _ _ _ _ _ _ T1) Hms Hn) as [Hms1 Ew].
  eapply wp_mono; [apply (send_batches_ok ms w2 c1 [] 0 L2)|]; try done.
  - by rewrite Ep2.
  - intros q Hq. apply (st_owned _ _ _ _ _ _ T1); [|by apply Hn].
    unfold bodies in Hq. apply list_elem_of_omap in Hq as (m' & Hm' & Hq). rewrite Forall_forall in Hms.
    destruct (Hms m' Hm') as (q' & b & Hq' & Ho & _). congruence.
  - intros [] w3 S3. rewrite app_nil_l in S3. unfold wire in S3 |- *. rewrite Ep2, Ew in S3.
    change (bodies ms) with ([] ++ ([] ++ bodies ms)). change (mjoin (packet (pool w) <$> ms)) with ([] ++ ([] ++ mjoin (packet (pool w) <$> ms))).
    assert (U : forall c', connection w1 = Some c' -> c' = c1) by (intros c' Hc'; pose proof (ck_conn _ _ (proj1 L1)); congruence).
    eapply sent_trans; [exact S1|]. intros c' T'. rewrite (U c' (ck_conn _ _ (proj1 (st_live _ _ _ _ _ _ T')))).
    eapply sent_trans; [exact S2|]. intros c'' T''.
    pose proof (ck_conn _ _ (proj1 (st_live _ _ _ _ _ _ T''))). pose proof (ck_conn _ _ (proj1 L2)). congruence.
Qed.

(** ** The writable event *)

(** A run that moves the connection; [P] is needed for an open one. *)
Lemma sent_from {A} (m : SR World A) w c bs :
  live w c -> grows m -> wp m (fun _ w' => exists c', moved_with [] w c w' c') w ->
  (opened w c -> wp m (fun _ w' => passed w c bs w') w) -> wp m (fun _ w' => sent [] [] w c bs w') w.
Proof.
  intros HL G M P. pose proof (wp_grows _ _ _ G M) as GM.
  assert (P' : wp m (fun _ w' => opened w c -> passed w c bs w') w).
  { destruct (decide (0 <= socketFd (base c))) as [Hfd|Hfd].
    - eapply wp_mono; [by apply P|]. done.
    - eapply wp_mono; [exact M|]. by intros a w' _ [_ ?]. }
  eapply wp_mono; [apply wp_and; [exact GM|exact P']|].
  intros a w' [[[c' Mv] Gr] Hp]. split; [|done]. exists c'. by apply moved_step.
Qed.

Lemma closeSocket_sent r w c : live w c -> wp (closeSocket r) (fun _ w' => sent [] [] w c [] w') w.
Proof.
  intros HL. destruct (closeSocket_ok r w c) as (w' & c' & E1 & HS); [apply HL|by eapply live_active|].
  apply sent_from; [done|apply grows_closeSocket|..].
  - eapply wp_eq; [done|]. exists c'. by apply moved_shut.
  - intros [_ Hfd]. eapply wp_eq; [done|]. left. by eapply closeSocket_closes; [apply HL|..].
Qed.

Lemma grows_adjust : grows adjustWriteOp.
Proof.
  unfold adjustWriteOp. repeat (apply grows_bind; [|intros ?]); try solve_grows.
  apply grows_closeSocket.
Qed.

Lemma adjustWriteOp_sent w c : live w c -> wp adjustWriteOp (fun _ w' => sent [] [] w c [] w') w.
Proof.
  intros HL. apply sent_from; [done|apply grows_adjust|by apply adjustWriteOp_ok|]. apply adjustWriteOp_passes.
Qed.

Lemma sent_weaken ks ps w c bs w' : sent [] ps w c bs w' -> sent ks ps w c bs w'.
Proof. intros ([c' S] & P & G). split; [|done]. exists c'. by apply step_weaken. Qed.

Lemma sent_seq {A} (m : SR World A) ks ps w c xs w1 c1 ys :
  sent ks ps w c xs w1 -> connection w1 = Some c1 -> wp m (fun _ w' => sent ks [] w1 c1 ys w') w1 ->
  wp m (fun _ w' => sent ks ps w c (xs ++ ys) w') w1.
Proof.
  intros S Hc H. eapply wp_mono; [exact H|]. intros a w' H'. rewrite <- (app_nil_r ps).
  eapply sent_trans; [exact S|]. intros c' T. pose proof (ck_conn _ _ (proj1 (st_live _ _ _ _ _ _ T))). congruence.
Qed.

(** The receive buffer serves the send path as well. *)
Record at_work (p : addr) (w : World) (c : TcpConnection) : Prop := {
  aw_live : live w c;
  aw_net : networkBuffer (manager w) = p;
  aw_owned : owned (pool w) p;
  aw_refs : p ∉ refs c;
  aw_buf : exists nb, heap (pool w) !! p = Some nb /\ wf nb /\ _capacity nb = READ_BUFFER_SIZE
}.

(** Scribbling in the receive buffer and asking the kernel changes nothing. *)
Lemma scribble_sent p w c d n :
  at_work p w c ->
  live (set_tick n (poke p d w)) c /\ sent [p] [p] w c [] (set_tick n (poke p d w)).
Proof.
  intros [HL _ Ho Hn _]. set (w' := set_tick n _). pose proof HL as [[Hc Hp Hdc Hr Ht] S].
  destruct (stream_ok_insert_ne (pool w) p d (refs c) Hn Hr) as [Hr' Hu].
  assert (HL' : live w' c).
  { split; [|by destruct S; constructor]. constructor; try done. by apply (poke_wf p d w). }
  split; [done|]. split; [|split; [|done]].
  - exists c. constructor; try done.
    + intros q Hq Hnq. split; [by apply (poke_owned p d q w)|done].
    + intros q Hq Hnq. apply (poke_ne p q d w). intros ->. apply Hnq. left.
    + intros m Hm Hnm. apply (keeps_poke w p d m Hm). intros q Hq. set_solver.
  - intros [_ Hfd]. right. split; [done|]. split; [|by exists c]. rewrite app_nil_r. unfold handed. f_equal.
    rewrite (to_send_conn w c Hc), (to_send_conn w' c) by done. unfold stream_bytes. f_equal.
    change (pool w') with (set_heap (<[p := d]> (heap (pool w))) (pool w)).
    destruct (stream_ok_insert_ne (pool w) p d (buffersQueue (outgoingByteStream (base c)))) as [_ ->]; [..|done].
    + intros Hin. apply Hn, elem_of_app. by right.
    + by apply (refs_split w c (proj1 HL)).
Qed.

(** What the kernel took leaves the queue. *)
Lemma taken_sent w c data n :
  live w c -> 0 <= n <= zlen data -> data = take (length data) (to_send w) -> zlen data < 2 ^ 32 ->
  wp (emit (IoSend (socketFd (base c)) data n);; st ← on_pool (discard (u32 n) (outgoingByteStream (base c)));
      on_base (set_outgoingByteStream st))
    (fun _ w' => sent [] [] w c [] w' /\ networkBuffer (manager w') = networkBuffer (manager w)) w.
Proof.
  intros HL Hn Hd H32. pose proof HL as [H S]. rewrite wp_bind, wp_emit, wp_bind, wp_on_pool.
  rewrite u32_id by lia. destruct (refs_split _ _ H) as (Hr1 & Hq & Hdis). rewrite (to_send_conn w c (ck_conn _ _ H)) in Hd.
  assert (Hz : zlen data <= zlen (stream_bytes (pool w) (outgoingByteStream (base c)))).
  { apply (f_equal zlen) in Hd. unfold zlen in *. rewrite length_take in Hd. lia. }
  destruct (discard_from_spec (pool w) _ n (ck_pool _ _ H) Hq) as (q' & s' & Ed & Pw & Sq & Eb & Kd);
    [unfold stream_bytes in Hz; lia|lia|].
  unfold discard. rewrite wp_bind. eapply wp_eq; [exact Ed|]. rewrite wp_ret. eapply wp_on_base; [apply H|].
  set (c' := set_base _ _). set (w' := set_connection _ _). split; [|done].
  pose proof (discard_from_sub _ _ _ _ _ Ed) as Hsub.
  assert (Hk : forall r, owned (pool w) r -> r ∉ refs c -> owned s' r /\ heap s' !! r = heap (pool w) !! r).
  { intros r Hr Hnr. apply Kd; [|done]. intros Hin. apply Hnr, elem_of_app. by right. }
  assert (Hr1' : stream_ok s' (option_list (resetOfData c))).
  { destruct Hr1 as [N B]. split; [done|]. intros r Hr. destruct (B r Hr) as [Ho (b & Hb & Hx)].
    destruct (Kd r) as [Ho' Hh]; [|done|].
    - intros Hin. by apply (Hdis r).
    - split; [done|]. exists b. by rewrite Hh. }
  assert (L' : live w' c').
  { split; [|by destruct S; constructor]. destruct H as [Hc Hp Hdc Hr Ht]. constructor; try done.
    unfold refs. cbn [base c' set_base set_outgoingByteStream outgoingByteStream buffersQueue resetOfData].
    split; [apply NoDup_app; split; [apply Hr1'|split; [|apply Sq]]|].
    - intros r Hr0 Hr'. apply (Hdis r); [by apply Hsub|done].
    - intros r [Hr0|Hr0]%elem_of_app; [by apply Hr1'|by apply Sq]. }
  split; [|split; [|simpl; lia]].
  - exists c'. constructor; try done.
    + intros r Hr Hnr. split; [by apply Hk|]. unfold refs in Hnr |- *. cbn. rewrite not_elem_of_app in Hnr |- *.
      split; [tauto|]. intros Hin%Hsub. tauto.
    + intros r Hr Hnr. by apply Hk.
    + intros m (r & b & Hr & Hor & Hb & Hx) Hnm. destruct (Hk r Hor (Hnm r Hr)) as [Ho' Hh].
      split; [exists r, b; split; [done|]; split; [done|]; by cbn; rewrite Hh|]. unfold packet. cbn. by rewrite Hr, Hh.
  - intros [_ Hfd]. right. split; [done|]. split; [|by exists c']. rewrite app_nil_r. unfold handed.
    rewrite (to_send_conn w c (ck_conn _ _ H)), (to_send_conn w' c') by done. cbn [trace w' taken set_connection set_pool set_trace].
    rewrite <- app_assoc. f_equal. unfold stream_bytes in Hd |- *.
    cbn [c' base set_base set_outgoingByteStream outgoingByteStream buffersQueue pool w' set_connection set_pool].
    rewrite Eb, Hd, take_take. rewrite Nat.min_l by (unfold zlen in *; lia). apply take_drop.
Qed.

(** A continuation of a run in which the receive buffer stays in place. *)
Definition carries (p : addr) (w : World) (c : TcpConnection) (w' : World) : Prop :=
  sent [] [] w c [] w' /\ networkBuffer (manager w') = networkBuffer (manager w).

Lemma wp_carries (m : SR World unit) p w c :
  frames books m -> wp m (fun _ w' => sent [] [] w c [] w') w -> wp m (fun _ w' => carries p w c w') w.
Proof.
  intros F H. apply wp_run in H as (a & w' & Em & HS). apply wp_run. exists a, w'. split; [done|]. split; [done|].
  apply F in Em. by injection Em.
Qed.

Lemma carries_trans p w c w1 c1 w2 :
  carries p w c w1 -> connection w1 = Some c1 -> carries p w1 c1 w2 -> carries p w c w2.
Proof.
  intros [S1 N1] Hc [S2 N2]. split; [|congruence]. eapply (sent_trans [] [] [] w c [] w1 []); [done|].
  intros c' T. pose proof (ck_conn _ _ (proj1 (st_live _ _ _ _ _ _ T))). congruence.
Qed.

(** The first half of a writable event ends in [w1], the rest in [w']. *)
Lemma writable_done p w c w1 w' :
  sent [p] [p] w c [] w1 -> at_work p w1 c -> carries p w1 c w' ->
  sent [p] [p] w c [] w' /\ exists c', at_work p w' c'.
Proof.
  intros S1 [L1 N1 O1 R1 B1] [S2 N2]. split.
  - change [p] with ([p] ++ []) at 2. change (@nil Z) with (@nil Z ++ []). eapply sent_trans; [exact S1|].
    intros c' T. assert (c' = c) as ->; [|by apply sent_weaken].
    pose proof (ck_conn _ _ (proj1 (st_live _ _ _ _ _ _ T))). pose proof (ck_conn _ _ (proj1 L1)). congruence.
  - destruct S2 as ([c' [L2 O2 P2 _ _]] & _). exists c'. destruct (O2 p O1 R1) as [Ho Hn].
    constructor; try done; [congruence|]. by rewrite (P2 p O1 R1).
Qed.

Context {SL : SendLaws E}.

#[local] Opaque READ_BUFFER_SIZE.

(** [get] fills the cleared receive buffer from the front of the queue. *)
Lemma fill_from_queue p w c nb (Q : unit -> World -> Prop) :
  at_work p w c -> wf nb -> _capacity nb = READ_BUFFER_SIZE ->
  (forall d, wf d -> _position d = zlen (take (Z.to_nat READ_BUFFER_SIZE) (to_send w)) -> _limit d = READ_BUFFER_SIZE ->
     _capacity d = READ_BUFFER_SIZE ->
     buffer d = splice (buffer nb) 0 (take (Z.to_nat READ_BUFFER_SIZE) (to_send w)) -> Q tt (poke p d w)) ->
  wp (on_pool (get (outgoingByteStream (base c)) (Some p))) Q (poke p (clear nb) w).
Proof.
  intros [HL HN HO HR _] Wnb Cnb HQ. pose proof HL as [H S]. wf_facts Wnb.
  destruct (refs_split _ _ H) as (_ & Hq & _).
  assert (Hpq : p ∉ buffersQueue (outgoingByteStream (base c))) by (intros Hin; apply HR, elem_of_app; by right).
  destruct (stream_ok_insert_ne (pool w) p (clear nb) _ Hpq Hq) as [So Su].
  destruct (get_from_spec (pool (poke p (clear nb) w)) (buffersQueue (outgoingByteStream (base c))) p (clear nb))
    as (d & Eg & Wd & (Sl & Sc & Sz) & Pd & Md); [apply poke_eq|by apply wf_clear|done|done|].
  cbn [clear set__limit set__position _limit _position buffer] in *. rewrite Z.sub_0_r in Pd, Md.
  rewrite wp_on_pool. unfold get. eapply wp_eq; [exact Eg|].
  change (Q tt (poke p d (poke p (clear nb) w))). rewrite poke_poke.
  assert (Et : mjoin (unread (pool (poke p (clear nb) w)) <$> buffersQueue (outgoingByteStream (base c))) = to_send w).
  { rewrite (to_send_conn w c (ck_conn _ _ H)). unfold stream_bytes. by rewrite <- Su. }
  rewrite Et, Cnb in Pd, Md. apply HQ; [done|exact Pd|rewrite Sl; exact Cnb|rewrite Sc; exact Cnb|exact Md].
Qed.

(** What a writable event leaves. *)
Definition written (p : addr) (w : World) (c : TcpConnection) (w' : World) : Prop :=
  sent [p] [p] w c [] w' /\ exists c', at_work p w' c'.

Lemma writable_close p w c w1 :
  sent [p] [p] w c [] w1 -> at_work p w1 c -> wp (closeSocket 1;; mret true) (fun _ w' => written p w c w') w1.
Proof.
  intros S1 W1. rewrite wp_bind. eapply wp_mono; [apply (wp_carries (closeSocket 1) p w1 c)|].
  - apply books_closeSocket.
  - apply closeSocket_sent, W1.
  - intros [] w2 C2. rewrite wp_ret. by eapply writable_done.
Qed.

Lemma at_work_frame p w c w' :
  at_work p w c -> live w' c -> pool w' = pool w -> manager w' = manager w -> at_work p w' c.
Proof. intros [HL HN HO HR HB] L' Ep Em. constructor; rewrite ?Ep, ?Em; done. Qed.

(** The kernel is offered [data] from the front of the queue. *)
Lemma writable_send p w c w1 data :
  sent [p] [p] w c [] w1 -> at_work p w1 c -> data = take (length data) (to_send w1) -> zlen data < 2 ^ 32 ->
  wp (t ← next_tick;
      let length := sys_send t (socketFd (base c)) data in
      emit (IoSend (socketFd (base c)) data length);;
      if length <? 0 then closeSocket 1;; mret true
      else
        st ← on_pool (discard (u32 length) (outgoingByteStream (base c)));
        on_base (set_outgoingByteStream st);;
        adjustWriteOp;;
        mret false) (fun _ w' => written p w c w') w1.
Proof.
  intros S1 A1 Hd H32. rewrite wp_bind, wp_tick. cbv zeta.
  set (n := sys_send _ _ data). pose proof (send_at_most (tick w1) (socketFd (base c)) data : n <= _) as Hmost.
  pose proof A1 as [[K1 T1] _ _ _ _]. set (w2 := set_tick _ w1).
  assert (L2 : live w2 c) by (destruct K1, T1; split; by constructor).
  assert (A2 : at_work p w2 c) by (by apply (at_work_frame p w1)).
  assert (C2 : carries p w1 c w2) by (split; [by apply sent_refl|done]).
  pose proof (proj1 (writable_done p w c w1 w2 S1 A1 C2)) as S2.
  destruct (Z.ltb_spec n 0) as [Hneg|Hge].
  - rewrite wp_bind, wp_emit. set (w3 := set_trace _ _).
    assert (L3 : live w3 c) by (destruct K1, T1; split; by constructor).
    assert (C3 : carries p w2 c w3).
    { split; [|done]. split; [by exists c|]. split; [|done]. intros [_ Hfd]. right. split; [done|]. split; [|by exists c].
      unfold handed. cbn [trace w3 set_trace taken]. destruct n; [lia|lia|]. by rewrite !app_nil_r. }
    apply writable_close; [by eapply writable_done|by apply (at_work_frame p w2)].
  - assert (T := taken_sent w2 c data n L2 (conj Hge Hmost) Hd H32).
    rewrite wp_bind in T. rewrite wp_bind. eapply wp_mono; [exact T|]. intros [] w4 T4.
    cbv beta in T4. rewrite wp_bind in T4. rewrite wp_bind. eapply wp_mono; [exact T4|]. intros st w5 T5.
    rewrite wp_bind. eapply wp_mono; [exact T5|]. intros [] w6 C6.
    pose proof C6 as [([c6 T6] & _ & _) _]. pose proof (st_live _ _ _ _ _ _ T6) as L6.
    rewrite wp_bind. eapply wp_mono; [apply (wp_carries adjustWriteOp p w6 c6)|].
    + unfold adjustWriteOp. solve_frames. apply books_closeSocket.
    + by apply adjustWriteOp_sent.
    + intros [] w7 C7. rewrite wp_ret. eapply writable_done; [exact S2|exact A2|].
      eapply carries_trans; [exact C6|apply L6|exact C7].
Qed.

Lemma on_writable_ok p w c :
  at_work p w c -> onConnectedSent (base c) = true -> wp on_writable (fun _ w' => written p w c w') w.
Proof.
  intros HW Hsent. pose proof HW as [HL HN HO HR (nb & Hnb & Wnb & Cnb)]. pose proof HL as [H S].
  assert (Same : forall n, at_work p (set_tick n w) c /\ sent [p] [p] w c [] (set_tick n w)).
  { intros n. assert (A : live (set_tick n w) c) by (destruct H, S; split; by constructor).
    split; [by apply (at_work_frame p w)|]. destruct (scribble_sent p w c nb n HW) as [_ T]. by rewrite poke_same in T. }
  unfold on_writable, checkScoketError. rewrite wp_bind, wp_bind. eapply wp_this; [apply H|].
  destruct (Z.ltb_spec (socketFd (base c)) 0) as [Hfd|Hfd].
  { rewrite wp_ret. destruct (Same (tick w)) as [A T]. by destruct w; apply writable_close. }
  rewrite wp_bind, wp_tick. destruct (sys_getsockopt _ _) as [ret code]. rewrite wp_ret.
  destruct (Same (Datatypes.S (tick w))) as [A1 S1].
  destruct (_ || _); [by apply writable_close|]. set (w1 := set_tick _ w) in *.
  rewrite wp_bind. unfold note_connected. rewrite wp_bind. eapply wp_this; [apply A1|].
  rewrite Hsent, wp_when. cbn [negb]. rewrite wp_bind, wp_mgr. cbn [manager w1 set_tick]. rewrite HN.
  rewrite wp_bind. eapply wp_update; [exact Hnb|]. rewrite wp_bind. eapply wp_this; [apply A1|].
  rewrite wp_bind. apply (fill_from_queue p w1 c nb); [done|done|done|].
  intros d Wd Pd Ld Cd Md. rewrite wp_bind. eapply wp_update; [apply poke_eq|]. rewrite poke_poke.
  set (w2 := poke p (flip d) w1).
  destruct (scribble_sent p w c (flip d) (Datatypes.S (tick w)) HW) as [L2 S2].
  assert (Wf : wf (flip d)) by (by apply wf_flip).
  assert (A2 : at_work p w2 c).
  { constructor; try done; [by apply (poke_owned p (flip d) p w)|]. exists (flip d).
    split; [apply poke_eq|]. split; [done|exact Cd]. }
  assert (E2 : to_send w2 = to_send w).
  { apply (to_send_keep _ _ c); [apply H|apply H|]. intros q Hq. apply (poke_ne p q (flip d) w). by intros ->. }
  rewrite wp_bind. eapply wp_deref; [apply poke_eq|]. rewrite remaining_wf by done.
  cbn [flip set__position set__limit _limit _position]. rewrite Z.sub_0_r, Pd.
  change (to_send w1) with (to_send w) in *. set (data := take (Z.to_nat READ_BUFFER_SIZE) (to_send w)) in *.
  destruct (Z.ltb_spec 0 (zlen data)) as [Hpos|Hz].
  2: { rewrite wp_ret. split; [done|by exists c]. }
  rewrite wp_bind. eapply wp_this; [apply A2|].
  assert (Hr : read_at (bytes (flip d)) 0 (zlen data) = Ok data).
  { wf_facts Wd. wf_facts Wnb. unfold bytes. cbn [flip set__position set__limit buffer]. rewrite read_at_Ok by lia.
    f_equal. rewrite Md. apply slice_splice_same; lia. }
  assert (Hd1 : data = take (length data) (to_send w2)).
  { rewrite E2. unfold data. rewrite length_take.
    destruct (Nat.min_spec (Z.to_nat READ_BUFFER_SIZE) (length (to_send w))) as [[_ ->]|[Hle ->]]; [done|by rewrite !take_ge]. }
  assert (Hd2 : zlen data < 2 ^ 32) by (wf_facts Wd; lia).
  pose proof (writable_send p w c w2 data S2 A2 Hd1 Hd2) as WS. rewrite wp_bind in WS |- *.
  eapply wp_mono; [exact WS|]. intros t w3 WS3. by rewrite wp_bind, wp_lift, Hr.
Qed.

(** ** Requests of the upper layer *)

(** A body to be sent: command, sequence number and buffer. *)
Record item : Type := mkItem { it_cmd : Z; it_seq : Z; it_body : addr }.

Fixpoint serialize_all (uin : Z) (its : list item) : SR World (list NetworkMessage) :=
  match its with
  | [] => mret []
  | i :: its' =>
      m ← on_pool (serializeToBuffer uin (new_message (it_cmd i) (it_seq i)) (Some (it_body i)));
      ms ← serialize_all uin its';
      mret (m :: ms)
  end.

(** The packet of a body. *)
Definition frame (uin : Z) (s : Storage) (i : item) : list Z :=
  header_bytes (20 + zlen (unread s (it_body i))) (it_cmd i) uin (it_seq i) ++ unread s (it_body i).

Arguments frame : simpl never.

Definition item_ok (s : Storage) (i : item) : Prop :=
  pool_buf s (it_body i) /\ exists b, heap s !! it_body i = Some b /\ _position b = 0 /\ _limit b <= 65515.

Definition items_ok (s : Storage) (its : list item) : Prop := NoDup (it_body <$> its) /\ Forall (item_ok s) its.

(** Untouched buffers are as good as before. *)
Lemma item_ok_keep s s' i :
  item_ok s i -> owned s' (it_body i) -> heap s' !! it_body i = heap s !! it_body i ->
  item_ok s' i /\ forall uin, frame uin s' i = frame uin s i.
Proof.
  intros [[Ho (b & Hb & Hr)] (b' & Hb' & Hq)] Ho' Hh. split.
  - split; [split; [done|]; exists b; by rewrite Hh|]. exists b'. by rewrite Hh.
  - intros uin. unfold frame, unread. by rewrite Hh.
Qed.

(** What serializing left: messages in fresh buffers. *)
Record serialized (uin : Z) (its : list item) (w : World) (ms : list NetworkMessage) (w' : World) : Prop := {
  sz_world : w' = set_pool (pool w') w;
  sz_pool : pool_wf (pool w');
  sz_ok : Forall (message_ok (pool w')) ms;
  sz_wire : wire (pool w') ms = mjoin (frame uin (pool w) <$> its);
  sz_fresh : forall p, p ∈ bodies ms -> owned (pool w) p -> p ∈ it_body <$> its;
  sz_keep : forall p, owned (pool w) p -> p ∉ (it_body <$> its) -> owned (pool w') p /\ heap (pool w') !! p = heap (pool w) !! p
}.

Lemma serialize_all_ok uin its : forall w,
  pool_wf (pool w) -> items_ok (pool w) its -> wp (serialize_all uin its) (fun ms w' => serialized uin its w ms w') w.
Proof.
  induction its as [|i its IH]; intros w Hp [Hnd His].
  - cbn [serialize_all]. rewrite wp_ret. constructor; try done; first [by destruct w | set_solver].
  - apply NoDup_cons in Hnd as [Hni Hnd]. apply Forall_cons in His as [[Hpb (b & Hb & Hb0 & Hbl)] His].
    cbn [serialize_all]. rewrite wp_bind, wp_on_pool.
    destruct (serialize_body (pool w) (it_body i) b (new_message (it_cmd i) (it_seq i)) uin Hp Hpb Hb Hb0 Hbl)
      as (out & o & s1 & Es & Ho & Wo & Co & Cc & P1 & Hno & Hoo & Hnp & K1 & Cap & _).
    eapply wp_eq; [exact Es|]. set (w1 := set_pool s1 w). set (m := mkNetworkMessage _ _ _ _).
    assert (Hf : forall j, j ∈ its -> item_ok (pool w) j /\ it_body j <> it_body i).
    { intros j Hj. rewrite Forall_forall in His. split; [by apply His|]. intros Heq. apply Hni. rewrite <- Heq.
      by apply list_elem_of_fmap_2. }
    assert (Hk : forall j, j ∈ its -> item_ok s1 j /\ frame uin s1 j = frame uin (pool w) j).
    { intros j Hj. destruct (Hf j Hj) as [Hj1 Hj2]. pose proof (proj1 (proj1 Hj1)) as Hoj.
      destruct (K1 _ Hj2 Hoj) as [Ho1 Hh1]. destruct (item_ok_keep _ _ _ Hj1 Ho1 Hh1). auto. }
    rewrite wp_bind. eapply wp_mono; [apply (IH w1 P1)|].
    { split; [done|]. apply Forall_forall. intros j Hj. by apply Hk. }
    intros ms w2 [Z1 Z2 Z3 Z4 Z5 Z6]. rewrite wp_ret.
    assert (Hout : out ∉ it_body <$> its).
    { intros (j & -> & Hj)%list_elem_of_fmap. apply Hno, (Hf j Hj). }
    destruct (Z6 out Hoo Hout) as [Ho2 Hh2].
    assert (Hpk : packet (pool w2) m = frame uin (pool w) i /\ message_ok (pool w2) m).
    { assert (Hu : unread (pool w) (it_body i) = contents b) by (unfold unread; by rewrite Hb).
      pose proof Hpb as [_ (b' & Hb' & Wb & _)]. rewrite Hb in Hb'. injection Hb' as <-.
      assert (Hzb : zlen (contents b) = _limit b) by (rewrite zlen_contents by done; lia).
      assert (Ep : packet (pool w2) m = frame uin (pool w) i).
      { unfold packet. cbn [m outgoingBody]. rewrite Hh2. cbn [w1 pool set_pool]. rewrite Ho, Cc. unfold frame.
        by rewrite Hu, Hzb. }
      split; [done|]. exists out, o. split; [done|]. split; [done|]. split; [by rewrite Hh2|]. split; [done|].
      assert (Hzo : zlen (contents (rewind o)) = _limit o) by (rewrite zlen_contents by (by apply wf_rewind); simpl; lia).
      rewrite Cc, zlen_app, zlen_header, Hzb in Hzo. cbn [m packLength]. split; [lia|]. split; [lia|]. split; [done|].
      rewrite Cap. apply capacity_for_small. lia. }
    destruct Hpk as [Ep Mm]. constructor; [by rewrite Z1|done|by constructor|..].
    + unfold wire in Z4 |- *.
      change (packet (pool w2) m ++ mjoin (packet (pool w2) <$> ms) = frame uin (pool w) i ++ mjoin (frame uin (pool w) <$> its)).
      rewrite Ep, Z4. f_equal. f_equal. apply list_fmap_ext.
      intros k j Hj%list_elem_of_lookup_2. by apply Hk.
    + unfold bodies. cbn [omap list_omap m outgoingBody]. intros p [-> |Hin]%elem_of_cons Hop; [done|].
      csimpl. destruct (decide (p = it_body i)) as [-> |Hne]; [left|right]. apply (Z5 p Hin). by apply K1.
    + intros p Hop. csimpl. intros [Hne Hnin]%not_elem_of_cons. destruct (K1 p Hne Hop) as [Ho1 <-]. by apply Z6.
Qed.

(** ** Sequences of requests and writable events *)

Inductive send_op : Type :=
  | Submit (its : list item)       (* bodies are packed and handed to the connection *)
  | Writable.                      (* epoll reports that the socket is writable *)

Definition op_items (o : send_op) : list item := match o with Submit its => its | Writable => [] end.

(** [Submit] is the last part of a request pass: the bodies are packed as
    [launch] does and handed over.  The whole pass is in [EndToEnd.v]. *)
Definition exec_op (uin : Z) (o : send_op) : SR World unit :=
  match o with
  | Submit its => ms ← serialize_all uin its; sendMessageToConnection ms true
  | Writable => on_writable;; mret tt
  end.

(** Until the connection is lost. *)
Fixpoint run_ops (uin : Z) (os : list send_op) : SR World unit :=
  match os with
  | [] => mret tt
  | o :: os' => k ← this base; if onConnectedSent k then exec_op uin o;; run_ops uin os' else mret tt
  end.

(** The packets of the requests, in order. *)
Definition frames_of (uin : Z) (s : Storage) (os : list send_op) : list (list Z) :=
  frame uin s <$> (os ≫= op_items).

(** A buffer that is neither the connection's nor the manager's. *)
Definition foreign (p : addr) (w : World) (c : TcpConnection) (q : addr) : Prop := owned (pool w) q /\ q ∉ refs c /\ q <> p.

Record op_done (p : addr) (its : list item) (bs : list Z) (w : World) (c : TcpConnection) (w' : World) (c' : TcpConnection) : Prop := {
  od_work : at_work p w' c';
  od_handshake : isHandshakeing (datacenter w') = true;
  od_closes : (closes (trace w) <= closes (trace w'))%nat;
  od_passed : opened w c -> passed w c bs w';
  od_foreign : forall q, foreign p w c q -> q ∉ (it_body <$> its) -> foreign p w' c' q /\ heap (pool w') !! q = heap (pool w) !! q
}.

Lemma passed_from w1 w c bs w' :
  closes (trace w1) = closes (trace w) -> handed w1 = handed w -> passed w1 c bs w' -> passed w c bs w'.
Proof. unfold passed. by intros -> ->. Qed.

Lemma serialized_same uin its w c ms w1 :
  live w c -> (forall q, q ∈ it_body <$> its -> q ∉ refs c) -> serialized uin its w ms w1 ->
  live w1 c /\ trace w1 = trace w /\ handed w1 = handed w.
Proof.
  intros [[Hc Hp Hd Hr Ht] S] Hn [Z1 Z2 Z3 Z4 Z5 Z6].
  assert (HK : forall q, q ∈ refs c -> owned (pool w1) q /\ heap (pool w1) !! q = heap (pool w) !! q).
  { intros q Hq. apply Z6; [by apply (so_bufs _ _ Hr)|]. intros Hin. by apply (Hn q). }
  assert (HL : live w1 c) by (apply (live_keep w); [by split|done|done|done]).
  split; [done|]. split; [by rewrite Z1|]. unfold handed. f_equal; [by rewrite Z1|].
  apply (to_send_keep _ _ c); [done|apply HL|]. intros q Hq. by apply HK.
Qed.

Lemma submit_ok p uin its w c :
  at_work p w c -> isHandshakeing (datacenter w) = true -> items_ok (pool w) its ->
  (forall q, q ∈ it_body <$> its -> foreign p w c q) ->
  wp (exec_op uin (Submit its)) (fun _ w' => exists c', op_done p its (mjoin (frame uin (pool w) <$> its)) w c w' c') w.
Proof.
  intros [HL HN HO HR (nb & Hnb & Wnb & Cnb)] Hh Hits Hf. cbn [exec_op]. rewrite wp_bind.
  eapply wp_mono; [apply (serialize_all_ok uin its w); [apply HL|done]|]. intros ms w1 Z.
  destruct (serialized_same uin its w c ms w1 HL) as (L1 & Et & Eh); [intros q Hq; apply (Hf q Hq)|done|].
  destruct Z as [Z1 Z2 Z3 Z4 Z5 Z6]. assert (Edc : datacenter w1 = datacenter w) by (by rewrite Z1).
  assert (Em : manager w1 = manager w) by (by rewrite Z1).
  assert (Hbr : forall q, q ∈ bodies ms -> q ∉ refs c).
  { intros q Hq Hin. destruct (Hf q) as (_ & Hx & _); [|done]. apply (Z5 q Hq), (so_bufs _ _ (ck_refs _ _ (proj1 HL)) q Hin). }
  assert (Hp1 : owned (pool w1) p /\ heap (pool w1) !! p = heap (pool w) !! p).
  { apply Z6; [done|]. intros Hin. by destruct (Hf p Hin) as (_ & _ & ?). }
  assert (M : wp (sendMessageToConnection ms true) (fun _ w' => sent [] (bodies ms) w1 c (wire (pool w1) ms) w') w1)
    by (apply sendMessage_ok; [done|by rewrite Edc|done|done]).
  apply wp_run in M as ([] & w' & E1 & ([c' [L' O' P' K' H']] & Pa & Gr)). eapply wp_eq; [exact E1|].
  apply books_send in E1. injection E1 as _ _ _ N1. rewrite Z4 in Pa. rewrite Em in N1.
  assert (Hfor : forall q, foreign p w c q -> q ∉ (it_body <$> its) -> q ∉ bodies ms ++ refs c /\ owned (pool w1) q /\
    heap (pool w1) !! q = heap (pool w) !! q).
  { intros q (Hq1 & Hq2 & Hq3) Hq4. rewrite not_elem_of_app. split; [|by apply Z6]. split; [|done]. intros Hin. by apply Hq4, (Z5 q Hin). }
  assert (Hpb : p ∉ bodies ms ++ refs c).
  { rewrite not_elem_of_app. split; [|done]. intros Hin. by destruct (Hf p (Z5 p Hin HO)) as (_ & _ & ?). }
  exists c'. constructor.
  - destruct (O' p (proj1 Hp1) HR) as [Op Rp]. constructor; [done|congruence|done|done|]. exists nb.
    rewrite (P' p) by (done || apply Hp1). by rewrite (proj2 Hp1).
  - by rewrite H', Edc.
  - by rewrite <- Et.
  - intros [_ Hfd]. eapply passed_from; [..|by apply Pa]; [by rewrite Et|done].
  - intros q Hq Hni. destruct (Hfor q Hq Hni) as (Hb & Ho1 & Hh1). destruct Hq as (Hq1 & Hq2 & Hq3).
    destruct (O' q Ho1 Hq2) as [Ho2 Hn2]. split; [done|]. by rewrite (P' q Ho1 Hb).
Qed.

Lemma writable_ok p uin w c :
  at_work p w c -> isHandshakeing (datacenter w) = true -> onConnectedSent (base c) = true ->
  wp (exec_op uin Writable) (fun _ w' => exists c', op_done p [] [] w c w' c') w.
Proof.
  intros HW Hh Hs. cbn [exec_op]. rewrite wp_bind. eapply wp_mono; [by apply (on_writable_ok p w c)|].
  intros b w' [([c1 [L1 O1 P1 K1 H1]] & Pa & Gr) [c' A']]. rewrite wp_ret. exists c'.
  assert (c1 = c') as ->.
  { pose proof (ck_conn _ _ (proj1 L1)). pose proof (ck_conn _ _ (proj1 (aw_live _ _ _ A'))). congruence. }
  constructor; [done|congruence|done|done|]. intros q (Hq1 & Hq2 & Hq3) _.
  destruct (O1 q Hq1 Hq2) as [Ho Hn]. split; [done|]. apply P1; [done|].
  rewrite not_elem_of_app, list_elem_of_singleton. done.
Qed.

Lemma exec_op_ok p uin o w c :
  at_work p w c -> isHandshakeing (datacenter w) = true -> onConnectedSent (base c) = true ->
  items_ok (pool w) (op_items o) -> (forall q, q ∈ it_body <$> op_items o -> foreign p w c q) ->
  wp (exec_op uin o) (fun _ w' => exists c', op_done p (op_items o) (mjoin (frame uin (pool w) <$> op_items o)) w c w' c') w.
Proof. destruct o as [its|]; intros; [by apply submit_ok|by apply writable_ok]. Qed.

Lemma run_ops_ok p uin os : forall w c,
  at_work p w c -> isHandshakeing (datacenter w) = true -> items_ok (pool w) (os ≫= op_items) ->
  (forall q, q ∈ it_body <$> (os ≫= op_items) -> foreign p w c q) ->
  wp (run_ops uin os) (fun _ w' => (closes (trace w) <= closes (trace w'))%nat /\
    (opened w c -> onConnectedSent (base c) = true -> passed w c (mjoin (frames_of uin (pool w) os)) w')) w.
Proof.
  induction os as [|o os IH]; intros w c HW Hh Hits Hf.
  - cbn [run_ops]. rewrite wp_ret. split; [done|]. intros O _. by apply passed_same.
  - cbn [run_ops]. rewrite wp_bind. eapply wp_this; [apply HW|].
    destruct (onConnectedSent (base c)) eqn:Es; [|rewrite wp_ret; by split].
    destruct Hits as [Nd Fa]. cbn [mbind list_bind] in Nd, Fa, Hf. rewrite fmap_app in Nd, Hf.
    apply NoDup_app in Nd as (Nd1 & Ndx & Nd2). apply Forall_app in Fa as [Fa1 Fa2].
    rewrite wp_bind. eapply wp_mono; [apply (exec_op_ok p uin o w c); try done; intros q Hq; apply Hf, elem_of_app; by left|].
    intros [] w1 [c1 [W1 H1 G1 P1 F1]].
    assert (Hrest : forall i, i ∈ os ≫= op_items -> foreign p w1 c1 (it_body i) /\ heap (pool w1) !! it_body i = heap (pool w) !! it_body i).
    { intros i Hi. assert (Hin : it_body i ∈ it_body <$> (os ≫= op_items)) by (by apply list_elem_of_fmap_2).
      apply F1; [apply Hf, elem_of_app; by right|]. intros Hin2. by apply (Ndx _ Hin2). }
    assert (Hkeep : forall i, i ∈ os ≫= op_items -> item_ok (pool w1) i /\ frame uin (pool w1) i = frame uin (pool w) i).
    { intros i Hi. destruct (Hrest i Hi) as [(Ho & _) Hhp]. rewrite Forall_forall in Fa2.
      destruct (item_ok_keep _ _ _ (Fa2 i Hi) Ho Hhp). auto. }
    eapply wp_mono; [apply (IH w1 c1 W1 H1)|].
    + split; [done|]. apply Forall_forall. intros i Hi. by apply Hkeep.
    + intros q (i & -> & Hi)%list_elem_of_fmap. by apply Hrest.
    + intros [] w2 [G2 P2]. split; [lia|]. intros O _.
      assert (Ef : frames_of uin (pool w) (o :: os) = (frame uin (pool w) <$> op_items o) ++ frames_of uin (pool w1) os).
      { unfold frames_of. cbn [mbind list_bind]. rewrite fmap_app. f_equal. apply list_fmap_ext.
        intros k i Hi%list_elem_of_lookup_2. symmetry. by apply Hkeep. }
      rewrite Ef, join_app. eapply passed_trans; [by apply P1|apply W1| |done]. intros O1 Ho1. apply P2; congruence.
Qed.

(** C3: the send path loses, repeats and reorders nothing: for every sequence
    of messages packed and handed to [sendMessageToConnection] and of
    writable events on an open connection, whatever the kernel takes in each event, no operation faults, and unless the
    connection was closed on the way, the bytes the kernel took, followed by
    those still in the send queue, are what was handed over before, followed
    by the packets of the requests in order. *)
Theorem send_path_refines_queue p uin os w c :
  at_work p w c -> 0 <= socketFd (base c) -> onConnectedSent (base c) = true -> isHandshakeing (datacenter w) = true ->
  items_ok (pool w) (os ≫= op_items) -> (forall q, q ∈ it_body <$> (os ≫= op_items) -> foreign p w c q) ->
  exists w', run_ops uin os w = Ok (tt, w') /\
    ((closes (trace w) < closes (trace w'))%nat \/
     taken (trace w') ++ to_send w' = taken (trace w) ++ to_send w ++ mjoin (frames_of uin (pool w) os)).
Proof.
  intros HW Hfd Hs Hh Hi Hf. pose proof (run_ops_ok p uin os w c HW Hh Hi Hf) as R.
  apply wp_run in R as ([] & w' & E1 & _ & P). exists w'. split; [done|].
  destruct P as [?|(_ & Hd & _)]; [by split; [apply HW|]|done|by left|right].
  unfold handed in Hd. by rewrite Hd, app_assoc.
Qed.
End Steps.

(** ** A connection at work *)

#[export] Instance quiet_send : SendLaws quiet_env.
Proof. split. intros t fd data. done. Qed.

(** The network buffer and two bodies that wait to be sent. *)
Definition busy_world : World := connected_world (bare_pool [net_buf; small_buf [1; 2; 3]; small_buf [4; 5]]).

Definition busy_ops : list send_op := [Submit [mkItem 300 5 2%positive]; Writable; Submit [mkItem 301 6 3%positive]; Writable].

Lemma busy_at_work : at_work 1%positive busy_world demo_connection.
Proof.
  constructor; [apply live_connected|done|apply owned_bare; by eexists|by intros Hin%elem_of_nil|].
  exists net_buf. split; [done|]. split; [apply wf_net_buf|done].
Qed.

Lemma small_item cmd sq q bs :
  heap (pool busy_world) !! q = Some (small_buf bs) -> (length bs <= 8)%nat -> Forall is_byte bs ->
  item_ok (pool busy_world) (mkItem cmd sq q).
Proof.
  intros Hq Hl Hb. split.
  - split; [by apply owned_bare; eexists|]. exists (small_buf bs). split; [done|]. by split; [apply wf_small|].
  - exists (small_buf bs). split; [done|]. split; [done|]. cbn [small_buf _limit]. unfold zlen. lia.
Qed.

Lemma busy_items : items_ok (pool busy_world) (busy_ops ≫= op_items).
Proof.
  split; [apply NoDup_cons; split; [by intros ?%list_elem_of_singleton|apply NoDup_singleton]|].
  change (busy_ops ≫= op_items) with [mkItem 300 5 2%positive; mkItem 301 6 3%positive].
  apply Forall_cons. split; [apply (small_item _ _ _ [1; 2; 3])|apply Forall_singleton, (small_item _ _ _ [4; 5])];
    simpl; try done; try lia; repeat constructor; done.
Qed.

Lemma busy_foreign q : q ∈ it_body <$> (busy_ops ≫= op_items) -> foreign 1%positive busy_world demo_connection q.
Proof.
  intros [-> | ->%list_elem_of_singleton]%elem_of_cons;
    (split; [apply owned_bare; by eexists|]); (split; [by intros Hin%elem_of_nil|done]).
Qed.

Lemma send_path_refines_queue_witness :
  exists w', run_ops 7 busy_ops busy_world = Ok (tt, w') /\
    ((closes (trace busy_world) < closes (trace w'))%nat \/
     taken (trace w') ++ to_send w' =
       taken (trace busy_world) ++ to_send busy_world ++ mjoin (frames_of 7 (pool busy_world) busy_ops)).
Proof.
  apply (send_path_refines_queue 1%positive 7 busy_ops busy_world demo_connection);
    [exact busy_at_work|done|done|done|exact busy_items|exact busy_foreign].
Defined.
