(* ===== verification/EndToEnd.v ===== *)
(** * EndToEnd: from a request of the upper layer to the receiver's upper layer

    The sending side is the loop's own: the task of
    [ConnectionsManager::senRequest], which runs [processRequestQueue] with
    its checks of the running requests, [serializeToBuffer] and
    [sendMessageToConnection], and the writable event of [TcpSocket::onEvent].
    The receiving side is that of [FramingSpec.v]. *)

From S2P Require Import Prelude.
From S2P Require Import FormatTools.
From S2P Require Import NativeByteBuffer.
From S2P Require Import BufferStorage.
From S2P Require Import ByteStream.
From S2P Require Import NetworkMessage.
From S2P Require Import Datacenter.
From S2P Require Import Request.
From S2P Require Import World.
From S2P Require Import Connection.
From S2P Require Import Requests.
From S2P Require Import Framing.
From S2P Require Import FramingSpec.
From S2P Require Import Manager.
From S2P Require Import Sending.

(** ** The session *)

(** What stays as it is while the connection is not closed. *)
Definition session (w : World) :=
  ((fun c => (connectionToken c, tcpConnectionStatus c, socketFd (base c), onConnectedSent (base c))) <$> connection w,
   isHandshakeSuccess (datacenter w), networkAvailable (manager w), managerSeq (manager w), managerUin (manager w),
   closes (trace w)).

(** A connected, logged-in manager whose socket is open. *)
Definition up (w : World) (c : TcpConnection) : Prop :=
  signed_in w c /\ 0 <= socketFd (base c) /\ onConnectedSent (base c) = true.

Lemma up_session w c w' : session w' = session w -> up w c -> exists c', up w' c' /\ connectionToken c' = connectionToken c.
Proof.
  unfold session. intros Hs [[Hc Hst Hn Hl Ht] [Hf Ho]]. rewrite Hc in Hs. injection Hs as Hs E1 E2 E3 E4 E5.
  destruct (connection w') as [c'|] eqn:Hc'; [|done]. injection Hs as F1 F2 F3 F4. exists c'. split; [|done].
  split; [|split; congruence]. constructor; congruence.
Qed.

(** An operation that leaves the session of a connection that is up, and one
    that leaves it or closes the connection. *)
Definition stays {A} (m : SR World A) : Prop :=
  forall w c a w', up w c -> m w = Ok (a, w') -> session w' = session w.

Definition holds {A} (m : SR World A) : Prop :=
  forall w c a w', up w c -> m w = Ok (a, w') -> (closes (trace w) < closes (trace w'))%nat \/ session w' = session w.

Lemma stays_frames {A} (m : SR World A) : frames session m -> stays m.
Proof. intros F w c a w' _. apply F. Qed.

Lemma stays_holds {A} (m : SR World A) : stays m -> holds m.
Proof. intros F w c a w' Hu E. right. by eapply F. Qed.

Lemma stays_bind {A B} (m : SR World A) (k : A -> SR World B) : stays m -> (forall a, stays (k a)) -> stays (m ≫= k).
Proof.
  intros Hm Hk w c b w' Hu H. back H a w1 E1. pose proof (Hm w c a w1 Hu E1) as S1.
  destruct (up_session w c w1 S1 Hu) as (c1 & U1 & _). rewrite <- S1. by eapply Hk.
Qed.

Lemma holds_bind {A B} (m : SR World A) (k : A -> SR World B) : stays m -> (forall a, holds (k a)) -> holds (m ≫= k).
Proof.
  intros Hm Hk w c b w' Hu H. back H a w1 E1. pose proof (Hm w c a w1 Hu E1) as S1.
  destruct (up_session w c w1 S1 Hu) as (c1 & U1 & _). rewrite <- S1.
  replace (closes (trace w)) with (closes (trace w1)) by (by injection S1). by eapply Hk.
Qed.

Lemma holds_ret {A B} (m : SR World A) (b : B) : holds m -> holds (m;; mret b).
Proof. intros Hm w c b' w' Hu H. back H a w1 E1. injection H as _ <-. by eapply Hm. Qed.

(** Changes of other fields of the connection. *)
Lemma stays_on_base f :
  (forall k, socketFd (f k) = socketFd k /\ onConnectedSent (f k) = onConnectedSent k) -> stays (on_base f).
Proof.
  intros Hf w c a w' [[Hc _ _ _ _] _] H. unfold on_base, on_this in H. rewrite Hc in H. injection H as _ <-.
  unfold session. rewrite Hc. cbn. by destruct (Hf (base c)) as [-> ->].
Qed.

Ltac stay_step :=
  match goal with
  | |- stays (_ ≫= _) => apply stays_bind; [|intros ?]
  | |- stays (on_base _) => apply stays_on_base; done
  | |- stays _ => apply stays_frames; solve [repeat (frame_step || case_match)]
  | |- stays (match ?x with _ => _ end) => destruct x
  | |- stays (when ?b _) => destruct b; cbn [when]
  end.
Ltac holds_step :=
  match goal with
  | |- holds (_ ≫= _) => apply holds_bind; [solve [repeat stay_step]|intros ?]
  | |- holds (match ?x with _ => _ end) => destruct x
  | |- holds (when ?b _) => destruct b; cbn [when]
  | |- holds (_;; mret _) => apply holds_ret
  | |- holds (mret _) => apply stays_holds, stays_frames, frames_ret
  end.

Section Steady.
Context {E : Env} {J : Jni}.

Lemma holds_closeSocket r : holds (closeSocket r).
Proof. intros w c [] w' [[Hc _ _ _ _] [Hf _]] H. left. by eapply closeSocket_closes. Qed.

Lemma holds_adjust : holds adjustWriteOp.
Proof. unfold adjustWriteOp. repeat holds_step. apply holds_closeSocket. Qed.

Lemma holds_sendData p : holds (sendData p).
Proof.
  intros w c [] w' U H. pose proof U as [[Hc Hst _ _ _] [Hf _]]. unfold sendData, isDisconnected in H.
  back H st w1 E1. unfold this in E1. rewrite Hc in E1. injection E1 as <- <-.
  assert (bool_decide (tcpConnectionStatus c = TcpConnectionStatusIdel) || bool_decide (tcpConnectionStatus c = TcpConnectionStatusReconnecting)
          || bool_decide (tcpConnectionStatus c = TcpConnectionStatusClosed) = false) as Hb by (by destruct Hst as [-> | ->]).
  rewrite Hb in H. back H x w2 E2. back E2 k w3 E3. unfold this in E3. rewrite Hc in E3. injection E3 as <- <-. injection E2 as <- <-.
  rewrite (proj2 (Z.ltb_ge _ _) Hf) in H. revert w c w' U H Hc Hst Hf Hb.
  assert (G : holds (on_pool (update_buf p (fun b => Ok (rewind b)));; writeBuffer p)).
  { unfold writeBuffer. repeat holds_step. apply holds_adjust. }
  intros w c w' U H _ _ _ _. by eapply G.
Qed.

Lemma stays_getConnection : stays (getConnection true).
Proof. intros w c a w' [R _] H. rewrite (getConnection_ready w c R) in H. by injection H as _ <-. Qed.

Lemma stays_bodies p ms : stays (write_bodies p ms).
Proof. induction ms as [|m ms IH]; simpl; [repeat stay_step|]. destruct (outgoingBody m); repeat stay_step; done. Qed.

Lemma stays_clock : stays getCurrentTimeMillis.
Proof. unfold getCurrentTimeMillis. repeat stay_step. Qed.

(** One message is one batch. *)
Lemma holds_send m r : holds (sendMessageToConnection [m] r).
Proof.
  unfold sendMessageToConnection. cbn [send_batches app]. change (bool_decide ([m] = [])) with false. cbv iota.
  rewrite (bool_decide_eq_true_2 ([] = [])), orb_true_r by done.
  intros w c b w' U H. back H k w1 E1. pose proof U as [R _]. rewrite (getConnection_ready w c R) in E1. injection E1 as <- <-.
  revert w c b w' U H R.
  match goal with |- forall w c b w', up w c -> ?m w = _ -> _ => assert (G : holds m) end.
  { apply holds_bind; [destruct r; cbn [when]; repeat stay_step; apply stays_clock|intros ?].
    apply holds_bind; [repeat stay_step|intros p]. apply holds_bind; [apply stays_bodies|intros ?].
    apply holds_ret. cbn [via]. apply holds_sendData. }
  intros w c b w' U H _. by eapply G.
Qed.

Lemma stays_note : stays note_connected.
Proof.
  intros w c a w' U H. pose proof U as [[Hc _ _ _ _] [_ Ho]]. unfold note_connected in H.
  back H k w1 E1. unfold this in E1. rewrite Hc in E1. injection E1 as <- <-. rewrite Ho in H. by injection H as _ <-.
Qed.

Lemma holds_writable : holds on_writable.
Proof.
  unfold on_writable, checkScoketError, update. apply holds_bind; [repeat stay_step|intros failed].
  destruct failed; [apply holds_ret, holds_closeSocket|].
  apply holds_bind; [apply stays_note|intros ?].
  repeat holds_step; try apply holds_closeSocket. apply holds_adjust.
Qed.

(** The lists of requests are not touched either. *)
Lemma writable_books w c a w' :
  up w c -> on_writable w = Ok (a, w') ->
  runningRequests (manager w') = runningRequests (manager w) /\ requestsQueue (manager w') = requestsQueue (manager w).
Proof.
  intros U H. unfold on_writable in H. back H failed w1 E1.
  assert (F : frames (fun w => (books w, session w)) checkScoketError) by (unfold checkScoketError; repeat (frame_step || case_match)).
  pose proof (f_equal snd (F _ _ _ E1)) as S1. apply F in E1. apply (f_equal fst) in E1. cbn [fst snd] in E1, S1.
  injection E1 as B1 B2 B3 B4. destruct (up_session w c w1 S1 U) as (c1 & U1 & _).
  assert (G : books w' = books w1); [|injection G as G1 G2 G3 G4; split; congruence].
  destruct failed.
  - match type of H with ?m _ = _ => assert (G : frames books m); [|by eapply G] end. solve_frames. apply books_closeSocket.
  - back H u w2 E2. unfold note_connected in E2. back E2 k w3 E3. unfold this in E3. rewrite (rd_conn _ _ (proj1 U1)) in E3.
    injection E3 as <- <-. rewrite (proj2 (proj2 U1)) in E2. injection E2 as _ <-.
    match type of H with ?m _ = _ => assert (G : frames books m); [|by eapply G] end.
    unfold update, adjustWriteOp. solve_frames; apply books_closeSocket.
Qed.
End Steady.

(** ** The running requests *)

(** The packets' buffers of the requests. *)
Definition packets_of (rs : list Request) : list addr := omap requestBuffer rs.

Arguments packets_of : simpl never.

Lemma packets_app rs qs : packets_of (rs ++ qs) = packets_of rs ++ packets_of qs.
Proof. apply omap_app. Qed.

(** A stretch of the request pass that gives back the buffers [ps] and sends
    nothing. *)
Record tidied (w : World) (ps : list addr) (w' : World) : Prop := {
  se_manager : manager w' = manager w;
  se_connection : connection w' = connection w;
  se_datacenter : datacenter w' = datacenter w;
  se_taken : taken (trace w') = taken (trace w);
  se_closes : closes (trace w') = closes (trace w);
  se_pool : released_all (pool w) ps (pool w')
}.

Lemma tidied_trans w ps w1 qs w2 : tidied w ps w1 -> tidied w1 qs w2 -> tidied w (ps ++ qs) w2.
Proof.
  intros [A1 A2 A3 A4 A5 A6] [B1 B2 B3 B4 B5 B6]. constructor; try congruence. by eapply released_all_trans.
Qed.

Lemma tidied_signed w ps w' c : tidied w ps w' -> signed_in w c -> signed_in w' c.
Proof. intros [A1 A2 A3 _ _ _] [? ? ? ? ?]. constructor; congruence. Qed.

Section Running.
Context {E : Env} {J : Jni}.

Lemma finish_tidied r code w :
  pool_wf (pool w) -> (forall q, requestBuffer r = Some q -> pool_buf (pool w) q) ->
  wp (finish r code) (fun v w' => v = (None, None, false) /\ tidied w (packets_of [r]) w') w.
Proof.
  intros Hp Hq. unfold finish, erase_request. rewrite wp_bind.
  set (w1 := match sendCompleteCallback r with Some cb => set_trace (IoComplete cb code None :: trace w) w | None => w end).
  apply (wp_eq _ _ _ tt w1); [unfold onComplete, w1; by destruct (sendCompleteCallback r)|].
  assert (H1 : pool w1 = pool w /\ tidied w [] w1).
  { unfold w1. destruct (sendCompleteCallback r); (split; [done|]); by constructor; try apply released_all_nil. }
  clearbody w1. destruct H1 as [Ep S1]. rewrite wp_bind, wp_bind, wp_on_pool.
  assert (H2 : exists s, Request_delete r (pool w1) = Ok (tt, s) /\ released_all (pool w1) (packets_of [r]) s).
  { rewrite Ep. unfold Request_delete, packets_of. simpl. destruct (requestBuffer r) as [q|]; [|exists (pool w); by split; [|apply released_all_nil]].
    destruct (reuse_pool_buf (pool w) q Hp (Hq q eq_refl)) as (s & Es & W & _ & K). exists s. split; [done|]. split; [done|].
    intros x Hx Hox. apply K; [|done]. intros ->. apply Hx. left. }
  destruct H2 as (s & Es & HR). eapply wp_eq; [exact Es|]. rewrite wp_when.
  assert (S2 : forall k, tidied w (packets_of [r]) (set_tick k (set_pool s w1))).
  { intros k. rewrite <- (app_nil_l (packets_of [r])). eapply tidied_trans; [exact S1|]. by constructor. }
  destruct (negb _).
  - rewrite wp_bind. apply wp_clock. intros now. rewrite wp_ret, wp_ret. split; [done|]. apply S2.
  - rewrite wp_ret. split; [done|]. specialize (S2 (tick w1)). by destruct w1.
Qed.

(** A request whose packet went out on this connection: it stays, or is given
    up after its deadline. *)
Lemma check_running_tidied now r w c :
  signed_in w c -> pool_wf (pool w) -> currentConnectionToken r = connectionToken c ->
  (forall q, requestBuffer r = Some q -> pool_buf (pool w) q) ->
  wp (check_running now r) (fun v w' => v.1.2 = None /\ v.2 = false /\ exists gone, tidied w gone w' /\
    packets_of (option_list v.1.1) ++ gone = packets_of [r] /\
    Forall (fun r' => currentConnectionToken r' = connectionToken c) (option_list v.1.1)) w.
Proof.
  intros R Hp Ht Hq. pose proof R as [Hc _ Hn Hl Hz]. unfold check_running.
  assert (Keep : forall r', requestBuffer r' = requestBuffer r -> currentConnectionToken r' = currentConnectionToken r ->
    exists gone, tidied w gone w /\ packets_of (option_list (Some r')) ++ gone = packets_of [r] /\
      Forall (fun x => currentConnectionToken x = connectionToken c) (option_list (Some r'))).
  { intros r' Hb' Ht'. exists []. split; [by constructor; try apply released_all_nil|]. rewrite app_nil_r. split.
    - unfold packets_of. simpl. by rewrite Hb'.
    - constructor; [congruence|done]. }
  assert (Fin : forall r' code, requestBuffer r' = requestBuffer r ->
    wp (finish r' code) (fun v w' => v.1.2 = None /\ v.2 = false /\ exists gone, tidied w gone w' /\
      packets_of (option_list v.1.1) ++ gone = packets_of [r] /\
      Forall (fun x => currentConnectionToken x = connectionToken c) (option_list v.1.1)) w).
  { intros r' code Hb'. eapply wp_mono; [apply (finish_tidied r' code w Hp); by rewrite Hb'|].
    intros v w' [-> S]. split; [done|]. split; [done|]. exists (packets_of [r']). split; [done|]. split; [|constructor].
    unfold packets_of. simpl. by rewrite Hb'. }
  rewrite wp_bind. eapply wp_eq; [by apply (getConnection_ready w c)|]. rewrite wp_bind, wp_mgr, wp_bind, Hn. cbv iota.
  cbn [via]. unfold getConnectionToken. rewrite wp_bind. eapply wp_this; [done|]. rewrite wp_ret.
  rewrite (proj2 (Z.eqb_neq _ _) Hz). cbn [andb]. rewrite wp_bind. eapply wp_this; [done|]. rewrite wp_bind, wp_gets, Ht, Z.eqb_refl.
  cbn [negb]. rewrite andb_false_r. cbn [andb].
  destruct (isTimeout now r); [|rewrite wp_ret; by split; [|split; [|apply Keep]]].
  destruct (has_flag r RequestFlagReSend); [|by apply Fin]. cbv zeta. destruct (negb _); [by apply Fin|].
  rewrite wp_ret. by split; [|split; [|apply Keep]].
Qed.

Lemma running_tidied now rs : forall w c,
  signed_in w c -> pool_wf (pool w) -> stream_ok (pool w) (packets_of rs) ->
  Forall (fun r => currentConnectionToken r = connectionToken c) rs ->
  wp (each_request (check_running now) rs) (fun v w' => v.1.2 = [] /\ v.2 = false /\ exists gone, tidied w gone w' /\
    packets_of v.1.1 ++ gone ≡ₚ packets_of rs /\ Forall (fun r => currentConnectionToken r = connectionToken c) v.1.1) w.
Proof.
  induction rs as [|r rs IH]; intros w c R Hp Hs Ht.
  - cbn [each_request]. rewrite wp_ret. split; [done|]. split; [done|]. exists []. split; [|done].
    by constructor; try apply released_all_nil.
  - apply Forall_cons in Ht as [Ht1 Ht]. cbn [each_request]. rewrite wp_bind.
    change (r :: rs) with ([r] ++ rs) in Hs |- *. rewrite packets_app in Hs |- *. destruct Hs as [Nd Hb].
    apply NoDup_app in Nd as (Nd1 & Ndx & Nd2).
    eapply wp_mono; [apply (check_running_tidied now r w c R Hp Ht1)|].
    { intros q Hq. apply Hb, elem_of_app. left. unfold packets_of. simpl. rewrite Hq. left. }
    intros v w1 (V1 & V2 & g1 & S1 & P1 & T1). rewrite wp_bind.
    assert (Hs1 : stream_ok (pool w1) (packets_of rs)).
    { split; [done|]. intros q Hq. eapply (pool_buf_released_all (pool w) g1); [apply S1| |apply Hb, elem_of_app; by right].
      intros Hin. apply (Ndx q); [|done]. rewrite <- P1. apply elem_of_app. by right. }
    eapply wp_mono; [apply (IH w1 c); [by eapply tidied_signed|apply (se_pool _ _ _ S1)|done|done]|].
    intros y w2 (Y1 & Y2 & g2 & S2 & P2 & T2). rewrite wp_ret. cbn [fst snd]. rewrite V1, V2, Y1, Y2. split; [done|]. split; [done|].
    exists (g1 ++ g2). split; [by eapply tidied_trans|]. split; [|by apply Forall_app].
    rewrite packets_app, <- P1, <- P2, <- !app_assoc. apply Permutation_app_head.
    rewrite !app_assoc. apply Permutation_app_tail, Permutation_app_comm.
Qed.
End Running.

(** ** A request of the upper layer *)

(** A manager at its desk: the connection is up, the packets of the running
    requests went out on it and are in buffers of their own. *)
Record desk (p : addr) (w : World) (c : TcpConnection) : Prop := {
  dk_work : at_work p w c;
  dk_up : up w c;
  dk_queue : requestsQueue (manager w) = [];
  dk_running : stream_ok (pool w) (packets_of (runningRequests (manager w)));
  dk_tokens : Forall (fun r => currentConnectionToken r = connectionToken c) (runningRequests (manager w));
  dk_apart : forall q, q ∈ packets_of (runningRequests (manager w)) -> q ∉ refs c /\ q <> p
}.

(** A buffer that is nobody's but the upper layer's. *)
Definition spare (p : addr) (w : World) (c : TcpConnection) (q : addr) : Prop :=
  foreign p w c q /\ q ∉ packets_of (runningRequests (manager w)).

(** The state when the packet [out] of the body [q] is about to be sent. *)
Record prepared (p : addr) (w : World) (c : TcpConnection) (cmd : Z) (q out : addr) (b : NBuf) (w' : World) : Prop := {
  pr_conn : connection w' = connection w;
  pr_dc : datacenter w' = datacenter w;
  pr_taken : taken (trace w') = taken (trace w);
  pr_closes : closes (trace w') = closes (trace w);
  pr_net : networkBuffer (manager w') = networkBuffer (manager w);
  pr_loop : events (manager w') = events (manager w) /\ activeConnections (manager w') = activeConnections (manager w);
  pr_available : networkAvailable (manager w') = networkAvailable (manager w);
  pr_uin : managerUin (manager w') = managerUin (manager w);
  pr_seq : managerSeq (manager w') = managerSeq (manager w) + 1;
  pr_queue : requestsQueue (manager w') = [];
  pr_wf : pool_wf (pool w');
  pr_keep : forall x, owned (pool w) x -> x ∉ packets_of (runningRequests (manager w)) -> x <> q ->
    owned (pool w') x /\ heap (pool w') !! x = heap (pool w) !! x;
  pr_running : stream_ok (pool w') (packets_of (runningRequests (manager w')));
  pr_packets : forall x, x ∈ packets_of (runningRequests (manager w')) ->
    x = out \/ x ∈ packets_of (runningRequests (manager w));
  pr_tokens : Forall (fun r => currentConnectionToken r = connectionToken c) (runningRequests (manager w'));
  pr_new : owned (pool w) out -> out ∈ packets_of (runningRequests (manager w));
  pr_out : out ∈ packets_of (runningRequests (manager w'));
  pr_packet : exists o, heap (pool w') !! out = Some o /\ contents (rewind o) =
    header_bytes (20 + _limit b) (i32 cmd) (managerUin (manager w)) (managerSeq (manager w)) ++ contents b
}.

Section Ask.
Context {E : Env} {J : Jni} {L : JniLaws J}.

(** The packets of the requests that are kept. *)
Lemma packets_survive s ps qs gone s' :
  stream_ok s ps -> qs ++ gone ≡ₚ ps -> released_all s gone s' ->
  stream_ok s' qs /\ (forall y, y ∈ qs -> y ∈ ps) /\ (forall y, y ∈ gone -> y ∈ ps).
Proof.
  intros [Nd Bf] P R. rewrite <- P in Nd. apply NoDup_app in Nd as (Nd1 & Nd2 & _).
  assert (Hq : forall y, y ∈ qs -> y ∈ ps) by (intros y Hy; rewrite <- P; apply elem_of_app; by left).
  split; [|split; [done|intros y Hy; rewrite <- P; apply elem_of_app; by right]].
  split; [done|]. intros y Hy. by apply (pool_buf_released_all s gone s' y R (Nd2 y Hy)), Bf, Hq.
Qed.

(** A new packet joins them. *)
Lemma packet_joins uin cmd sq q b s out o s' ps :
  packed uin cmd sq q b s out o s' -> stream_ok s ps -> q ∉ ps -> _limit b <= 65515 -> stream_ok s' (ps ++ [out]).
Proof.
  intros K [Nd Bf] Hq Hl. split.
  - apply NoDup_app. split; [done|]. split; [|apply NoDup_singleton]. intros y Hy ->%list_elem_of_singleton.
    by apply (pk_new _ _ _ _ _ _ _ _ _ K), (Bf out).
  - intros y [Hy| ->%list_elem_of_singleton]%elem_of_app.
    + destruct (Bf y Hy) as [Ho (b' & Hb' & Hx)]. destruct (pk_keep _ _ _ _ _ _ _ _ _ K y) as [Ho' Hh]; [by intros ->|done|].
      split; [done|]. exists b'. by rewrite Hh.
    + split; [apply K|]. exists o. split; [apply K|]. split; [apply K|]. pose proof (pk_capacity _ _ _ _ _ _ _ _ _ K) as Hc.
      split; [by eapply capacity_for_pool|]. rewrite Hc. apply capacity_for_small. lia.
Qed.

(** The pass up to the sending. *)
Lemma ask_prepared p w c cmd flags timeout callback q b (Q : unit -> World -> Prop) :
  desk p w c -> body_ok (pool w) q b -> spare p w c q -> Z.land flags RequestFlagWithoutAck = 0 ->
  managerSeq (manager w) <> 2 ^ 31 - 1 ->
  (forall out sq w', prepared p w c cmd q out b w' ->
     wp (sendMessageToConnection [mkNetworkMessage (Some out) (i32 cmd) sq (20 + _limit b)] true) Q w') ->
  wp (run_task (TaskSendRequest (Some q) cmd flags timeout callback)) Q w.
Proof.
  intros [[HL HN HO HR HB] [R _] Hqu Hrun Htok Hap] Hbody [Hf Hnr] Hack Hsq HQ.
  pose proof (ck_pool _ _ (proj1 HL)) as Hp. cbn [run_task]. rewrite wp_bind, wp_on_manager, Hqu, app_nil_l.
  set (r := Request_new (Some q) cmd flags timeout callback). unfold processRequestQueue.
  rewrite wp_bind. apply wp_clock. intros now. rewrite wp_bind, wp_mgr, wp_bind.
  set (w1 := set_tick _ _). assert (R1 : signed_in w1 c) by (by destruct R; constructor).
  change (runningRequests (manager w1)) with (runningRequests (manager w)).
  eapply wp_mono; [apply (running_tidied now _ w1 c R1 Hp Hrun Htok)|].
  intros x w2 (X1 & X2 & gone & S & P & T). destruct x as [[rs ms] ping]. cbn [fst snd] in *. subst ms ping.
  destruct S as [M2 C2 D2 K2 L2 [W2 H2]]. rewrite wp_bind, wp_on_manager, wp_bind, wp_mgr, wp_bind, M2.
  change (requestsQueue (manager (set_manager (set_runningRequests rs (manager w1)) w2))) with [r].
  set (w3 := set_manager _ w2). cbn [each_request]. rewrite wp_bind.
  destruct (packets_survive _ _ _ _ _ Hrun P (conj W2 H2)) as (Hrun2 & Hrs & Hgone).
  assert (R3 : signed_in w3 c) by (destruct R1; constructor; cbn; rewrite ?C2, ?D2; done).
  assert (B3 : body_ok (pool w3) q b).
  { destruct Hbody as (Hpb & Hb & Hx). assert (Hng : q ∉ gone) by (intros Hin; by apply Hnr, Hgone).
    split; [by eapply (pool_buf_released_all (pool w) gone)|]. split; [|done]. cbn. by rewrite (proj2 (H2 q Hng (proj1 Hpb))). }
  apply (wp_queued r w3 c); [exact R3|]. apply (launch_wp _ r q b); [exact W2|exact B3|done|exact Hsq|]. intros out o s k start K.
  unfold launch_end. change (has_flag (started_request _ _ _ _ r) RequestFlagWithoutAck) with (negb (Z.land flags RequestFlagWithoutAck =? 0)).
  rewrite Hack. cbn [Z.eqb negb]. rewrite wp_bind, wp_on_manager, wp_ret, wp_bind, wp_ret, wp_ret, wp_bind, wp_on_manager.
  cbn [fst snd option_list app orb]. apply HQ. clear HQ.
  change (managerSeq (manager w3)) with (managerSeq (manager w)) in *. change (managerUin (manager w3)) with (managerUin (manager w)) in *.
  change (pool w3) with (pool w2) in *. set (r' := started_request _ _ _ _ r).
  assert (Ep : packets_of (rs ++ [r']) = packets_of rs ++ [out]) by (by rewrite packets_app).
  constructor; try done.
  - apply (pk_pool _ _ _ _ _ _ _ _ _ K).
  - intros y Hy Hny Hyq. destruct (H2 y) as [Ho Hh]; [by intros Hin%Hgone|done|].
    destruct (pk_keep _ _ _ _ _ _ _ _ _ K y Hyq Ho) as [Ho' Hh']. split; [done|]. etrans; [exact Hh'|exact Hh].
  - change (stream_ok s (packets_of (rs ++ [r']))). rewrite Ep. eapply packet_joins; [exact K|done| |apply Hbody].
    intros Hin. by apply Hnr, Hrs.
  - change (forall y, y ∈ packets_of (rs ++ [r']) -> y = out \/ y ∈ packets_of (runningRequests (manager w))).
    rewrite Ep. intros y [Hy| ->%list_elem_of_singleton]%elem_of_app; [right; by apply Hrs|by left].
  - change (Forall (fun r => currentConnectionToken r = connectionToken c) (rs ++ [r'])). apply Forall_app. split; [done|].
    by apply Forall_singleton.
  - intros Ho. destruct (decide (out ∈ gone)) as [Hin|Hni]; [by apply Hgone|].
    destruct (pk_new _ _ _ _ _ _ _ _ _ K). by apply H2.
  - change (out ∈ packets_of (rs ++ [r'])). rewrite Ep. apply elem_of_app. right. by left.
  - exists o. split; [apply K|]. apply (pk_bytes _ _ _ _ _ _ _ _ _ K).
Qed.

(** What a turn leaves that handed [bs] over and used up the bodies [qs]. *)
Record served (p : addr) (n : Z) (bs : list Z) (qs : list addr) (w : World) (c : TcpConnection) (w' : World) (c' : TcpConnection) : Prop := {
  sv_desk : desk p w' c';
  sv_seq : managerSeq (manager w') = managerSeq (manager w) + n;
  sv_uin : managerUin (manager w') = managerUin (manager w);
  sv_closes : closes (trace w') = closes (trace w);
  sv_handed : handed w' = handed w ++ bs;
  sv_spare : forall x, spare p w c x -> x ∉ qs -> spare p w' c' x /\ heap (pool w') !! x = heap (pool w) !! x
}.

(** The connection was closed, or the turn was served. *)
Definition served_or_closed (p : addr) (n : Z) (bs : list Z) (qs : list addr) (w : World) (c : TcpConnection) (w' : World) : Prop :=
  (closes (trace w) < closes (trace w'))%nat \/ exists c', served p n bs qs w c w' c'.

(** The buffers of the connection and the receive buffer are left alone. *)
Lemma prepared_refs p w c cmd q out b w' x :
  desk p w c -> spare p w c q -> prepared p w c cmd q out b w' -> x ∈ refs c \/ x = p ->
  owned (pool w) x /\ owned (pool w') x /\ heap (pool w') !! x = heap (pool w) !! x /\ x <> out.
Proof.
  intros [[HL _ HO _ _] _ _ _ _ Hap] [(Hq1 & Hq2 & Hq3) _] P Hx.
  assert (Ho : owned (pool w) x).
  { destruct Hx as [Hx| ->]; [|done]. apply (so_bufs _ _ (ck_refs _ _ (proj1 HL)) x Hx). }
  assert (Hnp : x ∉ packets_of (runningRequests (manager w))).
  { intros Hin. destruct (Hap x Hin) as [? ?]. by destruct Hx. }
  destruct (pr_keep _ _ _ _ _ _ _ _ P x Ho Hnp) as [Ho' Hh]; [intros ->; by destruct Hx|].
  split; [done|]. split; [done|]. split; [done|]. intros ->. by apply Hnp, (pr_new _ _ _ _ _ _ _ _ P).
Qed.

Lemma prepared_live p w c cmd q out b w' :
  desk p w c -> spare p w c q -> prepared p w c cmd q out b w' ->
  live w' c /\ up w' c /\ handed w' = handed w /\ out ∉ refs c /\ out <> p.
Proof.
  intros D Sq P. pose proof D as [[HL HN HO HR _] [R Hu] _ _ _ Hap]. pose proof HL as [[Hc Hp Hd [N B] Ht] [S1 S2 S3]].
  pose proof (fun x Hx => prepared_refs p w c cmd q out b w' x D Sq P Hx) as HX.
  destruct P as [P1 P2 P3 P4 P5 [P6 P6'] P7 P8 P9 P10 P11 P12 P13 P14 P15 P16 P17 P18].
  split; [|split; [|split; [|split]]].
  - split; [|constructor; by rewrite ?P6']. constructor; rewrite ?P1, ?P2, ?P6; try done. split; [done|].
    intros x Hx. destruct (B x Hx) as [_ (bx & Hbx & Hy)]. destruct (HX x) as (_ & Ho & Hh & _); [by left|].
    split; [done|]. exists bx. by rewrite Hh.
  - split; [|done]. destruct R. constructor; rewrite ?P1, ?P2, ?P7; done.
  - unfold handed. rewrite P3. f_equal. apply (to_send_keep _ _ c); [done|by rewrite P1|]. intros x Hx. by apply HX; left.
  - intros Hin. by destruct (HX out) as (_ & _ & _ & ?); [left|].
  - intros ->. by destruct (HX p) as (_ & _ & _ & ?); [right|].
Qed.

(** The packet as the send path sees it. *)
Lemma prepared_message p w c cmd q out b w' sq :
  body_ok (pool w) q b -> prepared p w c cmd q out b w' ->
  let m := mkNetworkMessage (Some out) (i32 cmd) sq (20 + _limit b) in
  message_ok (pool w') m /\
  packet (pool w') m = frame (managerUin (manager w)) (pool w) (mkItem (i32 cmd) (managerSeq (manager w)) q).
Proof.
  intros ([_ (b' & Hb' & Wb & _)] & Hb & Hb0 & Hbl) P m. rewrite Hb in Hb'. injection Hb' as <-.
  destruct (pr_packet _ _ _ _ _ _ _ _ P) as (o & Ho & Co).
  destruct (so_bufs _ _ (pr_running _ _ _ _ _ _ _ _ P) out (pr_out _ _ _ _ _ _ _ _ P)) as [Oo (o' & Ho' & Wo & Po & Cap)].
  rewrite Ho in Ho'. injection Ho' as <-. wf_facts Wb.
  assert (Hzb : zlen (contents b) = _limit b) by (rewrite zlen_contents by done; lia).
  assert (Hzo : zlen (contents (rewind o)) = _limit o) by (rewrite zlen_contents by (by apply wf_rewind); simpl; lia).
  rewrite Co, zlen_app, zlen_header, Hzb in Hzo. split.
  - exists out, o. cbn [m packLength outgoingBody]. split; [done|]. split; [done|]. split; [done|]. split; [done|]. split; [lia|].
    split; [lia|]. by split.
  - unfold packet, frame, unread. cbn [m outgoingBody it_body it_cmd it_seq]. by rewrite Ho, Co, Hb, Hzb.
Qed.

(** Sending the packet of a request. *)
Lemma prepared_sent p w c cmd q out b w1 sq :
  desk p w c -> spare p w c q -> body_ok (pool w) q b -> prepared p w c cmd q out b w1 ->
  wp (sendMessageToConnection [mkNetworkMessage (Some out) (i32 cmd) sq (20 + _limit b)] true)
    (fun _ w' => served_or_closed p 1
      (frame (managerUin (manager w)) (pool w) (mkItem (i32 cmd) (managerSeq (manager w)) q)) [q] w c w') w1.
Proof.
  intros D Sq Hb P. destruct (prepared_live p w c cmd q out b w1 D Sq P) as (L1 & U1 & H1 & Hor & Hop).
  destruct (prepared_message p w c cmd q out b w1 sq Hb P) as [Mm Ep]. set (m := mkNetworkMessage _ _ _ _) in *.
  pose proof (fun x Hx => prepared_refs p w c cmd q out b w1 x D Sq P Hx) as HX.
  pose proof D as [[_ HN HO HR (nb & Hnb & Hnb')] _ _ _ _ _].
  assert (Hh : isHandshakeing (datacenter w1) = true) by (apply success_handshakeing, U1).
  assert (M : wp (sendMessageToConnection [m] true) (fun _ w' => sent [] [out] w1 c (wire (pool w1) [m]) w') w1).
  { apply (sendMessage_ok [m] true w1 c L1 Hh); [by apply Forall_singleton|]. by intros x ->%list_elem_of_singleton. }
  apply wp_run in M as ([] & w' & E1 & ([c' [L' O' P' K' _]] & Pa & Gr)). eapply wp_eq; [exact E1|].
  pose proof (holds_send m true w1 c tt w' U1 E1) as St. apply books_send in E1. injection E1 as B1 B2 _ B4.
  unfold served_or_closed. rewrite <- (pr_closes _ _ _ _ _ _ _ _ P). destruct St as [?|St]; [by left|].
  destruct Pa as [?|(Cl & Ha & _)]; [by split; [|apply U1]|by left|]. right. exists c'.
  destruct (up_session w1 c w' St U1) as (c2 & U2 & T2).
  assert (c2 = c') as -> by (pose proof (ck_conn _ _ (proj1 L')); pose proof (rd_conn _ _ (proj1 U2)); congruence).
  unfold wire in Ha. csimpl in Ha. rewrite app_nil_r, Ep, H1 in Ha.
  assert (Hkeep : forall x, owned (pool w1) x -> x ∉ refs c -> x <> out -> heap (pool w') !! x = heap (pool w1) !! x).
  { intros x Hx Hr Hne. apply P'; [done|]. rewrite not_elem_of_app, list_elem_of_singleton. done. }
  assert (Hrun : forall x, x ∈ packets_of (runningRequests (manager w1)) -> x ∉ refs c /\ x <> p).
  { intros x Hx. destruct (pr_packets _ _ _ _ _ _ _ _ P x Hx) as [-> |Hx']; [done|]. by apply (dk_apart _ _ _ D). }
  destruct (HX p) as (_ & Hp1 & Hp2 & _); [by right|]. destruct (O' p Hp1 HR) as [Op Rp].
  injection St as _ _ _ Sseq Suin _. pose proof (pr_running _ _ _ _ _ _ _ _ P) as [Nd Bf]. constructor.
  - constructor; rewrite ?B1, ?B2; try done.
    + constructor; try done; [rewrite B4; by rewrite (pr_net _ _ _ _ _ _ _ _ P)|]. exists nb.
      rewrite (Hkeep p Hp1 HR) by done. by rewrite Hp2.
    + apply P.
    + split; [done|]. intros x Hx. destruct (Bf x Hx) as [Ox (bx & Hbx & Hx')]. destruct (Hrun x Hx) as [Hr Hxp].
      destruct (O' x Ox Hr) as [Ox' _]. split; [done|]. destruct (decide (x = out)) as [-> |Hne].
      * destruct (K' m Mm) as [(o & bo & [= <-] & _ & Hbo & Wo & _ & _ & Po & Co) _]; [|by exists bo].
        intros x [= <-]. exact Hr.
      * exists bx. by rewrite (Hkeep x Ox Hr Hne).
    + rewrite T2. apply P.
    + intros x Hx. destruct (Hrun x Hx) as [Hr Hxp]. split; [|done]. apply (O' x); [by apply Bf|done].
  - rewrite Sseq. apply P.
  - rewrite Suin. apply P.
  - rewrite Cl. apply P.
  - exact Ha.
  - intros x [(Hx1 & Hx2 & Hx3) Hx4] Hxq. destruct (pr_keep _ _ _ _ _ _ _ _ P x Hx1 Hx4) as [Ox Hhx]; [by intros ->; apply Hxq; left|].
    assert (Hxo : x <> out) by (intros ->; by apply Hx4, (pr_new _ _ _ _ _ _ _ _ P)).
    destruct (O' x Ox Hx2) as [Ox' Rx]. split; [|by rewrite (Hkeep x Ox Hx2 Hxo)]. split; [done|]. rewrite B1.
    intros Hin. by destruct (pr_packets _ _ _ _ _ _ _ _ P x Hin).
Qed.

Context {SL : SendLaws E}.

(** The writable event. *)
Lemma writable_served p w c :
  desk p w c -> wp (socket_onEvent 0 EPOLLOUT) (fun _ w' => served_or_closed p 0 [] [] w c w') w.
Proof.
  intros D. pose proof D as [A U Hq [Nd Bf] Ht Hap]. pose proof U as (R & Hfd & Hs).
  assert (G : wp on_writable (fun _ w' => served_or_closed p 0 [] [] w c w') w).
  2: { unfold socket_onEvent. change (has_event EPOLLOUT EPOLLIN) with false. change (has_event EPOLLOUT EPOLLOUT) with true.
       change (has_event EPOLLOUT EPOLLRDHUP || has_event EPOLLOUT EPOLLHUP) with false. cbv iota.
       rewrite wp_bind, wp_ret. cbv iota. rewrite wp_bind. eapply wp_mono; [exact G|]. intros [] w' Hw; exact Hw. }
  pose proof (on_writable_ok p w c A Hs) as M.
  apply wp_run in M as (a & w' & E1 & ([c1 [L1 O1 P1 _ _]] & Pa & Gr) & c' & A'). eapply wp_eq; [exact E1|].
  assert (c1 = c') as ->.
  { pose proof (ck_conn _ _ (proj1 L1)). pose proof (ck_conn _ _ (proj1 (aw_live _ _ _ A'))). congruence. }
  destruct (holds_writable w c a w' U E1) as [?|St]; [by left|].
  destruct Pa as [?|(Cl & Ha & _)]; [by split; [apply A|]|by left|]. right. exists c'.
  destruct (up_session w c w' St U) as (c2 & U2 & T2).
  assert (c2 = c') as -> by (pose proof (ck_conn _ _ (proj1 L1)); pose proof (rd_conn _ _ (proj1 U2)); congruence).
  destruct (writable_books w c a w' U E1) as [B1 B2]. injection St as _ _ _ Sseq Suin _.
  assert (Hkeep : forall x, owned (pool w) x -> x ∉ refs c -> x <> p ->
    owned (pool w') x /\ x ∉ refs c' /\ heap (pool w') !! x = heap (pool w) !! x).
  { intros x Hx Hr Hne. destruct (O1 x Hx Hr) as [Ox Rx]. split; [done|]. split; [done|]. apply P1; [done|].
    rewrite not_elem_of_app, list_elem_of_singleton. done. }
  constructor; [|lia|done|done|done|].
  - constructor; rewrite ?B1, ?B2, ?T2; try done.
    + split; [done|]. intros x Hx. destruct (Bf x Hx) as [Ox (bx & Hbx & Hx')]. destruct (Hap x Hx) as [Hr Hxp].
      destruct (Hkeep x Ox Hr Hxp) as (Ox' & _ & Hh). split; [done|]. exists bx. by rewrite Hh.
    + intros x Hx. destruct (Hap x Hx) as [Hr Hxp]. split; [|done]. apply Hkeep; [by apply Bf|done|done].
  - intros x [(Hx1 & Hx2 & Hx3) Hx4] _. destruct (Hkeep x Hx1 Hx2 Hx3) as (Ox & Rx & Hh). split; [|done].
    split; [done|]. by rewrite B1.
Qed.
End Ask.

(** ** The receiving side *)

(** What the receiver's upper layer should see of an item: it is no packet
    of the library's own and not compressed. *)
Definition plain_item (s : Storage) (i : item) : Prop :=
  is_s 32 (it_cmd i) /\ pushed (it_cmd i) (u32 (it_seq i)) (unread s (it_body i)).

Definition message_of (s : Storage) (i : item) : Z * list Z := (it_cmd i, unread s (it_body i)).

Lemma frame_good uin s i :
  item_ok s i -> plain_item s i ->
  good_packet (frame uin s i) /\ entry (frame uin s i) = message_of s i /\
  pushed (packet_cmd (frame uin s i)) (packet_seq (frame uin s i)) (packet_body (frame uin s i)).
Proof.
  intros [[_ (b & Hb & Wb & _)] (b' & Hb' & Hp & Hl)] [Hc Hpl]. rewrite Hb in Hb'. injection Hb' as <-.
  assert (Hz : 0 <= zlen (unread s (it_body i)) <= 65515).
  { unfold unread. rewrite Hb, zlen_contents by done. wf_facts Wb. lia. }
  set (body := unread s (it_body i)) in *.
  destruct (header_fields (20 + zlen body) (it_cmd i) uin (it_seq i) body) as (F1 & F2 & _ & F3 & F4).
  fold (header (header_bytes (20 + zlen body) (it_cmd i) uin (it_seq i) ++ body)) in F1, F2, F3, F4.
  assert (Ec : packet_cmd (frame uin s i) = it_cmd i).
  { unfold packet_cmd, frame. fold body. rewrite F3, (wrapS_wrapU 32), wrapS_id by (done || lia). done. }
  assert (Eb : packet_body (frame uin s i) = body).
  { unfold packet_body, frame. fold body. rewrite F2. apply drop_app_length'. done. }
  assert (Es : packet_seq (frame uin s i) = u32 (it_seq i)) by (unfold packet_seq, frame; fold body; by rewrite F4).
  split; [|split].
  - constructor.
    + unfold frame. fold body. rewrite zlen_app, zlen_header. lia.
    + split; [apply header_checks; fold body; lia|]. unfold frame. fold body. rewrite F2. lia.
    + unfold packet_len, frame. fold body. rewrite F1, zlen_app, zlen_header. apply wrapU_id. unfold is_u. lia.
  - unfold entry, message_of. by rewrite Ec, Eb.
  - by rewrite Ec, Es, Eb.
Qed.

(** ** Turns of the sender's loop *)

Inductive turn : Type :=
  | Ask (cmd flags timeout : Z) (callback : option Z) (body : addr)   (* the task of [senRequest] *)
  | CanWrite.                                                         (* epoll reports that the socket is writable *)

Section Turns.
Context {E : Env} {J : Jni}.

Definition run_turn (t : turn) : SR World unit :=
  match t with
  | Ask cmd flags timeout callback body => run_task (TaskSendRequest (Some body) cmd flags timeout callback)
  | CanWrite => socket_onEvent 0 EPOLLOUT
  end.

Fixpoint run_turns (ts : list turn) : SR World unit :=
  match ts with
  | [] => mret tt
  | t :: ts' => run_turn t;; run_turns ts'
  end.
End Turns.

(** The requests in order, with the sequence numbers they get from [sq] on. *)
Fixpoint asked (sq : Z) (ts : list turn) : list item :=
  match ts with
  | [] => []
  | Ask cmd _ _ _ body :: ts' => mkItem (i32 cmd) sq body :: asked (sq + 1) ts'
  | CanWrite :: ts' => asked sq ts'
  end.

(** The request expects an answer. *)
Definition acked (t : turn) : Prop :=
  match t with Ask _ flags _ _ _ => Z.land flags RequestFlagWithoutAck = 0 | CanWrite => True end.

Section Served.
Context {E : Env} {J : Jni} {L : JniLaws J} {SL : SendLaws E}.

Lemma run_turn_served p t w c :
  desk p w c -> acked t -> items_ok (pool w) (asked (managerSeq (manager w)) [t]) ->
  (forall q, q ∈ it_body <$> asked (managerSeq (manager w)) [t] -> spare p w c q) ->
  managerSeq (manager w) + zlen (asked (managerSeq (manager w)) [t]) < 2 ^ 31 ->
  let its := asked (managerSeq (manager w)) [t] in
  wp (run_turn t) (fun _ w' => served_or_closed p (zlen its)
    (mjoin (frame (managerUin (manager w)) (pool w) <$> its)) (it_body <$> its) w c w') w.
Proof.
  intros D Ha Hi Hs Hn its. destruct t as [cmd flags timeout callback q|]; [|by apply writable_served].
  cbn [asked zlen length] in Hn. destruct Hi as [_ Hi]. apply Forall_singleton in Hi as [Hpb (b & Hb & Hb0 & Hbl)].
  assert (Hq : spare p w c q) by (apply Hs; left). assert (Hbody : body_ok (pool w) q b) by done.
  cbn [run_turn]. apply (ask_prepared p w c cmd flags timeout callback q b); try done; [unfold zlen in Hn; simpl in Hn; lia|].
  intros out sq w1 P. unfold its. csimpl. cbn [mjoin list_join]. rewrite app_nil_r.
  by apply (prepared_sent p w c cmd q out b w1 sq D Hq Hbody P).
Qed.

Lemma asked_cons sq t ts : asked sq (t :: ts) = asked sq [t] ++ asked (sq + zlen (asked sq [t])) ts.
Proof. destruct t; [done|]. cbn [asked app]. by rewrite zlen_nil, Z.add_0_r. Qed.

(** The turns up to the first that closes the connection, or all of them. *)
Lemma run_turns_served p ts : forall w c,
  desk p w c -> Forall acked ts -> items_ok (pool w) (asked (managerSeq (manager w)) ts) ->
  (forall q, q ∈ it_body <$> asked (managerSeq (manager w)) ts -> spare p w c q) ->
  managerSeq (manager w) + zlen (asked (managerSeq (manager w)) ts) < 2 ^ 31 ->
  exists ran rest w', ts = ran ++ rest /\ run_turns ran w = Ok (tt, w') /\
    ((closes (trace w) < closes (trace w'))%nat \/
     rest = [] /\ handed w' = handed w ++
       mjoin (frame (managerUin (manager w)) (pool w) <$> asked (managerSeq (manager w)) ts)).
Proof.
  induction ts as [|t ts IH]; intros w c D Ha Hi Hs Hn.
  { exists [], [], w. split; [done|]. split; [done|]. right. by rewrite app_nil_r. }
  apply Forall_cons in Ha as [Ha Hts]. set (sq := managerSeq (manager w)) in *. set (uin := managerUin (manager w)).
  rewrite asked_cons in Hi, Hs, Hn |- *. rewrite zlen_app in Hn. rewrite fmap_app in Hs. destruct Hi as [Nd Fa].
  rewrite fmap_app in Nd. apply NoDup_app in Nd as (Nd1 & Ndx & Nd2). apply Forall_app in Fa as [Fa1 Fa2].
  set (now := asked sq [t]) in *. set (later := asked (sq + zlen now) ts) in *. pose proof (zlen_nonneg later).
  assert (S1 : wp (run_turn t) (fun _ w' => served_or_closed p (zlen now) (mjoin (frame uin (pool w) <$> now)) (it_body <$> now) w c w') w).
  { apply (run_turn_served p t w c D Ha); [done|intros q Hq; apply Hs, elem_of_app; by left|unfold now, sq in *; lia]. }
  apply wp_run in S1 as ([] & w1 & E1 & [Cl|[c1 [D1 Q1 U1 C1 H1 P1]]]).
  { exists [t], ts, w1. split; [done|]. split; [|by left]. cbn [run_turns]. by rewrite (bind_Ok _ _ _ _ _ E1). }
  assert (Hk : forall i, i ∈ later -> spare p w1 c1 (it_body i) /\ item_ok (pool w1) i /\ frame uin (pool w1) i = frame uin (pool w) i).
  { intros i Hi. assert (Hin : it_body i ∈ it_body <$> later) by (by apply list_elem_of_fmap_2).
    destruct (P1 (it_body i)) as [Hsp Hh]; [apply Hs, elem_of_app; by right|intros Hin2; by apply (Ndx _ Hin2)|].
    rewrite Forall_forall in Fa2. destruct (item_ok_keep _ _ _ (Fa2 i Hi) (proj1 (proj1 Hsp)) Hh). auto. }
  destruct (IH w1 c1 D1 Hts) as (ran & rest & w' & Er & Ew & Hw); rewrite ?Q1; fold sq later.
  - split; [done|]. apply Forall_forall. intros i Hi. by apply Hk.
  - intros q (i & -> & Hi)%list_elem_of_fmap. by apply Hk.
  - lia.
  - exists (t :: ran), rest, w'. split; [by rewrite Er|]. split; [cbn [run_turns]; by rewrite (bind_Ok _ _ _ _ _ E1)|].
    rewrite C1 in Hw. destruct Hw as [?|[-> Hh]]; [by left|right]. split; [done|].
    rewrite Hh, H1, U1, Q1, fmap_app, join_app, <- app_assoc. fold sq later uin. do 3 f_equal. apply list_fmap_ext.
    intros k i Hi%list_elem_of_lookup_2. by apply Hk.
Qed.

(** Sequence numbers in range. *)
Lemma asked_plain s sq ts :
  0 <= sq -> sq + zlen (asked sq ts) < 2 ^ 31 -> Forall (fun i => head (unread s (it_body i)) <> Some 7) (asked sq ts) ->
  Forall (plain_item s) (asked sq ts).
Proof.
  revert sq. induction ts as [|[cmd ? ? ? q|] ts IH]; intros sq H0 Hn Hf; [constructor|..|by apply IH].
  cbn [asked] in Hf, Hn |- *. rewrite zlen_cons in Hn. pose proof (zlen_nonneg (asked (sq + 1) ts)).
  apply Forall_cons in Hf as [Hh Hf]. constructor; [|apply IH; [lia|lia|done]]. split; [by apply wrapS_range|].
  cbn [it_cmd it_seq it_body]. rewrite u32_id by lia. split; [done|]. by split; [change (u32 (-1)) with (2^32-1)|change (u32 (-2)) with (2^32-2)]; lia.
Qed.
End Served.

(** ** From one end to the other *)

Section EndToEnd.
Context {E : Env} {J : Jni} {L : JniLaws J} {SL : SendLaws E}.      (* the sender's *)
Context (E' : Env) (J' : Jni) {L' : JniLaws J'}.                    (* the receiver's *)

(** The receiving side on a prefix of the packets. *)
Lemma receive_prefix p v chunks more uin s its :
  waiting (R := @manager_receiver E' J') v p [] -> Forall (fun data => Forall is_byte data /\ 0 < zlen data <= READ_BUFFER_SIZE) chunks ->
  mjoin chunks ++ more = mjoin (frame uin s <$> its) -> Forall (item_ok s) its -> Forall (plain_item s) its ->
  exists v' k, recv_chunks (E := E') (J := J') (R := @manager_receiver E' J') p chunks v = Ok (tt, v') /\
    messages (trace v') = messages (trace v) ++ take k (message_of s <$> its) /\ (more = [] -> k = length its).
Proof.
  intros Hw Hc Heq Hok Hpl.
  assert (G : Forall good_packet (frame uin s <$> its)).
  { apply Forall_fmap, Forall_forall. intros i Hi. rewrite Forall_forall in Hok, Hpl.
    by apply frame_good; [apply Hok|apply Hpl]. }
  destruct (split_stream (frame uin s <$> its) (mjoin chunks) more []) as (ps1 & ps2 & r & E1 & E2 & E3 & Hr);
    [by rewrite app_nil_r|done|by left|].
  rewrite E1 in G. apply Forall_app in G as [G1 G2].
  assert (En : ps1 = frame uin s <$> take (length ps1) its) by (by rewrite fmap_take, E1, take_app_length).
  assert (D : wp (recv_chunks (E := E') (J := J') (R := @manager_receiver E' J') p chunks)
    (fun _ v' => waiting (R := @manager_receiver E' J') v' p r /\ messages (trace v') = messages (trace v) ++ (entry <$> ps1)) v).
  { apply (chunks_delivered (E := E') (J := J') (R := @manager_receiver E' J') p chunks r Hc Hr v [] ps1 Hw); [done|done|].
    rewrite En. apply Forall_fmap, Forall_forall. intros i Hi. rewrite Forall_forall in Hok, Hpl.
    assert (i ∈ its) by (by apply (subseteq_take (length ps1) its) in Hi).
    by apply (frame_good uin s i); [apply Hok|apply Hpl]. }
  apply wp_run in D as ([] & v' & Ev & _ & Ha). exists v', (length ps1). split; [done|]. split.
  - rewrite Ha. f_equal. rewrite En at 1. rewrite <- list_fmap_compose, fmap_take. f_equal. apply list_fmap_ext.
    intros n i Hi%list_elem_of_lookup_2. rewrite Forall_forall in Hok, Hpl.
    apply (frame_good uin s i); [by apply Hok|by apply Hpl].
  - intros ->. rewrite !app_nil_r in E3. rewrite E3 in Hr. rewrite <- (app_nil_r (mjoin ps2)) in Hr.
    rewrite (incomplete_no_packet ps2 [] G2 Hr), app_nil_r in E1. rewrite <- E1. apply length_fmap.
Qed.

(** C2: end to end: the sender's loop runs requests of the upper layer that
    expect an answer, as [processRequestQueue] does, and writes whatever the
    kernel takes in each writable event; the receiver reads some of these
    bytes, cut in any way.  On a connection that is up, with nothing sent yet,
    bodies of at most 65515 bytes that do not start with the mark of a
    compressed body, in distinct buffers of the upper layer's own, and sequence
    numbers below 2^31: the turns run without a fault until one of them closes
    the connection; if none does, the receiver's upper layer gets the first
    of the messages, each once, in order and with its command and body, and
    all of them once every byte has arrived. *)
Theorem end_to_end p ts w c :
  desk p w c -> to_send w = [] -> taken (trace w) = [] -> Forall acked ts -> 0 <= managerSeq (manager w) ->
  let its := asked (managerSeq (manager w)) ts in
  managerSeq (manager w) + zlen its < 2 ^ 31 -> items_ok (pool w) its ->
  Forall (fun i => head (unread (pool w) (it_body i)) <> Some 7) its ->
  (forall q, q ∈ it_body <$> its -> spare p w c q) ->
  exists ran rest w', ts = ran ++ rest /\ run_turns (E := E) (J := J) ran w = Ok (tt, w') /\
    ((closes (trace w) < closes (trace w'))%nat \/
     rest = [] /\
     forall v p' chunks lost, taken (trace w') = mjoin chunks ++ lost -> waiting (R := @manager_receiver E' J') v p' [] ->
       Forall (fun data => Forall is_byte data /\ 0 < zlen data <= READ_BUFFER_SIZE) chunks ->
       exists v' k, recv_chunks (E := E') (J := J') (R := @manager_receiver E' J') p' chunks v = Ok (tt, v') /\
         messages (trace v') = messages (trace v) ++ take k (message_of (pool w) <$> its) /\
         (to_send w' = [] -> lost = [] -> k = length its)).
Proof.
  intros D Hq Ht Ha H0 its Hn Hi Hp Hs.
  destruct (run_turns_served (E := E) (J := J) p ts w c D Ha Hi Hs Hn) as (ran & rest & w' & Et & Ew & Hw).
  exists ran, rest, w'. split; [exact Et|]. split; [exact Ew|]. destruct Hw as [?|[Hr Hd]]; [by left|right]. split; [exact Hr|].
  intros v p' chunks lost Hx Hv Hc. unfold handed in Hd. rewrite Hq, Ht, Hx, app_nil_r, app_nil_l, <- app_assoc in Hd.
  destruct (receive_prefix p' v chunks (lost ++ to_send w') (managerUin (manager w)) (pool w) its) as (v' & k & Ev & Hm & Hk);
    [exact Hv|exact Hc|exact Hd|apply Hi|by apply asked_plain|].
  exists v', k. split; [exact Ev|]. split; [exact Hm|]. intros Hz ->. apply Hk. by rewrite Hz.
Qed.
End EndToEnd.

(** ** Two requests *)

(** The connected manager of [Sending.v] is at its desk. *)
Lemma busy_desk : desk 1%positive busy_world demo_connection.
Proof.
  constructor; [exact busy_at_work| |done| |constructor|by intros q Hq%elem_of_nil].
  - split; [by constructor; [|left|..]|done].
  - split; [apply NoDup_nil_2|by intros q Hq%elem_of_nil].
Qed.

Definition busy_turns : list turn := [Ask 300 0 0 (Some 1) 2%positive; CanWrite; Ask 301 0 0 None 3%positive; CanWrite].

Lemma busy_spare q : q ∈ it_body <$> asked 0 busy_turns -> spare 1%positive busy_world demo_connection q.
Proof.
  intros Hq. split; [|by intros Hin%elem_of_nil]. apply busy_foreign. exact Hq.
Qed.

Lemma end_to_end_witness :
  exists ran rest w', busy_turns = ran ++ rest /\ run_turns ran busy_world = Ok (tt, w') /\
    ((closes (trace busy_world) < closes (trace w'))%nat \/
     rest = [] /\
     forall v p' chunks lost, taken (trace w') = mjoin chunks ++ lost -> waiting v p' [] ->
       Forall (fun data => Forall is_byte data /\ 0 < zlen data <= READ_BUFFER_SIZE) chunks ->
       exists v' k, recv_chunks p' chunks v = Ok (tt, v') /\
         messages (trace v') = messages (trace v) ++ take k [(300, [1; 2; 3]); (301, [4; 5])] /\
         (to_send w' = [] -> lost = [] -> k = 2%nat)).
Proof.
  apply (end_to_end quiet_env _ 1%positive busy_turns busy_world demo_connection);
    [exact busy_desk|done|done|by repeat constructor|done|done| |by repeat constructor|exact busy_spare].
  destruct busy_items as [N F]. split; [exact N|]. apply Forall_cons. split; [apply (small_item _ _ _ [1; 2; 3])|apply Forall_singleton, (small_item _ _ _ [4; 5])];
    simpl; try done; try lia; repeat constructor; done.
Defined.

(** The run: everything arrives. *)
Example busy_run :
  match run_turns busy_turns busy_world with
  | Ok (_, w) => closes (trace w) = 0%nat /\ to_send w = [] /\
      match recv_chunks 1%positive [take 30 (taken (trace w)); drop 30 (taken (trace w))] net_world with
      | Ok (_, v) => messages (trace v) = [(300, [1; 2; 3]); (301, [4; 5])]
      | Fault _ => False
      end
  | Fault _ => False
  end.
Proof. vm_compute. auto. Qed.
