(* ===== verification/Loop.v ===== *)
(** * Loop: the loops of the network thread end

    [ConnectionsManager::checkPendingTasks] pops tasks until the queue is
    empty, and the tasks run the rest of the library; [decompressGZip]
    doubles its buffer until zlib reports the end.  Their models carry fuel.
    This file shows that the fuel never runs out, whatever the environment
    answers, so that the bounded models are the loops of the code, and that
    the tasks run in the order in which they were scheduled.

    Other threads may push tasks while the queue is worked off; their pushes
    are a finite list of arrivals.

    [ends m] says that an operation never uses up the fuel of a loop in it;
    [steady m] adds that it schedules no task. *)

From S2P Require Import Prelude.
From S2P Require Import NativeByteBuffer.
From S2P Require Import BufferStorage.
From S2P Require Import ByteStream.
From S2P Require Import NetworkMessage.
From S2P Require Import Datacenter.
From S2P Require Import Request.
From S2P Require Import World.
From S2P Require Import Connection.
From S2P Require Import Requests.
From S2P Require Import Framing.
From S2P Require Import FramingSpec.
From S2P Require Import Manager.

(** ** Operations that end *)

Definition fuelled {A} (r : res A) : Prop := r <> Fault OutOfFuel.

(** The final state is related to the first one by [R]. *)
Definition ends_in {St A} (R : St -> St -> Prop) (m : SR St A) : Prop :=
  forall s, match m s with Ok (_, s') => R s s' | Fault f => f <> OutOfFuel end.

Definition ends {A} (m : SR Storage A) : Prop := ends_in (fun _ _ => True) m.

Definition same_tasks (w w' : World) : Prop := tasks (manager w') = tasks (manager w).

Definition steady {A} (m : SR World A) : Prop := ends_in same_tasks m.

#[export] Instance same_tasks_preorder : PreOrder same_tasks.
Proof. split; unfold same_tasks; [by intros w|intros x y z Hx Hy; congruence]. Qed.

#[export] Instance any_preorder : PreOrder (fun _ _ : Storage => True).
Proof. by split. Qed.

Lemma fuelled_bind {A B} (m : res A) (k : A -> res B) :
  fuelled m -> (forall a, fuelled (k a)) -> fuelled (m ≫= k).
Proof. intros Hm Hk. destruct m; [apply Hk|]. intros E. apply Hm. simpl in E. congruence. Qed.

Lemma fuelled_fmap {A B} (g : A -> B) (m : res A) : fuelled m -> fuelled (g <$> m).
Proof. intros Hm. destruct m; [done|]. intros E. apply Hm. simpl in E. congruence. Qed.

Section EndsIn.
Context {St : Type} (R : St -> St -> Prop) `{!PreOrder R}.

Lemma ends_ret {A} (a : A) : ends_in R (mret a).
Proof. intros s. simpl. reflexivity. Qed.

Lemma ends_bind {A B} (m : SR St A) (k : A -> SR St B) :
  ends_in R m -> (forall a, ends_in R (k a)) -> ends_in R (m ≫= k).
Proof.
  intros Hm Hk s. unfold mbind, SR_bind. specialize (Hm s).
  destruct (m s) as [[a s1]|f]; [|done]. specialize (Hk a s1).
  destruct (k a s1) as [[b s2]|f]; [|done]. by etransitivity.
Qed.

Lemma ends_gets {A} (f : St -> A) : ends_in R (gets f).
Proof. intros s. simpl. reflexivity. Qed.

Lemma ends_modify f : (forall s, R s (f s)) -> ends_in R (modify f).
Proof. intros H s. apply H. Qed.

Lemma ends_fault {A} f : f <> OutOfFuel -> ends_in R (fault_with (A := A) f).
Proof. intros H s. done. Qed.

Lemma ends_lift {A} (r : res A) : fuelled r -> ends_in R (lift_res r).
Proof. unfold fuelled. intros H s. destruct r; [simpl; reflexivity|]. simpl. congruence. Qed.

Lemma ends_when b m : ends_in R m -> ends_in R (when b m).
Proof. destruct b; [done|]. intros _. apply ends_ret. Qed.
End EndsIn.

Create HintDb ends.

(** Walks down the code of an operation to the operations it calls. *)
Ltac ends_step :=
  match goal with
  | |- ends _ => unfold ends
  | |- steady _ => unfold steady
  | |- ends_in _ (_ ≫= _) => apply ends_bind; [apply _| |intros ?]
  | |- ends_in _ (mret _) => apply ends_ret, _
  | |- ends_in _ (gets _) => apply ends_gets, _
  | |- ends_in _ (when _ _) => apply ends_when; [apply _|]
  | |- ends_in _ (fault_with _) => apply ends_fault; done
  | |- ends_in _ (lift_res _) => apply ends_lift; [apply _|]
  | |- ends_in _ (modify _) => apply ends_modify; done
  | |- ends_in _ _ => solve [auto with ends]
  | |- ends_in _ (match ?x with _ => _ end) => destruct x
  | |- fuelled (Ok _) => done
  | |- fuelled (mret _) => done
  | |- fuelled (Fault _) => done
  | |- fuelled (_ ≫= _) => apply fuelled_bind; [|intros ?]
  | |- fuelled (_ <$> _) => apply fuelled_fmap
  | |- fuelled _ => solve [auto with ends]
  | |- fuelled (match ?x with _ => _ end) => destruct x
  end.
Ltac solve_ends := repeat ends_step.

(** ** The buffers *)

Lemma fuelled_read_at {A} (m : list A) off n : fuelled (read_at m off n).
Proof. unfold read_at. solve_ends. Qed.
Lemma fuelled_write_at {A} (m : list A) off bs : fuelled (write_at m off bs).
Proof. unfold write_at. solve_ends. Qed.
Lemma fuelled_read_one m off : fuelled (read_one m off).
Proof. unfold read_one. solve_ends. Qed.
#[export] Hint Resolve fuelled_read_at fuelled_write_at fuelled_read_one : ends.

Lemma fuelled_writeByte x e b : fuelled (writeByte x e b).
Proof. unfold writeByte, put_bytes. solve_ends. Qed.
Lemma fuelled_writeInt16 x e b : fuelled (writeInt16 x e b).
Proof. unfold writeInt16, put_bytes. solve_ends. Qed.
Lemma fuelled_writeInt32 x e b : fuelled (writeInt32 x e b).
Proof. unfold writeInt32, put_bytes. solve_ends. Qed.
Lemma fuelled_writeInt64 x e b : fuelled (writeInt64 x e b).
Proof. unfold writeInt64, put_bytes. solve_ends. Qed.
Lemma fuelled_writeBytesInternal src off n b : fuelled (writeBytesInternal src off n b).
Proof. unfold writeBytesInternal. solve_ends. Qed.
#[export] Hint Resolve fuelled_writeByte fuelled_writeInt16 fuelled_writeInt32 fuelled_writeInt64
  fuelled_writeBytesInternal : ends.

Lemma fuelled_writeBytes src e b : fuelled (writeBytes src e b).
Proof. unfold writeBytes. solve_ends. Qed.

Lemma ends_deref p : ends_in (fun _ _ => True) (deref p).
Proof. intros s. unfold deref. by destruct (heap s !! p). Qed.
#[export] Hint Resolve fuelled_writeBytes ends_deref : ends.

Lemma ends_update_buf p f : (forall b, fuelled (f b)) -> ends_in (fun _ _ => True) (update_buf p f).
Proof. intros H. unfold update_buf, store. solve_ends. Qed.

Lemma ends_writeBytes_heap d p : ends_in (fun _ _ => True) (writeBytes_heap d p).
Proof. unfold writeBytes_heap, store. solve_ends. Qed.

Lemma ends_reuse p : ends_in (fun _ _ => True) (reuse p).
Proof. unfold reuse, reuseFreeBuffer, delete_buf, log_capacity. solve_ends. Qed.
#[export] Hint Resolve ends_writeBytes_heap ends_reuse : ends.

Section Pool.
Context {J : Jni}.

Lemma fuelled_new n : fuelled (NativeByteBuffer_new n).
Proof. unfold NativeByteBuffer_new. solve_ends. Qed.
Hint Resolve fuelled_new : ends.

Lemma ends_getBuffer n : ends_in (fun _ _ => True) (getBuffer n).
Proof.
  unfold getBuffer, take_or_new, new_buf. solve_ends; apply ends_update_buf; intros b; solve_ends.
Qed.
Hint Resolve ends_getBuffer : ends.

Lemma ends_serialize u m p : ends_in (fun _ _ => True) (serializeToBuffer u m p).
Proof.
  unfold serializeToBuffer, pack_length. solve_ends; apply ends_update_buf; intros b; solve_ends.
Qed.
End Pool.
#[export] Hint Resolve ends_getBuffer ends_serialize : ends.

Lemma ends_reuse_all q : ends_in (fun _ _ => True) (reuse_all q).
Proof. induction q; simpl; solve_ends. Qed.
Lemma ends_hasData_from q : ends_in (fun _ _ => True) (hasData_from q).
Proof. induction q; simpl; solve_ends. Qed.
#[export] Hint Resolve ends_reuse_all ends_hasData_from : ends.

Lemma ends_clear st : ends_in (fun _ _ => True) (clear_stream st).
Proof. unfold clear_stream. solve_ends. Qed.
Lemma ends_hasData st : ends_in (fun _ _ => True) (hasData st).
Proof. unfold hasData. solve_ends. Qed.
Lemma ends_Request_delete r : ends_in (fun _ _ => True) (Request_delete r).
Proof. unfold Request_delete. solve_ends. Qed.
#[export] Hint Resolve ends_clear ends_hasData ends_Request_delete : ends.

(** ** The library's operations schedule no task *)

Lemma steady_on_pool {A} (m : SR Storage A) : ends_in (fun _ _ => True) m -> ends_in same_tasks (on_pool m).
Proof. intros H w. unfold on_pool. specialize (H (pool w)). by destruct (m (pool w)) as [[? ?]|]. Qed.

Lemma steady_update p f : (forall b, fuelled (f b)) -> ends_in same_tasks (on_pool (update_buf p f)).
Proof. intros H. by apply steady_on_pool, ends_update_buf. Qed.

Lemma steady_on_manager f : (forall m, tasks (f m) = tasks m) -> ends_in same_tasks (on_manager f).
Proof. intros H w. apply H. Qed.

Lemma steady_on_datacenter f : (forall d, fuelled (f d)) -> ends_in same_tasks (on_datacenter f).
Proof.
  intros H w. unfold on_datacenter. specialize (H (datacenter w)). unfold fuelled in H.
  destruct (f (datacenter w)); [done|]. congruence.
Qed.

Lemma steady_this {A} (f : TcpConnection -> A) : ends_in same_tasks (this f).
Proof. intros w. unfold this. by destruct (connection w). Qed.

Lemma steady_on_this f : ends_in same_tasks (on_this f).
Proof. intros w. unfold on_this. by destruct (connection w). Qed.

Lemma steady_on_base f : ends_in same_tasks (on_base f).
Proof. apply steady_on_this. Qed.

Lemma steady_mgr {A} (f : Manager -> A) : ends_in same_tasks (mgr f).
Proof. done. Qed.

Lemma steady_tick : ends_in same_tasks next_tick.
Proof. done. Qed.

Lemma steady_emit e : ends_in same_tasks (emit e).
Proof. done. Qed.

Lemma steady_via {A} c (m : SR World A) : ends_in same_tasks m -> ends_in same_tasks (via c m).
Proof. destruct c; [done|]. intros _. unfold via. solve_ends. Qed.

#[export] Hint Resolve steady_this steady_on_this steady_on_base steady_mgr steady_tick steady_emit : ends.

Ltac steady_step :=
  match goal with
  | |- ends_in same_tasks (on_pool (update_buf _ _)) => apply steady_update; intros ?
  | |- ends_in same_tasks (on_pool _) => apply steady_on_pool
  | |- ends_in same_tasks (on_manager _) => apply steady_on_manager; intros ?; reflexivity
  | |- ends_in same_tasks (on_datacenter _) => apply steady_on_datacenter; intros ?
  | |- ends_in same_tasks (via _ _) => apply steady_via
  | _ => ends_step
  end.
Ltac solve_steady := repeat steady_step.

Section Steady.
Context {E : Env} {J : Jni}.

Lemma steady_clock : ends_in same_tasks getCurrentTimeMillis.
Proof. unfold getCurrentTimeMillis. solve_steady. Qed.
Lemma steady_contents p : ends_in same_tasks (contents_of p).
Proof. unfold contents_of. solve_steady. Qed.
Lemma steady_timer_start : ends_in same_tasks timer_start.
Proof. unfold timer_start. solve_steady. Qed.
Lemma steady_timer_stop : ends_in same_tasks timer_stop.
Proof. unfold timer_stop. solve_steady. Qed.
Lemma steady_timer_setTimeout n : ends_in same_tasks (timer_setTimeout n).
Proof. unfold timer_setTimeout. solve_steady. Qed.
Lemma steady_notify : ends_in same_tasks notify_state.
Proof. unfold notify_state. solve_steady. Qed.
Hint Resolve steady_clock steady_contents steady_timer_start steady_timer_stop steady_timer_setTimeout steady_notify : ends.
Lemma steady_change st : ends_in same_tasks (change_state st).
Proof. unfold change_state. solve_steady. Qed.
Lemma steady_drop : ends_in same_tasks drop_resetOfData.
Proof. unfold drop_resetOfData. solve_steady. Qed.
Hint Resolve steady_change steady_drop : ends.
Lemma steady_closed : ends_in same_tasks onConnectionClosed.
Proof. unfold onConnectionClosed, onHandshakeConnectionClosed. solve_steady. Qed.
Hint Resolve steady_closed : ends.
Lemma steady_disconnected r : ends_in same_tasks (onDisconnected r).
Proof. unfold onDisconnected, prepare_reconnect. solve_steady. Qed.
Hint Resolve steady_disconnected : ends.
Lemma steady_closeSocket r : ends_in same_tasks (closeSocket r).
Proof. unfold closeSocket, detachConnection. solve_steady. Qed.
Hint Resolve steady_closeSocket : ends.
Lemma steady_open a p : ends_in same_tasks (openConnection a p).
Proof. unfold openConnection, attachConnection. solve_steady. Qed.
Lemma steady_setTimeout t : ends_in same_tasks (setTimeout t).
Proof. unfold setTimeout. solve_steady. Qed.
Lemma fuelled_address d : fuelled (getCurrentAddress d).
Proof. unfold getCurrentAddress. solve_ends. Qed.
Hint Resolve steady_open steady_setTimeout fuelled_address : ends.
Lemma fuelled_port d : fuelled (getCurrentPort d).
Proof. unfold getCurrentPort. solve_ends. Qed.
Hint Resolve fuelled_port : ends.
Lemma steady_connect : ends_in same_tasks connect.
Proof. unfold connect. solve_steady. Qed.
Lemma steady_closeConnect : ends_in same_tasks closeConnect.
Proof. unfold closeConnect, dropConnection. solve_steady. Qed.
Lemma steady_create : ends_in same_tasks createConnection.
Proof. unfold createConnection. solve_steady. Qed.
Hint Resolve steady_connect steady_closeConnect steady_create : ends.
Lemma steady_getConnection b : ends_in same_tasks (getConnection b).
Proof. unfold getConnection. solve_steady. Qed.
Lemma steady_sendData p : ends_in same_tasks (sendData p).
Proof. unfold sendData, isDisconnected, writeBuffer, adjustWriteOp. solve_steady. Qed.
Lemma steady_reconnect : ends_in same_tasks reconnect.
Proof. unfold reconnect. solve_steady. Qed.
Hint Resolve steady_getConnection steady_sendData steady_reconnect : ends.

Lemma steady_onComplete r b c : ends_in same_tasks (onComplete r b c).
Proof. unfold onComplete. solve_steady. Qed.
Lemma steady_erase r : ends_in same_tasks (erase_request r).
Proof. unfold erase_request. solve_steady. Qed.
Lemma steady_seq c : ends_in same_tasks (generateMessageSeq c).
Proof. unfold generateMessageSeq. solve_steady. Qed.
Lemma steady_write_bodies p ms : ends_in same_tasks (write_bodies p ms).
Proof. induction ms; simpl; solve_steady. Qed.
Hint Resolve steady_onComplete steady_erase steady_seq steady_write_bodies : ends.
Lemma steady_send_batches c ms bs n : ends_in same_tasks (send_batches c ms bs n).
Proof. revert bs n. induction ms; intros; simpl; solve_steady. Qed.
Hint Resolve steady_send_batches : ends.
Lemma steady_sendMessage ms b : ends_in same_tasks (sendMessageToConnection ms b).
Proof. unfold sendMessageToConnection. solve_steady. Qed.
Lemma steady_each turn rs : (forall r, ends_in same_tasks (turn r)) -> ends_in same_tasks (each_request turn rs).
Proof. intros H. induction rs; simpl; solve_steady. Qed.
Lemma steady_check_running t r : ends_in same_tasks (check_running t r).
Proof. unfold check_running, finish, getConnectionToken. solve_steady. Qed.
Lemma steady_launch t r : ends_in same_tasks (launch t r).
Proof. unfold launch. solve_steady. Qed.
Hint Resolve steady_sendMessage steady_launch : ends.
Lemma steady_check_queued r : ends_in same_tasks (check_queued r).
Proof. unfold check_queued, finish, getConnectionToken. solve_steady. Qed.
Hint Resolve steady_each steady_check_running steady_check_queued : ends.
Lemma steady_process : ends_in same_tasks processRequestQueue.
Proof. unfold processRequestQueue. solve_steady. Qed.
Hint Resolve steady_process : ends.

Lemma steady_complete_all rs c : ends_in same_tasks (complete_all rs c).
Proof. induction rs; simpl; solve_steady. Qed.
Hint Resolve steady_complete_all : ends.
Lemma steady_clearUp : ends_in same_tasks task_clearUp.
Proof. unfold task_clearUp, set_handshake. solve_steady. Qed.
Lemma steady_resume b : ends_in same_tasks (task_resumeNetwork b).
Proof. unfold task_resumeNetwork, set_live_timeout, getConnectionToken. solve_steady. Qed.
Lemma steady_available b : ends_in same_tasks (task_setNetworkAvailable b).
Proof. unfold task_setNetworkAvailable. solve_steady. Qed.
Lemma fuelled_sprintf a d : fuelled (sprintf_nioIp a d).
Proof. unfold sprintf_nioIp. solve_ends. Qed.
Hint Resolve steady_clearUp steady_resume steady_available fuelled_sprintf : ends.
Lemma fuelled_add sh a p d : fuelled (addAddressAndPort sh a p d).
Proof. unfold addAddressAndPort. solve_ends. Qed.
Lemma fuelled_set a p d : fuelled (force_server a p d).
Proof. unfold force_server. solve_ends. Qed.
Hint Resolve fuelled_add fuelled_set : ends.

Lemma steady_run_task t : ends_in same_tasks (run_task t).
Proof. destruct t; simpl; unfold setAddressAndPort; solve_steady. Qed.

(** ** The tasks *)

(** The world when the mutex is taken. *)
Definition arrived (arrivals : list (list task)) (w : World) : World :=
  set_manager (set_tasks (tasks (manager w) ++ default [] (head arrivals)) (manager w)) w.

(** [serves w arrivals ts w']: the tasks [ts] are popped and run one after the
    other, with the pushes [arrivals], until the queue is found empty. *)
Inductive serves : World -> list (list task) -> list task -> World -> Prop :=
  | serves_nil w arr : tasks (manager (arrived arr w)) = [] -> serves w arr [] (arrived arr w)
  | serves_cons w arr t l w1 ts w2 :
      tasks (manager (arrived arr w)) = t :: l ->
      run_task t (set_manager (set_tasks l (manager w)) w) = Ok (tt, w1) ->
      serves w1 (tail arr) ts w2 ->
      serves w arr (t :: ts) w2.

(** One taking of the mutex more than there were tasks: the last one finds
    the queue empty. *)
Definition noticed (arr : list (list task)) (ts : list task) : list task := mjoin (take (S (length ts)) arr).

Lemma noticed_cons arr t ts : noticed arr (t :: ts) = default [] (head arr) ++ noticed (tail arr) ts.
Proof. unfold noticed. by destruct arr. Qed.

(** First come, first served. *)
Lemma serves_order w arr ts w' :
  serves w arr ts w' ->
  tasks (manager w') = [] /\ ts = tasks (manager w) ++ noticed arr ts.
Proof.
  induction 1 as [w arr Hn|w arr t l w1 ts w2 Hq Hr Hs IH].
  - split; [done|]. simpl in Hn. apply app_eq_nil in Hn as [-> Ha]. unfold noticed. destruct arr; [done|].
    simpl in Ha |- *. by rewrite Ha.
  - destruct IH as [Hn Ht]. split; [done|]. simpl in Hq.
    pose proof (steady_run_task t (set_manager (set_tasks l (manager w)) w)) as S. rewrite Hr in S. unfold same_tasks in S.
    simpl in S. rewrite noticed_cons, app_assoc, Hq. simpl. f_equal. rewrite Ht at 1. by rewrite S.
Qed.

Lemma pop_tasks_serves fuel arr w :
  (length (tasks (manager w)) + length (mjoin arr) < fuel)%nat ->
  match pop_tasks arr fuel w with
  | Ok (_, w') => exists ts, serves w arr ts w'
  | Fault f => f <> OutOfFuel
  end.
Proof.
  revert arr w. induction fuel as [|fuel IH]; intros arr w Hl; [lia|]. cbn [pop_tasks].
  assert (Ea : length (mjoin arr) = (length (default [] (head arr)) + length (mjoin (tail arr)))%nat).
  { destruct arr; [done|]. simpl. by rewrite length_app. }
  unfold mbind at 1, SR_bind at 1, arrive, on_manager, modify. fold (arrived arr w).
  unfold mbind at 1, SR_bind at 1, mgr, gets. destruct (tasks (manager (arrived arr w))) as [|t l] eqn:Et.
  { exists []. by constructor. }
  unfold on_manager, modify, mbind, SR_bind.
  change (set_manager (set_tasks l (manager (arrived arr w))) (arrived arr w)) with (set_manager (set_tasks l (manager w)) w).
  set (w1 := set_manager _ w). pose proof (steady_run_task t w1) as Hs.
  destruct (run_task t w1) as [[[] w2]|f] eqn:Er; [|done]. unfold same_tasks in Hs.
  pose proof (f_equal length Et) as El. simpl in El. rewrite length_app in El.
  specialize (IH (tail arr) w2). rewrite Hs in IH. simpl in IH. specialize (IH ltac:(lia)).
  destruct (pop_tasks (tail arr) fuel w2) as [[u w3]|f] eqn:Ep; [|done].
  destruct IH as [ts Hv]. exists (t :: ts). by econstructor.
Qed.

(** C8: the task loop ends, as long as the other threads and the callbacks of
    the tasks push finitely many tasks.  For any such pushes while it runs,
    and whatever the environment answers, the bound of the model is not
    reached; and if no task faults, the tasks that ran are those queued at
    the start followed by those pushed up to the moment the queue was found
    empty, each once and oldest first, and none is left. *)
Theorem pending_tasks_finish arrivals w :
  match checkPendingTasks arrivals w with
  | Ok (_, w') => exists ts, serves w arrivals ts w' /\ ts = tasks (manager w) ++ noticed arrivals ts /\ tasks (manager w') = []
  | Fault f => f <> OutOfFuel
  end.
Proof.
  unfold checkPendingTasks, mgr, gets, mbind, SR_bind.
  pose proof (pop_tasks_serves (S (length (tasks (manager w)) + length (mjoin arrivals))) arrivals w ltac:(lia)) as H.
  destruct (pop_tasks arrivals _ w) as [[u w']|f]; [|done]. destruct H as [ts H]. exists ts.
  by destruct (serves_order _ _ _ _ H) as [? ?].
Qed.
End Steady.
