(* ===== verification/Gzip.v ===== *)
(** * Gzip: decompression of a received packet

    The correctness of [decompressGZip] ([ConnectionsManager.cpp]) against
    zlib's documented contract.  zlib is code outside the repository: the
    class [ZlibLaws] states what is documented, that on a complete stream
    [inflate] puts out the next bytes of the message, fills the space it is
    given while more are left, and reports the end with the last ones, or
    fails; and that the end of a broken or truncated stream is never
    reported.  From it the loop that doubles its buffer is shown to end: with
    the whole message and every other buffer of the pool untouched, or in
    [exit(1)]; a broken stream never gets through. *)

From S2P Require Import Prelude.
From S2P Require Import NativeByteBuffer.
From S2P Require Import BufferStorage.
From S2P Require Import ByteStream.
From S2P Require Import NetworkMessage.
From S2P Require Import Datacenter.
From S2P Require Import Request.
From S2P Require Import World.
From S2P Require Import Connection.
From S2P Require Import Requests.
From S2P Require Import Framing.
From S2P Require Import FramingSpec.

(** ** What the loop relies on *)

(** A return code of [inflate] that the loop takes as a failure: [Z_DATA_ERROR],
    [Z_BUF_ERROR], [Z_MEM_ERROR] and the others. *)
Definition failure (code : Z) : Prop := code <> Z_OK /\ code <> Z_STREAM_END.

Class ZlibLaws (E : Env) := {
  unzip : z_stream -> option (list Z);      (* the bytes still to come of a complete stream *)
  unzip_bytes : forall z msg, unzip z = Some msg -> Forall is_byte msg;
  inflate_space : forall z n, 0 < n -> let '(_, out, _) := inflate z n in zlen out <= n /\ Forall is_byte out;
  inflate_complete : forall z n msg, 0 < n -> unzip z = Some msg ->
    let '(code, out, z') := inflate z n in
    (code = Z_STREAM_END /\ out = msg) \/
    (code = Z_OK /\ out = take (Z.to_nat n) msg /\ n <= zlen msg /\ unzip z' = Some (drop (Z.to_nat n) msg)) \/
    failure code;
  inflate_broken : forall z n, 0 < n -> unzip z = None ->
    let '(code, _, z') := inflate z n in failure code \/ (code = Z_OK /\ unzip z' = None)
}.

(** ** Runs that may end the process

    [wpf F m Q w]: the run of [m] from [w] ends in [Q], or in a fault of [F]. *)

Definition wpf {A} (F : fault -> Prop) (m : SR World A) (Q : A -> World -> Prop) (w : World) : Prop :=
  match m w with Ok (a, w') => Q a w' | Fault f => F f end.

Lemma wpf_bind {A B} F (m : SR World A) (k : A -> SR World B) Q w :
  wpf F (m ≫= k) Q w = wpf F m (fun a w' => wpf F (k a) Q w') w.
Proof. unfold wpf, mbind, SR_bind. by destruct (m w) as [[a w']|]. Qed.

Lemma wpf_wp {A} F (m : SR World A) Q w : wp m Q w -> wpf F m Q w.
Proof. unfold wpf, wp. by destruct (m w) as [[a w']|]. Qed.

Lemma wpf_mono {A} F (m : SR World A) (P Q : A -> World -> Prop) w :
  wpf F m P w -> (forall a w', P a w' -> Q a w') -> wpf F m Q w.
Proof. unfold wpf. destruct (m w) as [[a w']|]; auto. Qed.

(** The largest block the pool keeps: [reuse] of a larger one is the
    use after free of [reuseFreeBuffer]. *)
Definition largest_block : Z := 128 * 1024 + 200.

(** ** The result buffer

    [q] holds the buffer [b] that was taken after the pool was [s0]; what
    others held then is as it was. *)

Record taken (s0 s : Storage) (q : addr) (b : NBuf) : Prop := {
  tk_pool : pool_wf s;
  tk_owned : owned s q;
  tk_new : ~ owned s0 q;
  tk_heap : heap s !! q = Some b;
  tk_wf : wf b;
  tk_position : _position b = 0;
  tk_class : pool_capacity b;
  tk_frame : forall x, owned s0 x -> owned s x /\ heap s !! x = heap s0 !! x
}.

Lemma taken_write s0 s q b b' :
  taken s0 s q b -> wf b' -> _position b' = 0 -> _capacity b' = _capacity b ->
  taken s0 (set_heap (<[q := b']> (heap s)) s) q b'.
Proof.
  intros [P O N H W Ps C F] W' P' C'. constructor; auto using pool_wf_insert, owned_insert.
  - simpl. apply lookup_insert_eq.
  - unfold pool_capacity in *. by rewrite C'.
  - intros x Hx. destruct (F x Hx) as [Ho Hh]. split; [by apply owned_insert|]. simpl.
    rewrite lookup_insert_ne; [done|]. by intros ->.
Qed.

Lemma capacity_for_min n : 8 <= capacity_for n.
Proof.
  unfold capacity_for. destruct (class_of n) as [c|] eqn:Ec; [apply byteCount_bound|].
  apply class_of_big in Ec. lia.
Qed.

Lemma capacity_for_le n : capacity_for n <= Z.max n largest_block.
Proof.
  unfold capacity_for, largest_block. destruct (class_of n) as [c|]; [|lia]. pose proof (byteCount_bound c). lia.
Qed.

(** The unread bytes without the first. *)
Lemma tail_contents b : wf b -> _position b < _limit b ->
  slice (buffer b) (_position b + 1) (_limit b - _position b - 1) = tail (contents b).
Proof.
  intros H Hr. wf_facts H. unfold contents.
  replace (_limit b - _position b) with (1 + (_limit b - _position b - 1)) at 2 by lia.
  rewrite slice_app by lia. unfold slice at 2. change (Z.to_nat 1) with 1%nat. unfold zlen in *.
  destruct (drop (Z.to_nat (_position b)) (buffer b)) as [|x l] eqn:Ed; [|done].
  apply (f_equal length) in Ed. rewrite length_drop in Ed. simpl in Ed. lia.
Qed.

Section Gzip.
Context {E : Env} {J : Jni} {B : JniBlocks J}.

Lemma take_buffer s0 s size :
  pool_wf s -> is_u32 size -> (forall x, owned s0 x -> owned s x /\ heap s !! x = heap s0 !! x) ->
  getBuffer size s = Fault ProcessExit \/
  exists q b s', getBuffer size s = Ok (q, s') /\ taken s0 s' q b /\ _capacity b = capacity_for size /\
    fresh_from s q s'.
Proof.
  intros Hs Hz F.
  assert (Hc : (none_free size s -> allocates (capacity_for size)) \/ getBuffer size s = Fault ProcessExit).
  { destruct (none_free_dec size s), (allocates_or_exit (capacity_for size)); auto using getBuffer_exit. by left. }
  destruct Hc as [Ha|]; [right|by left].
  destruct (getBuffer_full size s Hs Hz Ha) as (q & b & s' & Hg & Hf & Hh & Hw & Hp & _ & Hc).
  exists q, b, s'. split; [done|]. split; [|done]. destruct Hf as (Hs' & Hn & Ho & K).
  constructor; try done.
  - intros Hq. apply Hn, F, Hq.
  - by eapply capacity_for_pool.
  - intros x Hx. destruct (F x Hx) as [Ho' Hh']. destruct (K x Ho') as [? ->]. done.
Qed.

(** [memcpy(newResult->bytes(), result->bytes(), result->capacity())] *)
Definition copy_block (b n : NBuf) : res NBuf :=
  src ← read_at (buffer b) 0 (capacity b); m ← write_at (buffer n) 0 src; Ok (set_buffer m n).

Lemma copy_block_ok b n :
  wf b -> wf n -> _capacity b <= _capacity n ->
  exists n', copy_block b n = Ok n' /\ wf n' /\ _position n' = _position n /\ _capacity n' = _capacity n /\
    slice (buffer n') 0 (_capacity b) = slice (buffer b) 0 (_capacity b).
Proof.
  intros Hb Hn Hc. wf_facts Hb. wf_facts Hn. unfold copy_block, capacity.
  rewrite read_at_Ok by lia. set (src := slice (buffer b) 0 (_capacity b)).
  assert (Hz : zlen src = _capacity b) by (apply zlen_slice; lia).
  cbn [mbind res_bind]. rewrite write_at_Ok by lia. cbn [mbind res_bind].
  eexists. split; [reflexivity|]. split; [|split; [done|split; [done|]]].
  - apply wf_set_buffer; [done|apply zlen_splice; lia|]. apply Forall_splice; [apply Hn|].
    by apply Forall_slice, Hb.
  - simpl. rewrite <- Hz. apply slice_splice_same; lia.
Qed.

(** The block moves to one of at least twice its size; giving back one above
    the pool's largest uses it after its deletion. *)
Lemma grow {A} s0 q b (k : NBuf -> addr -> NBuf -> SR World A) F Q w :
  taken s0 (pool w) q b -> 8 <= _capacity b < 2 ^ 31 -> F ProcessExit ->
  (if _capacity b <=? largest_block then
     forall q' b' s', taken s0 s' q' b' -> _capacity b' = capacity_for (2 * _capacity b) ->
       slice (buffer b') 0 (_capacity b) = slice (buffer b) 0 (_capacity b) ->
       wpf F (k b q' b') Q (set_pool s' w)
   else F UseAfterFree) ->
  wpf F (b ← on_pool (deref q);
      newResult ← on_pool (getBuffer (u32 (capacity b * 2)));
      on_pool (update_buf newResult (copy_block b));;
      n ← on_pool (deref newResult);
      on_pool (reuse q);;
      k b newResult n) Q w.
Proof.
  intros T Hl HF HQ. rewrite wpf_bind. apply wpf_wp. eapply wp_deref; [apply T|].
  unfold capacity. rewrite wrapU_id by (split; lia).
  rewrite wpf_bind. unfold wpf at 1, on_pool at 1.
  destruct (take_buffer s0 (pool w) (_capacity b * 2) (tk_pool _ _ _ _ T)) as [->|(q' & n & s1 & -> & T1 & Hc & Hf)];
    [split; lia|apply T|done|].
  pose proof (capacity_for_ge (_capacity b * 2)) as Hge. rewrite <- Hc in Hge.
  destruct (copy_block_ok b n (tk_wf _ _ _ _ T) (tk_wf _ _ _ _ T1)) as (n' & Hk & Wn & Pn & Cn & Sn); [lia|].
  rewrite wpf_bind. apply wpf_wp. eapply wp_update_res; [apply T1|exact Hk|].
  assert (T2 := taken_write _ _ _ _ n' T1 Wn ltac:(rewrite Pn; apply T1) Cn).
  rewrite wpf_bind. apply wpf_wp. eapply wp_deref; [apply T2|].
  destruct Hf as (_ & Hn & _ & K). destruct (K q (tk_owned _ _ _ _ T)) as [Hqo Hqh].
  assert (Hne : q <> q') by (intros ->; by apply Hn, T).
  assert (Hqb : heap (pool (poke q' n' (set_pool s1 w))) !! q = Some b) by (simpl; rewrite lookup_insert_ne, Hqh by done; apply T).
  rewrite wpf_bind. destruct (Z.leb_spec (_capacity b) largest_block) as [Hs|Hs].
  - destruct (reuse_spec q b (pool (poke q' n' (set_pool s1 w)))) as (s3 & Hr & P3 & _ & K3);
      [apply T2|by apply owned_insert|done|apply T|apply T|done|].
    apply wpf_wp. rewrite wp_on_pool. eapply wp_eq; [exact Hr|]. apply HQ; [|rewrite Cn, Hc; f_equal; lia|done].
    destruct T2 as [_ O2 N2 H2 W2 Ps2 C2 F2]. destruct (K3 q' (not_eq_sym Hne) O2) as [O3 H3].
    constructor; try done; [by rewrite H3|]. intros x Hx. destruct (F2 x Hx) as [Ho Hh].
    destruct (K3 x) as [Ho3 Hh3]; [|done|by rewrite Hh3].
    intros ->. by apply (tk_new _ _ _ _ T).
  - unfold wpf at 1, on_pool. by rewrite (reuse_big_use_after_free q b).
Qed.

(** [inflate] writes behind the bytes that are there. *)
Lemma put_out s0 q b off out done Q w :
  taken s0 (pool w) q b -> slice (buffer b) 0 off = done -> zlen done = off -> Forall is_byte out ->
  off + zlen out <= _capacity b ->
  (forall b' s', taken s0 s' q b' -> _capacity b' = _capacity b ->
     slice (buffer b') 0 (off + zlen out) = done ++ out -> Q tt (set_pool s' w)) ->
  wp (on_pool (update_buf q (fun b => m ← write_at (buffer b) off out; Ok (set_buffer m b)))) Q w.
Proof.
  intros T Hd Hz Hb Hl HQ. destruct T as [P O N H W Ps C F] eqn:ET. wf_facts W.
  pose proof (zlen_nonneg done). pose proof (zlen_nonneg out).
  eapply wp_update_res; [done|rewrite write_at_Ok by lia; reflexivity|].
  eapply HQ; [apply (taken_write _ _ _ _ _ T); simpl|done|].
  - apply wf_set_buffer; [done|apply zlen_splice; lia|]. apply Forall_splice; [apply W|done].
  - done.
  - done.
  - simpl. rewrite slice_app by lia. rewrite slice_splice_before, slice_splice_same by lia. by rewrite Hd.
Qed.

(** The end of the loop: the limit is set to [total_out]. *)
Lemma inflate_end s0 q b n done w :
  taken s0 (pool w) q b -> slice (buffer b) 0 n = done -> zlen done = n -> n <= _capacity b ->
  wp (on_pool (update_buf q (fun b => Ok (limit_to n b)));; mret q)
    (fun r w' => exists b' s', w' = set_pool s' w /\ taken s0 s' r b' /\ contents b' = done) w.
Proof.
  intros T Hd Hn Hc. pose proof (zlen_nonneg done). pose proof (tk_wf _ _ _ _ T) as W.
  pose proof (tk_position _ _ _ _ T) as Ps.
  rewrite wp_bind. eapply wp_update_res; [apply T|reflexivity|]. rewrite wp_ret.
  rewrite limit_to_in by lia. eexists _, _. split; [reflexivity|]. split.
  - apply (taken_write _ _ _ _ _ T); [apply wf_set_limit; [done|lia]|done|done].
  - unfold contents. simpl. by rewrite Ps, Z.sub_0_r.
Qed.

(** One turn of the loop. *)
Lemma inflate_turn fuel z q off avail total :
  inflate_loop (S fuel) z q off avail total =
    let '(retCode, out, z') := inflate z avail in
    on_pool (update_buf q (fun b => m ← write_at (buffer b) off out; Ok (set_buffer m b)));;
    let total := u32 (total + zlen out) in
    if retCode =? Z_STREAM_END then on_pool (update_buf q (fun b => Ok (limit_to total b)));; mret q
    else if retCode =? Z_OK then
      b ← on_pool (deref q);
      newResult ← on_pool (getBuffer (u32 (capacity b * 2)));
      on_pool (update_buf newResult (copy_block b));;
      n ← on_pool (deref newResult);
      on_pool (reuse q);;
      inflate_loop fuel z' newResult (capacity b) (u32 (capacity n - capacity b)) total
    else fault_with ProcessExit.
Proof. reflexivity. Qed.

Context {ZL : ZlibLaws E}.

Definition exits (f : fault) : Prop := f = ProcessExit.

(** A failure of zlib ends the process. *)
Lemma failure_exits {A} code F (k1 k2 : SR World A) Q w :
  failure code -> F ProcessExit ->
  wpf F (if code =? Z_STREAM_END then k1 else if code =? Z_OK then k2 else fault_with ProcessExit) Q w.
Proof.
  intros [H1 H2] HF. destruct (Z.eqb_spec code Z_STREAM_END); [done|]. by destruct (Z.eqb_spec code Z_OK).
Qed.

(** The loop on a complete stream: [sofar] is what has been put out.  The
    capacity at least doubles in each turn that does not end the loop, and a
    block that is larger than the largest one of the pool ends it. *)
Lemma inflate_loop_ok fuel z msg s0 q b off sofar w :
  taken s0 (pool w) q b -> slice (buffer b) 0 off = sofar -> zlen sofar = off -> unzip z = Some msg ->
  0 < _capacity b - off -> 8 <= _capacity b -> zlen (sofar ++ msg) <= largest_block ->
  largest_block < _capacity b * 2 ^ Z.of_nat fuel ->
  wpf exits (inflate_loop (S fuel) z q off (_capacity b - off) off)
    (fun r w' => exists b' s', w' = set_pool s' w /\ taken s0 s' r b' /\ contents b' = sofar ++ msg) w.
Proof.
  revert z msg q b off sofar w. induction fuel as [|fuel IH]; intros z msg q b off sofar w T Hd Hz Hu Ha H8 Hl Hf;
    pose proof (zlen_nonneg sofar); pose proof (zlen_nonneg msg); pose proof (unzip_bytes z msg Hu) as Hb;
    rewrite zlen_app in Hl; unfold largest_block in *;
    pose proof (inflate_space z (_capacity b - off) Ha) as Hi; pose proof (inflate_complete z _ msg Ha Hu) as Hc;
    rewrite inflate_turn; destruct (inflate z (_capacity b - off)) as [[code out] z']; destruct Hi as [Hn Hbo];
    rewrite wpf_bind; apply wpf_wp; (eapply put_out; [done..|lia|]); intros b' s' T' C' S';
    destruct Hc as [[-> ->]|[(-> & -> & Hm & Hu')|Hc]]; try (by apply failure_exits).
  1, 3: rewrite Z.eqb_refl, wrapU_id by (split; lia); apply wpf_wp;
    eapply wp_mono; [eapply (inflate_end s0 q b'); [done|done|rewrite zlen_app; lia|lia]|];
    intros r w' (b2 & s2 & -> & T2 & C2); by exists b2, s2.
  - rewrite Z.pow_0_r in Hf. lia.
  - assert (Ht : zlen (take (Z.to_nat (_capacity b - off)) msg) = _capacity b - off).
    { unfold zlen in *. rewrite length_take. lia. }
    rewrite Ht in *. change (Z_OK =? Z_STREAM_END) with false. rewrite Z.eqb_refl. cbv iota.
    replace (off + (_capacity b - off)) with (_capacity b) in * by lia.
    rewrite wrapU_id by (split; lia).
    apply (grow s0 q b' (fun c q' n => inflate_loop (S fuel) z' q' (capacity c) (u32 (capacity n - capacity c)) (_capacity b)));
      [done|lia|done|].
    destruct (Z.leb_spec (_capacity b') largest_block) as [_|Hbig]; [|unfold largest_block in Hbig; lia].
    intros q2 b2 s2 T2 C2 S2. pose proof (tk_wf _ _ _ _ T2) as W2. wf_facts W2. unfold capacity. rewrite C' in *.
    pose proof (capacity_for_ge (2 * _capacity b)). rewrite wrapU_id by (split; lia).
    eapply wpf_mono; [apply (IH z' (drop (Z.to_nat (_capacity b - off)) msg) q2 b2 (_capacity b) _ (set_pool s2 (set_pool s' w)) T2 S2)|].
    + rewrite S', zlen_app. lia.
    + done.
    + lia.
    + lia.
    + rewrite S', <- app_assoc, take_drop, zlen_app. unfold largest_block. lia.
    + unfold largest_block. rewrite Nat2Z.inj_succ, Z.pow_succ_r in Hf by lia. nia.
    + intros r w' (b3 & s3 & -> & T3 & C3). exists b3, s3. split; [done|]. split; [done|].
      by rewrite C3, S', <- app_assoc, take_drop.
Qed.

Definition exits_or_freed (f : fault) : Prop := f = ProcessExit \/ f = UseAfterFree.

(** The loop on a broken stream: it is never left with a result. *)
Lemma inflate_loop_broken fuel z s0 q b off total w :
  taken s0 (pool w) q b -> unzip z = None -> 0 <= off < _capacity b -> 8 <= _capacity b < 2 ^ 30 ->
  2 * largest_block < _capacity b * 2 ^ Z.of_nat fuel ->
  wpf exits_or_freed (inflate_loop (S fuel) z q off (_capacity b - off) total) (fun _ _ => False) w.
Proof.
  revert z q b off total w. induction fuel as [|fuel IH]; intros z q b off total w T Hu Ho H8 Hf;
    unfold largest_block in *; pose proof (tk_wf _ _ _ _ T) as Wb; wf_facts Wb;
    pose proof (inflate_space z (_capacity b - off) ltac:(lia)) as Hi;
    pose proof (inflate_broken z (_capacity b - off) ltac:(lia) Hu) as Hc;
    rewrite inflate_turn; destruct (inflate z (_capacity b - off)) as [[code out] z']; destruct Hi as [Hn Hbo];
    rewrite wpf_bind; apply wpf_wp; (eapply put_out; [done|done|apply zlen_slice; lia|done|lia|]); intros b' s' T' C' S';
    destruct Hc as [Hc|[-> Hu']]; try (apply failure_exits; [done|by left]);
    change (Z_OK =? Z_STREAM_END) with false; rewrite Z.eqb_refl; cbv iota.
  1: eapply (grow s0 q b' (fun c q' n => fault_with OutOfFuel)); [done|lia|by left|].
  2: eapply (grow s0 q b' (fun c q' n => inflate_loop (S fuel) z' q' (capacity c) (u32 (capacity n - capacity c)) _));
    [done|lia|by left|].
  all: destruct (Z.leb_spec (_capacity b') largest_block) as [Hs|Hbig]; [|by right]; unfold largest_block in Hs.
  - rewrite Z.pow_0_r in Hf. lia.
  - intros q2 b2 s2 T2 C2 S2. pose proof (tk_wf _ _ _ _ T2) as W2. wf_facts W2. unfold capacity. rewrite C' in *.
    pose proof (capacity_for_ge (2 * _capacity b)). pose proof (capacity_for_le (2 * _capacity b)) as Hle.
    unfold largest_block in Hle. rewrite wrapU_id by (split; lia).
    apply (IH z' q2 b2 (_capacity b) _ (set_pool s2 (set_pool s' w)) T2); [done|lia|lia|].
    rewrite Nat2Z.inj_succ, Z.pow_succ_r in Hf by lia. nia.
Qed.

(** C11: a compressed packet body (at most 65535 bytes).  When zlib takes it as
    a complete stream whose message is no longer than the largest block of
    the pool, the loop ends with [exit(1)], because zlib failed or no memory
    was left, or returns a buffer that holds exactly the message, belongs to
    the caller, and leaves the buffers of the others as they were.  When the
    stream is broken or truncated nothing is returned: the process ends or,
    once the block is larger than the pool's largest, runs into the use after
    free of [reuseFreeBuffer].  When zlib refuses it at once, it ends. *)
Theorem decompress_whole p b w :
  pool_wf (pool w) -> owned (pool w) p -> heap (pool w) !! p = Some b -> wf b -> 0 < remaining b <= 65535 ->
  match inflateInit2 (tail (contents b)) with
  | None => decompressGZip p w = Fault ProcessExit
  | Some z =>
      match unzip z with
      | Some msg => zlen msg <= largest_block ->
          decompressGZip p w = Fault ProcessExit \/
          exists q b' s', decompressGZip p w = Ok (q, set_pool s' w) /\ heap s' !! q = Some b' /\ wf b' /\
            contents b' = msg /\ pool_wf s' /\ owned s' q /\ ~ owned (pool w) q /\
            (forall x, owned (pool w) x -> owned s' x /\ heap s' !! x = heap (pool w) !! x)
      | None => decompressGZip p w = Fault ProcessExit \/ decompressGZip p w = Fault UseAfterFree
      end
  end.
Proof.
  intros Hp Ho Hb Hw Hr. rewrite remaining_wf in Hr by done. wf_facts Hw.
  assert (Hd : decompressGZip p w = match inflateInit2 (tail (contents b)) with
    | None => Fault ProcessExit
    | Some z => (result ← on_pool (getBuffer (u32 ((_limit b - _position b - 1) * 4)));
                 r ← on_pool (deref result); inflate_loop 32 z result 0 (capacity r) 0) w
    end).
  { unfold decompressGZip. rewrite (bind_Ok _ _ w b w) by (unfold on_pool; rewrite (deref_Ok _ _ _ Hb); by destruct w).
    unfold remaining, position, bytes.
    rewrite (wrapU_id 32 (_limit b - _position b)), (wrapU_id 32 (_limit b - _position b - 1)) by (split; lia).
    rewrite (bind_Ok _ _ w (tail (contents b)) w) by (rewrite read_at_Ok by lia; by rewrite (tail_contents b Hw) by lia).
    by destruct (inflateInit2 (tail (contents b))). }
  rewrite Hd. destruct (inflateInit2 (tail (contents b))) as [z|]; [|done].
  rewrite wrapU_id by (split; lia). set (size := (_limit b - _position b - 1) * 4).
  match goal with |- context [(on_pool (getBuffer size) ≫= ?k) w] =>
    replace ((on_pool (getBuffer size) ≫= k) w)
      with (match getBuffer size (pool w) with Ok (q, s') => k q (set_pool s' w) | Fault f => Fault f end)
      by (unfold mbind, SR_bind, on_pool; by destruct (getBuffer size (pool w)) as [[? ?]|]) end.
  destruct (take_buffer (pool w) (pool w) size Hp) as [->|(q & r & s' & -> & T & Hc & _)]; [split; lia|done|by destruct (unzip z); [intros _|]; left|].
  rewrite (bind_Ok _ _ (set_pool s' w) r (set_pool s' w)) by (unfold on_pool; simpl; by rewrite (deref_Ok q r s' (tk_heap _ _ _ _ T))).
  pose proof (capacity_for_min size). pose proof (capacity_for_le size) as Hle.
  unfold largest_block in Hle. unfold capacity. rewrite <- (Z.sub_0_r (_capacity r)).
  destruct (unzip z) as [msg|] eqn:Ez.
  - intros Hl. assert (G := inflate_loop_ok 31 z msg (pool w) q r 0 [] (set_pool s' w) T).
    unfold wpf, exits in G. specialize (G eq_refl eq_refl Ez ltac:(lia) ltac:(lia) Hl ltac:(unfold largest_block; simpl Z.of_nat; lia)).
    destruct (inflate_loop _ _ _ _ _ _ _) as [[q' w']|f]; [|left; by f_equal]. right.
    destruct G as (b' & s2 & -> & [T1 T2 T3 T4 T5 T6 T7 T8] & C). exists q', b', s2. done.
  - assert (G := inflate_loop_broken 31 z (pool w) q r 0 0 (set_pool s' w) T).
    unfold wpf, exits_or_freed in G. specialize (G Ez ltac:(lia) ltac:(lia) ltac:(unfold largest_block; simpl Z.of_nat; lia)).
    destruct (inflate_loop _ _ _ _ _ _ _) as [[q' w']|f]; [done|]. destruct G as [-> | ->]; auto.
Qed.
End Gzip.

(** ** A run-length decoder as zlib *)

(** [count; byte] pairs; a count without a byte is a truncated stream. *)
Fixpoint run_lengths (bs : list Z) : list Z :=
  match bs with
  | n :: x :: bs' => replicate (Z.to_nat n) x ++ run_lengths bs'
  | _ => []
  end.

Definition rle_env : Env := {|
  clock_gettime := @clock_gettime quiet_env;
  sys_socket := @sys_socket quiet_env;
  sys_inet_pton := @sys_inet_pton quiet_env;
  sys_fcntl := @sys_fcntl quiet_env;
  sys_connect := @sys_connect quiet_env;
  sys_epoll_ctl := @sys_epoll_ctl quiet_env;
  sys_epoll_wait := @sys_epoll_wait quiet_env;
  sys_getsockopt := @sys_getsockopt quiet_env;
  sys_recv := @sys_recv quiet_env;
  sys_send := @sys_send quiet_env;
  onHandshakeConnected := @onHandshakeConnected quiet_env;
  random_shuffle := @random_shuffle quiet_env;
  z_stream := bool * list Z;       (* whether it is complete, and the output *)
  inflateInit2 := fun bs => match bs with [] => None | _ => Some (Nat.even (length bs), run_lengths bs) end;
  inflate := fun '(whole, z) n =>
    (if zlen z <=? n then (if whole : bool then Z_STREAM_END else -5) else Z_OK, u8 <$> take (Z.to_nat n) z,
     (whole, drop (Z.to_nat n) z));
  uninitialised := 0
|}.

#[export] Instance rle_laws : ZlibLaws rle_env.
Proof.
  refine {| unzip := fun z : @z_stream rle_env => if z.1 then Some (u8 <$> z.2) else None |}.
  - intros [[] z] msg; simpl; [|done]. intros [= <-]. apply Forall_fmap, Forall_true. intros x. by apply wrapU_range.
  - intros [whole z] n Hn. simpl. unfold zlen. rewrite length_fmap, length_take. split; [lia|].
    apply Forall_fmap, Forall_true. intros x. by apply wrapU_range.
  - intros [[] z] n msg Hn; simpl; [|done]. intros [= <-]. unfold zlen. rewrite length_fmap.
    destruct (Z.leb_spec (Z.of_nat (length z)) n); [left|right; left].
    + by rewrite take_ge by lia.
    + rewrite fmap_take, fmap_drop. split; [done|]. split; [done|]. split; [lia|done].
  - intros [[] z] n Hn; simpl; [done|]. intros _. destruct (zlen z <=? n); [by left|by right].
Defined.

(** Four compressed bytes that unpack to 300: the block of 128 bytes is
    replaced by one of 1224.  Without the last byte the stream is truncated,
    and an empty one is refused. *)
Lemma decompress_whole_witness :
  let w := demo_world (bare_pool [small_buf [7; 250; 65; 50; 66]; small_buf [7; 250; 65; 50]; small_buf [7]]) in
  (exists q b' s', @decompressGZip rle_env plain_jni 1%positive w = Ok (q, set_pool s' w) /\ heap s' !! q = Some b' /\
    wf b' /\ contents b' = replicate 250 65 ++ replicate 50 66 /\ pool_wf s' /\ owned s' q /\ ~ owned (pool w) q /\
    (forall x, owned (pool w) x -> owned s' x /\ heap s' !! x = heap (pool w) !! x)) /\
  (@decompressGZip rle_env plain_jni 2%positive w = Fault ProcessExit \/
   @decompressGZip rle_env plain_jni 2%positive w = Fault UseAfterFree) /\
  @decompressGZip rle_env plain_jni 3%positive w = Fault ProcessExit.
Proof.
  intros w. assert (Ok1 : forall bs, (length bs <= 8)%nat -> Forall is_byte bs -> wf (small_buf bs)) by (intros; by apply wf_small).
  assert (P : pool_wf (pool w)) by apply pool_wf_bare.
  assert (O : forall p, is_Some (heap (pool w) !! p) -> owned (pool w) p) by (intros; by apply owned_bare).
  split; [|split].
  - destruct (@decompress_whole rle_env plain_jni _ rle_laws 1%positive (small_buf [7; 250; 65; 50; 66]) w) as [H|H];
      [done|apply O; by eexists|done|apply Ok1; [simpl; lia|repeat constructor; done]|done|vm_compute; discriminate|by vm_compute in H|].
    exact H.
  - apply (@decompress_whole rle_env plain_jni _ rle_laws 2%positive (small_buf [7; 250; 65; 50]) w);
      [done|apply O; by eexists|done|apply Ok1; [simpl; lia|repeat constructor; done]|done].
  - apply (@decompress_whole rle_env plain_jni _ rle_laws 3%positive (small_buf [7]) w);
      [done|apply O; by eexists|done|apply Ok1; [simpl; lia|repeat constructor; done]|done].
Defined.
