(* ===== verification/Wakeup.v ===== *)
(** * Wakeup: how the upper layer wakes the network thread

    Models the descriptors the constructor of [ConnectionsManager] sets up,
    [wakeup], the two branches of [EventsDispatcher::onEvent] that drain a
    descriptor, and the protocol between the threads that call
    [scheduleTask] and the network thread in [select].

    The kernel's side is what the manual pages say: [F_SETFD] changes the
    descriptor flags, of which [FD_CLOEXEC] is the only one; a pipe is made
    blocking; an [eventfd] is a 64-bit counter that [eventfd_read] takes to
    zero; an edge-triggered descriptor is reported once after each write as
    long as it is readable. *)

From S2P Require Import Prelude.
From S2P Require Import World.

Inductive EventType : Type :=
  | EventTypeConnection | EventTypePip | EventTypeTimer | EventTypeFd.

#[export] Instance EventType_eq_dec : EqDecision EventType.
Proof. solve_decision. Defined.

(** ** The descriptors of the manager *)

Record LoopFds : Type := mkLoopFds {
  epollFd : Z;
  eventFd : Z;
  pipeFd : option (Z * Z);                  (* static storage: null at first *)
  watched : list (Z * EventType * Z);       (* what epoll watches, with the event mask *)
  nonblocking : list Z;                     (* descriptors with O_NONBLOCK in their status *)
  closeOnExec : list Z                      (* descriptors with FD_CLOEXEC *)
}.

Definition set_epollFd (x : Z) (m : LoopFds) : LoopFds :=
  mkLoopFds x (eventFd m) (pipeFd m) (watched m) (nonblocking m) (closeOnExec m).
Definition set_eventFd (x : Z) (m : LoopFds) : LoopFds :=
  mkLoopFds (epollFd m) x (pipeFd m) (watched m) (nonblocking m) (closeOnExec m).
Definition set_pipeFd (x : option (Z * Z)) (m : LoopFds) : LoopFds :=
  mkLoopFds (epollFd m) (eventFd m) x (watched m) (nonblocking m) (closeOnExec m).
Definition add_watched (x : Z * EventType * Z) (m : LoopFds) : LoopFds :=
  mkLoopFds (epollFd m) (eventFd m) (pipeFd m) (x :: watched m) (nonblocking m) (closeOnExec m).
Definition add_nonblocking (x : Z) (m : LoopFds) : LoopFds :=
  mkLoopFds (epollFd m) (eventFd m) (pipeFd m) (watched m) (x :: nonblocking m) (closeOnExec m).
Definition add_closeOnExec (x : Z) (m : LoopFds) : LoopFds :=
  mkLoopFds (epollFd m) (eventFd m) (pipeFd m) (watched m) (nonblocking m) (x :: closeOnExec m).

Definition FD_CLOEXEC : Z := 1.
Definition O_NONBLOCK : Z := 2048.

(** The answers of the kernel during the set-up. *)
Class Kernel := {
  k_epoll_create : Z;
  k_getfd : Z -> Z;                 (* fcntl(fd, F_GETFD) *)
  k_setfd : Z -> Z -> Z;            (* the result of fcntl(fd, F_SETFD, flags) *)
  k_eventfd : Z;
  k_epoll_add : Z -> Z;             (* the result of epoll_ctl(EPOLL_CTL_ADD) *)
  k_pipe : option (Z * Z)           (* None: pipe() fails *)
}.

Section Startup.
Context {K : Kernel}.

(** [fcntl(fd, F_SETFD, flags)]: the flags other than [FD_CLOEXEC] are
    ignored. *)
Definition fcntl_setfd (fd flags : Z) : SR LoopFds Z :=
  let r := k_setfd fd flags in
  when (negb (r =? -1) && Z.testbit flags 0) (modify (add_closeOnExec fd));;
  mret r.

Definition exit_if (b : bool) : SR LoopFds unit := if b then fault_with ProcessExit else mret tt.

(** The two ends of the pipe get the same four lines. *)
Definition setup_pipe_end (fd : Z) : SR LoopFds unit :=
  let flags := k_getfd fd in
  exit_if (flags =? -1);;
  r ← fcntl_setfd fd (Z.lor flags O_NONBLOCK);
  exit_if (r =? -1).

Definition setup_epoll : SR LoopFds unit :=
  let fd := k_epoll_create in
  modify (set_epollFd fd);;
  exit_if (fd =? -1);;
  let flags := k_getfd fd in
  when (Z.lor flags FD_CLOEXEC =? 0) (fcntl_setfd fd (Z.lor flags FD_CLOEXEC);; mret tt).

Definition setup_eventfd : SR LoopFds unit :=
  let fd := k_eventfd in
  modify (set_eventFd fd);;
  when (negb (fd =? -1))
    (modify (add_nonblocking fd);;
     if k_epoll_add fd =? -1 then modify (set_eventFd (-1))
     else modify (add_watched (fd, EventTypeFd, Z.lor EPOLLIN EPOLLET))).

Definition setup_pipe : SR LoopFds unit :=
  match k_pipe with
  | None => fault_with ProcessExit
  | Some (r, w) =>
      modify (set_pipeFd (Some (r, w)));;
      setup_pipe_end r;;
      setup_pipe_end w;;
      exit_if (negb (k_epoll_add r =? 0));;
      modify (add_watched (r, EventTypePip, EPOLLIN))
  end.

(** [ConnectionsManager::ConnectionsManager], on the descriptors. *)
Definition ConnectionsManager_new : res LoopFds :=
  '(_, m) ← (setup_epoll;;
             setup_eventfd;;
             fd ← gets eventFd;
             when (fd =? -1) setup_pipe)
            (mkLoopFds 0 0 None [] [] []);
  Ok m.

(** [wakeup]: the descriptor that is written to. *)
Definition wakeup_fd (m : LoopFds) : Z :=
  match pipeFd m with None => eventFd m | Some (_, w) => w end.

(** The descriptor that becomes readable by it. *)
Definition wakeup_source (m : LoopFds) : Z :=
  match pipeFd m with None => eventFd m | Some (r, _) => r end.

(** ** The set-up *)

Definition the_source (m : LoopFds) : Z * EventType * Z :=
  match pipeFd m with
  | None => (eventFd m, EventTypeFd, Z.lor EPOLLIN EPOLLET)
  | Some (r, _) => (r, EventTypePip, EPOLLIN)
  end.

Lemma lor_cloexec flags : Z.lor flags FD_CLOEXEC <> 0.
Proof. intros H. apply Z.lor_eq_0_iff in H as [_ H]. discriminate. Qed.

(** What the set-up establishes of the manager. *)
Record loop_ready (m : LoopFds) : Prop := {
  lr_watched : watched m = [the_source m];
  lr_event : pipeFd m = None -> eventFd m <> -1 /\ eventFd m ∈ nonblocking m;
  lr_pipe : forall r w, pipeFd m = Some (r, w) -> eventFd m = -1;
  lr_blocking : nonblocking m ⊆ [k_eventfd]
}.

(** The flags of descriptors are all that differs. *)
Definition same_but_flags (m m' : LoopFds) : Prop :=
  exists l, m' = mkLoopFds (epollFd m) (eventFd m) (pipeFd m) (watched m) (nonblocking m) l.

Lemma fcntl_setfd_ok fd flags m r m' : fcntl_setfd fd flags m = Ok (r, m') -> same_but_flags m m'.
Proof.
  unfold fcntl_setfd, when, modify, mret, SR_ret, mbind, SR_bind.
  destruct (negb _ && _); intros [= _ <-]; [by eexists|]. exists (closeOnExec m). by destruct m.
Qed.

Lemma setup_pipe_end_ok fd m m' : setup_pipe_end fd m = Ok (tt, m') -> same_but_flags m m'.
Proof.
  unfold setup_pipe_end, exit_if. unfold mbind, SR_bind, mret, SR_ret.
  destruct (k_getfd fd =? -1); [done|].
  destruct (fcntl_setfd fd _ m) as [[r m1]|] eqn:Ef; [|done]. apply fcntl_setfd_ok in Ef.
  destruct (r =? -1); [done|]. by intros [= <-].
Qed.

Lemma setup_epoll_ok m m' : setup_epoll m = Ok (tt, m') -> m' = set_epollFd k_epoll_create m.
Proof.
  unfold setup_epoll, exit_if. rewrite (proj2 (Z.eqb_neq _ _) (lor_cloexec _)).
  unfold when, modify, mret, SR_ret, mbind, SR_bind. destruct (k_epoll_create =? -1); [done|]. by intros [= <-].
Qed.

Lemma setup_eventfd_ok m m' :
  setup_eventfd m = Ok (tt, m') -> pipeFd m' = pipeFd m /\ nonblocking m' ⊆ k_eventfd :: nonblocking m /\
    (eventFd m' = -1 /\ watched m' = watched m \/
     eventFd m' <> -1 /\ watched m' = (eventFd m', EventTypeFd, Z.lor EPOLLIN EPOLLET) :: watched m /\
       eventFd m' ∈ nonblocking m').
Proof.
  unfold setup_eventfd, when, modify, mret, SR_ret, mbind, SR_bind.
  destruct (Z.eqb_spec k_eventfd (-1)) as [->|]; simpl; [by intros [= <-]; simpl; split; [|split; [set_solver|auto]]|].
  destruct (k_epoll_add k_eventfd =? -1); intros [= <-]; simpl; [by split; [|split; [set_solver|auto]]|].
  split; [done|]. split; [set_solver|]. right. split; [done|]. split; [done|left].
Qed.

Lemma setup_pipe_ok m m' :
  setup_pipe m = Ok (tt, m') -> exists r w l,
    m' = mkLoopFds (epollFd m) (eventFd m) (Some (r, w)) ((r, EventTypePip, EPOLLIN) :: watched m) (nonblocking m) l.
Proof.
  unfold setup_pipe. destruct k_pipe as [[r w]|]; [|done]. unfold modify, mbind, SR_bind.
  destruct (setup_pipe_end r _) as [[[] m1]|] eqn:E1; [|done]. apply setup_pipe_end_ok in E1 as [l1 ->].
  destruct (setup_pipe_end w _) as [[[] m2]|] eqn:E2; [|done]. apply setup_pipe_end_ok in E2 as [l2 ->].
  unfold exit_if, mret, SR_ret. destruct (negb _); [done|]. intros [= <-]. by exists r, w, l2.
Qed.

Lemma startup_ready m : ConnectionsManager_new = Ok m -> loop_ready m.
Proof.
  unfold ConnectionsManager_new, mbind, res_bind, SR_bind, gets.
  destruct (setup_epoll _) as [[[] m1]|] eqn:E1; [|done]. apply setup_epoll_ok in E1 as ->.
  destruct (setup_eventfd _) as [[[] m2]|] eqn:E2; [|done]. apply setup_eventfd_ok in E2 as (P2 & S2 & W2). simpl in P2, S2, W2.
  destruct (Z.eqb_spec (eventFd m2) (-1)) as [Em|Em]; simpl.
  - destruct (setup_pipe m2) as [[[] m3]|] eqn:E3; [|done]. apply setup_pipe_ok in E3 as (r & w & l & ->).
    intros [= <-]. destruct W2 as [[_ W2]|[? _]]; [|done]. constructor; simpl; try done. by rewrite W2.
  - intros [= <-]. destruct W2 as [[? _]|(_ & W2 & N2)]; [done|].
    constructor; [unfold the_source; by rewrite P2|done|by rewrite P2|done].
Qed.

(** The manager can be woken: if the constructor returns, epoll watches
    exactly one descriptor for input, the one that [wakeup] makes readable;
    it is the event counter, which does not block, or else the pipe. *)
Lemma startup_can_be_woken m :
  ConnectionsManager_new = Ok m ->
  (exists t mask, watched m = [(wakeup_source m, t, mask)] /\ Z.testbit mask 0 = true) /\
  (pipeFd m = None -> wakeup_fd m = wakeup_source m /\ wakeup_fd m <> -1 /\ wakeup_fd m ∈ nonblocking m) /\
  (forall r w, pipeFd m = Some (r, w) -> wakeup_fd m = w /\ wakeup_source m = r /\ eventFd m = -1).
Proof.
  intros H%startup_ready. destruct H as [W Ev Pi _]. unfold the_source, wakeup_source, wakeup_fd in *.
  destruct (pipeFd m) as [[r w]|]; rewrite W.
  - split; [by eexists _, _|]. split; [done|]. intros ? ? [= <- <-]. split; [done|]. split; [done|]. by eapply Pi.
  - split; [by eexists _, _|]. split; [|done]. intros _. by split; [|apply Ev].
Qed.
End Startup.

(** A kernel with event counters. *)
#[export] Instance modern_kernel : Kernel := {|
  k_epoll_create := 3; k_getfd := fun _ => 0; k_setfd := fun _ _ => 0; k_eventfd := 4;
  k_epoll_add := fun _ => 0; k_pipe := Some (5, 6)
|}.

(** A kernel without them. *)
Definition old_kernel : Kernel := {|
  k_epoll_create := 3; k_getfd := fun _ => 0; k_setfd := fun _ _ => 0; k_eventfd := -1;
  k_epoll_add := fun _ => 0; k_pipe := Some (5, 6)
|}.

(** ** Draining *)

(** What can be read: the value of the event counter and the bytes in the
    pipe. *)
Record Channel : Type := mkChannel { counter : Z; pipeBytes : nat }.

(** The largest value of an event counter. *)
Definition EFD_MAX : Z := 2 ^ 64 - 2.

(** [eventfd_write] fails on a full counter that does not block. *)
Definition has_space (c : Channel) : bool := counter c + 1 <=? EFD_MAX.

(** [wakeup].  A pipe takes the byte; its capacity is not modelled. *)
Definition wakeup (m : LoopFds) (c : Channel) : Channel :=
  match pipeFd m with
  | None => if has_space c then mkChannel (counter c + 1) (pipeBytes c) else c
  | Some _ => mkChannel (counter c) (S (pipeBytes c))
  end.

(** The result of a handler that may wait for ever. *)
Inductive outcome (A : Type) : Type :=
  | Returns (a : A)
  | Blocks.
Arguments Returns {A} _.
Arguments Blocks {A}.

(** [while (size > 0) size = read(pipe[0], &ch, 1);]: on an empty pipe
    [read] fails if the descriptor does not block, and waits otherwise. *)
Fixpoint drain_pipe (nonblock : bool) (bytes : nat) : outcome nat :=
  match bytes with
  | S n => drain_pipe nonblock n
  | O => if nonblock then Returns O else Blocks
  end.

(** [EventsDispatcher::onEvent] for the two kinds of wake-up descriptors;
    [eventfd_read] of a zero counter fails at once or waits. *)
Definition wakeup_onEvent (m : LoopFds) (t : EventType) (c : Channel) : outcome Channel :=
  match t with
  | EventTypePip =>
      match pipeFd m with
      | None => Returns c
      | Some (r, _) =>
          match drain_pipe (bool_decide (r ∈ nonblocking m)) (pipeBytes c) with
          | Returns n => Returns (mkChannel (counter c) n)
          | Blocks => Blocks
          end
      end
  | EventTypeFd =>
      if counter c =? 0 then if bool_decide (eventFd m ∈ nonblocking m) then Returns c else Blocks
      else Returns (mkChannel 0 (pipeBytes c))
  | _ => Returns c
  end.

Lemma drain_pipe_blocking n : drain_pipe false n = Blocks.
Proof. by induction n. Qed.

(** C38: without event counters the network thread hangs.  [F_SETFD] does not
    make a descriptor non-blocking, so when the manager runs on the pipe the
    handler of the first wake-up empties the pipe and then waits for ever in
    [read].  (The descriptor of the pipe is not the one [eventfd]
    returned: open descriptors are distinct.) *)
Theorem pipe_wakeup_hangs {K : Kernel} m r w c :
  ConnectionsManager_new = Ok m -> pipeFd m = Some (r, w) -> r <> k_eventfd ->
  wakeup_onEvent m EventTypePip (wakeup m c) = Blocks.
Proof.
  intros Hm Hp Hr. apply startup_ready in Hm. unfold wakeup_onEvent. rewrite Hp.
  rewrite bool_decide_eq_false_2; [by rewrite drain_pipe_blocking|].
  intros H. apply (lr_blocking _ Hm) in H. set_solver.
Qed.

Lemma pipe_wakeup_hangs_witness :
  let m := mkLoopFds 3 (-1) (Some (5, 6)) [(5, EventTypePip, EPOLLIN)] [] [] in
  wakeup_onEvent m EventTypePip (wakeup m (mkChannel 0 0)) = Blocks.
Proof. apply (@pipe_wakeup_hangs old_kernel _ 5 6); done. Defined.

(** ** No wake-up is lost

    The threads of the upper layer and the network thread, interleaved at
    the granularity of the mutex and the system calls.  A caller of
    [scheduleTask] pushes its task under the mutex and then writes to the
    event counter; [owed] counts the callers in between. *)

Inductive net_pc : Type :=
  | Checking                 (* the first [checkPendingTasks] of [select] *)
  | Waiting                  (* in [epoll_wait] *)
  | Rechecking (woken : bool)
  | Dispatching (woken : bool).

Record Threads : Type := mkThreads {
  pc : net_pc;
  queue : list task;
  owed : nat;
  channel : Channel;
  edge : bool                (* epoll will look at the counter *)
}.

Definition initial_threads : Threads := mkThreads Checking [] 0 (mkChannel 0 0) false.

(** [epoll_wait] has something to report. *)
Definition reported (s : Threads) : bool := edge s && (0 <? counter (channel s)).

Section Protocol.
Variable m : LoopFds.

Inductive step : Threads -> Threads -> Prop :=
  | step_push t p q o c e :
      step (mkThreads p q o c e) (mkThreads p (q ++ [t]) (S o) c e)
  | step_write p q o c e :
      step (mkThreads p q (S o) c e)
           (mkThreads p q o (wakeup m c) (e || has_space c))
  | step_pop t p q o c e :
      p = Checking \/ (exists b, p = Rechecking b) ->
      step (mkThreads p (t :: q) o c e) (mkThreads p q o c e)
  | step_checked o c e :
      step (mkThreads Checking [] o c e) (mkThreads Waiting [] o c e)
  | step_event q o c e :
      reported (mkThreads Waiting q o c e) = true ->
      step (mkThreads Waiting q o c e) (mkThreads (Rechecking true) q o c false)
  | step_timeout q o c e :
      reported (mkThreads Waiting q o c e) = false ->
      step (mkThreads Waiting q o c e) (mkThreads (Rechecking false) q o c false)
  | step_rechecked b o c e :
      step (mkThreads (Rechecking b) [] o c e) (mkThreads (Dispatching b) [] o c e)
  | step_drain q o c c' e :
      wakeup_onEvent m EventTypeFd c = Returns c' ->
      step (mkThreads (Dispatching true) q o c e) (mkThreads Checking q o c' e)
  | step_nothing q o c e :
      step (mkThreads (Dispatching false) q o c e) (mkThreads Checking q o c e).

(** Between a report and the drain the counter is positive; otherwise a
    positive counter is about to be reported; and whoever sleeps on a task
    will be woken. *)
Definition woken_inv (s : Threads) : Prop :=
  0 <= counter (channel s) /\
  match pc s with
  | Rechecking true | Dispatching true => 0 < counter (channel s)
  | _ => 0 < counter (channel s) -> edge s = true
  end /\
  (pc s = Waiting -> queue s <> [] -> (0 < owed s)%nat \/ 0 < counter (channel s)).

Hypothesis on_eventfd : pipeFd m = None.

Lemma counter_wakeup c :
  0 <= counter c -> 0 < counter (wakeup m c) /\ (has_space c = false -> 0 < counter c).
Proof.
  intros H. unfold wakeup, has_space. rewrite on_eventfd. unfold EFD_MAX.
  destruct (Z.leb_spec (counter c + 1) (2 ^ 64 - 2)); simpl; [|lia]. split; [lia|done].
Qed.

Lemma woken_inv_step s s' : step s s' -> woken_inv s -> woken_inv s'.
Proof.
  intros St. destruct St as [t p q o c e|p q o c e|t p q o c e Hp|o c e|q o c e Hr|q o c e Hr|b o c e|q o c c' e Hd|q o c e];
    unfold woken_inv; simpl; intros (I0 & I1 & I2).
  - split; [done|]. split; [done|]. intros _ _. left. lia.
  - destruct (counter_wakeup c I0) as [Hc He]. split; [lia|]. split; [|auto].
    assert (G : (0 < counter c -> e = true) -> 0 < counter (wakeup m c) -> e || has_space c = true).
    { intros Hi _. destruct (has_space c); [apply orb_true_r|]. rewrite orb_false_r. by apply Hi, He. }
    by destruct p as [| |[]|[]]; auto.
  - split; [done|]. split; [done|]. by destruct Hp as [->|[b ->]].
  - by split.
  - unfold reported in Hr. simpl in Hr. zify_bools. by split; [|split].
  - unfold reported in Hr. simpl in Hr. split; [done|]. split; [|done]. intros Hc.
    rewrite (proj2 (Z.ltb_lt _ _) Hc), I1 in Hr by done. done.
  - destruct b; by split.
  - unfold wakeup_onEvent in Hd. destruct (Z.eqb_spec (counter c) 0); [lia|]. injection Hd as <-. simpl.
    split; [lia|]. split; [lia|done].
  - by split.
Qed.

Lemma woken_inv_reachable s : rtc step initial_threads s -> woken_inv s.
Proof.
  assert (G : forall s0, rtc step s0 s -> woken_inv s0 -> woken_inv s).
  { induction 1; eauto using woken_inv_step. }
  intros H. apply (G _ H). unfold woken_inv. simpl. split; [done|]. split; [lia|done].
Qed.

(** C6: no wake-up is lost: in every interleaving of the upper layer's
    threads with the network thread, the network thread sleeps in
    [epoll_wait] on a non-empty task queue only while some caller has yet to
    write to the event counter; once they all have, the wait ends with the
    event.  And the handler of the event never waits. *)
Theorem no_lost_wakeup s :
  rtc step initial_threads s ->
  (pc s = Waiting -> queue s <> [] -> owed s = O -> reported s = true) /\
  (pc s = Dispatching true -> exists c, wakeup_onEvent m EventTypeFd (channel s) = Returns c).
Proof.
  intros H%woken_inv_reachable. destruct H as (I0 & I1 & I2). split.
  - intros Hp Hq Ho. destruct (I2 Hp Hq) as [?|Hc]; [lia|]. rewrite Hp in I1. unfold reported.
    by rewrite I1, (proj2 (Z.ltb_lt _ _) Hc).
  - intros Hp. rewrite Hp in I1. unfold wakeup_onEvent. destruct (Z.eqb_spec (counter (channel s)) 0); [lia|]. eauto.
Qed.
End Protocol.

(** Two tasks are scheduled while the network thread sleeps; the callers'
    writes make one event. *)
Lemma no_lost_wakeup_witness :
  let m := mkLoopFds 3 4 None [(4, EventTypeFd, Z.lor EPOLLIN EPOLLET)] [4] [] in
  let s := mkThreads Waiting [TaskClearUp; TaskSetUin 5] 0 (mkChannel 2 0) true in
  rtc (step m) initial_threads s /\ reported s = true.
Proof.
  intros m s.
  assert (R : rtc (step m) initial_threads s).
  { eapply rtc_l; [apply step_checked|]. eapply rtc_l; [apply (step_push m TaskClearUp)|].
    eapply rtc_l; [apply (step_push m (TaskSetUin 5))|].
    eapply rtc_l; [apply step_write|]. eapply rtc_l; [apply step_write|]. apply rtc_refl. }
  split; [exact R|]. apply (no_lost_wakeup m eq_refl s R); done.
Defined.
