(* ===== verification/AndroidJni.v ===== *)
(** * AndroidJni: calling Java by name

    Models [src/fastsocks/cpp/common/android_jni.cpp]: methods and fields are
    looked up by name and descriptor, and the letter of the descriptor picks
    the JNI function and the member of the [jvalue] union that receives the
    result.  A [jvalue] is its 64 bits (the targets are little-endian, so
    each member is the low end); the virtual machine is a parameter. *)

From S2P Require Import Prelude.
From Stdlib Require Import Ascii.

(** ** Types and descriptors *)

Inductive jtype : Type :=
  | JBoolean | JByte | JChar | JShort | JInt | JLong | JFloat | JDouble
  | JClass (name : string)
  | JArray (t : jtype).

Inductive jreturn : Type :=
  | JVoid
  | JType (t : jtype).

#[export] Instance jtype_eq_dec : EqDecision jtype.
Proof. solve_decision. Defined.
#[export] Instance jreturn_eq_dec : EqDecision jreturn.
Proof. solve_decision. Defined.

Fixpoint print_type (t : jtype) : string :=
  match t with
  | JBoolean => "Z" | JByte => "B" | JChar => "C" | JShort => "S" | JInt => "I"
  | JLong => "J" | JFloat => "F" | JDouble => "D"
  | JClass name => "L" +:+ name +:+ ";"
  | JArray t => "[" +:+ print_type t
  end.

Definition print_return (r : jreturn) : string :=
  match r with JVoid => "V" | JType t => print_type t end.

Fixpoint print_types (ts : list jtype) : string :=
  match ts with [] => "" | t :: ts' => print_type t +:+ print_types ts' end.

(** The descriptor of a method: ["(IJ)V"]. *)
Definition print_method (params : list jtype) (r : jreturn) : string :=
  "(" +:+ print_types params +:+ ")" +:+ print_return r.

(** ** The union *)

(** The members of [jvalue], and the call without a result. *)
Inductive jkind : Type :=
  | KVoid | KObject | KBoolean | KByte | KChar | KShort | KInt | KLong | KFloat | KDouble.

#[export] Instance jkind_eq_dec : EqDecision jkind.
Proof. solve_decision. Defined.

(** A reference is a pointer of the 32-bit targets; floating-point values
    are their representations. *)
Definition kind_width (k : jkind) : Z :=
  match k with
  | KVoid => 0
  | KBoolean | KByte => 8
  | KChar | KShort => 16
  | KObject | KInt | KFloat => 32
  | KLong | KDouble => 64
  end.

Definition kind_signed (k : jkind) : bool :=
  match k with KByte | KShort | KInt | KLong => true | _ => false end.

(** The values of a member. *)
Definition in_kind (k : jkind) (x : Z) : Prop :=
  if kind_signed k then is_s (kind_width k) x else is_u (kind_width k) x.

(** [result.m = x] on the zeroed union, and reading the member. *)
Definition store_member (k : jkind) (x : Z) : Z := wrapU (kind_width k) x.
Definition load_member (k : jkind) (v : Z) : Z :=
  if kind_signed k then wrapS (kind_width k) v else wrapU (kind_width k) v.

(** ** The switch on the descriptor *)

(** The [switch] of the field functions; [default] is [FatalError], which
    ends the process. *)
Definition field_kind (sig : string) : res jkind :=
  match sig with
  | EmptyString => Fault ProcessExit
  | String c _ =>
      if decide (c = "[" \/ c = "L")%char then Ok KObject
      else if decide (c = "Z")%char then Ok KBoolean
      else if decide (c = "B")%char then Ok KByte
      else if decide (c = "C")%char then Ok KChar
      else if decide (c = "S")%char then Ok KShort
      else if decide (c = "I")%char then Ok KInt
      else if decide (c = "J")%char then Ok KLong
      else if decide (c = "F")%char then Ok KFloat
      else if decide (c = "D")%char then Ok KDouble
      else Fault ProcessExit
  end.

(** [while ( *p != ')' ) p++; p++;]: without a parenthesis the loop leaves
    the string. *)
Fixpoint skip_args (p : string) : res string :=
  match p with
  | EmptyString => Fault OutOfBounds
  | String c p' => if decide (c = ")")%char then Ok p' else skip_args p'
  end.

(** The [switch] of the method functions. *)
Definition return_kind (descriptor : string) : res jkind :=
  p ← skip_args descriptor;
  match p with
  | String "V" _ => Ok KVoid
  | _ => field_kind p
  end.

(** ** The functions *)

Class JavaVM := {
  EnsureLocalCapacity : Z -> bool;
  ExceptionOccurred : bool;
  FindClass : string -> Z;
  GetObjectClass : Z -> Z;
  GetMethodID : Z -> string -> string -> option Z;
  GetStaticMethodID : Z -> string -> string -> option Z;
  GetFieldID : Z -> string -> string -> option Z;
  GetStaticFieldID : Z -> string -> string -> option Z;
  CallMethodV : jkind -> Z -> Z -> list Z -> Z;
  CallStaticMethodV : jkind -> Z -> Z -> list Z -> Z;
  GetFieldOf : jkind -> Z -> Z -> Z;
  GetStaticFieldOf : jkind -> Z -> Z -> Z
}.

Section Calls.
Context {V : JavaVM}.

Definition JNI_CallMethodByName (obj : Z) (name descriptor : string) (args : list Z) : res Z :=
  if EnsureLocalCapacity 2 then
    match GetMethodID (GetObjectClass obj) name descriptor with
    | Some mid => k ← return_kind descriptor; Ok (store_member k (CallMethodV k obj mid args))
    | None => Ok 0
    end
  else Ok 0.

Definition JNI_CallStaticMethod (clazz : Z) (name descriptor : string) (args : list Z) : res Z :=
  match GetStaticMethodID clazz name descriptor with
  | Some mid => k ← return_kind descriptor; Ok (store_member k (CallStaticMethodV k clazz mid args))
  | None => Ok 0
  end.

Definition JNI_CallStaticMethodByName (className name descriptor : string) (args : list Z) : res Z :=
  JNI_CallStaticMethod (FindClass className) name descriptor args.

Definition JNI_GetStaticField (clazz : Z) (name sig : string) : res Z :=
  match GetStaticFieldID clazz name sig with
  | None => Ok 0
  | Some fid => k ← field_kind sig; Ok (store_member k (GetStaticFieldOf k clazz fid))
  end.

Definition JNI_GetField (obj : Z) (name sig : string) : res Z :=
  if ExceptionOccurred then Ok 0
  else match GetFieldID (GetObjectClass obj) name sig with
       | None => Ok 0
       | Some fid => k ← field_kind sig; Ok (store_member k (GetFieldOf k obj fid))
       end.
End Calls.

(** ** The letter and the type agree *)

Definition kind_of_type (t : jtype) : jkind :=
  match t with
  | JBoolean => KBoolean | JByte => KByte | JChar => KChar | JShort => KShort | JInt => KInt
  | JLong => KLong | JFloat => KFloat | JDouble => KDouble
  | JClass _ | JArray _ => KObject
  end.

Definition kind_of_return (r : jreturn) : jkind :=
  match r with JVoid => KVoid | JType t => kind_of_type t end.

(** The names of classes have no parenthesis. *)
Fixpoint no_paren (s : string) : bool :=
  match s with
  | EmptyString => true
  | String c s' => negb (bool_decide (c = ")")%char) && no_paren s'
  end.

Fixpoint plain_type (t : jtype) : bool :=
  match t with JClass name => no_paren name | JArray t => plain_type t | _ => true end.

Lemma skip_args_app s p : no_paren s = true -> skip_args (s +:+ p) = skip_args p.
Proof.
  induction s as [|c s IH]; [done|]. change (String c s +:+ p) with (String c (s +:+ p)).
  cbn [no_paren skip_args]. intros [Hc Hs]%andb_true_iff.
  apply negb_true_iff, bool_decide_eq_false in Hc. rewrite decide_False by done. by apply IH.
Qed.

Lemma no_paren_app s t : no_paren (s +:+ t) = no_paren s && no_paren t.
Proof. induction s as [|c s IH]; [done|]. simpl. by rewrite <- andb_assoc, <- IH. Qed.

Lemma no_paren_type t : plain_type t = true -> no_paren (print_type t) = true.
Proof.
  induction t as [| | | | | | | |name|t IH]; intros H; try done.
  - change (no_paren (name +:+ ";") = true). simpl in H. by rewrite no_paren_app, H.
  - by apply IH.
Qed.

Lemma no_paren_types ts : forallb plain_type ts = true -> no_paren (print_types ts) = true.
Proof.
  induction ts as [|t ts IH]; [done|]. simpl. intros [Ht Hts]%andb_true_iff.
  rewrite no_paren_app, no_paren_type by done. by apply IH.
Qed.

Lemma field_kind_type t : field_kind (print_type t) = Ok (kind_of_type t).
Proof. by destruct t. Qed.

Lemma return_kind_method ps r :
  forallb plain_type ps = true -> return_kind (print_method ps r) = Ok (kind_of_return r).
Proof.
  intros H. unfold return_kind, print_method.
  change ("(" +:+ print_types ps +:+ ")" +:+ print_return r) with (String "(" (print_types ps +:+ ")" +:+ print_return r)).
  cbn [skip_args]. rewrite decide_False by done. rewrite skip_args_app by (by apply no_paren_types).
  simpl. destruct r as [|t]; [done|]. simpl. rewrite <- field_kind_type. by destruct t.
Qed.

Lemma load_store k x : in_kind k x -> load_member k (store_member k x) = x.
Proof.
  unfold in_kind, load_member, store_member. intros H. destruct (kind_signed k) eqn:Es.
  - assert (0 < kind_width k) by (by destruct k). rewrite wrapS_wrapU by done. by apply wrapS_id.
  - rewrite !wrapU_id; [done|done|by rewrite wrapU_id].
Qed.

Section Theorems.
Context {V : JavaVM}.

(** C32: a call by name hands the caller Java's own result: for every
    descriptor of a method type the switch picks the JNI function of the
    return type and the matching member of the union, so that reading that
    member gives what the method returned; a method that does not exist
    gives zero.  The same holds for static methods and for fields. *)
Theorem jni_call_returns ps r obj name args mid :
  forallb plain_type ps = true -> EnsureLocalCapacity 2 = true ->
  let k := kind_of_return r in
  let d := print_method ps r in
  (GetMethodID (GetObjectClass obj) name d = None -> JNI_CallMethodByName obj name d args = Ok 0) /\
  (GetMethodID (GetObjectClass obj) name d = Some mid -> in_kind k (CallMethodV k obj mid args) ->
     load_member k <$> JNI_CallMethodByName obj name d args = Ok (CallMethodV k obj mid args)) /\
  (GetStaticMethodID obj name d = Some mid -> in_kind k (CallStaticMethodV k obj mid args) ->
     load_member k <$> JNI_CallStaticMethod obj name d args = Ok (CallStaticMethodV k obj mid args)) /\
  (forall t fid, let k := kind_of_type t in
     ExceptionOccurred = false -> GetFieldID (GetObjectClass obj) name (print_type t) = Some fid ->
     in_kind k (GetFieldOf k obj fid) ->
     load_member k <$> JNI_GetField obj name (print_type t) = Ok (GetFieldOf k obj fid)).
Proof.
  intros Hp He k d. unfold JNI_CallMethodByName, JNI_CallStaticMethod, JNI_GetField. rewrite He.
  split; [by intros ->|]. split; [|split].
  - intros -> Hk. unfold d. rewrite return_kind_method by done. simpl. f_equal. by apply load_store.
  - intros -> Hk. unfold d. rewrite return_kind_method by done. simpl. f_equal. by apply load_store.
  - intros t fid. cbv zeta. intros -> -> Hk. rewrite field_kind_type. simpl. f_equal. by apply load_store.
Qed.
End Theorems.

(** A machine whose methods return the sum of their arguments and whose
    fields hold -5. *)
#[export] Instance demo_vm : JavaVM := {|
  EnsureLocalCapacity := fun _ => true; ExceptionOccurred := false; FindClass := fun _ => 1;
  GetObjectClass := fun _ => 1; GetMethodID := fun _ _ _ => Some 2; GetStaticMethodID := fun _ _ _ => Some 2;
  GetFieldID := fun _ _ _ => Some 3; GetStaticFieldID := fun _ _ _ => Some 3;
  CallMethodV := fun _ _ _ args => foldr Z.add 0 args; CallStaticMethodV := fun _ _ _ args => foldr Z.add 0 args;
  GetFieldOf := fun _ _ _ => -5; GetStaticFieldOf := fun _ _ _ => -5
|}.

Lemma jni_call_returns_witness :
  print_method [JInt; JClass "java/lang/String"] (JType JInt) = "(ILjava/lang/String;)I"%string /\
  load_member KInt <$> JNI_CallMethodByName 7 "onSendComplete" "(ILjava/lang/String;)I" [-2; -1] = Ok (-3).
Proof.
  split; [reflexivity|].
  destruct (@jni_call_returns demo_vm [JInt; JClass "java/lang/String"] (JType JInt) 7 "onSendComplete" [-2; -1] 2 eq_refl eq_refl)
    as (_ & H & _).
  apply H; done.
Defined.
