(* ===== verification/TcpNetWapper.v ===== *)
(** * TcpNetWapper: the native methods of the Java classes

    Models [src/fastsocks/cpp/tcp/TcpNetWapper.cpp] and [jni.c]: the native
    methods with the casts of their arguments, the registration tables, and
    the start of the library.  Java holds a buffer by its address as an
    [int]; the targets of the build are 32-bit ARM. *)

From S2P Require Import Prelude.
From S2P Require Import NativeByteBuffer.
From S2P Require Import BufferStorage.
From S2P Require Import ByteStream.
From S2P Require Import NetworkMessage.
From S2P Require Import Datacenter.
From S2P Require Import Request.
From S2P Require Import World.
From S2P Require Import Connection.
From S2P Require Import Requests.
From S2P Require Import Framing.
From S2P Require Import FramingSpec.
From S2P Require Import Manager.
From S2P Require Import AndroidJni.

(** [(jint) pointer] *)
Definition jint_of (p : addr) : Z := i32 (Zpos p).

(** A method call through an address that came from Java. *)
Definition through {A} (address : Z) (f : addr -> SR World A) : SR World A :=
  match pointer_of address with
  | None => fault_with NullDereference
  | Some p => f p
  end.

Section Natives.
Context {E : Env} {J : Jni} {V : JavaVM}.

(** ** [com/me/fastsocks/tcp/ConnectionsManager] *)

(** [ConnectionsManager::useJavaVM]: the answers of the virtual machine. *)
Definition useJavaVM (getEnv byteBufferClass allocateDirectMethod : bool) : res unit :=
  guard_res getEnv ProcessExit;; guard_res byteBufferClass ProcessExit;; guard_res allocateDirectMethod ProcessExit.

Definition native_setJava (getEnv byteBufferClass allocateDirectMethod : bool) : SR World unit :=
  lift_res (useJavaVM getEnv byteBufferClass allocateDirectMethod);;
  on_manager (set_delegate true).

Definition native_init (uin : Z) : SR World unit := init (u64 uin).
Definition native_setUin (uin : Z) : SR World unit := setUin (u64 uin).
Definition native_logout : SR World unit := clearUp.
Definition native_setNetworkAvailable (isAvailable : bool) : SR World unit := setNetworkAvailable isAvailable.
Definition native_pauseNetwork : SR World unit := pauseNetwork.
Definition native_resumeNetwork (isPush : bool) : SR World unit := resumeNetwork isPush.

(** [GetStringUTFChars] returns null for want of memory; the string is made
    from it before the test. *)
Definition apply_server (chars : option string) (port : Z) (single : bool) : SR World unit :=
  match chars with
  | None => fault_with NullDereference
  | Some s => applySvrAddr s (u16 port) single
  end.

Definition native_addSvrAddr (chars : option string) (port : Z) : SR World unit := apply_server chars port false.
Definition native_setSvrAddr (chars : option string) (port : Z) : SR World unit := apply_server chars port true.

Definition native_sendRequest (request : Z) (onSendFunc : option Z) : SR World unit :=
  cmd ← lift_res (JNI_GetField request "cmd" "I");
  address ← lift_res (JNI_GetField request "address" "I");
  flags ← lift_res (JNI_GetField request "flags" "I");
  timeout ← lift_res (JNI_GetField request "timeout" "J");
  senRequest (pointer_of (load_member KInt address)) (u32 (load_member KInt cmd)) (u32 (load_member KInt flags))
    (u64 (load_member KLong timeout)) onSendFunc.

(** ** [com/me/fastsocks/base/NativeByteBuffer] *)

Definition native_getBuffer (length : Z) : SR World Z :=
  p ← on_pool (getBuffer (u32 length)); mret (jint_of p).

Definition native_limit (address : Z) : SR World Z :=
  through address (fun p => b ← on_pool (deref p); mret (i32 (limit b))).

Definition native_position (address : Z) : SR World Z :=
  through address (fun p => b ← on_pool (deref p); mret (i32 (position b))).

Definition native_reuse (address : Z) : SR World unit :=
  through address (fun p => on_pool (reuse p)).

Definition native_getJavaByteBuffer (javaVM : bool) (address : Z) : SR World java_ref :=
  through address (fun p =>
    b ← on_pool (deref p);
    '(j, b') ← lift_res (getJavaByteBuffer javaVM b);
    on_pool (store p b');;
    mret j).
End Natives.

(** ** Registration *)

(** An entry of a [JNINativeMethod] table with the types of the C++ function
    behind it (without the environment and the class). *)
Record NativeMethod : Type := mkNativeMethod {
  nm_name : string;
  nm_signature : string;
  nm_params : list jtype;
  nm_return : jreturn
}.

Definition connectionManagerMethods : list NativeMethod := [
  mkNativeMethod "native_setJava" "()V" [] JVoid;
  mkNativeMethod "native_init" "(J)V" [JLong] JVoid;
  mkNativeMethod "native_setUin" "(J)V" [JLong] JVoid;
  mkNativeMethod "native_logout" "()V" [] JVoid;
  mkNativeMethod "native_setNetworkAvailable" "(Z)V" [JBoolean] JVoid;
  mkNativeMethod "native_pauseNetwork" "()V" [] JVoid;
  mkNativeMethod "native_resumeNetwork" "(Z)V" [JBoolean] JVoid;
  mkNativeMethod "native_sendRequest"
    "(Lcom/me/fastsocks/tcp/ConnectionsManager$Request;Lcom/me/fastsocks/tcp/listener/OnNativeSendListener;)V"
    [JClass "com/me/fastsocks/tcp/ConnectionsManager$Request"; JClass "com/me/fastsocks/tcp/listener/OnNativeSendListener"] JVoid;
  mkNativeMethod "native_addSvrAddr" "(Ljava/lang/String;S)V" [JClass "java/lang/String"; JShort] JVoid;
  mkNativeMethod "native_setSvrAddr" "(Ljava/lang/String;S)V" [JClass "java/lang/String"; JShort] JVoid
]%string.

Definition nativeByteBufferMethods : list NativeMethod := [
  mkNativeMethod "native_getBuffer" "(I)I" [JInt] (JType JInt);
  mkNativeMethod "native_getJavaByteBuffer" "(I)Ljava/nio/ByteBuffer;" [JInt] (JType (JClass "java/nio/ByteBuffer"));
  mkNativeMethod "native_limit" "(I)I" [JInt] (JType JInt);
  mkNativeMethod "native_position" "(I)I" [JInt] (JType JInt);
  mkNativeMethod "native_reuse" "(I)V" [JInt] JVoid
]%string.

(** The virtual machine's answers to the registration: whether a class is
    found and what [RegisterNatives] returns. *)
Section Registration.
Variable find_class : string -> bool.
Variable register_natives : string -> list NativeMethod -> Z.

Definition registerNativeMethods (className : string) (methods : list NativeMethod) : bool :=
  if negb (find_class className) then false
  else if register_natives className methods <? 0 then false
  else true.

Definition registerNativeFunctions : bool :=
  if negb (registerNativeMethods "com/me/fastsocks/tcp/ConnectionsManager" connectionManagerMethods) then false
  else if negb (registerNativeMethods "com/me/fastsocks/base/NativeByteBuffer" nativeByteBufferMethods) then false
  else true.

Definition JNI_VERSION_1_6 : Z := 65542.

(** [jni.c] *)
Definition JNI_OnLoad (get_env : Z) : Z :=
  if negb (get_env =? 0) then -1
  else if negb registerNativeFunctions then -1
  else JNI_VERSION_1_6.
End Registration.

(** ** Addresses in Java *)

Lemma pointer_jint p : (Zpos p < 2 ^ 32) -> pointer_of (jint_of p) = Some p.
Proof.
  intros H. unfold pointer_of, jint_of. rewrite wrapU_wrapS, wrapU_id by (try split; lia).
  destruct (Z.eqb_spec (Zpos p) 0); [lia|done].
Qed.

(** A type-correct entry: the signature string is the descriptor of the
    function's types. *)
Definition well_typed (m : NativeMethod) : bool :=
  bool_decide (nm_signature m = print_method (nm_params m) (nm_return m)).

Lemma pointer_of_small z p : pointer_of z = Some p -> Zpos p < 2 ^ 32.
Proof.
  unfold pointer_of. pose proof (wrapU_range 32 z ltac:(lia)) as H. unfold is_u in H.
  destruct (Z.eqb_spec (u32 z) 0); [done|]. intros [= <-]. lia.
Qed.

(** ** The theorems *)

(** The native methods are registered with their own types: every
    signature string in the two tables is the descriptor of the C++
    function's parameters and result, no name is listed twice, and
    [JNI_OnLoad] accepts the library exactly when the environment was found
    and both classes took their methods. *)
Lemma natives_well_typed find_class register_natives get_env :
  forallb well_typed (connectionManagerMethods ++ nativeByteBufferMethods) = true /\
  NoDup (nm_name <$> connectionManagerMethods ++ nativeByteBufferMethods) /\
  (JNI_OnLoad find_class register_natives get_env = JNI_VERSION_1_6 <->
     get_env = 0 /\
     find_class "com/me/fastsocks/tcp/ConnectionsManager"%string = true /\
     0 <= register_natives "com/me/fastsocks/tcp/ConnectionsManager"%string connectionManagerMethods /\
     find_class "com/me/fastsocks/base/NativeByteBuffer"%string = true /\
     0 <= register_natives "com/me/fastsocks/base/NativeByteBuffer"%string nativeByteBufferMethods).
Proof.
  split; [reflexivity|]. split; [by apply (bool_decide_unpack _); vm_compute|].
  unfold JNI_OnLoad, registerNativeFunctions, registerNativeMethods.
  destruct (Z.eqb_spec get_env 0); [|split; [done|lia]]. simpl.
  destruct (find_class _); [|split; [done|by intros (_ & ? & _)]]. simpl.
  destruct (Z.ltb_spec (register_natives "com/me/fastsocks/tcp/ConnectionsManager"%string connectionManagerMethods) 0);
    simpl; [split; [done|lia]|].
  destruct (find_class _); [|split; [done|by intros (_ & _ & _ & ? & _)]]. simpl.
  destruct (Z.ltb_spec (register_natives "com/me/fastsocks/base/NativeByteBuffer"%string nativeByteBufferMethods) 0);
    simpl; [split; [done|lia]|]. by split.
Qed.

Section Theorems.
Context {E : Env} {J : Jni} {B : JniBlocks J}.

(** A read through an address of a 32-bit machine. *)
Lemma through_deref {A} (f : NBuf -> A) p b w :
  Zpos p < 2 ^ 32 -> heap (pool w) !! p = Some b ->
  through (jint_of p) (fun p => b ← on_pool (deref p); mret (f b)) w = Ok (f b, w).
Proof.
  intros Hp Hb. unfold through. rewrite pointer_jint by done. unfold on_pool, mbind, SR_bind.
  rewrite (deref_Ok _ _ _ Hb). by destruct w.
Qed.

(** Giving back a buffer of the size [n] that Java asked for. *)
Lemma reuse_asked n p b s w :
  pool_wf s -> owned s p -> heap s !! p = Some b -> wf b -> is_s 32 n -> _capacity b = capacity_for (u32 n) ->
  if (0 <=? n) && (n <=? 131272) then
    exists s2, match reuse p s with Ok (a, s0) => Ok (a, set_pool s0 (set_pool s w)) | Fault f => Fault f end =
      Ok (tt, set_pool s2 w) /\ pool_wf s2 /\ ~ owned s2 p
  else match reuse p s with Ok (a, s0) => Ok (a, set_pool s0 (set_pool s w)) | Fault f => Fault f end = Fault UseAfterFree.
Proof.
  intros Hs Ho Hb Hw [Hn0 Hn1] Hc. destruct (Z.leb_spec 0 n) as [H0|H0]; [rewrite wrapU_id in Hc by (split; lia)|]; simpl.
  - destruct (Z.leb_spec n 131272) as [H1|H1].
    + destruct (reuse_spec p b s) as (s2 & -> & Hs2 & Hn2 & _); [done|done|done|done|by eapply capacity_for_pool| |by exists s2].
      rewrite Hc. apply capacity_for_small. lia.
    + pose proof (capacity_for_ge n). rewrite (reuse_big_use_after_free p b); [done|done|lia].
  - assert (Hu : n + 2 ^ 32 = u32 n) by (unfold wrapU; apply Z.mod_unique_pos with (-1); lia).
    pose proof (capacity_for_ge (u32 n)). rewrite (reuse_big_use_after_free p b); [done|done|lia].
Qed.

(** C33: the life of a buffer in Java's hands, for every [int] asked for:
    [native_getBuffer] ends the process, which it does only without memory for
    a new buffer, or gives a buffer nobody else holds; while addresses fit in
    32 bits the [int] that Java keeps leads back to it, its limit is the size
    asked for and its position zero, and [native_reuse] returns it to the pool
    when the size is from 0 to 131272, and uses it after its deletion when it
    is larger or negative.  An address that needs more bits is lost in the
    [int]. *)
Theorem native_buffer_cycle n w :
  pool_wf (pool w) -> is_s 32 n ->
  (native_getBuffer n w = Fault ProcessExit /\ NativeByteBuffer_new (capacity_for (u32 n)) = Fault ProcessExit) \/
  exists p s', native_getBuffer n w = Ok (jint_of p, set_pool s' w) /\ ~ owned (pool w) p /\ owned s' p /\
    (Zpos p < 2 ^ 32 ->
       native_limit (jint_of p) (set_pool s' w) = Ok (n, set_pool s' w) /\
       native_position (jint_of p) (set_pool s' w) = Ok (0, set_pool s' w) /\
       if (0 <=? n) && (n <=? 131272) then
         exists s2, native_reuse (jint_of p) (set_pool s' w) = Ok (tt, set_pool s2 w) /\ pool_wf s2 /\ ~ owned s2 p
       else native_reuse (jint_of p) (set_pool s' w) = Fault UseAfterFree) /\
    (2 ^ 32 <= Zpos p -> pointer_of (jint_of p) <> Some p).
Proof.
  intros Hw Hn. pose proof (wrapU_range 32 n ltac:(lia)) as Hu. unfold native_getBuffer.
  assert (Hc : (none_free (u32 n) (pool w) -> allocates (capacity_for (u32 n))) \/
    (getBuffer (u32 n) (pool w) = Fault ProcessExit /\ NativeByteBuffer_new (capacity_for (u32 n)) = Fault ProcessExit)).
  { destruct (none_free_dec (u32 n) (pool w)), (allocates_or_exit (capacity_for (u32 n))); auto using getBuffer_exit. by left. }
  destruct Hc as [Ha|[He Ha]]; [right|left; unfold on_pool, mbind, SR_bind; by rewrite He].
  destruct (getBuffer_full (u32 n) (pool w) Hw Hu Ha) as (p & b & s' & Hg & Hf & Hh & Wb & Hp & Hl & Hc).
  destruct Hf as (Hs' & Hno & Ho & _).
  exists p, s'. split; [|split; [done|split; [done|split]]].
  - unfold on_pool, mbind, SR_bind. by rewrite Hg.
  - intros Ha32. split; [|split].
    + unfold native_limit. rewrite (through_deref (fun b => i32 (limit b)) p b) by done.
      unfold limit. by rewrite Hl, wrapS_wrapU, wrapS_id by (done || lia).
    + unfold native_position. rewrite (through_deref (fun b => i32 (position b)) p b) by done.
      unfold position. by rewrite Hp.
    + unfold native_reuse, through. rewrite pointer_jint by done. unfold on_pool. simpl. apply (reuse_asked n p b); done.
  - intros Hbig Hp2%pointer_of_small. lia.
Qed.
End Theorems.

Lemma native_buffer_cycle_witness :
  let w := demo_world (bare_pool []) in
  exists p s', native_getBuffer 20 w = Ok (jint_of p, set_pool s' w) /\ ~ owned (pool w) p /\ owned s' p /\
    (Zpos p < 2 ^ 32 ->
       native_limit (jint_of p) (set_pool s' w) = Ok (20, set_pool s' w) /\
       native_position (jint_of p) (set_pool s' w) = Ok (0, set_pool s' w) /\
       exists s2, native_reuse (jint_of p) (set_pool s' w) = Ok (tt, set_pool s2 w) /\ pool_wf s2 /\ ~ owned s2 p) /\
    (2 ^ 32 <= Zpos p -> pointer_of (jint_of p) <> Some p).
Proof.
  intros w. destruct (native_buffer_cycle 20 w) as [[H _]|H]; [apply pool_wf_bare|done|by vm_compute in H|exact H].
Defined.
