(* ===== verification/Words.v ===== *)
(** * Words: 32-bit words and their bytes

    What the C files of BoringSSL share: words assembled from bytes and taken
    apart again ([GETU32], [PUTU32]), tables indexed by a byte, and checks
    over all the values of a byte. *)

From S2P Require Import Prelude.

(** ** Words *)

(** [((uint32_t) a << 24) ^ ((uint32_t) b << 16) ^ ((uint32_t) c << 8) ^ d] *)
Definition word4 (a b c d : Z) : Z :=
  Z.lxor (Z.lxor (Z.lxor (Z.shiftl a 24) (Z.shiftl b 16)) (Z.shiftl c 8)) d.

Lemma word4_fold a b c d :
  Z.lxor (Z.lxor (Z.lxor (Z.shiftl a 24) (Z.shiftl b 16)) (Z.shiftl c 8)) d = word4 a b c d.
Proof. done. Qed.

(** [(w >> n) & 0xff] *)
Definition byte_at (w n : Z) : Z := Z.land (Z.shiftr w n) 255.

(** [T[i]] for an index that is a byte. *)
Definition tbl (T : list Z) (i : Z) : Z := default 0 (T !! Z.to_nat i).

(** ** Every value of a byte *)

Definition byte_values : list Z := Z.of_nat <$> seq 0 256.

Lemma all_bytes (f : Z -> bool) : forallb f byte_values = true -> forall x, is_byte x -> f x = true.
Proof.
  intros H x [Hl Hh]. rewrite forallb_forall in H. apply H. rewrite <- list_elem_of_In.
  apply list_elem_of_fmap. exists (Z.to_nat x). split; [lia|]. apply elem_of_seq.
  change (2 ^ 8) with 256 in Hh. lia.
Qed.

(** A fact on all bytes by evaluation of a test. *)
Ltac by_bytes f := intros x Hx; apply Z.eqb_eq; revert x Hx; apply (all_bytes f); vm_compute; reflexivity.

(** ** Bits *)

Lemma is_u_bits w x n : 0 <= w -> is_u w x -> w <= n -> Z.testbit x n = false.
Proof.
  intros Hw [Hl Hh] Hn. rewrite <- (Z.mod_small x (2 ^ w)) by done. by apply Z.mod_pow2_bits_high.
Qed.

Lemma bits_is_u w x : 0 <= w -> 0 <= x -> (forall n, w <= n -> Z.testbit x n = false) -> is_u w x.
Proof.
  intros Hw Hx H. split; [done|]. apply Z.bounded_iff_bits_nonneg; [done|done|]. intros l Hl. by apply H.
Qed.

Lemma is_u_lxor w x y : 0 <= w -> is_u w x -> is_u w y -> is_u w (Z.lxor x y).
Proof.
  intros Hw Hx Hy. apply bits_is_u; [done| |].
  - apply Z.lxor_nonneg. unfold is_u in *. lia.
  - intros n Hn. rewrite Z.lxor_spec, (is_u_bits w x), (is_u_bits w y); done.
Qed.

Lemma is_u_land w x y : 0 <= w -> is_u w x -> 0 <= y -> is_u w (Z.land x y).
Proof.
  intros Hw Hx Hy. apply bits_is_u; [done| |].
  - apply Z.land_nonneg. by right.
  - intros n Hn. by rewrite Z.land_spec, (is_u_bits w x).
Qed.

Lemma is_byte_at w n : is_byte (byte_at w n).
Proof. unfold byte_at. change 255 with (Z.ones 8). rewrite Z.land_ones by lia. by apply Z.mod_pos_bound. Qed.

#[export] Hint Resolve is_byte_at : mach.
#[export] Hint Extern 3 (is_u _ (Z.lxor _ _)) => apply is_u_lxor : mach.
#[export] Hint Extern 1 (0 <= _) => lia : mach.

(** The bits of a word of four bytes. *)
Lemma word4_bits a b c d n :
  is_byte a -> is_byte b -> is_byte c -> is_byte d -> 0 <= n ->
  Z.testbit (word4 a b c d) n =
    if n <? 8 then Z.testbit d n else if n <? 16 then Z.testbit c (n - 8)
    else if n <? 24 then Z.testbit b (n - 16) else Z.testbit a (n - 24).
Proof.
  intros Ha Hb Hc Hd Hn. unfold word4. rewrite !Z.lxor_spec, !Z.shiftl_spec by done.
  destruct (Z.ltb_spec n 8); [|destruct (Z.ltb_spec n 16); [|destruct (Z.ltb_spec n 24)]];
    repeat match goal with
    | H : is_byte ?x |- context [Z.testbit ?x ?k] =>
        first [rewrite (Z.testbit_neg_r x k) by lia | rewrite (is_u_bits 8 x k) by (done || lia)]
    end; by rewrite ?xorb_false_l, ?xorb_false_r.
Qed.

Lemma word4_nonneg a b c d : is_byte a -> is_byte b -> is_byte c -> is_byte d -> 0 <= word4 a b c d.
Proof.
  intros [? _] [? _] [? _] [? _]. unfold word4.
  assert (forall x k, 0 <= x -> 0 <= Z.shiftl x k) by (intros; by apply Z.shiftl_nonneg).
  assert (forall x y, 0 <= x -> 0 <= y -> 0 <= Z.lxor x y) as G by (intros; by apply Z.lxor_nonneg; lia).
  repeat apply G; auto.
Qed.

Lemma word4_range a b c d : is_byte a -> is_byte b -> is_byte c -> is_byte d -> is_u32 (word4 a b c d).
Proof.
  intros Ha Hb Hc Hd. apply bits_is_u; [done|by apply word4_nonneg|]. intros n Hn.
  rewrite word4_bits by (done || lia). repeat split_test; try lia. apply (is_u_bits 8); [done|done|lia].
Qed.

(** Equality of words, bit by bit. *)
Ltac bits n := apply Z.bits_inj'; intros n ?.

Lemma byte_at_bits w k n : 0 <= k -> 0 <= n -> Z.testbit (byte_at w k) n = (n <? 8) && Z.testbit w (n + k).
Proof.
  intros Hk Hn. unfold byte_at. rewrite Z.land_spec, Z.shiftr_spec by lia. change 255 with (Z.ones 8).
  rewrite Z.testbit_ones_nonneg by lia. by destruct (n <? 8); rewrite ?andb_true_r, ?andb_false_r.
Qed.

(** Byte [k] of the word, counted from the low end. *)
Lemma byte_at_word4 a b c d :
  is_byte a -> is_byte b -> is_byte c -> is_byte d ->
  byte_at (word4 a b c d) 24 = a /\ byte_at (word4 a b c d) 16 = b /\
  byte_at (word4 a b c d) 8 = c /\ byte_at (word4 a b c d) 0 = d.
Proof.
  intros Ha Hb Hc Hd.
  repeat split; bits n; rewrite byte_at_bits by lia; rewrite word4_bits by (done || lia);
    destruct (Z.ltb_spec n 8); simpl andb; repeat split_test; try lia; try (f_equal; lia);
    symmetry; apply (is_u_bits 8); done || lia.
Qed.

(** [w >> 24] needs no mask. *)
Lemma shiftr_24 w : is_u32 w -> Z.shiftr w 24 = byte_at w 24.
Proof.
  intros Hw. bits n. rewrite byte_at_bits, Z.shiftr_spec by lia.
  destruct (Z.ltb_spec n 8); [done|]. apply (is_u_bits 32); done || lia.
Qed.

Lemma land_255_byte_at w : Z.land w 255 = byte_at w 0.
Proof. done. Qed.

Lemma word4_of_bytes w : is_u32 w -> word4 (byte_at w 24) (byte_at w 16) (byte_at w 8) (byte_at w 0) = w.
Proof.
  intros Hw. bits n. rewrite word4_bits by auto with mach.
  destruct (Z.ltb_spec n 8); [|destruct (Z.ltb_spec n 16); [|destruct (Z.ltb_spec n 24)]];
    rewrite byte_at_bits by lia; match goal with |- context [?k <? 8] => destruct (Z.ltb_spec k 8) end;
    try lia; simpl andb; try (f_equal; lia).
  symmetry. apply (is_u_bits 32); done || lia.
Qed.

Lemma word4_lxor a b c d a' b' c' d' :
  Z.lxor (word4 a b c d) (word4 a' b' c' d') = word4 (Z.lxor a a') (Z.lxor b b') (Z.lxor c c') (Z.lxor d d').
Proof.
  bits n. unfold word4. rewrite !Z.lxor_spec, !Z.shiftl_spec, !Z.lxor_spec by done.
  repeat match goal with |- context [Z.testbit ?x ?k] => destruct (Z.testbit x k) end; done.
Qed.

(** The masks of a single byte. *)
Lemma word4_masks a b c d :
  is_byte a -> is_byte b -> is_byte c -> is_byte d ->
  Z.land (word4 a b c d) 4278190080 = word4 a 0 0 0 /\ Z.land (word4 a b c d) 16711680 = word4 0 b 0 0 /\
  Z.land (word4 a b c d) 65280 = word4 0 0 c 0 /\ Z.land (word4 a b c d) 255 = word4 0 0 0 d.
Proof.
  intros Ha Hb Hc Hd.
  assert (H0 : is_byte 0) by done. assert (H255 : is_byte 255) by done.
  change 4278190080 with (word4 255 0 0 0). change 16711680 with (word4 0 255 0 0).
  change 65280 with (word4 0 0 255 0). change 255 with (word4 0 0 0 255) at 4.
  assert (G : forall x n, is_byte x -> 0 <= n -> Z.testbit x n && Z.testbit 255 n = Z.testbit x n).
  { intros x n Hx Hn. rewrite <- Z.land_spec. by rewrite land_255. }
  repeat split; bits n; rewrite Z.land_spec, !word4_bits by done;
    repeat split_test; rewrite ?Z.bits_0, ?andb_false_r; try done; apply G; done || lia.
Qed.

Section Masks.
Context (a b c d : Z) (Ha : is_byte a) (Hb : is_byte b) (Hc : is_byte c) (Hd : is_byte d).

Lemma mask_24 : Z.land (word4 a b c d) 4278190080 = word4 a 0 0 0.
Proof. by apply word4_masks. Qed.
Lemma mask_16 : Z.land (word4 a b c d) 16711680 = word4 0 b 0 0.
Proof. by apply word4_masks. Qed.
Lemma mask_8 : Z.land (word4 a b c d) 65280 = word4 0 0 c 0.
Proof. by apply word4_masks. Qed.
Lemma mask_0 : Z.land (word4 a b c d) 255 = word4 0 0 0 d.
Proof. by apply word4_masks. Qed.
End Masks.

(** A word is given by its bytes. *)
Lemma word_cases w (P : Z -> Prop) :
  is_u32 w -> (forall a b c d, is_byte a -> is_byte b -> is_byte c -> is_byte d -> P (word4 a b c d)) -> P w.
Proof. intros Hw H. rewrite <- (word4_of_bytes w Hw). apply H; apply is_byte_at. Qed.

Lemma word4_be a b c d :
  is_byte a -> is_byte b -> is_byte c -> is_byte d -> be_bytes 4 (word4 a b c d) = [a; b; c; d].
Proof.
  intros Ha Hb Hc Hd. destruct (byte_at_word4 a b c d Ha Hb Hc Hd) as (E1 & E2 & E3 & E4).
  assert (G : forall w k, u8 (Z.shiftr w k) = byte_at w k).
  { intros w k. unfold byte_at, wrapU. change 255 with (Z.ones 8). by rewrite Z.land_ones by lia. }
  unfold be_bytes. rewrite !G. simpl Z.of_nat. change (8 * Z.of_nat 2) with 16. change (8 * Z.of_nat 3) with 24.
  change (8 * Z.of_nat 1) with 8. change (8 * Z.of_nat 0) with 0. by rewrite E1, E2, E3, E4.
Qed.
