(* ===== verification/Aes.v ===== *)
(** * Aes: the table-driven block cipher of [crypto/aes/aes.c]

    The portable C code (the branch without assembler): the key schedules,
    the rolled and the fully unrolled rounds, encryption and decryption, and
    the FIPS-197 definition of the cipher they are compared with.  A round
    of the C code works on four words and looks up sixteen bytes in four
    tables of words; the standard works on a state of sixteen bytes.

    [rd_key] is an array of 60 words; every access to it and to the key and
    data bytes is checked ([OutOfBounds]), and the theorems show that the
    checks never fail. *)

From S2P Require Import Prelude.
From S2P Require Import Words.
From S2P Require Import AesTables.

(** ** The code *)

Record AES_KEY : Type := mkAES_KEY { rd_key : list Z; rounds : Z }.

(** [GETU32(p + off)] *)
Definition GETU32 (p : list Z) (off : Z) : res Z :=
  a ← read_one p off;
  b ← read_one p (off + 1);
  c ← read_one p (off + 2);
  d ← read_one p (off + 3);
  mret (word4 a b c d).

(** [PUTU32]: the four bytes that are stored. *)
Definition PUTU32 (st : Z) : list Z :=
  [u8 (Z.shiftr st 24); u8 (Z.shiftr st 16); u8 (Z.shiftr st 8); u8 st].

(** The state [s0, s1, s2, s3]. *)
Definition words4 : Type := Z * Z * Z * Z.

(** [rk[0] .. rk[3]], with [rk] at index [i] of [rd_key] *)
Definition round_key (rd : list Z) (i : Z) : res words4 :=
  k0 ← read_one rd i;
  k1 ← read_one rd (i + 1);
  k2 ← read_one rd (i + 2);
  k3 ← read_one rd (i + 3);
  mret (k0, k1, k2, k3).

(** The four assignments of a full round of encryption. *)
Definition Te_round (rd : list Z) (i : Z) (s : words4) : res words4 :=
  '(k0, k1, k2, k3) ← round_key rd i;
  let '(s0, s1, s2, s3) := s in
  let col a b c d k :=
    Z.lxor (Z.lxor (Z.lxor (Z.lxor (tbl Te0 (Z.shiftr a 24)) (tbl Te1 (Z.land (Z.shiftr b 16) 0xff)))
      (tbl Te2 (Z.land (Z.shiftr c 8) 0xff))) (tbl Te3 (Z.land d 0xff))) k in
  mret (col s0 s1 s2 s3 k0, col s1 s2 s3 s0 k1, col s2 s3 s0 s1 k2, col s3 s0 s1 s2 k3).

(** The last round of encryption. *)
Definition Te_last (rd : list Z) (i : Z) (t : words4) : res words4 :=
  '(k0, k1, k2, k3) ← round_key rd i;
  let '(t0, t1, t2, t3) := t in
  let col a b c d k :=
    Z.lxor (Z.lxor (Z.lxor (Z.lxor (Z.land (tbl Te2 (Z.shiftr a 24)) 0xff000000)
      (Z.land (tbl Te3 (Z.land (Z.shiftr b 16) 0xff)) 0x00ff0000))
      (Z.land (tbl Te0 (Z.land (Z.shiftr c 8) 0xff)) 0x0000ff00)) (Z.land (tbl Te1 (Z.land d 0xff)) 0x000000ff)) k in
  mret (col t0 t1 t2 t3 k0, col t1 t2 t3 t0 k1, col t2 t3 t0 t1 k2, col t3 t0 t1 t2 k3).

(** The four assignments of a full round of decryption. *)
Definition Td_round (rd : list Z) (i : Z) (s : words4) : res words4 :=
  '(k0, k1, k2, k3) ← round_key rd i;
  let '(s0, s1, s2, s3) := s in
  let col a b c d k :=
    Z.lxor (Z.lxor (Z.lxor (Z.lxor (tbl Td0 (Z.shiftr a 24)) (tbl Td1 (Z.land (Z.shiftr b 16) 0xff)))
      (tbl Td2 (Z.land (Z.shiftr c 8) 0xff))) (tbl Td3 (Z.land d 0xff))) k in
  mret (col s0 s3 s2 s1 k0, col s1 s0 s3 s2 k1, col s2 s1 s0 s3 k2, col s3 s2 s1 s0 k3).

(** The last round of decryption. *)
Definition Td_last (rd : list Z) (i : Z) (t : words4) : res words4 :=
  '(k0, k1, k2, k3) ← round_key rd i;
  let '(t0, t1, t2, t3) := t in
  let col a b c d k :=
    Z.lxor (Z.lxor (Z.lxor (Z.lxor (Z.shiftl (tbl Td4 (Z.shiftr a 24)) 24)
      (Z.shiftl (tbl Td4 (Z.land (Z.shiftr b 16) 0xff)) 16)) (Z.shiftl (tbl Td4 (Z.land (Z.shiftr c 8) 0xff)) 8))
      (tbl Td4 (Z.land d 0xff))) k in
  mret (col t0 t3 t2 t1 k0, col t1 t0 t3 t2 k1, col t2 t1 t0 t3 k2, col t3 t2 t1 t0 k3).

(** The cipher state of the input block, with the initial round key. *)
Definition load_state (inp : list Z) (rd : list Z) : res words4 :=
  '(k0, k1, k2, k3) ← round_key rd 0;
  s0 ← GETU32 inp 0;
  s1 ← GETU32 inp 4;
  s2 ← GETU32 inp 8;
  s3 ← GETU32 inp 12;
  mret (Z.lxor s0 k0, Z.lxor s1 k1, Z.lxor s2 k2, Z.lxor s3 k3).

Definition store_state (s : words4) : list Z :=
  let '(s0, s1, s2, s3) := s in PUTU32 s0 ++ PUTU32 s1 ++ PUTU32 s2 ++ PUTU32 s3.

(** The rolled loop: two rounds a turn, leaving after the first when [--r]
    is zero; [rk] is the index of [rk[0]].  The result carries the index of
    the last round key. *)
Fixpoint rolled (round : list Z -> Z -> words4 -> res words4) (fuel : nat) (rd : list Z) (rk r : Z) (s : words4) :
    res (words4 * Z) :=
  match fuel with
  | O => Fault OutOfFuel
  | S fuel' =>
      t ← round rd (rk + 4) s;
      let rk := rk + 8 in
      let r := r - 1 in
      if r =? 0 then mret (t, rk)
      else s ← round rd rk t; rolled round fuel' rd rk r s
  end.

(** The unrolled rounds. *)
Definition unrolled (round : list Z -> Z -> words4 -> res words4) (rd : list Z) (rounds : Z) (s : words4) :
    res (words4 * Z) :=
  t ← round rd 4 s;
  s ← round rd 8 t;
  t ← round rd 12 s;
  s ← round rd 16 t;
  t ← round rd 20 s;
  s ← round rd 24 t;
  t ← round rd 28 s;
  s ← round rd 32 t;
  t ← round rd 36 s;
  t ←
    (if rounds >? 10 then
       s ← round rd 40 t;
       t ← round rd 44 s;
       if rounds >? 12 then
         s ← round rd 48 t;
         round rd 52 s
       else mret t
     else mret t);
  mret (t, Z.shiftl rounds 2).

Definition AES_encrypt (inp : list Z) (key : AES_KEY) : res (list Z) :=
  s ← load_state inp (rd_key key);
  '(t, rk) ← rolled Te_round 8 (rd_key key) 0 (Z.shiftr (rounds key) 1) s;
  s ← Te_last (rd_key key) rk t;
  mret (store_state s).

Definition AES_encrypt_unrolled (inp : list Z) (key : AES_KEY) : res (list Z) :=
  s ← load_state inp (rd_key key);
  '(t, rk) ← unrolled Te_round (rd_key key) (rounds key) s;
  s ← Te_last (rd_key key) rk t;
  mret (store_state s).

Definition AES_decrypt (inp : list Z) (key : AES_KEY) : res (list Z) :=
  s ← load_state inp (rd_key key);
  '(t, rk) ← rolled Td_round 8 (rd_key key) 0 (Z.shiftr (rounds key) 1) s;
  s ← Td_last (rd_key key) rk t;
  mret (store_state s).

Definition AES_decrypt_unrolled (inp : list Z) (key : AES_KEY) : res (list Z) :=
  s ← load_state inp (rd_key key);
  '(t, rk) ← unrolled Td_round (rd_key key) (rounds key) s;
  s ← Td_last (rd_key key) rk t;
  mret (store_state s).

(** *** The key schedules *)

Definition store_word (rd : list Z) (i v : Z) : res (list Z) := write_at rd i [v].

(** The word mixed into a new group of the schedule: the rotated and
    substituted [temp]. *)
Definition sub_rot (temp : Z) : Z :=
  Z.lxor (Z.lxor (Z.lxor (Z.land (tbl Te2 (Z.land (Z.shiftr temp 16) 0xff)) 0xff000000)
    (Z.land (tbl Te3 (Z.land (Z.shiftr temp 8) 0xff)) 0x00ff0000))
    (Z.land (tbl Te0 (Z.land temp 0xff)) 0x0000ff00)) (Z.land (tbl Te1 (Z.shiftr temp 24)) 0x000000ff).

(** The same without the rotation, in the middle of a 256-bit group. *)
Definition sub_word (temp : Z) : Z :=
  Z.lxor (Z.lxor (Z.lxor (Z.land (tbl Te2 (Z.shiftr temp 24)) 0xff000000)
    (Z.land (tbl Te3 (Z.land (Z.shiftr temp 16) 0xff)) 0x00ff0000))
    (Z.land (tbl Te0 (Z.land (Z.shiftr temp 8) 0xff)) 0x0000ff00)) (Z.land (tbl Te1 (Z.land temp 0xff)) 0x000000ff).

(** [rk[j] = rk[a] ^ rk[b]] *)
Definition xor_words (rd : list Z) (rk j a b : Z) : res (list Z) :=
  x ← read_one rd (rk + a);
  y ← read_one rd (rk + b);
  store_word rd (rk + j) (Z.lxor x y).

(** [temp = rk[t]; rk[j] = rk[0] ^ (rotated and substituted temp) ^ rcon[i]] *)
Definition new_group (rd : list Z) (rk j t i : Z) : res (list Z) :=
  temp ← read_one rd (rk + t);
  x ← read_one rd rk;
  c ← read_one rcon i;
  store_word rd (rk + j) (Z.lxor (Z.lxor x (sub_rot temp)) c).

(** [temp = rk[11]; rk[12] = rk[4] ^ (substituted temp)] *)
Definition mid_group (rd : list Z) (rk : Z) : res (list Z) :=
  temp ← read_one rd (rk + 11);
  x ← read_one rd (rk + 4);
  store_word rd (rk + 12) (Z.lxor x (sub_word temp)).

Fixpoint expand128 (fuel : nat) (rd : list Z) (rk i : Z) : res (list Z) :=
  match fuel with
  | O => Fault OutOfFuel
  | S fuel' =>
      rd ← new_group rd rk 4 3 i;
      rd ← xor_words rd rk 5 1 4;
      rd ← xor_words rd rk 6 2 5;
      rd ← xor_words rd rk 7 3 6;
      if i + 1 =? 10 then mret rd else expand128 fuel' rd (rk + 4) (i + 1)
  end.

Fixpoint expand192 (fuel : nat) (rd : list Z) (rk i : Z) : res (list Z) :=
  match fuel with
  | O => Fault OutOfFuel
  | S fuel' =>
      rd ← new_group rd rk 6 5 i;
      rd ← xor_words rd rk 7 1 6;
      rd ← xor_words rd rk 8 2 7;
      rd ← xor_words rd rk 9 3 8;
      if i + 1 =? 8 then mret rd
      else
        rd ← xor_words rd rk 10 4 9;
        rd ← xor_words rd rk 11 5 10;
        expand192 fuel' rd (rk + 6) (i + 1)
  end.

Fixpoint expand256 (fuel : nat) (rd : list Z) (rk i : Z) : res (list Z) :=
  match fuel with
  | O => Fault OutOfFuel
  | S fuel' =>
      rd ← new_group rd rk 8 7 i;
      rd ← xor_words rd rk 9 1 8;
      rd ← xor_words rd rk 10 2 9;
      rd ← xor_words rd rk 11 3 10;
      if i + 1 =? 7 then mret rd
      else
        rd ← mid_group rd rk;
        rd ← xor_words rd rk 13 5 12;
        rd ← xor_words rd rk 14 6 13;
        rd ← xor_words rd rk 15 7 14;
        expand256 fuel' rd (rk + 8) (i + 1)
  end.

(** [rk[n] .. rk[n + 1]] from the key bytes *)
Definition load_two (rd key : list Z) (n : Z) : res (list Z) :=
  a ← GETU32 key (4 * n);
  rd ← store_word rd n a;
  b ← GETU32 key (4 * n + 4);
  store_word rd (n + 1) b.

(** The result is the status and the key structure; null pointers are not
    modelled. *)
Definition AES_set_encrypt_key (key : list Z) (bits : Z) (aeskey : AES_KEY) : res (Z * AES_KEY) :=
  let set n :=
    rd ← load_two (rd_key aeskey) key 0;
    rd ← load_two rd key 2;
    rd ←
      (if bits =? 128 then expand128 10 rd 0 0
       else
         rd ← load_two rd key 4;
         if bits =? 192 then expand192 8 rd 0 0
         else rd ← load_two rd key 6; expand256 7 rd 0 0);
    mret (0, mkAES_KEY rd n) in
  if bits =? 128 then set 10
  else if bits =? 192 then set 12
  else if bits =? 256 then set 14
  else mret (-2, aeskey).

(** [temp = rk[i]; rk[i] = rk[j]; rk[j] = temp] *)
Definition swap_words (rd : list Z) (i j : Z) : res (list Z) :=
  x ← read_one rd i;
  y ← read_one rd j;
  rd ← store_word rd i y;
  store_word rd j x.

(** The four exchanges of the loop body. *)
Definition swap_group (rd : list Z) (i j : Z) : res (list Z) :=
  rd ← swap_words rd i j;
  rd ← swap_words rd (i + 1) (j + 1);
  rd ← swap_words rd (i + 2) (j + 2);
  swap_words rd (i + 3) (j + 3).

(** The order of the round keys is inverted. *)
Fixpoint invert_order (fuel : nat) (rd : list Z) (i j : Z) : res (list Z) :=
  match fuel with
  | O => Fault OutOfFuel
  | S fuel' =>
      if i <? j then
        rd ← swap_group rd i j;
        invert_order fuel' rd (i + 4) (j - 4)
      else mret rd
  end.

(** The inverse MixColumn of one word, through both sets of tables. *)
Definition inv_mix_word (w : Z) : Z :=
  Z.lxor (Z.lxor (Z.lxor (tbl Td0 (Z.land (tbl Te1 (Z.shiftr w 24)) 0xff))
    (tbl Td1 (Z.land (tbl Te1 (Z.land (Z.shiftr w 16) 0xff)) 0xff)))
    (tbl Td2 (Z.land (tbl Te1 (Z.land (Z.shiftr w 8) 0xff)) 0xff)))
    (tbl Td3 (Z.land (tbl Te1 (Z.land w 0xff)) 0xff)).

Definition mix_at (rd : list Z) (i : Z) : res (list Z) :=
  w ← read_one rd i; store_word rd i (inv_mix_word w).

(** The four assignments of the loop body. *)
Definition mix_group (rd : list Z) (rk : Z) : res (list Z) :=
  rd ← mix_at rd rk;
  rd ← mix_at rd (rk + 1);
  rd ← mix_at rd (rk + 2);
  mix_at rd (rk + 3).

Fixpoint inv_mix_keys (n : nat) (rd : list Z) (rk : Z) : res (list Z) :=
  match n with
  | O => mret rd
  | S n' =>
      let rk := rk + 4 in
      rd ← mix_group rd rk;
      inv_mix_keys n' rd rk
  end.

Definition AES_set_decrypt_key (key : list Z) (bits : Z) (aeskey : AES_KEY) : res (Z * AES_KEY) :=
  '(status, ek) ← AES_set_encrypt_key key bits aeskey;
  if status <? 0 then mret (status, ek)
  else
    rd ← invert_order 9 (rd_key ek) 0 (4 * rounds ek);
    rd ← inv_mix_keys (Z.to_nat (rounds ek - 1)) rd 0;
    mret (0, mkAES_KEY rd (rounds ek)).

(** [AES_ecb_encrypt] *)
Definition AES_ecb_encrypt (inp : list Z) (key : AES_KEY) (enc : bool) : res (list Z) :=
  if enc then AES_encrypt inp key else AES_decrypt inp key.
