(* ===== verification/AesSpec.v ===== *)
(** * AesSpec: FIPS-197, and the code against it

    The cipher on a state of sixteen bytes in the order of the standard
    (byte [r + 4 c] is row [r] of column [c]): GF(2^8) arithmetic, the S-box
    from the field inverse and the affine map, the four transformations, the
    key expansion on words.  [Aes.v] is compared with it: every table entry,
    the rounds, the key schedules, and decryption as the inverse. *)

From Stdlib Require Import ZifyNat.
From S2P Require Import Prelude.
From S2P Require Import Words.
From S2P Require Import AesTables.
From S2P Require Import Aes.

Create HintDb aes discriminated.

(** ** The field *)

(** Multiplication by x modulo x^8 + x^4 + x^3 + x + 1. *)
Definition xtime (a : Z) : Z :=
  let d := Z.shiftl a 1 in if d <? 256 then d else Z.lxor d 0x11b.

(** Multiplication, by the binary digits of the left factor. *)
Fixpoint gmul_pos (p : positive) (b : Z) : Z :=
  match p with
  | xH => b
  | xO p' => gmul_pos p' (xtime b)
  | xI p' => Z.lxor b (gmul_pos p' (xtime b))
  end.

Definition gmul (a b : Z) : Z := match a with Z.pos p => gmul_pos p b | _ => 0 end.

(** The inverse a^254, with 0 for 0. *)
Definition ginv (a : Z) : Z := Nat.iter 254 (gmul a) 1.

Definition rotl8 (b n : Z) : Z := u8 (Z.lor (Z.shiftl b n) (Z.shiftr b (8 - n))).

Definition affine (b : Z) : Z :=
  Z.lxor (Z.lxor (Z.lxor (Z.lxor (Z.lxor b (rotl8 b 1)) (rotl8 b 2)) (rotl8 b 3)) (rotl8 b 4)) 0x63.

Definition S_box (x : Z) : Z := affine (ginv x).

(** The inverse: the inverse affine map, then the inverse in the field. *)
Definition S_box_inv (y : Z) : Z := ginv (Z.lxor (Z.lxor (Z.lxor (rotl8 y 1) (rotl8 y 3)) (rotl8 y 6)) 0x05).

(** ** The transformations *)

Definition SubBytes (s : list Z) : list Z := S_box <$> s.
Definition InvSubBytes (s : list Z) : list Z := S_box_inv <$> s.

Definition state_at (s : list Z) (i : nat) : Z := default 0 (s !! i).

Definition ShiftRows (s : list Z) : list Z :=
  (fun i => state_at s ((i + 4 * (i mod 4)) mod 16)%nat) <$> seq 0 16.
Definition InvShiftRows (s : list Z) : list Z :=
  (fun i => state_at s ((i + 12 * (i mod 4)) mod 16)%nat) <$> seq 0 16.

(** The product of a column with the circulant matrix of first row
    [m0 m1 m2 m3]. *)
Definition mix_column (m0 m1 m2 m3 : Z) (c : list Z) : list Z :=
  match c with
  | [a0; a1; a2; a3] =>
      let dot x0 x1 x2 x3 := Z.lxor (Z.lxor (Z.lxor (gmul x0 a0) (gmul x1 a1)) (gmul x2 a2)) (gmul x3 a3) in
      [dot m0 m1 m2 m3; dot m3 m0 m1 m2; dot m2 m3 m0 m1; dot m1 m2 m3 m0]
  | _ => []
  end.

Definition on_columns (f : list Z -> list Z) (s : list Z) : list Z :=
  f (take 4 s) ++ f (take 4 (drop 4 s)) ++ f (take 4 (drop 8 s)) ++ f (drop 12 s).

Definition MixColumns : list Z -> list Z := on_columns (mix_column 2 3 1 1).
Definition InvMixColumns : list Z -> list Z := on_columns (mix_column 14 11 13 9).

Definition AddRoundKey (k s : list Z) : list Z := zip_with Z.lxor s k.

(** The cipher with the round keys [ks], first to last. *)
Definition Cipher (inp : list Z) (k0 : list Z) (ks : list (list Z)) (kn : list Z) : list Z :=
  let s := fold_left (fun s k => AddRoundKey k (MixColumns (ShiftRows (SubBytes s)))) ks (AddRoundKey k0 inp) in
  AddRoundKey kn (ShiftRows (SubBytes s)).

(** ** The key expansion *)

Definition SubWord (w : Z) : Z :=
  word4 (S_box (byte_at w 24)) (S_box (byte_at w 16)) (S_box (byte_at w 8)) (S_box (byte_at w 0)).
Definition RotWord (w : Z) : Z := word4 (byte_at w 16) (byte_at w 8) (byte_at w 0) (byte_at w 24).
Definition Rcon (i : nat) : Z := word4 (Nat.iter (i - 1) xtime 1) 0 0 0.

(** The next word of the schedule [ws] of a key of [Nk] words. *)
Definition next_word (Nk : nat) (ws : list Z) : Z :=
  let i := length ws in
  let temp := state_at ws (i - 1) in
  let temp :=
    if (i mod Nk =? 0)%nat then Z.lxor (SubWord (RotWord temp)) (Rcon (i / Nk))
    else if (6 <? Nk)%nat && (i mod Nk =? 4)%nat then SubWord temp else temp in
  Z.lxor (state_at ws (i - Nk)) temp.

Definition expand (Nk n : nat) (ws : list Z) : list Z := Nat.iter n (fun ws => ws ++ [next_word Nk ws]) ws.

(** The words of the key, and of the whole schedule. *)
Fixpoint key_words (key : list Z) : list Z :=
  match key with
  | a :: b :: c :: d :: key' => word4 a b c d :: key_words key'
  | _ => []
  end.

Definition KeyExpansion (Nk Nr : nat) (key : list Z) : list Z := expand Nk (4 * (Nr + 1) - Nk) (key_words key).

(** Round key [i] of a schedule, as sixteen bytes. *)
Definition round_bytes (ws : list Z) (i : nat) : list Z := mjoin (be_bytes 4 <$> take 4 (drop (4 * i) ws)).

(** AES with a key of [Nk] words. *)
Definition AES (Nk : nat) (key inp : list Z) : list Z :=
  let Nr := (Nk + 6)%nat in
  let ws := KeyExpansion Nk Nr key in
  Cipher inp (round_bytes ws 0) (round_bytes ws <$> seq 1 (Nr - 1)) (round_bytes ws Nr).

(** FIPS-197, appendix C.1. *)
Example AES_vector :
  AES 4 (Z.of_nat <$> seq 0 16) ((fun i => 17 * Z.of_nat i) <$> seq 0 16) =
  [0x69; 0xc4; 0xe0; 0xd8; 0x6a; 0x7b; 0x04; 0x30; 0xd8; 0xcd; 0xb7; 0x80; 0x70; 0xb4; 0xc5; 0x5a].
Proof. vm_compute. reflexivity. Qed.

(** ** The tables *)

(** The column [y * (m0, m1, m2, m3)] as a word. *)
Definition column (m0 m1 m2 m3 y : Z) : Z := word4 (gmul m0 y) (gmul m1 y) (gmul m2 y) (gmul m3 y).

Definition Te_entries (x : Z) : bool :=
  let y := S_box x in
  (tbl Te0 x =? column 2 1 1 3 y) && (tbl Te1 x =? column 3 2 1 1 y) && (tbl Te2 x =? column 1 3 2 1 y) &&
  (tbl Te3 x =? column 1 1 3 2 y) && (S_box_inv y =? x) && (0 <=? y) && (y <? 256).

Definition Td_entries (x : Z) : bool :=
  let y := S_box_inv x in
  (tbl Td0 x =? column 14 9 13 11 y) && (tbl Td1 x =? column 11 14 9 13 y) && (tbl Td2 x =? column 13 11 14 9 y) &&
  (tbl Td3 x =? column 9 13 11 14 y) && (tbl Td4 x =? y) && (0 <=? y) && (y <? 256).

Lemma Te_spec x : is_byte x ->
  let y := S_box x in
  tbl Te0 x = column 2 1 1 3 y /\ tbl Te1 x = column 3 2 1 1 y /\ tbl Te2 x = column 1 3 2 1 y /\
  tbl Te3 x = column 1 1 3 2 y /\ S_box_inv y = x /\ is_byte y.
Proof.
  intros Hx. assert (H : Te_entries x = true) by (revert x Hx; apply all_bytes; vm_compute; reflexivity).
  unfold Te_entries in H. zify_bools. unfold is_u. change (2 ^ 8) with 256. tauto.
Qed.

Lemma Td_spec x : is_byte x ->
  let y := S_box_inv x in
  tbl Td0 x = column 14 9 13 11 y /\ tbl Td1 x = column 11 14 9 13 y /\ tbl Td2 x = column 13 11 14 9 y /\
  tbl Td3 x = column 9 13 11 14 y /\ tbl Td4 x = y /\ is_byte y.
Proof.
  intros Hx. assert (H : Td_entries x = true) by (revert x Hx; apply all_bytes; vm_compute; reflexivity).
  unfold Td_entries in H. zify_bools. unfold is_u. change (2 ^ 8) with 256. tauto.
Qed.

(** ** Field lemmas *)

Lemma xtime_byte a : is_byte a -> is_byte (xtime a).
Proof.
  intros Ha. assert (H : ((0 <=? xtime a) && (xtime a <? 256)) = true) by (revert a Ha; apply all_bytes; vm_compute; reflexivity).
  zify_bools. by split.
Qed.

Lemma xtime_lxor a b : is_byte a -> is_byte b -> xtime (Z.lxor a b) = Z.lxor (xtime a) (xtime b).
Proof.
  intros Ha Hb. apply Z.eqb_eq. revert b Hb. apply all_bytes. revert a Ha.
  apply (all_bytes (fun a => forallb (fun b => xtime (Z.lxor a b) =? Z.lxor (xtime a) (xtime b)) byte_values)).
  vm_compute. reflexivity.
Qed.

Lemma gmul_byte m a : is_byte a -> is_byte (gmul m a).
Proof.
  unfold gmul. destruct m as [|p|p]; [done| |done]. revert a.
  induction p as [p IH|p IH|]; intros a Ha; simpl; auto using xtime_byte with mach.
Qed.

Lemma gmul_lxor m a b : is_byte a -> is_byte b -> gmul m (Z.lxor a b) = Z.lxor (gmul m a) (gmul m b).
Proof.
  unfold gmul. destruct m as [|p|p]; [done| |done]. revert a b.
  induction p as [p IH|p IH|]; intros a b Ha Hb; simpl; [| |done].
  - rewrite xtime_lxor, IH by auto using xtime_byte.
    rewrite !Z.lxor_assoc. f_equal. rewrite <- !Z.lxor_assoc. f_equal. apply Z.lxor_comm.
  - rewrite xtime_lxor by done. apply IH; by apply xtime_byte.
Qed.

#[export] Hint Resolve gmul_byte xtime_byte : mach.

(** ** States and words *)

#[local] Opaque word4 tbl S_box S_box_inv gmul byte_at Z.lxor.

Definition pack (s : list Z) : words4 :=
  (word4 (state_at s 0) (state_at s 1) (state_at s 2) (state_at s 3),
   word4 (state_at s 4) (state_at s 5) (state_at s 6) (state_at s 7),
   word4 (state_at s 8) (state_at s 9) (state_at s 10) (state_at s 11),
   word4 (state_at s 12) (state_at s 13) (state_at s 14) (state_at s 15)).

(** A state: sixteen bytes. *)
Definition block (s : list Z) : Prop := length s = 16%nat /\ Forall is_byte s.

Lemma block_cases (P : list Z -> Prop) :
  (forall x0 x1 x2 x3 x4 x5 x6 x7 x8 x9 x10 x11 x12 x13 x14 x15,
     is_byte x0 -> is_byte x1 -> is_byte x2 -> is_byte x3 -> is_byte x4 -> is_byte x5 -> is_byte x6 -> is_byte x7 ->
     is_byte x8 -> is_byte x9 -> is_byte x10 -> is_byte x11 -> is_byte x12 -> is_byte x13 -> is_byte x14 -> is_byte x15 ->
     P [x0; x1; x2; x3; x4; x5; x6; x7; x8; x9; x10; x11; x12; x13; x14; x15]) ->
  forall s, block s -> P s.
Proof.
  intros H s [Hl Hb]. do 16 (destruct s as [|? s]; [discriminate Hl|]). destruct s; [|discriminate Hl].
  repeat match goal with HF : Forall _ (_ :: _) |- _ => inversion_clear HF end. by apply H.
Qed.

(** One word of a round: the four bytes of the column that ShiftRows brings
    together. *)
Definition mixed (m0 m1 m2 m3 a b c d : Z) : Z :=
  match mix_column m0 m1 m2 m3 [a; b; c; d] with
  | [y0; y1; y2; y3] => word4 y0 y1 y2 y3
  | _ => 0
  end.

(** Splitting a packed word. *)
Ltac split_words :=
  repeat match goal with
  | H0 : is_byte ?a, H1 : is_byte ?b, H2 : is_byte ?c, H3 : is_byte ?d |- context [Z.shiftr (word4 ?a ?b ?c ?d) 24] =>
      rewrite (shiftr_24 _ (word4_range a b c d H0 H1 H2 H3))
  | |- context [Z.land (Z.shiftr (word4 ?a ?b ?c ?d) ?k) 255] =>
      change (Z.land (Z.shiftr (word4 a b c d) k) 255) with (byte_at (word4 a b c d) k)
  | |- context [Z.land (word4 ?a ?b ?c ?d) 255] =>
      change (Z.land (word4 a b c d) 255) with (byte_at (word4 a b c d) 0)
  end;
  repeat match goal with
  | H0 : is_byte ?a, H1 : is_byte ?b, H2 : is_byte ?c, H3 : is_byte ?d |- context [byte_at (word4 ?a ?b ?c ?d) ?k] =>
      let E := fresh in
      pose proof (byte_at_word4 a b c d H0 H1 H2 H3) as E; rewrite ?(proj1 E), ?(proj1 (proj2 E)),
        ?(proj1 (proj2 (proj2 E))), ?(proj2 (proj2 (proj2 E))); clear E
  end.

Lemma Te_mixed a b c d :
  is_byte a -> is_byte b -> is_byte c -> is_byte d ->
  Z.lxor (Z.lxor (Z.lxor (tbl Te0 a) (tbl Te1 b)) (tbl Te2 c)) (tbl Te3 d) =
    mixed 2 3 1 1 (S_box a) (S_box b) (S_box c) (S_box d).
Proof.
  intros Ha Hb Hc Hd. rewrite (proj1 (Te_spec a Ha)), (proj1 (proj2 (Te_spec b Hb))),
    (proj1 (proj2 (proj2 (Te_spec c Hc)))), (proj1 (proj2 (proj2 (proj2 (Te_spec d Hd))))).
  unfold column. by rewrite !word4_lxor.
Qed.

Lemma Td_mixed a b c d :
  is_byte a -> is_byte b -> is_byte c -> is_byte d ->
  Z.lxor (Z.lxor (Z.lxor (tbl Td0 a) (tbl Td1 b)) (tbl Td2 c)) (tbl Td3 d) =
    mixed 14 11 13 9 (S_box_inv a) (S_box_inv b) (S_box_inv c) (S_box_inv d).
Proof.
  intros Ha Hb Hc Hd. rewrite (proj1 (Td_spec a Ha)), (proj1 (proj2 (Td_spec b Hb))),
    (proj1 (proj2 (proj2 (Td_spec c Hc)))), (proj1 (proj2 (proj2 (proj2 (Td_spec d Hd))))).
  unfold column. by rewrite !word4_lxor.
Qed.

(** ** The rounds *)

Lemma Te_round_spec rd i s k :
  block s -> block k -> round_key rd i = Ok (pack k) ->
  Te_round rd i (pack s) = Ok (pack (AddRoundKey k (MixColumns (ShiftRows (SubBytes s))))).
Proof.
  intros Hs Hk Hr. unfold Te_round. rewrite Hr. clear Hr. revert k Hk. refine (block_cases _ _). intros. revert s Hs.
  refine (block_cases _ _). intros. unfold pack, state_at. cbn -[word4 tbl Z.lxor Z.land Z.shiftr S_box].
  split_words. rewrite !Te_mixed by assumption. cbn -[word4 Z.lxor S_box gmul]. by rewrite !word4_lxor.
Qed.

(** The single substituted bytes of the last round and of the key schedule. *)
Lemma Te_bytes a b c d :
  is_byte a -> is_byte b -> is_byte c -> is_byte d ->
  Z.lxor (Z.lxor (Z.lxor (Z.land (tbl Te2 a) 0xff000000) (Z.land (tbl Te3 b) 0x00ff0000))
    (Z.land (tbl Te0 c) 0x0000ff00)) (Z.land (tbl Te1 d) 0x000000ff) = word4 (S_box a) (S_box b) (S_box c) (S_box d).
Proof.
  intros Ha Hb Hc Hd.
  destruct (Te_spec a Ha) as (_ & _ & -> & _ & _ & Ba). destruct (Te_spec b Hb) as (_ & _ & _ & -> & _ & Bb).
  destruct (Te_spec c Hc) as (-> & _ & _ & _ & _ & Bc). destruct (Te_spec d Hd) as (_ & -> & _ & _ & _ & Bd).
  unfold column. rewrite mask_24, mask_16, mask_8, mask_0 by auto with mach.
  rewrite !word4_lxor, ?Z.lxor_0_l, ?Z.lxor_0_r. done.
Qed.

Lemma Te_last_spec rd i s k :
  block s -> block k -> round_key rd i = Ok (pack k) ->
  Te_last rd i (pack s) = Ok (pack (AddRoundKey k (ShiftRows (SubBytes s)))).
Proof.
  intros Hs Hk Hr. unfold Te_last. rewrite Hr. clear Hr. revert k Hk. refine (block_cases _ _). intros. revert s Hs.
  refine (block_cases _ _). intros. unfold pack, state_at. cbn -[word4 tbl Z.lxor Z.land Z.shiftr S_box].
  split_words. rewrite !Te_bytes by assumption. by rewrite !word4_lxor.
Qed.

Lemma Td_round_spec rd i s k :
  block s -> block k -> round_key rd i = Ok (pack k) ->
  Td_round rd i (pack s) = Ok (pack (AddRoundKey k (InvMixColumns (InvShiftRows (InvSubBytes s))))).
Proof.
  intros Hs Hk Hr. unfold Td_round. rewrite Hr. clear Hr. revert k Hk. refine (block_cases _ _). intros. revert s Hs.
  refine (block_cases _ _). intros. unfold pack, state_at. cbn -[word4 tbl Z.lxor Z.land Z.shiftr S_box_inv].
  split_words. rewrite !Td_mixed by assumption. cbn -[word4 Z.lxor S_box_inv gmul]. by rewrite !word4_lxor.
Qed.

Lemma Td_last_spec rd i s k :
  block s -> block k -> round_key rd i = Ok (pack k) ->
  Td_last rd i (pack s) = Ok (pack (AddRoundKey k (InvShiftRows (InvSubBytes s)))).
Proof.
  assert (G : forall a b c d, is_byte a -> is_byte b -> is_byte c -> is_byte d ->
    Z.lxor (Z.lxor (Z.lxor (Z.shiftl (tbl Td4 a) 24) (Z.shiftl (tbl Td4 b) 16)) (Z.shiftl (tbl Td4 c) 8)) (tbl Td4 d) =
    word4 (S_box_inv a) (S_box_inv b) (S_box_inv c) (S_box_inv d)).
  { intros a b c d Ha Hb Hc Hd.
    destruct (Td_spec a Ha) as (_ & _ & _ & _ & -> & _). destruct (Td_spec b Hb) as (_ & _ & _ & _ & -> & _).
    destruct (Td_spec c Hc) as (_ & _ & _ & _ & -> & _). destruct (Td_spec d Hd) as (_ & _ & _ & _ & -> & _).
    apply word4_fold. }
  intros Hs Hk Hr. unfold Td_last. rewrite Hr. clear Hr. revert k Hk. refine (block_cases _ _). intros. revert s Hs.
  refine (block_cases _ _). intros. unfold pack, state_at. cbn -[word4 tbl Z.lxor Z.land Z.shiftr Z.shiftl S_box_inv].
  split_words. rewrite !G by assumption. by rewrite !word4_lxor.
Qed.

Lemma GETU32_at p off a b c d :
  0 <= off -> p !! Z.to_nat off = Some a -> p !! Z.to_nat (off + 1) = Some b ->
  p !! Z.to_nat (off + 2) = Some c -> p !! Z.to_nat (off + 3) = Some d -> GETU32 p off = Ok (word4 a b c d).
Proof. intros Ho Ha Hb Hc Hd. unfold GETU32.
  rewrite (read_one_lookup p off a), (read_one_lookup p (off + 1) b), (read_one_lookup p (off + 2) c),
    (read_one_lookup p (off + 3) d) by (assumption || lia). done.
Qed.

Lemma load_state_spec inp rd k :
  block inp -> block k -> round_key rd 0 = Ok (pack k) -> load_state inp rd = Ok (pack (AddRoundKey k inp)).
Proof.
  intros Hs Hk Hr. unfold load_state. rewrite Hr. clear Hr. revert k Hk. refine (block_cases _ _). intros. revert inp Hs.
  refine (block_cases _ _). intros. unfold pack, state_at. cbn -[word4 Z.lxor GETU32].
  do 4 (erewrite GETU32_at by (lia || reflexivity); cbn [mbind res_bind]). by rewrite !word4_lxor.
Qed.

Lemma store_state_spec s : block s -> store_state (pack s) = s.
Proof.
  revert s. refine (block_cases _ _). intros. unfold pack, state_at. cbn [default lookup list_lookup].
  assert (G : forall w, PUTU32 w = be_bytes 4 w).
  { intros w. unfold PUTU32. simpl. by rewrite Z.shiftr_0_r. }
  unfold store_state. rewrite !G. by rewrite !word4_be by assumption.
Qed.

(** ** States stay states *)

Lemma block_intro s : length s = 16%nat -> Forall is_byte s -> block s.
Proof. by split. Qed.

Lemma S_box_byte x : is_byte x -> is_byte (S_box x).
Proof. intros Hx. by destruct (Te_spec x Hx) as (_ & _ & _ & _ & _ & H). Qed.

Lemma S_box_inv_byte x : is_byte x -> is_byte (S_box_inv x).
Proof. intros Hx. by destruct (Td_spec x Hx) as (_ & _ & _ & _ & _ & H). Qed.

#[export] Hint Resolve S_box_byte S_box_inv_byte : mach.

Ltac block_bytes := intros; split; [done|]; repeat (apply Forall_cons_2; [auto 10 with mach|]); apply Forall_nil_2.

Lemma block_SubBytes s : block s -> block (SubBytes s).
Proof. revert s. refine (block_cases _ _). block_bytes. Qed.

Lemma block_InvSubBytes s : block s -> block (InvSubBytes s).
Proof. revert s. refine (block_cases _ _). block_bytes. Qed.

Lemma block_ShiftRows s : block s -> block (ShiftRows s).
Proof. revert s. refine (block_cases _ _). block_bytes. Qed.

Lemma block_InvShiftRows s : block s -> block (InvShiftRows s).
Proof. revert s. refine (block_cases _ _). block_bytes. Qed.

Lemma block_MixColumns s : block s -> block (MixColumns s).
Proof. revert s. refine (block_cases _ _). block_bytes. Qed.

Lemma block_InvMixColumns s : block s -> block (InvMixColumns s).
Proof. revert s. refine (block_cases _ _). block_bytes. Qed.

Lemma block_AddRoundKey k s : block k -> block s -> block (AddRoundKey k s).
Proof.
  intros Hk. revert k Hk s. refine (block_cases _ _). intros ? ? ? ? ? ? ? ? ? ? ? ? ? ? ? ? ? ? ? ? ? ? ? ? ? ? ? ? ? ? ? ?.
  refine (block_cases _ _). block_bytes.
Qed.

#[export] Hint Resolve block_SubBytes block_InvSubBytes block_ShiftRows block_InvShiftRows block_MixColumns
  block_InvMixColumns block_AddRoundKey : aes.

(** ** The loops over the rounds *)

(** [round] in the code is [f] on states. *)
Definition computes (round : list Z -> Z -> words4 -> res words4) (f : list Z -> list Z -> list Z) : Prop :=
  forall rd i s k, block s -> block k -> round_key rd i = Ok (pack k) ->
    round rd i (pack s) = Ok (pack (f k s)) /\ block (f k s).

(** The round keys [ks] start at index [i] of the schedule. *)
Definition keys_at (rd : list Z) (i : Z) (ks : list (list Z)) : Prop :=
  forall j k, ks !! j = Some k -> round_key rd (i + 4 * Z.of_nat j) = Ok (pack k) /\ block k.

Lemma keys_at_cons rd i k ks : keys_at rd i (k :: ks) <-> (round_key rd i = Ok (pack k) /\ block k) /\ keys_at rd (i + 4) ks.
Proof.
  split.
  - intros H. split; [rewrite <- (Z.add_0_r i); by apply (H 0%nat)|].
    intros j k' Hj. replace (i + 4 + 4 * Z.of_nat j) with (i + 4 * Z.of_nat (S j)) by lia. by apply H.
  - intros [H1 H2] [|j] k'; simpl.
    + intros [= <-]. by rewrite Z.add_0_r.
    + intros Hj. replace (i + 4 * Z.of_nat (S j)) with (i + 4 + 4 * Z.of_nat j) by lia. by apply H2.
Qed.

Lemma rolled_spec round f rd r fuel rk ks s :
  computes round f -> (r < fuel)%nat -> length ks = (2 * r + 1)%nat -> keys_at rd (rk + 4) ks -> block s ->
  rolled round fuel rd rk (Z.of_nat r + 1) (pack s) =
    Ok (pack (fold_left (fun s k => f k s) ks s), rk + 8 * (Z.of_nat r + 1)) /\
  block (fold_left (fun s k => f k s) ks s).
Proof.
  intros Hf. revert fuel rk ks s. induction r as [|r IH]; intros fuel rk ks s Hfuel Hl Hk Hs;
    (destruct fuel as [|fuel]; [lia|]); (destruct ks as [|k1 ks]; [simpl in Hl; lia|]);
    apply keys_at_cons in Hk as [[R1 B1] Hk]; destruct (Hf _ _ _ _ Hs B1 R1) as [E1 S1];
    cbn [rolled]; rewrite E1; cbn [mbind res_bind].
  - destruct ks; [|simpl in Hl; lia]. rewrite (proj2 (Z.eqb_eq _ _)) by lia. simpl. split; [|done].
    by replace (rk + 8 * (Z.of_nat 0 + 1)) with (rk + 8) by lia.
  - rewrite (proj2 (Z.eqb_neq _ _)) by lia. destruct ks as [|k2 ks]; [simpl in Hl; lia|].
    apply keys_at_cons in Hk as [[R2 B2] Hk]. replace (rk + 4 + 4) with (rk + 8) in R2 by lia.
    destruct (Hf _ _ _ _ S1 B2 R2) as [E2 S2]. rewrite E2. cbn [mbind res_bind fold_left].
    replace (Z.of_nat (S r) + 1 - 1) with (Z.of_nat r + 1) by lia.
    replace (rk + 8 * (Z.of_nat (S r) + 1)) with (rk + 8 + 8 * (Z.of_nat r + 1)) by lia.
    apply IH; [lia|simpl in Hl; lia| |done]. by replace (rk + 8 + 4) with (rk + 4 + 4 + 4) by lia.
Qed.

(** The unrolled code makes the same rounds. *)
Lemma unrolled_rolled round rd n s :
  n = 10 \/ n = 12 \/ n = 14 -> unrolled round rd n s = rolled round 8 rd 0 (Z.shiftr n 1) s.
Proof.
  intros [-> | [-> | ->]]; lazy;
    repeat match goal with |- context [match round ?a ?b ?c with _ => _ end] => destruct (round a b c); [|done] end; done.
Qed.

(** ** The schedule in memory *)

Lemma read_prefix ws tl i : (i < length ws)%nat -> read_one (ws ++ tl) (Z.of_nat i) = Ok (state_at ws i).
Proof.
  intros Hi. destruct (lookup_lt_is_Some_2 ws i Hi) as [x Hx]. unfold state_at. rewrite Hx.
  apply read_one_lookup; [lia|]. rewrite Nat2Z.id. by apply lookup_app_l_Some.
Qed.

Lemma round_key_prefix ws tl i :
  (4 * i + 4 <= length ws)%nat -> Forall is_u32 ws ->
  round_key (ws ++ tl) (4 * Z.of_nat i) = Ok (pack (round_bytes ws i)) /\ block (round_bytes ws i).
Proof.
  intros Hi Hw. unfold round_key.
  replace (4 * Z.of_nat i + 1) with (Z.of_nat (4 * i + 1)) by lia.
  replace (4 * Z.of_nat i + 2) with (Z.of_nat (4 * i + 2)) by lia.
  replace (4 * Z.of_nat i + 3) with (Z.of_nat (4 * i + 3)) by lia.
  replace (4 * Z.of_nat i) with (Z.of_nat (4 * i)) by lia.
  rewrite !read_prefix by lia. cbn [mbind res_bind].
  unfold round_bytes. assert (Hf : Forall is_u32 (take 4 (drop (4 * i) ws))) by (by apply Forall_take, Forall_drop).
  assert (Hx : forall j, (j < 4)%nat -> state_at ws (4 * i + j) = state_at (take 4 (drop (4 * i) ws)) j).
  { intros j Hj. unfold state_at. rewrite lookup_take_lt by lia. by rewrite lookup_drop. }
  rewrite <- (Nat.add_0_r (4 * i)) at 1. rewrite !Hx by lia.
  assert (Hl : length (take 4 (drop (4 * i) ws)) = 4%nat) by (rewrite length_take, length_drop; lia).
  destruct (take 4 (drop (4 * i) ws)) as [|w0 [|w1 [|w2 [|w3 [|]]]]]; try discriminate Hl.
  repeat match goal with HF : Forall _ (_ :: _) |- _ => inversion_clear HF end.
  unfold state_at. cbn [default lookup list_lookup].
  rewrite <- (word4_of_bytes w0), <- (word4_of_bytes w1), <- (word4_of_bytes w2), <- (word4_of_bytes w3) by done.
  cbn [fmap list_fmap mjoin list_join]. rewrite !word4_be by auto with mach. split; [done|]. block_bytes.
Qed.

(** Encryption with a schedule of 2 r + 2 rounds. *)
Lemma AES_encrypt_schedule inp ws tl r :
  (r < 8)%nat -> length ws = (4 * (2 * r + 3))%nat -> Forall is_u32 ws -> block inp ->
  AES_encrypt inp (mkAES_KEY (ws ++ tl) (2 * (Z.of_nat r + 1))) =
    Ok (Cipher inp (round_bytes ws 0) (round_bytes ws <$> seq 1 (2 * r + 1)) (round_bytes ws (2 * r + 2))).
Proof.
  intros Hr Hl Hw Hb. unfold AES_encrypt. cbn [rd_key rounds].
  destruct (round_key_prefix ws tl 0 ltac:(lia) Hw) as [R0 B0].
  rewrite (load_state_spec inp _ (round_bytes ws 0) Hb B0 R0). cbn [mbind res_bind].
  replace (Z.shiftr (2 * (Z.of_nat r + 1)) 1) with (Z.of_nat r + 1)
    by (rewrite Z.shiftr_div_pow2, Z.mul_comm by lia; by rewrite Z.div_mul).
  destruct (rolled_spec Te_round (fun k s => AddRoundKey k (MixColumns (ShiftRows (SubBytes s)))) (ws ++ tl) r 8 0
    (round_bytes ws <$> seq 1 (2 * r + 1)) (AddRoundKey (round_bytes ws 0) inp)) as [E1 B1]; [| lia | | |auto with aes|].
  - intros rd i s k Hs Hk Hrk. split; [by apply Te_round_spec|auto 8 with aes].
  - by rewrite length_fmap, length_seq.
  - intros j k Hj. apply list_lookup_fmap_Some in Hj as (n & -> & Hn). apply lookup_seq in Hn as [-> Hn].
    replace (0 + 4 + 4 * Z.of_nat j) with (4 * Z.of_nat (1 + j)) by lia. apply round_key_prefix; [lia|done].
  - rewrite E1. cbn [mbind res_bind].
    destruct (round_key_prefix ws tl (2 * r + 2) ltac:(lia) Hw) as [RN BN].
    replace (4 * Z.of_nat (2 * r + 2)) with (0 + 8 * (Z.of_nat r + 1)) in RN by lia.
    rewrite (Te_last_spec _ _ _ _ B1 BN RN). cbn [mbind res_bind].
    unfold mret, res_ret. f_equal. rewrite store_state_spec by auto 8 with aes. done.
Qed.

(** ** The key schedule *)

Lemma store_next ws x tl v : store_word (ws ++ x :: tl) (zlen ws) v = Ok ((ws ++ [v]) ++ tl).
Proof.
  unfold store_word. rewrite write_at_Ok.
  - f_equal. unfold splice, zlen. rewrite Nat2Z.id, take_app_length, <- app_assoc. f_equal. simpl. f_equal.
    replace (Z.to_nat (Z.of_nat (length ws) + Z.of_nat 1)) with (length ws + 1)%nat by lia.
    rewrite <- drop_drop, drop_app_length. done.
  - apply zlen_nonneg.
  - autorewrite with blocks. pose proof (zlen_nonneg tl). lia.
Qed.

Lemma sub_rot_spec w : is_u32 w -> sub_rot w = SubWord (RotWord w).
Proof.
  intros Hw. revert w Hw. refine (fun w Hw => word_cases w (fun w => sub_rot w = SubWord (RotWord w)) Hw _).
  intros a b c d Ha Hb Hc Hd. unfold sub_rot, SubWord, RotWord. split_words. by rewrite Te_bytes.
Qed.

Lemma sub_word_spec w : is_u32 w -> sub_word w = SubWord w.
Proof.
  intros Hw. apply (word_cases w (fun w => sub_word w = SubWord w) Hw).
  intros a b c d Ha Hb Hc Hd. unfold sub_word, SubWord. split_words. by rewrite Te_bytes.
Qed.

Lemma rcon_spec i : (i < 10)%nat -> read_one rcon (Z.of_nat i) = Ok (Rcon (S i)).
Proof. intros Hi. do 10 (destruct i as [|i]; [reflexivity|]). lia. Qed.

Lemma SubWord_u32 w : is_u32 (SubWord w).
Proof. unfold SubWord. apply word4_range; auto with mach. Qed.

Lemma next_word_u32 Nk ws : Forall is_u32 ws -> is_u32 (next_word Nk ws).
Proof.
  intros Hw. assert (G : forall i, is_u32 (state_at ws i)).
  { intros i. unfold state_at. destruct (ws !! i) eqn:E; [by eapply Forall_lookup_1|done]. }
  unfold next_word. apply is_u_lxor; [lia|apply G|]. repeat case_match; auto using SubWord_u32.
  apply is_u_lxor; [lia|apply SubWord_u32|]. unfold Rcon. apply word4_range; try done.
  assert (H8 : forall n, is_byte (Nat.iter n xtime 1)) by (induction n; simpl; [done|auto with mach]).
  apply H8.
Qed.

(** The schedule so far is the start of the array, with room for [n] words. *)
Definition laid (rd ws : list Z) (n : nat) : Prop := exists tl, rd = ws ++ tl /\ length tl = n /\ Forall is_u32 ws.

Lemma laid_store rd ws n v i :
  laid rd ws (S n) -> is_u32 v -> i = zlen ws -> exists rd', store_word rd i v = Ok rd' /\ laid rd' (ws ++ [v]) n.
Proof.
  intros (tl & -> & Hl & Hw) Hv ->. destruct tl as [|x tl]; [discriminate|]. simplify_eq/=.
  eexists. split; [apply store_next|]. exists tl. split; [done|]. split; [done|]. apply Forall_app. by split; [|constructor].
Qed.

Lemma laid_read rd ws n i : laid rd ws n -> 0 <= i < zlen ws -> read_one rd i = Ok (state_at ws (Z.to_nat i)).
Proof.
  intros (tl & -> & _ & _) Hi. unfold zlen in Hi. rewrite <- (Z2Nat.id i) at 1 by lia. apply read_prefix. lia.
Qed.

Lemma laid_u32 rd ws n i : laid rd ws n -> is_u32 (state_at ws i).
Proof.
  intros (tl & _ & _ & Hw). unfold state_at. destruct (ws !! i) eqn:E; [by eapply Forall_lookup_1|done].
Qed.

(** [rk[j] = rk[a] ^ rk[b]] is the next word where the standard has a plain
    xor. *)
Lemma xor_words_next Nk rd ws n rk j a b :
  laid rd ws (S n) -> 0 <= rk -> 0 <= a -> (0 < Nk)%nat -> rk + j = zlen ws -> a = j - Z.of_nat Nk -> b = j - 1 ->
  (length ws mod Nk <> 0)%nat -> (6 < Nk -> length ws mod Nk <> 4)%nat ->
  exists rd', xor_words rd rk j a b = Ok rd' /\ laid rd' (ws ++ [next_word Nk ws]) n.
Proof.
  intros HL Hrk Ha HN Hj -> -> Hm H4. unfold xor_words.
  rewrite (laid_read _ _ _ (rk + (j - Z.of_nat Nk)) HL), (laid_read _ _ _ (rk + (j - 1)) HL) by lia. cbn [mbind res_bind].
  destruct (laid_store rd ws n (next_word Nk ws) (rk + j) HL) as (rd' & E & HL');
    [apply next_word_u32; by destruct HL as (? & _ & _ & ?)|lia|].
  exists rd'. split; [|done]. rewrite <- E. f_equal. unfold next_word. rewrite (proj2 (Nat.eqb_neq _ _) Hm).
  replace ((6 <? Nk)%nat && (length ws mod Nk =? 4)%nat) with false.
  - unfold zlen in Hj. f_equal; f_equal; lia.
  - symmetry. apply andb_false_iff. destruct (Nat.ltb_spec 6 Nk); [right; apply Nat.eqb_neq; auto|by left].
Qed.

(** The first word of a group. *)
Lemma new_group_next Nk rd ws n rk j t i :
  laid rd ws (S n) -> 0 <= rk -> rk + j = zlen ws -> j = Z.of_nat Nk -> t = j - 1 -> 0 < j ->
  (length ws mod Nk = 0)%nat -> (length ws / Nk = S (Z.to_nat i))%nat -> 0 <= i < 10 ->
  exists rd', new_group rd rk j t i = Ok rd' /\ laid rd' (ws ++ [next_word Nk ws]) n.
Proof.
  intros HL Hrk Hj HN -> Hj0 Hm Hd Hi. unfold new_group.
  rewrite (laid_read _ _ _ (rk + (j - 1)) HL), (laid_read _ _ _ rk HL) by lia. cbn [mbind res_bind].
  rewrite <- (Z2Nat.id i) by lia. rewrite rcon_spec by lia. cbn [mbind res_bind].
  destruct (laid_store rd ws n (next_word Nk ws) (rk + j) HL) as (rd' & E & HL');
    [apply next_word_u32; by destruct HL as (? & _ & _ & ?)|lia|].
  exists rd'. split; [|done]. rewrite <- E. f_equal. unfold next_word. rewrite (proj2 (Nat.eqb_eq _ _) Hm), Hd, Z.lxor_assoc.
  unfold zlen in Hj. rewrite sub_rot_spec by (by eapply laid_u32).
  replace (Z.to_nat (rk + (j - 1))) with (length ws - 1)%nat by lia.
  replace (Z.to_nat rk) with (length ws - Nk)%nat by lia. reflexivity.
Qed.

Lemma expand_S Nk n ws : expand Nk (S n) ws = expand Nk n (ws ++ [next_word Nk ws]).
Proof. exact (Nat.iter_succ_r n _ (fun ws => ws ++ [next_word Nk ws]) ws). Qed.

Lemma length_expand Nk n ws : length (expand Nk n ws) = (n + length ws)%nat.
Proof. revert ws. induction n as [|n IH]; intros ws; [done|]. rewrite expand_S, IH, length_app. simpl. lia. Qed.

(** Positions in the schedule. *)
Ltac slots := unfold zlen; rewrite ?length_app; cbn [length]; zify; Z.to_euclidean_division_equations; lia.

(** One assignment of the key schedule. *)
Ltac next_step H :=
  let rd := fresh "rd" in let E := fresh "E" in let L := fresh "L" in
  destruct H as (rd & E & L); [slots..|]; rewrite E; cbn [mbind res_bind]; clear E.

Ltac xor_step Nk rk j a b :=
  match goal with K : laid ?rd ?ws (S ?n) |- _ => next_step (xor_words_next Nk rd ws n rk j a b K); clear K end.

Ltac group_step Nk rk j t i :=
  match goal with K : laid ?rd ?ws (S ?n) |- _ => next_step (new_group_next Nk rd ws n rk j t i K); clear K end.

Lemma expand128_ok k i fuel rd ws :
  (i + k = 9)%nat -> (k < fuel)%nat -> length ws = (4 * (i + 1))%nat -> laid rd ws (4 * k + 20) ->
  exists rd', expand128 fuel rd (4 * Z.of_nat i) (Z.of_nat i) = Ok rd' /\ laid rd' (expand 4 (4 * k + 4) ws) 16.
Proof.
  revert i fuel rd ws. induction k as [|k IH]; intros i fuel rd ws Hi Hf Hl HL;
    (destruct fuel as [|fuel]; [lia|]); cbn [expand128]; set (rk := 4 * Z.of_nat i).
  - change (4 * 0 + 20)%nat with 20%nat in HL. change (4 * 0 + 4)%nat with 4%nat.
    group_step 4%nat rk 4 3 (Z.of_nat i). xor_step 4%nat rk 5 1 4. xor_step 4%nat rk 6 2 5. xor_step 4%nat rk 7 3 6.
    rewrite (proj2 (Z.eqb_eq _ _)) by lia. rewrite !expand_S. eauto.
  - replace (4 * S k + 20)%nat with (4 + (4 * k + 20))%nat in HL by lia.
    replace (4 * S k + 4)%nat with (4 + (4 * k + 4))%nat by lia. cbn [Nat.add] in HL |- *. rewrite !expand_S.
    group_step 4%nat rk 4 3 (Z.of_nat i). xor_step 4%nat rk 5 1 4. xor_step 4%nat rk 6 2 5. xor_step 4%nat rk 7 3 6.
    rewrite (proj2 (Z.eqb_neq _ _)) by lia. unfold rk.
    replace (4 * Z.of_nat i + 4) with (4 * Z.of_nat (S i)) by lia. replace (Z.of_nat i + 1) with (Z.of_nat (S i)) by lia.
    apply IH; [lia|lia|slots|done].
Qed.

Lemma expand192_ok k i fuel rd ws :
  (i + k = 7)%nat -> (k < fuel)%nat -> length ws = (6 * (i + 1))%nat -> laid rd ws (6 * k + 12) ->
  exists rd', expand192 fuel rd (6 * Z.of_nat i) (Z.of_nat i) = Ok rd' /\ laid rd' (expand 6 (6 * k + 4) ws) 8.
Proof.
  revert i fuel rd ws. induction k as [|k IH]; intros i fuel rd ws Hi Hf Hl HL;
    (destruct fuel as [|fuel]; [lia|]); cbn [expand192]; set (rk := 6 * Z.of_nat i).
  - change (6 * 0 + 12)%nat with 12%nat in HL. change (6 * 0 + 4)%nat with 4%nat.
    group_step 6%nat rk 6 5 (Z.of_nat i). xor_step 6%nat rk 7 1 6. xor_step 6%nat rk 8 2 7. xor_step 6%nat rk 9 3 8.
    rewrite (proj2 (Z.eqb_eq _ _)) by lia. rewrite !expand_S. eauto.
  - replace (6 * S k + 12)%nat with (6 + (6 * k + 12))%nat in HL by lia.
    replace (6 * S k + 4)%nat with (6 + (6 * k + 4))%nat by lia. cbn [Nat.add] in HL |- *. rewrite !expand_S.
    group_step 6%nat rk 6 5 (Z.of_nat i). xor_step 6%nat rk 7 1 6. xor_step 6%nat rk 8 2 7. xor_step 6%nat rk 9 3 8.
    rewrite (proj2 (Z.eqb_neq _ _)) by lia. xor_step 6%nat rk 10 4 9. xor_step 6%nat rk 11 5 10. unfold rk.
    replace (6 * Z.of_nat i + 6) with (6 * Z.of_nat (S i)) by lia. replace (Z.of_nat i + 1) with (Z.of_nat (S i)) by lia.
    apply IH; [lia|lia|slots|done].
Qed.

(** The substitution in the middle of a group of eight words. *)
Lemma sub_word_next rd ws n rk :
  laid rd ws (S n) -> 0 <= rk -> rk + 12 = zlen ws -> (length ws mod 8 = 4)%nat ->
  exists rd', mid_group rd rk = Ok rd' /\ laid rd' (ws ++ [next_word 8 ws]) n.
Proof.
  intros HL Hrk Hj Hm. unfold mid_group. rewrite (laid_read _ _ _ (rk + 11) HL), (laid_read _ _ _ (rk + 4) HL) by lia. cbn [mbind res_bind].
  destruct (laid_store rd ws n (next_word 8 ws) (rk + 12) HL) as (rd' & E & HL');
    [apply next_word_u32; by destruct HL as (? & _ & _ & ?)|lia|].
  exists rd'. split; [|done]. rewrite <- E. f_equal. unfold next_word. rewrite Hm. cbn [Nat.eqb Nat.ltb Nat.leb andb].
  unfold zlen in Hj. rewrite sub_word_spec by (by eapply laid_u32).
  replace (Z.to_nat (rk + 11)) with (length ws - 1)%nat by lia.
  replace (Z.to_nat (rk + 4)) with (length ws - 8)%nat by lia. reflexivity.
Qed.

Lemma expand256_ok k i fuel rd ws :
  (i + k = 6)%nat -> (k < fuel)%nat -> length ws = (8 * (i + 1))%nat -> laid rd ws (8 * k + 4) ->
  exists rd', expand256 fuel rd (8 * Z.of_nat i) (Z.of_nat i) = Ok rd' /\ laid rd' (expand 8 (8 * k + 4) ws) 0.
Proof.
  revert i fuel rd ws. induction k as [|k IH]; intros i fuel rd ws Hi Hf Hl HL;
    (destruct fuel as [|fuel]; [lia|]); cbn [expand256]; set (rk := 8 * Z.of_nat i).
  - change (8 * 0 + 4)%nat with 4%nat in HL |- *.
    group_step 8%nat rk 8 7 (Z.of_nat i). xor_step 8%nat rk 9 1 8. xor_step 8%nat rk 10 2 9. xor_step 8%nat rk 11 3 10.
    rewrite (proj2 (Z.eqb_eq _ _)) by lia. rewrite !expand_S. eauto.
  - replace (8 * S k + 4)%nat with (8 + (8 * k + 4))%nat in HL |- * by lia. cbn [Nat.add] in HL |- *. rewrite !expand_S.
    group_step 8%nat rk 8 7 (Z.of_nat i). xor_step 8%nat rk 9 1 8. xor_step 8%nat rk 10 2 9. xor_step 8%nat rk 11 3 10.
    rewrite (proj2 (Z.eqb_neq _ _)) by lia.
    match goal with K : laid ?rd ?ws (S ?n) |- _ => next_step (sub_word_next rd ws n rk K); clear K end.
    xor_step 8%nat rk 13 5 12. xor_step 8%nat rk 14 6 13. xor_step 8%nat rk 15 7 14. unfold rk.
    replace (8 * Z.of_nat i + 8) with (8 * Z.of_nat (S i)) by lia. replace (Z.of_nat i + 1) with (Z.of_nat (S i)) by lia.
    apply IH; [lia|lia|slots|done].
Qed.

Lemma read_one_tail x l i : 0 <= i -> read_one (x :: l) (i + 1) = read_one l i.
Proof.
  intros Hi. unfold read_one. rewrite Z2Nat.inj_add, Nat.add_1_r by lia. cbn [lookup list_lookup].
  by destruct (Z.leb_spec 0 i), (Z.leb_spec 0 (i + 1)); try lia.
Qed.

Lemma GETU32_words j key :
  (4 * j + 4 <= length key)%nat -> GETU32 key (4 * Z.of_nat j) = Ok (state_at (key_words key) j).
Proof.
  revert key. induction j as [|j IH]; intros key Hl;
    (do 4 (destruct key as [|? key]; [simpl in Hl; lia|])); [done|].
  transitivity (GETU32 key (4 * Z.of_nat j)); [|apply IH; simpl in Hl; lia]. unfold GETU32.
  replace (4 * Z.of_nat (S j)) with (4 * Z.of_nat j + 1 + 1 + 1 + 1) by lia.
  replace (4 * Z.of_nat j + 1 + 1 + 1 + 1 + 2) with (4 * Z.of_nat j + 2 + 1 + 1 + 1 + 1) by lia.
  replace (4 * Z.of_nat j + 1 + 1 + 1 + 1 + 3) with (4 * Z.of_nat j + 3 + 1 + 1 + 1 + 1) by lia.
  by rewrite !read_one_tail by lia.
Qed.

Lemma key_words_spec n key :
  length key = (4 * n)%nat -> Forall is_byte key -> length (key_words key) = n /\ Forall is_u32 (key_words key).
Proof.
  revert key. induction n as [|n IH]; intros key Hl Hb.
  - by destruct key.
  - do 4 (destruct key as [|? key]; [simpl in Hl; lia|]).
    do 4 apply Forall_cons in Hb as [? Hb].
    destruct (IH key) as [Hn Hu]; [simpl in Hl; lia|done|]. simpl. split; [congruence|]. constructor; [|done].
    by apply word4_range.
Qed.

Lemma take_two (kw : list Z) m :
  (m + 2 <= length kw)%nat -> take (m + 2) kw = (take m kw ++ [state_at kw m]) ++ [state_at kw (m + 1)].
Proof.
  intros Hm. replace (m + 2)%nat with (S (S m)) by lia. replace (m + 1)%nat with (S m) by lia. unfold state_at.
  destruct (lookup_lt_is_Some_2 kw m) as [x Hx]; [lia|]. destruct (lookup_lt_is_Some_2 kw (S m)) as [y Hy]; [lia|].
  rewrite Hx, Hy. simpl. by rewrite (take_S_r _ _ _ Hy), (take_S_r _ _ _ Hx).
Qed.

Lemma load_two_ok rd key n m :
  let kw := key_words key in
  laid rd (take m kw) (S (S n)) -> (4 * m + 8 <= length key)%nat -> (m + 2 <= length kw)%nat -> Forall is_u32 kw ->
  exists rd', load_two rd key (Z.of_nat m) = Ok rd' /\ laid rd' (take (m + 2) kw) n.
Proof.
  intros kw HL Hl Hm Hu. unfold load_two. replace (4 * Z.of_nat m + 4) with (4 * Z.of_nat (m + 1)) by lia.
  rewrite !GETU32_words by lia. cbn [mbind res_bind]. fold kw.
  assert (G : forall i, is_u32 (state_at kw i)).
  { intros i. unfold state_at. destruct (kw !! i) eqn:E; [by eapply Forall_lookup_1|done]. }
  destruct (laid_store _ _ _ (state_at kw m) (Z.of_nat m) HL (G m)) as (rd1 & -> & L1);
    [unfold zlen; rewrite length_take; lia|]. cbn [mbind res_bind].
  destruct (laid_store _ _ _ (state_at kw (m + 1)) (Z.of_nat m + 1) L1 (G _)) as (rd2 & -> & L2);
    [unfold zlen; rewrite length_app, length_take; cbn [length]; lia|].
  exists rd2. split; [done|]. by rewrite take_two.
Qed.

(** The C key schedule is the one of the standard, at the start of
    [rd_key]. *)
Lemma set_encrypt_key_spec Nk key k :
  Nk = 4%nat \/ Nk = 6%nat \/ Nk = 8%nat -> length key = (4 * Nk)%nat -> Forall is_byte key -> length (rd_key k) = 60%nat ->
  exists rd n, AES_set_encrypt_key key (32 * Z.of_nat Nk) k = Ok (0, mkAES_KEY rd (Z.of_nat Nk + 6)) /\
    laid rd (KeyExpansion Nk (Nk + 6) key) n /\ length (KeyExpansion Nk (Nk + 6) key) = (4 * (Nk + 7))%nat.
Proof.
  intros HN Hl Hb Hk. destruct (key_words_spec Nk key Hl Hb) as [Hw Hu].
  assert (Hlen : length (KeyExpansion Nk (Nk + 6) key) = (4 * (Nk + 7))%nat).
  { unfold KeyExpansion. rewrite length_expand, Hw. lia. }
  assert (L0 : laid (rd_key k) (take 0 (key_words key)) 60) by (exists (rd_key k); by repeat split).
  destruct (load_two_ok _ key 58 0 L0) as (rd1 & E1 & L1); [lia|lia|done|].
  destruct (load_two_ok _ key 56 2 L1) as (rd2 & E2 & L2); [lia|lia|done|].
  unfold AES_set_encrypt_key. change (Z.of_nat 0) with 0 in E1. change (Z.of_nat 2) with 2 in E2.
  unfold KeyExpansion in *. destruct HN as [-> | [-> | ->]]; cbn [Z.eqb Z.mul Z.of_nat Pos.mul Pos.of_succ_nat Pos.succ Pos.eqb];
    rewrite E1; cbn [mbind res_bind]; rewrite E2; cbn [mbind res_bind].
  - rewrite take_ge in L2 by lia.
    destruct (expand128_ok 9 0 10 rd2 (key_words key)) as (rd & E & L); [lia|lia|lia|done|].
    change (4 * Z.of_nat 0) with 0 in E. change (Z.of_nat 0) with 0 in E. rewrite E. cbn [mbind res_bind]. by exists rd, 16%nat.
  - destruct (load_two_ok _ key 54 4 L2) as (rd3 & E3 & L3); [lia|lia|done|].
    change (Z.of_nat 4) with 4 in E3. rewrite E3. cbn [mbind res_bind]. rewrite take_ge in L3 by lia.
    destruct (expand192_ok 7 0 8 rd3 (key_words key)) as (rd & E & L); [lia|lia|lia|done|].
    change (6 * Z.of_nat 0) with 0 in E. change (Z.of_nat 0) with 0 in E. rewrite E. cbn [mbind res_bind]. by exists rd, 8%nat.
  - destruct (load_two_ok _ key 54 4 L2) as (rd3 & E3 & L3); [lia|lia|done|].
    destruct (load_two_ok _ key 52 6 L3) as (rd4 & E4 & L4); [lia|lia|done|].
    change (Z.of_nat 4) with 4 in E3. change (Z.of_nat 6) with 6 in E4. rewrite E3. cbn [mbind res_bind].
    rewrite E4. cbn [mbind res_bind]. rewrite take_ge in L4 by lia.
    destruct (expand256_ok 6 0 7 rd4 (key_words key)) as (rd & E & L); [lia|lia|lia|done|].
    change (8 * Z.of_nat 0) with 0 in E. change (Z.of_nat 0) with 0 in E. rewrite E. cbn [mbind res_bind]. by exists rd, 0%nat.
Qed.

(** ** Inverses *)

Lemma lxor_cancel a k : Z.lxor (Z.lxor a k) k = a.
Proof. by rewrite Z.lxor_assoc, Z.lxor_nilpotent, Z.lxor_0_r. Qed.

Lemma S_box_inv_S_box x : is_byte x -> S_box_inv (S_box x) = x.
Proof. intros Hx. by destruct (Te_spec x Hx) as (_ & _ & _ & _ & H & _). Qed.

Lemma AddRoundKey_twice k s : block k -> block s -> AddRoundKey k (AddRoundKey k s) = s.
Proof.
  intros Hk Hs. revert k Hk. refine (block_cases _ _). intros. revert s Hs. refine (block_cases _ _). intros.
  cbn. by rewrite !lxor_cancel.
Qed.

Lemma shift_sub_inv s : block s -> InvShiftRows (InvSubBytes (ShiftRows (SubBytes s))) = s.
Proof. revert s. refine (block_cases _ _). intros. cbn. by rewrite !S_box_inv_S_box by assumption. Qed.

Lemma lxor_swap a b c d : Z.lxor (Z.lxor a b) (Z.lxor c d) = Z.lxor (Z.lxor a c) (Z.lxor b d).
Proof. rewrite !Z.lxor_assoc. f_equal. rewrite <- !Z.lxor_assoc. f_equal. apply Z.lxor_comm. Qed.

Definition sum4 (a b c d : Z) : Z := Z.lxor (Z.lxor (Z.lxor a b) c) d.

Lemma sum4_lxor a b c d a' b' c' d' :
  Z.lxor (sum4 a b c d) (sum4 a' b' c' d') = sum4 (Z.lxor a a') (Z.lxor b b') (Z.lxor c c') (Z.lxor d d').
Proof. unfold sum4. by rewrite (lxor_swap (Z.lxor (Z.lxor a b) c) d), (lxor_swap (Z.lxor a b) c), (lxor_swap a b). Qed.

(** Four sums of four terms, summed the other way round. *)
Lemma sum4_transpose a0 a1 a2 a3 b0 b1 b2 b3 c0 c1 c2 c3 d0 d1 d2 d3 :
  sum4 (sum4 a0 a1 a2 a3) (sum4 b0 b1 b2 b3) (sum4 c0 c1 c2 c3) (sum4 d0 d1 d2 d3) =
  sum4 (sum4 a0 b0 c0 d0) (sum4 a1 b1 c1 d1) (sum4 a2 b2 c2 d2) (sum4 a3 b3 c3 d3).
Proof. unfold sum4 at 1. by rewrite !sum4_lxor. Qed.

Lemma gmul_sum4 m a b c d :
  is_byte a -> is_byte b -> is_byte c -> is_byte d ->
  gmul m (sum4 a b c d) = sum4 (gmul m a) (gmul m b) (gmul m c) (gmul m d).
Proof. intros Ha Hb Hc Hd. unfold sum4. rewrite !gmul_lxor by auto with mach. done. Qed.

#[local] Transparent gmul Z.lxor.

Lemma inverse_entry x : is_byte x ->
  sum4 (gmul 14 (gmul 2 x)) (gmul 11 (gmul 1 x)) (gmul 13 (gmul 1 x)) (gmul 9 (gmul 3 x)) = x /\
  sum4 (gmul 14 (gmul 3 x)) (gmul 11 (gmul 2 x)) (gmul 13 (gmul 1 x)) (gmul 9 (gmul 1 x)) = 0 /\
  sum4 (gmul 14 (gmul 1 x)) (gmul 11 (gmul 3 x)) (gmul 13 (gmul 2 x)) (gmul 9 (gmul 1 x)) = 0 /\
  sum4 (gmul 14 (gmul 1 x)) (gmul 11 (gmul 1 x)) (gmul 13 (gmul 3 x)) (gmul 9 (gmul 2 x)) = 0.
Proof.
  intros Hx.
  assert (H : ((sum4 (gmul 14 (gmul 2 x)) (gmul 11 (gmul 1 x)) (gmul 13 (gmul 1 x)) (gmul 9 (gmul 3 x)) =? x) &&
    (sum4 (gmul 14 (gmul 3 x)) (gmul 11 (gmul 2 x)) (gmul 13 (gmul 1 x)) (gmul 9 (gmul 1 x)) =? 0) &&
    (sum4 (gmul 14 (gmul 1 x)) (gmul 11 (gmul 3 x)) (gmul 13 (gmul 2 x)) (gmul 9 (gmul 1 x)) =? 0) &&
    (sum4 (gmul 14 (gmul 1 x)) (gmul 11 (gmul 1 x)) (gmul 13 (gmul 3 x)) (gmul 9 (gmul 2 x)) =? 0)) = true)
    by (revert x Hx; apply all_bytes; vm_compute; reflexivity).
  zify_bools. tauto.
Qed.

#[local] Opaque gmul Z.lxor.

(** The four rows of the inverse matrix are rotations of one. *)
Lemma inv_row a0 a1 a2 a3 :
  is_byte a0 -> is_byte a1 -> is_byte a2 -> is_byte a3 ->
  sum4 (gmul 14 (sum4 (gmul 2 a0) (gmul 3 a1) (gmul 1 a2) (gmul 1 a3)))
    (gmul 11 (sum4 (gmul 1 a0) (gmul 2 a1) (gmul 3 a2) (gmul 1 a3)))
    (gmul 13 (sum4 (gmul 1 a0) (gmul 1 a1) (gmul 2 a2) (gmul 3 a3)))
    (gmul 9 (sum4 (gmul 3 a0) (gmul 1 a1) (gmul 1 a2) (gmul 2 a3))) = a0.
Proof.
  intros H0 H1 H2 H3. rewrite !gmul_sum4, sum4_transpose by auto with mach.
  destruct (inverse_entry a0 H0) as (-> & _). destruct (inverse_entry a1 H1) as (_ & -> & _).
  destruct (inverse_entry a2 H2) as (_ & _ & -> & _). destruct (inverse_entry a3 H3) as (_ & _ & _ & ->).
  unfold sum4. by rewrite !Z.lxor_0_r.
Qed.

(** A sum does not depend on where it starts. *)
Lemma sum4_rotate a b c d : sum4 a b c d = sum4 b c d a.
Proof. unfold sum4. rewrite !(Z.lxor_comm _ a), !Z.lxor_assoc. done. Qed.

Lemma inv_mix_column c : length c = 4%nat -> Forall is_byte c -> mix_column 14 11 13 9 (mix_column 2 3 1 1 c) = c.
Proof.
  destruct c as [|a0 [|a1 [|a2 [|a3 [|]]]]]; try done. intros _ Hb.
  repeat match goal with HF : Forall _ (_ :: _) |- _ => inversion_clear HF end. cbn [mix_column].
  repeat match goal with |- context [Z.lxor (Z.lxor (Z.lxor ?a ?b) ?c) ?d] =>
    change (Z.lxor (Z.lxor (Z.lxor a b) c) d) with (sum4 a b c d) end.
  repeat (apply (f_equal2 cons); [|]).
  - by apply inv_row.
  - rewrite sum4_rotate. etransitivity; [|by apply (inv_row a1 a2 a3 a0)]. f_equal; f_equal; apply sum4_rotate.
  - rewrite 2!sum4_rotate. etransitivity; [|by apply (inv_row a2 a3 a0 a1)].
    f_equal; f_equal; by rewrite sum4_rotate, <- (sum4_rotate (gmul _ a1)).
  - rewrite <- sum4_rotate. etransitivity; [|by apply (inv_row a3 a0 a1 a2)]. f_equal; f_equal; symmetry; apply sum4_rotate.
  - done.
Qed.

Lemma InvMixColumns_MixColumns s : block s -> InvMixColumns (MixColumns s) = s.
Proof.
  revert s. refine (block_cases _ _). intros. unfold InvMixColumns, MixColumns, on_columns.
  cbn -[mix_column]. unfold mix_column at 5 6 7 8. cbn -[mix_column].
  match goal with |- ?l ++ ?m ++ ?n ++ ?k = _ =>
    change l with (mix_column 14 11 13 9 (mix_column 2 3 1 1 [x0; x1; x2; x3]));
    change m with (mix_column 14 11 13 9 (mix_column 2 3 1 1 [x4; x5; x6; x7]));
    change n with (mix_column 14 11 13 9 (mix_column 2 3 1 1 [x8; x9; x10; x11]));
    change k with (mix_column 14 11 13 9 (mix_column 2 3 1 1 [x12; x13; x14; x15]))
  end.
  rewrite !inv_mix_column; try done; repeat (apply Forall_cons_2; [done|]); apply Forall_nil_2.
Qed.

Lemma mix_column_lxor m0 m1 m2 m3 a0 a1 a2 a3 b0 b1 b2 b3 :
  is_byte a0 -> is_byte a1 -> is_byte a2 -> is_byte a3 -> is_byte b0 -> is_byte b1 -> is_byte b2 -> is_byte b3 ->
  mix_column m0 m1 m2 m3 [Z.lxor a0 b0; Z.lxor a1 b1; Z.lxor a2 b2; Z.lxor a3 b3] =
  zip_with Z.lxor (mix_column m0 m1 m2 m3 [a0; a1; a2; a3]) (mix_column m0 m1 m2 m3 [b0; b1; b2; b3]).
Proof.
  intros. cbn [mix_column zip_with]. rewrite !gmul_lxor by done.
  repeat (apply (f_equal2 cons); [symmetry; apply sum4_lxor|]). done.
Qed.

Lemma InvMixColumns_AddRoundKey k s :
  block k -> block s -> InvMixColumns (AddRoundKey k s) = AddRoundKey (InvMixColumns k) (InvMixColumns s).
Proof.
  intros Hk Hs. revert k Hk. refine (block_cases _ _). intros. revert s Hs. refine (block_cases _ _). intros.
  unfold InvMixColumns, AddRoundKey, on_columns. cbn -[mix_column]. rewrite !mix_column_lxor by assumption. done.
Qed.
