(* ===== verification/AesInverse.v ===== *)
(** * AesInverse: decryption undoes encryption

    The decryption key schedule (the round keys in the opposite order, with
    the inverse MixColumns in the middle), decryption as the equivalent
    inverse cipher, and the theorems on [crypto/aes/aes.c]. *)

From Stdlib Require Import ZifyNat.
From S2P Require Import Prelude.
From S2P Require Import Words.
From S2P Require Import AesTables.
From S2P Require Import Aes.
From S2P Require Import AesSpec.

#[local] Opaque word4 tbl S_box S_box_inv gmul byte_at Z.lxor.

(** ** The rounds backwards *)

Definition enc_round (s k : list Z) : list Z := AddRoundKey k (MixColumns (ShiftRows (SubBytes s))).
Definition dec_round (s k : list Z) : list Z := AddRoundKey k (InvMixColumns (InvShiftRows (InvSubBytes s))).

Lemma block_enc_rounds ks s : Forall block ks -> block s -> block (fold_left enc_round ks s).
Proof.
  intros Hk. revert s. induction Hk as [|k ks Hk _ IH]; intros s Hs; [done|]. simpl. apply IH. unfold enc_round. auto 8 with aes.
Qed.

Lemma dec_rounds_inverse ks s :
  Forall block ks -> block s ->
  fold_left dec_round (InvMixColumns <$> reverse ks) (ShiftRows (SubBytes (fold_left enc_round ks s))) = ShiftRows (SubBytes s).
Proof.
  intros Hk Hs. induction ks as [|k ks IH] using rev_ind; [done|].
  apply Forall_app in Hk as [Hks Hk]. apply Forall_cons in Hk as [Hk _].
  rewrite reverse_app, fold_left_app. simpl. rewrite <- (IH Hks). f_equal.
  pose proof (block_enc_rounds ks s Hks Hs) as Hb. set (e := fold_left enc_round ks s) in *.
  unfold enc_round, dec_round. rewrite shift_sub_inv by auto 8 with aes.
  rewrite InvMixColumns_AddRoundKey, InvMixColumns_MixColumns by auto 8 with aes. apply AddRoundKey_twice; auto 8 with aes.
Qed.

(** Decryption with the round keys [d0], [ds], [dn]. *)
Lemma AES_decrypt_keys inp rd r d0 ds dn :
  (r < 8)%nat -> length ds = (2 * r + 1)%nat -> block inp ->
  round_key rd 0 = Ok (pack d0) /\ block d0 -> keys_at rd 4 ds -> round_key rd (8 * (Z.of_nat r + 1)) = Ok (pack dn) /\ block dn ->
  AES_decrypt inp (mkAES_KEY rd (2 * (Z.of_nat r + 1))) =
    Ok (AddRoundKey dn (InvShiftRows (InvSubBytes (fold_left dec_round ds (AddRoundKey d0 inp))))).
Proof.
  intros Hr Hl Hb [R0 B0] Hk [RN BN]. unfold AES_decrypt. cbn [rd_key rounds].
  rewrite (load_state_spec inp _ d0 Hb B0 R0). cbn [mbind res_bind].
  replace (Z.shiftr (2 * (Z.of_nat r + 1)) 1) with (Z.of_nat r + 1)
    by (rewrite Z.shiftr_div_pow2, Z.mul_comm by lia; by rewrite Z.div_mul).
  destruct (rolled_spec Td_round (fun k s => dec_round s k) rd r 8 0 ds (AddRoundKey d0 inp)) as [E1 B1];
    [|lia|done|done|auto with aes|].
  - intros rd' i s k Hs Hk' Hrk. split; [by apply Td_round_spec|unfold dec_round; auto 8 with aes].
  - rewrite E1. cbn [mbind res_bind]. rewrite Z.add_0_l, (Td_last_spec _ _ _ _ B1 BN RN). cbn [mbind res_bind].
    unfold mret, res_ret. f_equal. by rewrite store_state_spec by auto 8 with aes.
Qed.

(** Decryption with the inverted keys of an encryption. *)
Lemma decrypt_encrypt_keys inp rd r k0 ks kn :
  (r < 8)%nat -> length ks = (2 * r + 1)%nat -> block inp -> block k0 -> block kn -> Forall block ks ->
  round_key rd 0 = Ok (pack kn) -> keys_at rd 4 (InvMixColumns <$> reverse ks) -> round_key rd (8 * (Z.of_nat r + 1)) = Ok (pack k0) ->
  AES_decrypt (Cipher inp k0 ks kn) (mkAES_KEY rd (2 * (Z.of_nat r + 1))) = Ok inp.
Proof.
  intros Hr Hl Hb B0 BN Bk R0 Rk RN.
  assert (Hin : block (AddRoundKey k0 inp)) by auto with aes.
  pose proof (block_enc_rounds ks _ Bk Hin) as He.
  rewrite (AES_decrypt_keys _ rd r kn (InvMixColumns <$> reverse ks) k0); try done.
  - unfold Cipher. change (fun s k => AddRoundKey k (MixColumns (ShiftRows (SubBytes s)))) with enc_round.
    rewrite AddRoundKey_twice by auto 8 with aes. rewrite dec_rounds_inverse by done.
    by rewrite shift_sub_inv, AddRoundKey_twice by auto 8 with aes.
  - by rewrite length_fmap, length_reverse.
  - unfold Cipher. auto 8 with aes.
Qed.

(** ** The inverted schedule *)

(** The word of the schedule at [i]. *)
Definition transposed (i j n : nat) : nat := if (n =? i)%nat then j else if (n =? j)%nat then i else n.

Lemma write_one_lookup (rd : list Z) i v :
  (i < length rd)%nat -> store_word rd (Z.of_nat i) v = Ok (<[i := v]> rd).
Proof.
  intros Hi. unfold store_word. rewrite write_at_Ok by (unfold zlen; cbn [length]; lia). f_equal. unfold splice, zlen.
  cbn [length]. rewrite Nat2Z.id. replace (Z.to_nat (Z.of_nat i + Z.of_nat 1)) with (S i) by lia.
  by rewrite insert_take_drop.
Qed.

Lemma read_lookup (rd : list Z) i x : rd !! i = Some x -> read_one rd (Z.of_nat i) = Ok x.
Proof. intros H. apply read_one_lookup; [lia|]. by rewrite Nat2Z.id. Qed.

Lemma swap_words_ok rd i j :
  (i < length rd)%nat -> (j < length rd)%nat ->
  exists rd', swap_words rd (Z.of_nat i) (Z.of_nat j) = Ok rd' /\ length rd' = length rd /\
    forall n, rd' !! n = rd !! transposed i j n.
Proof.
  intros Hi Hj. destruct (lookup_lt_is_Some_2 rd i Hi) as [x Hx], (lookup_lt_is_Some_2 rd j Hj) as [y Hy].
  unfold swap_words. rewrite (read_lookup _ _ _ Hx), (read_lookup _ _ _ Hy). cbn [mbind res_bind].
  rewrite write_one_lookup by done. cbn [mbind res_bind]. rewrite write_one_lookup by (by rewrite length_insert).
  eexists. split; [done|]. split; [by rewrite !length_insert|]. intros n. unfold transposed.
  destruct (Nat.eqb_spec n j) as [->|].
  - rewrite list_lookup_insert_eq by (by rewrite length_insert). destruct (Nat.eqb_spec j i) as [->|]; congruence.
  - rewrite list_lookup_insert_ne by done. destruct (Nat.eqb_spec n i) as [->|].
    + by rewrite list_lookup_insert_eq.
    + by rewrite list_lookup_insert_ne.
Qed.

(** The position a word comes from when the groups [a] to [b] of four words
    are reversed. *)
Definition mirror (a b n : nat) : nat :=
  if (a <=? n / 4)%nat && (n / 4 <=? b)%nat then (4 * (a + b - n / 4) + n mod 4)%nat else n.

Ltac nat_cases :=
  repeat match goal with
  | |- context [(?x =? ?y)%nat] => destruct (Nat.eqb_spec x y)
  | |- context [(?x <=? ?y)%nat] => destruct (Nat.leb_spec x y)
  end; cbn [andb].

Lemma swap_groups a b n :
  (a < b)%nat ->
  transposed (4 * a) (4 * b) (transposed (4 * a + 1) (4 * b + 1)
    (transposed (4 * a + 2) (4 * b + 2) (transposed (4 * a + 3) (4 * b + 3) n))) =
  if (n / 4 =? a)%nat then (4 * b + n mod 4)%nat else if (n / 4 =? b)%nat then (4 * a + n mod 4)%nat else n.
Proof.
  intros Hab. pose proof (Nat.div_mod_eq n 4). pose proof (Nat.mod_upper_bound n 4 ltac:(lia)).
  set (q := (n / 4)%nat) in *. set (m := (n mod 4)%nat) in *. clearbody q m. subst n.
  assert (m = 0 \/ m = 1 \/ m = 2 \/ m = 3)%nat as [-> | [-> | [-> | ->]]] by lia;
    (destruct (Nat.eqb_spec q a) as [->|]; [|destruct (Nat.eqb_spec q b) as [->|]]);
    unfold transposed; repeat match goal with
    | |- context [(?x =? ?y)%nat] => first [rewrite (proj2 (Nat.eqb_eq x y)) by lia | rewrite (proj2 (Nat.eqb_neq x y)) by lia]
    end; lia.
Qed.

Lemma swap_group_ok rd a b :
  (a < b)%nat -> (4 * b + 4 <= length rd)%nat ->
  exists rd', swap_group rd (4 * Z.of_nat a) (4 * Z.of_nat b) = Ok rd' /\ length rd' = length rd /\
    forall n, rd' !! n = rd !! (if (n / 4 =? a)%nat then (4 * b + n mod 4)%nat else if (n / 4 =? b)%nat then (4 * a + n mod 4)%nat else n).
Proof.
  intros Hab Hl. unfold swap_group.
  replace (4 * Z.of_nat a + 1) with (Z.of_nat (4 * a + 1)) by lia. replace (4 * Z.of_nat b + 1) with (Z.of_nat (4 * b + 1)) by lia.
  replace (4 * Z.of_nat a + 2) with (Z.of_nat (4 * a + 2)) by lia. replace (4 * Z.of_nat b + 2) with (Z.of_nat (4 * b + 2)) by lia.
  replace (4 * Z.of_nat a + 3) with (Z.of_nat (4 * a + 3)) by lia. replace (4 * Z.of_nat b + 3) with (Z.of_nat (4 * b + 3)) by lia.
  replace (4 * Z.of_nat a) with (Z.of_nat (4 * a)) by lia. replace (4 * Z.of_nat b) with (Z.of_nat (4 * b)) by lia.
  destruct (swap_words_ok rd (4 * a) (4 * b)) as (r1 & -> & L1 & H1); [lia|lia|]. cbn [mbind res_bind].
  destruct (swap_words_ok r1 (4 * a + 1) (4 * b + 1)) as (r2 & -> & L2 & H2); [lia|lia|]. cbn [mbind res_bind].
  destruct (swap_words_ok r2 (4 * a + 2) (4 * b + 2)) as (r3 & -> & L3 & H3); [lia|lia|]. cbn [mbind res_bind].
  destruct (swap_words_ok r3 (4 * a + 3) (4 * b + 3)) as (r4 & -> & L4 & H4); [lia|lia|].
  exists r4. split; [done|]. split; [lia|]. intros n. rewrite H4, H3, H2, H1. by rewrite swap_groups.
Qed.

Lemma invert_order_ok fuel rd a b :
  (b - a + 1 < 2 * fuel)%nat -> (4 * b + 4 <= length rd)%nat ->
  exists rd', invert_order fuel rd (4 * Z.of_nat a) (4 * Z.of_nat b) = Ok rd' /\ length rd' = length rd /\
    forall n, rd' !! n = rd !! mirror a b n.
Proof.
  revert rd a b. induction fuel as [|fuel IH]; intros rd a b Hf Hl; [lia|].
  cbn [invert_order]. destruct (Z.ltb_spec (4 * Z.of_nat a) (4 * Z.of_nat b)).
  - destruct (swap_group_ok rd a b) as (r1 & E1 & L1 & H1); [lia|lia|]. rewrite E1. cbn [mbind res_bind].
    destruct (IH r1 (S a) (b - 1)%nat) as (r2 & E2 & L2 & H2); [lia|lia|].
    replace (4 * Z.of_nat (S a)) with (4 * Z.of_nat a + 4) in E2 by lia.
    replace (4 * Z.of_nat (b - 1)) with (4 * Z.of_nat b - 4) in E2 by lia.
    exists r2. split; [done|]. split; [lia|]. intros n. rewrite H2, H1. f_equal. unfold mirror.
    pose proof (Nat.div_mod_eq n 4). pose proof (Nat.mod_upper_bound n 4 ltac:(lia)).
    set (q := (n / 4)%nat) in *. set (m := (n mod 4)%nat) in *.
    destruct ((S a <=? q)%nat && (q <=? b - 1)%nat) eqn:Eq.
    + apply andb_true_iff in Eq as [?%Nat.leb_le ?%Nat.leb_le].
      replace ((4 * (S a + (b - 1) - q) + m) / 4)%nat with (a + b - q)%nat by (zify; Z.to_euclidean_division_equations; lia).
      nat_cases; lia.
    + apply andb_false_iff in Eq as [?%Nat.leb_gt|?%Nat.leb_gt]; fold q m; nat_cases; lia.
  - eexists. split; [done|]. split; [done|]. intros n. f_equal. unfold mirror. nat_cases; zify; Z.to_euclidean_division_equations; lia.
Qed.

Lemma mix_at_ok rd i :
  (i < length rd)%nat ->
  exists rd', mix_at rd (Z.of_nat i) = Ok rd' /\ length rd' = length rd /\
    forall n, rd' !! n = (if (n =? i)%nat then inv_mix_word else id) <$> rd !! n.
Proof.
  intros Hi. destruct (lookup_lt_is_Some_2 rd i Hi) as [x Hx]. unfold mix_at. rewrite (read_lookup _ _ _ Hx). cbn [mbind res_bind].
  rewrite write_one_lookup by done. eexists. split; [done|]. split; [by rewrite length_insert|]. intros n.
  destruct (Nat.eqb_spec n i) as [->|].
  - by rewrite list_lookup_insert_eq, Hx.
  - rewrite list_lookup_insert_ne by done. by destruct (rd !! n).
Qed.

Lemma mix_group_ok rd a :
  (4 * a + 4 <= length rd)%nat ->
  exists rd', mix_group rd (4 * Z.of_nat a) = Ok rd' /\ length rd' = length rd /\
    forall n, rd' !! n = (if (n / 4 =? a)%nat then inv_mix_word else id) <$> rd !! n.
Proof.
  intros Hl. unfold mix_group. replace (4 * Z.of_nat a + 1) with (Z.of_nat (4 * a + 1)) by lia.
  replace (4 * Z.of_nat a + 2) with (Z.of_nat (4 * a + 2)) by lia. replace (4 * Z.of_nat a + 3) with (Z.of_nat (4 * a + 3)) by lia.
  replace (4 * Z.of_nat a) with (Z.of_nat (4 * a)) by lia.
  destruct (mix_at_ok rd (4 * a)) as (r1 & -> & L1 & H1); [lia|]. cbn [mbind res_bind].
  destruct (mix_at_ok r1 (4 * a + 1)) as (r2 & -> & L2 & H2); [lia|]. cbn [mbind res_bind].
  destruct (mix_at_ok r2 (4 * a + 2)) as (r3 & -> & L3 & H3); [lia|]. cbn [mbind res_bind].
  destruct (mix_at_ok r3 (4 * a + 3)) as (r4 & -> & L4 & H4); [lia|].
  exists r4. split; [done|]. split; [lia|]. intros n. rewrite H4, H3, H2, H1. destruct (rd !! n) as [x|]; [|done].
  cbn [fmap option_fmap option_map]. f_equal.
  pose proof (Nat.div_mod_eq n 4). pose proof (Nat.mod_upper_bound n 4 ltac:(lia)).
  set (q := (n / 4)%nat) in *. set (m := (n mod 4)%nat) in *. clearbody q m. subst n. nat_cases; try done; lia.
Qed.

Lemma inv_mix_keys_ok k rd a :
  (4 * (a + k) + 4 <= length rd)%nat ->
  exists rd', inv_mix_keys k rd (4 * Z.of_nat a) = Ok rd' /\ length rd' = length rd /\
    forall n, rd' !! n = (if (S a <=? n / 4)%nat && (n / 4 <=? a + k)%nat then inv_mix_word else id) <$> rd !! n.
Proof.
  revert rd a. induction k as [|k IH]; intros rd a Hl.
  - eexists. split; [done|]. split; [done|]. intros n. destruct (rd !! n); [|done]. cbn [fmap option_fmap option_map]. f_equal. nat_cases; done || lia.
  - cbn [inv_mix_keys]. replace (4 * Z.of_nat a + 4) with (4 * Z.of_nat (S a)) by lia.
    destruct (mix_group_ok rd (S a)) as (r1 & -> & L1 & H1); [lia|]. cbn [mbind res_bind].
    destruct (IH r1 (S a)) as (r2 & E2 & L2 & H2); [lia|]. exists r2. split; [done|]. split; [lia|].
    intros n. rewrite H2, H1. destruct (rd !! n); [|done]. cbn [fmap option_fmap option_map]. f_equal. nat_cases; done || lia.
Qed.

Lemma inv_mix_word_spec a b c d :
  is_byte a -> is_byte b -> is_byte c -> is_byte d -> inv_mix_word (word4 a b c d) = mixed 14 11 13 9 a b c d.
Proof.
  intros Ha Hb Hc Hd.
  assert (G : forall x, is_byte x -> Z.land (tbl Te1 x) 255 = S_box x).
  { intros x Hx. destruct (Te_spec x Hx) as (_ & -> & _ & _ & _ & Hy). unfold column. rewrite mask_0 by auto with mach.
    change (gmul 1 (S_box x)) with (S_box x). rewrite <- word4_fold, !Z.shiftl_0_l.
    by rewrite !Z.lxor_0_l. }
  unfold inv_mix_word. split_words. rewrite !G by done. rewrite Td_mixed by auto with mach.
  by rewrite !S_box_inv_S_box by done.
Qed.

Definition map4 (f : Z -> Z) (w : words4) : words4 := let '(a, b, c, d) := w in (f a, f b, f c, f d).

Lemma map4_inv_mix k : block k -> map4 inv_mix_word (pack k) = pack (InvMixColumns k).
Proof.
  revert k. refine (block_cases _ _). intros. unfold pack, state_at. cbn -[inv_mix_word word4].
  rewrite !inv_mix_word_spec by done. done.
Qed.

Lemma map4_id w : map4 id w = w.
Proof. by destruct w as [[[? ?] ?] ?]. Qed.

(** A round key that is a copy of another one, word by word. *)
Lemma round_key_copy rd ws i i' f k :
  (forall j, (j < 4)%nat -> rd !! (4 * i + j)%nat = f <$> ws !! (4 * i' + j)%nat) ->
  round_key ws (4 * Z.of_nat i') = Ok (pack k) -> round_key rd (4 * Z.of_nat i) = Ok (map4 f (pack k)).
Proof.
  intros H. generalize (pack k). intros w. unfold round_key.
  assert (R : forall j x, (j < 4)%nat -> read_one ws (4 * Z.of_nat i' + Z.of_nat j) = Ok x ->
    read_one rd (4 * Z.of_nat i + Z.of_nat j) = Ok (f x)).
  { intros j x Hj. unfold read_one at 1. replace (Z.to_nat (4 * Z.of_nat i' + Z.of_nat j)) with (4 * i' + j)%nat by lia.
    destruct (ws !! (4 * i' + j)%nat) eqn:E; [|done]. destruct (Z.leb_spec 0 (4 * Z.of_nat i' + Z.of_nat j)); [|done].
    intros [= ->]. apply read_one_lookup; [lia|]. replace (Z.to_nat (4 * Z.of_nat i + Z.of_nat j)) with (4 * i + j)%nat by lia.
    by rewrite H, E. }
  pose proof (R 0%nat) as R0. pose proof (R 1%nat) as R1. pose proof (R 2%nat) as R2. pose proof (R 3%nat) as R3.
  change (Z.of_nat 0) with 0 in R0. change (Z.of_nat 1) with 1 in R1. change (Z.of_nat 2) with 2 in R2.
  change (Z.of_nat 3) with 3 in R3. rewrite !Z.add_0_r in R0.
  destruct (read_one ws (4 * Z.of_nat i')) as [x0|]; [|done]. cbn [mbind res_bind].
  destruct (read_one ws (4 * Z.of_nat i' + 1)) as [x1|]; [|done]. cbn [mbind res_bind].
  destruct (read_one ws (4 * Z.of_nat i' + 2)) as [x2|]; [|done]. cbn [mbind res_bind].
  destruct (read_one ws (4 * Z.of_nat i' + 3)) as [x3|]; [|done]. cbn [mbind res_bind].
  intros [= <-]. rewrite (R0 x0), (R1 x1), (R2 x2), (R3 x3) by (lia || done). done.
Qed.

(** ** The theorems *)

(** A key length of the standard, in words. *)
Definition key_length (Nk : nat) : Prop := Nk = 4%nat \/ Nk = 6%nat \/ Nk = 8%nat.

(** The decryption schedule in memory. *)
Lemma set_decrypt_key_spec Nk key k :
  key_length Nk -> length key = (4 * Nk)%nat -> Forall is_byte key -> length (rd_key k) = 60%nat ->
  let ws := KeyExpansion Nk (Nk + 6) key in let N := (Nk + 6)%nat in
  exists rd, AES_set_decrypt_key key (32 * Z.of_nat Nk) k = Ok (0, mkAES_KEY rd (Z.of_nat N)) /\
    round_key rd 0 = Ok (pack (round_bytes ws N)) /\ round_key rd (4 * Z.of_nat N) = Ok (pack (round_bytes ws 0)) /\
    keys_at rd 4 (InvMixColumns <$> reverse (round_bytes ws <$> seq 1 (N - 1))).
Proof.
  intros HN Hl Hb Hk ws N. assert (Hsmall : (10 <= N <= 14)%nat) by (unfold N; destruct HN as [-> | [-> | ->]]; lia).
  destruct (set_encrypt_key_spec Nk key k HN Hl Hb Hk) as (rd0 & n & E0 & (tl & -> & _ & Hu) & Hw). fold ws N in Hu, Hw, E0.
  assert (L0 : (4 * N + 4 <= length (ws ++ tl))%nat) by (rewrite length_app; lia).
  destruct (invert_order_ok 9 (ws ++ tl) 0 N) as (r1 & E1 & L1 & H1); [lia|done|].
  destruct (inv_mix_keys_ok (N - 1) r1 0) as (r2 & E2 & L2 & H2); [lia|].
  exists r2. unfold AES_set_decrypt_key. rewrite E0. cbn [mbind res_bind]. cbn [Z.ltb Z.compare rd_key rounds].
  replace (Z.of_nat Nk + 6) with (Z.of_nat N) by (unfold N; lia). change (4 * Z.of_nat 0) with 0 in E1, E2. rewrite E1. cbn [mbind res_bind].
  replace (Z.to_nat (Z.of_nat N - 1)) with (N - 1)%nat by lia. rewrite E2. cbn [mbind res_bind]. split; [done|].
  assert (C : forall i f, (i <= N)%nat -> f = (if (1 <=? i)%nat && (i <=? N - 1)%nat then inv_mix_word else id) ->
    round_key r2 (4 * Z.of_nat i) = Ok (map4 f (pack (round_bytes ws (N - i))))).
  { intros i f Hi ->. destruct (round_key_prefix ws tl (N - i) ltac:(lia) Hu) as [R _].
    apply (round_key_copy _ (ws ++ tl) _ (N - i)); [|done]. intros j Hj. rewrite H2, H1.
    unfold mirror. replace ((4 * i + j) / 4)%nat with i by (zify; Z.to_euclidean_division_equations; lia).
    replace ((4 * i + j) mod 4)%nat with j by (zify; Z.to_euclidean_division_equations; lia).
    rewrite (proj2 (Nat.leb_le 0 i)), (proj2 (Nat.leb_le i N)) by lia. cbn [andb]. done. }
  split; [|split].
  - change 0 with (4 * Z.of_nat 0). rewrite (C 0%nat id) by (done || lia). by rewrite map4_id, Nat.sub_0_r.
  - rewrite (C N id); [by rewrite map4_id, Nat.sub_diag|done|]. by rewrite (proj2 (Nat.leb_gt N (N - 1))), andb_false_r by lia.
  - intros j d Hj. apply list_lookup_fmap_Some in Hj as (b & -> & Hj).
    apply reverse_lookup_Some in Hj as [Hj Hlt]. rewrite length_fmap, length_seq in Hj, Hlt.
    apply list_lookup_fmap_Some in Hj as (i & -> & Hj). apply lookup_seq in Hj as [-> Hj].
    destruct (round_key_prefix ws tl (1 + (N - 1 - S j)) ltac:(lia) Hu) as [_ B]. split; [|auto with aes].
    replace (4 + 4 * Z.of_nat j) with (4 * Z.of_nat (S j)) by lia. rewrite (C (S j) inv_mix_word); [|lia|].
    + rewrite map4_inv_mix by (by replace (N - S j)%nat with (1 + (N - 1 - S j))%nat by lia). do 4 f_equal. lia.
    + by rewrite (proj2 (Nat.leb_le 1 (S j))), (proj2 (Nat.leb_le (S j) (N - 1))) by lia.
Qed.

Lemma encrypt_unrolled_eq inp rd n :
  n = 10 \/ n = 12 \/ n = 14 -> AES_encrypt_unrolled inp (mkAES_KEY rd n) = AES_encrypt inp (mkAES_KEY rd n).
Proof.
  intros Hn. unfold AES_encrypt_unrolled, AES_encrypt. cbn [rd_key rounds]. destruct (load_state inp rd); [|done].
  cbn [mbind res_bind]. by rewrite unrolled_rolled.
Qed.

Lemma decrypt_unrolled_eq inp rd n :
  n = 10 \/ n = 12 \/ n = 14 -> AES_decrypt_unrolled inp (mkAES_KEY rd n) = AES_decrypt inp (mkAES_KEY rd n).
Proof.
  intros Hn. unfold AES_decrypt_unrolled, AES_decrypt. cbn [rd_key rounds]. destruct (load_state inp rd); [|done].
  cbn [mbind res_bind]. by rewrite unrolled_rolled.
Qed.

Lemma encrypt_spec Nk key inp k :
  key_length Nk -> length key = (4 * Nk)%nat -> Forall is_byte key -> block inp -> length (rd_key k) = 60%nat ->
  exists rd, AES_set_encrypt_key key (32 * Z.of_nat Nk) k = Ok (0, mkAES_KEY rd (Z.of_nat Nk + 6)) /\
    AES_encrypt inp (mkAES_KEY rd (Z.of_nat Nk + 6)) = Ok (AES Nk key inp).
Proof.
  intros HN Hl Hb Hi Hk. destruct (set_encrypt_key_spec Nk key k HN Hl Hb Hk) as (rd & n & E0 & (tl & -> & _ & Hu) & Hw).
  eexists. split; [exact E0|]. assert (Hr : exists r, (Nk = 2 * r /\ 2 <= r <= 4)%nat).
  { destruct HN as [-> | [-> | ->]]; [exists 2%nat|exists 3%nat|exists 4%nat]; lia. }
  destruct Hr as (r & -> & Hr). replace (Z.of_nat (2 * r) + 6) with (2 * (Z.of_nat (r + 2) + 1)) by lia.
  rewrite AES_encrypt_schedule by (done || lia). unfold AES. do 2 f_equal; f_equal; [f_equal|]; lia.
Qed.

(** C7: the table-driven C code is FIPS-197.  For every key of 128, 192 or
    256 bits the schedule it expands and the rounds it makes, rolled or
    unrolled, give the cipher of the standard on every block, without an
    access outside [rd_key], the tables or the block. *)
Theorem aes_encrypt_fips Nk key inp k :
  key_length Nk -> length key = (4 * Nk)%nat -> Forall is_byte key -> block inp -> length (rd_key k) = 60%nat ->
  exists ek, AES_set_encrypt_key key (32 * Z.of_nat Nk) k = Ok (0, ek) /\
    AES_encrypt inp ek = Ok (AES Nk key inp) /\ AES_encrypt_unrolled inp ek = Ok (AES Nk key inp).
Proof.
  intros HN Hl Hb Hi Hk. destruct (encrypt_spec Nk key inp k HN Hl Hb Hi Hk) as (rd & E0 & E1).
  eexists. split; [exact E0|]. split; [done|]. rewrite encrypt_unrolled_eq; [done|].
  destruct HN as [-> | [-> | ->]]; lia.
Qed.

(** The schedule for decryption inverts the cipher. *)
Lemma decrypt_spec Nk key k :
  key_length Nk -> length key = (4 * Nk)%nat -> Forall is_byte key -> length (rd_key k) = 60%nat ->
  exists rd, AES_set_decrypt_key key (32 * Z.of_nat Nk) k = Ok (0, mkAES_KEY rd (Z.of_nat (Nk + 6))) /\
    (forall inp, block inp -> AES_decrypt (AES Nk key inp) (mkAES_KEY rd (Z.of_nat (Nk + 6))) = Ok inp) /\
    (forall inp, block inp -> exists out, AES_decrypt inp (mkAES_KEY rd (Z.of_nat (Nk + 6))) = Ok out /\ block out).
Proof.
  intros HN Hl Hb Hk. destruct (set_encrypt_key_spec Nk key k HN Hl Hb Hk) as (rd' & n & _ & (tl & -> & _ & Hu) & Hw).
  destruct (set_decrypt_key_spec Nk key k HN Hl Hb Hk) as (rd2 & E2 & R0 & RN & RK).
  set (ws := KeyExpansion Nk (Nk + 6) key) in *.
  assert (B : forall i, (i <= Nk + 6)%nat -> block (round_bytes ws i)) by (intros i Hi'; apply (round_key_prefix ws []); [lia|done]).
  assert (Hr : exists r, (Nk = 2 * r /\ 2 <= r <= 4)%nat).
  { destruct HN as [-> | [-> | ->]]; [exists 2%nat|exists 3%nat|exists 4%nat]; lia. }
  destruct Hr as (r & Hr & Hr'). exists rd2. split; [done|]. replace (Z.of_nat (Nk + 6)) with (2 * (Z.of_nat (r + 2) + 1)) in * by lia.
  assert (BK : Forall block (round_bytes ws <$> seq 1 (Nk + 6 - 1))).
  { apply Forall_fmap, Forall_forall. intros i Hin%elem_of_seq. apply B. lia. }
  replace (4 * (2 * (Z.of_nat (r + 2) + 1))) with (8 * (Z.of_nat (r + 2) + 1)) in RN by lia. split.
  - intros inp Hi. unfold AES. fold ws.
    by apply decrypt_encrypt_keys; try done; [lia|rewrite length_fmap, length_seq; lia|apply B; lia|apply B; lia].
  - intros inp Hi. set (ds := InvMixColumns <$> reverse (round_bytes ws <$> seq 1 (Nk + 6 - 1))) in *. eexists. split.
    + apply (AES_decrypt_keys inp rd2 (r + 2) (round_bytes ws (Nk + 6)) ds (round_bytes ws 0)); try done;
        [lia|unfold ds; rewrite length_fmap, length_reverse, length_fmap, length_seq; lia|split; [done|apply B; lia]|split; [done|apply B; lia]].
    + assert (BD : Forall block ds).
      { apply Forall_fmap. apply Forall_reverse. eapply Forall_impl; [exact BK|]. intros; simpl; auto with aes. }
      assert (forall s, block s -> block (fold_left dec_round ds s)) as HF.
      { clear - BD. induction BD as [|d ds Hd _ IH]; intros s Hs; [done|]. apply IH. unfold dec_round. auto 8 with aes. }
      assert (block (round_bytes ws 0)) by (apply B; lia). assert (block (round_bytes ws (Nk + 6))) by (apply B; lia). auto 8 with aes.
Qed.

(** C9: decryption with the schedule of [AES_set_decrypt_key] gives back
    what was encrypted with the schedule of [AES_set_encrypt_key], for every
    key length, key and block. *)
Theorem aes_decrypt_encrypt Nk key inp k :
  key_length Nk -> length key = (4 * Nk)%nat -> Forall is_byte key -> block inp -> length (rd_key k) = 60%nat ->
  exists ek dk out, AES_set_encrypt_key key (32 * Z.of_nat Nk) k = Ok (0, ek) /\
    AES_set_decrypt_key key (32 * Z.of_nat Nk) k = Ok (0, dk) /\
    AES_encrypt inp ek = Ok out /\ AES_decrypt out dk = Ok inp /\ AES_decrypt_unrolled out dk = Ok inp.
Proof.
  intros HN Hl Hb Hi Hk. destruct (encrypt_spec Nk key inp k HN Hl Hb Hi Hk) as (rd & E0 & E1).
  destruct (decrypt_spec Nk key k HN Hl Hb Hk) as (rd2 & E2 & E3 & _).
  eexists _, _, _. split; [exact E0|]. split; [exact E2|]. split; [exact E1|]. split; [by apply E3|].
  rewrite decrypt_unrolled_eq; [by apply E3|]. destruct HN as [-> | [-> | ->]]; lia.
Qed.

(** A key of each length and a block. *)
Definition demo_key (n : nat) : list Z := Z.of_nat <$> seq 0 n.
Definition demo_block : list Z := (fun i => 17 * Z.of_nat i) <$> seq 0 16.
Definition blank_key : AES_KEY := mkAES_KEY (replicate 60 0) 0.

Lemma demo_block_ok : block demo_block.
Proof. split; [done|]. repeat (apply Forall_cons_2; [done|]). apply Forall_nil_2. Qed.

Lemma aes_encrypt_fips_witness :
  exists ek, AES_set_encrypt_key (demo_key 24) 192 blank_key = Ok (0, ek) /\
    AES_encrypt demo_block ek = Ok (AES 6 (demo_key 24) demo_block) /\
    AES_encrypt_unrolled demo_block ek = Ok (AES 6 (demo_key 24) demo_block).
Proof.
  apply (aes_encrypt_fips 6 (demo_key 24) demo_block blank_key);
    [by right; left|done| |apply demo_block_ok|done].
  repeat (apply Forall_cons_2; [done|]). apply Forall_nil_2.
Defined.

Lemma aes_decrypt_encrypt_witness :
  exists ek dk out, AES_set_encrypt_key (demo_key 32) 256 blank_key = Ok (0, ek) /\
    AES_set_decrypt_key (demo_key 32) 256 blank_key = Ok (0, dk) /\
    AES_encrypt demo_block ek = Ok out /\ AES_decrypt out dk = Ok demo_block /\ AES_decrypt_unrolled out dk = Ok demo_block.
Proof.
  apply (aes_decrypt_encrypt 8 (demo_key 32) demo_block blank_key);
    [by right; right|done| |apply demo_block_ok|done].
  repeat (apply Forall_cons_2; [done|]). apply Forall_nil_2.
Defined.

(** FIPS-197, appendix C.3, through the C code. *)
Example aes256_vector :
  ('(_, ek) ← AES_set_encrypt_key (demo_key 32) 256 blank_key; AES_encrypt demo_block ek) =
  Ok [0x8e; 0xa2; 0xb7; 0xca; 0x51; 0x67; 0x45; 0xbf; 0xea; 0xfc; 0x49; 0x90; 0x4b; 0x49; 0x60; 0x89].
Proof. vm_compute. reflexivity. Qed.
