(* ===== verification/Modes.v ===== *)
(** * Modes: the block cipher modes of [crypto/modes/]

    [ctr.c], [ofb.c] and [cfb.c] encrypt a stream with a 128-bit block
    cipher and carry [ivec], [num] and, for counter mode, [ecount_buf] from
    one call to the next.  Each function works on whole blocks with words of
    the size of [size_t] in the middle and byte by byte at both ends; the
    branch for strict alignment works byte by byte throughout, and is the
    reference here.

    The cipher [block] is a function pointer of the source: a parameter that
    maps sixteen bytes to sixteen bytes.  The input is a list of bytes, and a
    loop over [in] and [out] consumes it and produces the output. *)

From Stdlib Require Import ZifyNat.
From S2P Require Import Prelude.
From S2P Require Import Words.
From S2P Require Import AesTables.
From S2P Require Import Aes.
From S2P Require Import AesSpec.
From S2P Require Import AesInverse.

#[local] Arguments Nat.modulo : simpl never.
#[local] Arguments Nat.div : simpl never.

(** [p[n]] of an array of sixteen bytes, with [n] below 16. *)
Definition at16 (p : list Z) (n : nat) : Z := default 0 (p !! n).

Definition xor_list (a b : list Z) : list Z := zip_with Z.lxor a b.

(** ** The shape of the stream functions

    All of them begin with the rest of a block ([while (n && len)]), then
    handle whole blocks, then the last bytes.  They differ in the state, in
    how a new block of key stream is made ([refill]), in what is done for a
    byte at index [n] ([byte]), and in the loop over the words of a block
    ([words]). *)

Section Stream.
Context {St : Type} (refill : St -> St) (byte : St -> nat -> Z -> Z * St) (words : St -> list Z -> list Z * St).

(** [while (n && len)]: the output, the input that is left, and the state. *)
Fixpoint stream_head (s : St) (n : nat) (inp : list Z) : list Z * list Z * St * nat :=
  match inp with
  | [] => ([], [], s, n)
  | x :: inp' =>
      if (n =? 0)%nat then ([], inp, s, n)
      else
        let '(y, s) := byte s n x in
        let '(out, rest, s', m) := stream_head s ((n + 1) mod 16) inp' in
        (y :: out, rest, s', m)
  end.

(** The loop of the branch for strict alignment: byte by byte. *)
Fixpoint stream_bytes (s : St) (n : nat) (inp : list Z) : list Z * St * nat :=
  match inp with
  | [] => ([], s, n)
  | x :: inp' =>
      let s := if (n =? 0)%nat then refill s else s in
      let '(y, s) := byte s n x in
      let '(out, s', m) := stream_bytes s ((n + 1) mod 16) inp' in
      (y :: out, s', m)
  end.

(** [while (len--)] *)
Fixpoint stream_tail (s : St) (n : nat) (inp : list Z) : list Z * St * nat :=
  match inp with
  | [] => ([], s, n)
  | x :: inp' =>
      let '(y, s) := byte s n x in
      let '(out, s', m) := stream_tail s (n + 1) inp' in
      (y :: out, s', m)
  end.

(** [while (len >= 16)] and the last bytes; every turn takes a block off, so
    the number of blocks bounds the turns. *)
Fixpoint stream_blocks (fuel : nat) (s : St) (n : nat) (inp : list Z) : list Z * St * nat :=
  match fuel with
  | O => ([], s, n)
  | S fuel' =>
      if (16 <=? length inp)%nat then
        let '(y, s) := words (refill s) (take 16 inp) in
        let '(out, s', m) := stream_blocks fuel' s 0 (drop 16 inp) in
        (y ++ out, s', m)
      else if (0 <? length inp)%nat then stream_tail (refill s) n inp
      else ([], s, n)
  end.

Definition stream_call (s : St) (n : nat) (inp : list Z) : list Z * St * nat :=
  let '(out, rest, s, n) := stream_head s n inp in
  let '(out', s, n) := stream_blocks (S (length rest / 16)) s n rest in
  (out ++ out', s, n).

(** The branch for strict alignment. *)
Definition stream_strict (s : St) (n : nat) (inp : list Z) : list Z * St * nat :=
  let '(out, rest, s, n) := stream_head s n inp in
  let '(out', s, n) := stream_bytes s n rest in
  (out ++ out', s, n).

(** *** The fast path is the path byte by byte *)

Lemma stream_bytes_app s n a b :
  stream_bytes s n (a ++ b) =
    let '(oa, s1, m) := stream_bytes s n a in
    let '(ob, s2, k) := stream_bytes s1 m b in (oa ++ ob, s2, k).
Proof.
  revert s n. induction a as [|x a IH]; intros s n; simpl.
  - by destruct (stream_bytes s n b) as [[? ?] ?].
  - destruct (byte _ n x) as [y s']. rewrite IH. destruct (stream_bytes s' _ a) as [[oa s1] m].
    by destruct (stream_bytes s1 m b) as [[? ?] ?].
Qed.

Lemma stream_head_bytes s n inp :
  (n < 16)%nat ->
  let '(out, rest, s', m) := stream_head s n inp in
  (m < 16)%nat /\ (rest = [] \/ m = 0%nat) /\
  stream_bytes s n inp = let '(out', s2, k) := stream_bytes s' m rest in (out ++ out', s2, k).
Proof.
  revert s n. induction inp as [|x inp IH]; intros s n Hn; simpl; [auto|].
  destruct (Nat.eqb_spec n 0) as [->|Hn0].
  - split; [lia|]. split; [auto|]. simpl. destruct (byte (refill s) 0 x) as [y s1].
    by destruct (stream_bytes s1 _ inp) as [[? ?] ?].
  - destruct (byte s n x) as [y s1]. specialize (IH s1 ((n + 1) mod 16)%nat ltac:(lia)).
    destruct (stream_head s1 _ inp) as [[[out rest] s2] m]. destruct IH as (Hm & Hr & ->). split; [done|]. split; [done|].
    by destruct (stream_bytes s2 m rest) as [[? ?] ?].
Qed.

Lemma stream_strict_bytes s n inp : (n < 16)%nat -> stream_strict s n inp = stream_bytes s n inp.
Proof.
  intros Hn. pose proof (stream_head_bytes s n inp Hn) as H. unfold stream_strict.
  destruct (stream_head s n inp) as [[[out rest] s'] m]. by destruct H as (_ & _ & ->).
Qed.

(** Inside a block no refill happens. *)
Lemma stream_tail_bytes s n inp :
  (0 < n)%nat -> (n + length inp < 16)%nat -> stream_tail s n inp = stream_bytes s n inp.
Proof.
  revert s n. induction inp as [|x inp IH]; intros s n Hn Hl; simpl; [done|].
  destruct (Nat.eqb_spec n 0); [lia|]. destruct (byte s n x) as [y s1]. simpl in Hl.
  rewrite IH by lia. by rewrite (Nat.mod_small (n + 1)) by lia.
Qed.

Lemma stream_tail_refill s inp :
  (0 < length inp < 16)%nat -> stream_tail (refill s) 0 inp = stream_bytes s 0 inp.
Proof.
  destruct inp as [|x inp]; simpl; [lia|]. intros Hl. destruct (byte (refill s) 0 x) as [y s1].
  by rewrite stream_tail_bytes by lia.
Qed.

(** The words of a block are its bytes. *)
Context (good : St -> Prop).
Hypothesis good_refill : forall s, good s -> good (refill s).
Hypothesis good_words : forall s inp, good s -> length inp = 16%nat -> good (snd (words s inp)).
Hypothesis words_bytes : forall s inp, good s -> length inp = 16%nat ->
  (let '(out, s', _) := stream_tail s 0 inp in (out, s')) = words s inp.

Lemma stream_tail_wrap s n inp :
  (0 < n < 16)%nat -> (n + length inp = 16)%nat ->
  stream_bytes s n inp = let '(out, s', _) := stream_tail s n inp in (out, s', 0%nat).
Proof.
  revert s n. induction inp as [|x inp IH]; intros s n Hn Hl; simpl in *.
  - lia.
  - destruct (Nat.eqb_spec n 0); [lia|]. destruct (byte s n x) as [y s1]. destruct inp as [|x' inp'].
    + simpl in *. by replace n with 15%nat by lia.
    + rewrite (Nat.mod_small (n + 1)) by (simpl in Hl; lia). rewrite IH by (simpl in Hl |- *; lia).
      by destruct (stream_tail s1 (n + 1) (x' :: inp')) as [[? ?] ?].
Qed.

Lemma stream_block_bytes s inp :
  good s -> length inp = 16%nat -> stream_bytes s 0 inp = let '(out, s') := words (refill s) inp in (out, s', 0%nat).
Proof.
  intros Hs Hl. rewrite <- words_bytes by auto. destruct inp as [|x inp]; [done|]. simpl in *.
  destruct (byte (refill s) 0 x) as [y s1]. change (1 mod 16)%nat with 1%nat. rewrite stream_tail_wrap by lia.
  by destruct (stream_tail s1 1 inp) as [[? ?] ?].
Qed.

Lemma stream_blocks_bytes fuel s n inp :
  (length inp / 16 < fuel)%nat -> good s -> (inp = [] \/ n = 0%nat) -> stream_blocks fuel s n inp = stream_bytes s n inp.
Proof.
  revert s n inp. induction fuel as [|fuel IH]; intros s n inp Hf Hs Hn; [lia|]. cbn [stream_blocks].
  destruct (Nat.leb_spec 16 (length inp)) as [Hl|Hl].
  - destruct Hn as [->| ->]; [simpl in Hl; lia|].
    transitivity (stream_bytes s 0 (take 16 inp ++ drop 16 inp)); [|by rewrite take_drop]. rewrite stream_bytes_app.
    assert (Ht : length (take 16 inp) = 16%nat) by (rewrite length_take; lia).
    rewrite stream_block_bytes by done. pose proof (good_words (refill s) (take 16 inp) ltac:(auto) Ht) as Hg.
    destruct (words (refill s) (take 16 inp)) as [y s1]. simpl in Hg.
    rewrite IH; [by destruct (stream_bytes s1 0 (drop 16 inp)) as [[? ?] ?]|rewrite length_drop; lia|done|by right].
  - destruct (Nat.ltb_spec 0 (length inp)).
    + destruct Hn as [->| ->]; [simpl in *; lia|]. apply stream_tail_refill. lia.
    + destruct inp; [done|simpl in *; lia].
Qed.

Hypothesis good_byte : forall s n x, good s -> (n < 16)%nat -> good (snd (byte s n x)).

Lemma good_head s n inp : good s -> (n < 16)%nat -> let '(_, _, s', _) := stream_head s n inp in good s'.
Proof.
  revert s n. induction inp as [|x inp IH]; intros s n Hs Hn; simpl; [done|].
  destruct (Nat.eqb_spec n 0); [done|]. pose proof (good_byte s n x Hs Hn). destruct (byte s n x) as [y s1]. simpl in *.
  specialize (IH s1 ((n + 1) mod 16)%nat ltac:(done) ltac:(lia)). by destruct (stream_head s1 _ inp) as [[[? ?] ?] ?].
Qed.

Theorem stream_call_bytes s n inp : good s -> (n < 16)%nat -> stream_call s n inp = stream_bytes s n inp.
Proof.
  intros Hs Hn. unfold stream_call. pose proof (stream_head_bytes s n inp Hn) as H. pose proof (good_head s n inp Hs Hn) as Hg.
  destruct (stream_head s n inp) as [[[out rest] s1] m]. destruct H as (Hm & Hr & ->).
  rewrite stream_blocks_bytes by (done || lia). by destruct (stream_bytes s1 m rest) as [[? ?] ?].
Qed.
End Stream.

(** Two streams that undo each other byte by byte. *)
Lemma stream_inverse {St} (refill : St -> St) byte1 byte2 :
  (forall s n x, byte2 s n (fst (byte1 s n x)) = (x, snd (byte1 s n x))) ->
  forall inp s n, let '(out, s1, m) := stream_bytes refill byte1 s n inp in
    stream_bytes refill byte2 s n out = (inp, s1, m) /\ length out = length inp.
Proof.
  intros H inp. induction inp as [|x inp IH]; intros s n; simpl; [done|].
  set (s0 := if (n =? 0)%nat then refill s else s). specialize (H s0 n x).
  destruct (byte1 s0 n x) as [y s1]. simpl in H. specialize (IH s1 ((n + 1) mod 16)%nat).
  destruct (stream_bytes refill byte1 s1 _ inp) as [[out s2] m]. destruct IH as [IH Hl].
  cbn [stream_bytes]. fold s0. rewrite H, IH. simpl. by rewrite Hl.
Qed.

(** ** The modes *)

Section Modes.

(** [block(in, out, key)] and [sizeof(size_t)]. *)
Context (cipher : list Z -> list Z) (size_t : nat).

(** The loop [for (; n < 16; n += sizeof(size_t))] over a block: the words
    [x ^ y] of both arguments, [k] of them. *)
Fixpoint xor_words16 (k : nat) (x y : list Z) : list Z :=
  match k with
  | O => []
  | S k' => xor_list (take size_t x) (take size_t y) ++ xor_words16 k' (drop size_t x) (drop size_t y)
  end.

Definition xor_block (x y : list Z) : list Z := xor_words16 (16 / size_t) x y.

(** *** ctr.c *)

(** [ctr128_inc] and [ctr96_inc]: from byte [n - 1] down. *)
Fixpoint ctr_inc_from (n : nat) (counter : list Z) : list Z :=
  match n with
  | O => counter
  | S n' =>
      let c := u8 (at16 counter n' + 1) in
      let counter := <[n' := c]> counter in
      if negb (c =? 0) then counter else ctr_inc_from n' counter
  end.

Definition ctr128_inc (counter : list Z) : list Z := ctr_inc_from 16 counter.
Definition ctr96_inc (counter : list Z) : list Z := ctr_inc_from 12 counter.

Record ctr_state : Type := mkCtr { ivec : list Z; ecount_buf : list Z }.

Definition ctr_refill (s : ctr_state) : ctr_state := mkCtr (ctr128_inc (ivec s)) (cipher (ivec s)).
Definition ctr_byte (s : ctr_state) (n : nat) (x : Z) : Z * ctr_state := (Z.lxor x (at16 (ecount_buf s) n), s).
Definition ctr_words (s : ctr_state) (inp : list Z) : list Z * ctr_state := (xor_block inp (ecount_buf s), s).

Definition CRYPTO_ctr128_encrypt (s : ctr_state) (num : nat) (inp : list Z) : list Z * ctr_state * nat :=
  stream_call ctr_refill ctr_byte ctr_words s num inp.

(** The branch for strict alignment. *)
Definition ctr128_strict (s : ctr_state) (num : nat) (inp : list Z) : list Z * ctr_state * nat :=
  stream_strict ctr_refill ctr_byte s num inp.

(** *** The variant with a 32-bit counter

    [func] encrypts a number of blocks and counts in the last four bytes of
    [ivec] only. *)
Context (func : list Z -> nat -> list Z -> list Z).

Definition ctr32_of (iv : list Z) : Z := word4 (at16 iv 12) (at16 iv 13) (at16 iv 14) (at16 iv 15).

(** [PUTU32(ivec + 12, ctr32); if (ctr32 == 0) ctr96_inc(ivec)] *)
Definition put_ctr32 (iv : list Z) (ctr32 : Z) : list Z :=
  let iv := take 12 iv ++ PUTU32 ctr32 in
  if ctr32 =? 0 then ctr96_inc iv else iv.

(** Every turn takes at least one block off, so the length of the input
    bounds the turns. *)
Fixpoint ctr32_blocks (fuel : nat) (s : ctr_state) (ctr32 : Z) (n : nat) (inp : list Z) : list Z * ctr_state * nat :=
  match fuel with
  | O => ([], s, n)
  | S fuel' =>
      if (16 <=? length inp)%nat then
        let blocks := Z.of_nat (length inp / 16) in
        let blocks := if (4 <? size_t)%nat && (blocks >? Z.shiftl 1 28) then Z.shiftl 1 28 else blocks in
        let ctr32 := u32 (ctr32 + u32 blocks) in
        let '(blocks, ctr32) := if ctr32 <? blocks then (blocks - ctr32, 0) else (blocks, ctr32) in
        let out := func (take (16 * Z.to_nat blocks) inp) (Z.to_nat blocks) (ivec s) in
        let s := mkCtr (put_ctr32 (ivec s) ctr32) (ecount_buf s) in
        let '(out', s', m) := ctr32_blocks fuel' s ctr32 n (drop (16 * Z.to_nat blocks) inp) in
        (out ++ out', s', m)
      else if (0 <? length inp)%nat then
        let ec := func (replicate 16 0) 1 (ivec s) in
        let ctr32 := u32 (ctr32 + 1) in
        stream_tail ctr_byte (mkCtr (put_ctr32 (ivec s) ctr32) ec) n inp
      else ([], s, n)
  end.

Definition CRYPTO_ctr128_encrypt_ctr32 (s : ctr_state) (num : nat) (inp : list Z) : list Z * ctr_state * nat :=
  let '(out, rest, s, n) := stream_head ctr_byte s num inp in
  let '(out', s, n) := ctr32_blocks (S (length rest)) s (ctr32_of (ivec s)) n rest in
  (out ++ out', s, n).

(** *** ofb.c: the state is [ivec] *)

Definition ofb_byte (iv : list Z) (n : nat) (x : Z) : Z * list Z := (Z.lxor x (at16 iv n), iv).
Definition ofb_words (iv : list Z) (inp : list Z) : list Z * list Z := (xor_block inp iv, iv).

Definition CRYPTO_ofb128_encrypt (iv : list Z) (num : nat) (inp : list Z) : list Z * list Z * nat :=
  stream_call cipher ofb_byte ofb_words iv num inp.

Definition ofb128_strict (iv : list Z) (num : nat) (inp : list Z) : list Z * list Z * nat :=
  stream_strict cipher ofb_byte iv num inp.

(** *** cfb.c: the state is [ivec], which takes in the cipher text *)

(** [out[n] = ivec[n] ^= in[n]] *)
Definition cfb_enc_byte (iv : list Z) (n : nat) (x : Z) : Z * list Z :=
  let y := Z.lxor (at16 iv n) x in (y, <[n := y]> iv).
(** [out[n] = ivec[n] ^ (c = in[n]); ivec[n] = c] *)
Definition cfb_dec_byte (iv : list Z) (n : nat) (x : Z) : Z * list Z := (Z.lxor (at16 iv n) x, <[n := x]> iv).

Definition cfb_enc_words (iv : list Z) (inp : list Z) : list Z * list Z := let y := xor_block iv inp in (y, y).
Definition cfb_dec_words (iv : list Z) (inp : list Z) : list Z * list Z := (xor_block iv inp, inp).

Definition CRYPTO_cfb128_encrypt (iv : list Z) (num : nat) (enc : bool) (inp : list Z) : list Z * list Z * nat :=
  if enc then stream_call cipher cfb_enc_byte cfb_enc_words iv num inp
  else stream_call cipher cfb_dec_byte cfb_dec_words iv num inp.

Definition cfb128_strict (iv : list Z) (num : nat) (enc : bool) (inp : list Z) : list Z * list Z * nat :=
  stream_strict cipher (if enc then cfb_enc_byte else cfb_dec_byte) iv num inp.

(** *** CFB with a feedback of [nbits] bits *)

(** The output bytes and the new [ivec]; [ovec] is the old one followed by
    the cipher text. *)
Definition cfbr_encrypt_block (inp : list Z) (nbits : nat) (iv : list Z) (enc : bool) : list Z * list Z :=
  if (nbits <=? 0)%nat || (128 <? nbits)%nat then ([], iv)
  else
    let ks := cipher iv in
    let num := ((nbits + 7) / 8)%nat in
    let out := xor_list (take num inp) (take num ks) in
    let ovec := iv ++ (if enc then out else take num inp) in
    let rem := (nbits mod 8)%nat in
    let num := (nbits / 8)%nat in
    let iv' :=
      if (rem =? 0)%nat then take 16 (drop num ovec)
      else
        (fun n => u8 (Z.lor (Z.shiftl (at16 ovec (n + num)) (Z.of_nat rem))
          (Z.shiftr (at16 ovec (n + num + 1)) (8 - Z.of_nat rem)))) <$> seq 0 16 in
    (out, iv').

(** [CRYPTO_cfb128_8_encrypt]: one byte at a time. *)
Fixpoint CRYPTO_cfb128_8_encrypt (iv : list Z) (enc : bool) (inp : list Z) : list Z * list Z :=
  match inp with
  | [] => ([], iv)
  | x :: inp' =>
      let '(y, iv) := cfbr_encrypt_block [x] 8 iv enc in
      let '(out, iv') := CRYPTO_cfb128_8_encrypt iv enc inp' in
      (y ++ out, iv')
  end.

(** [CRYPTO_cfb128_1_encrypt]: one bit at a time, from the most significant
    one of each byte; [left] bits remain and [n] are done. *)
Fixpoint cfb1_from (left n : nat) (iv : list Z) (enc : bool) (inp out : list Z) : list Z * list Z :=
  match left with
  | O => (out, iv)
  | S left' =>
      let bit := Z.of_nat (7 - n mod 8) in
      let c := if negb (Z.land (at16 inp (n / 8)) (Z.shiftl 1 bit) =? 0) then 0x80 else 0 in
      let '(d, iv) := cfbr_encrypt_block [c] 1 iv enc in
      let o := at16 out (n / 8) in
      let o' := Z.lor (Z.land o (Z.lnot (Z.shiftl 1 bit))) (Z.shiftr (Z.land (at16 d 0) 0x80) (Z.of_nat (n mod 8))) in
      cfb1_from left' (S n) iv enc inp (<[(n / 8)%nat := o']> out)
  end.

Definition CRYPTO_cfb128_1_encrypt (iv : list Z) (enc : bool) (bits : nat) (inp out : list Z) : list Z * list Z :=
  cfb1_from bits 0 iv enc inp out.

End Modes.

(** ** Correctness of the streams *)

Lemma length_xor_list a b : length a = length b -> length (xor_list a b) = length a.
Proof. intros H. unfold xor_list. rewrite length_zip_with. lia. Qed.

Lemma xor_list_app a b c d : length a = length c -> xor_list (a ++ b) (c ++ d) = xor_list a c ++ xor_list b d.
Proof. intros H. unfold xor_list. by rewrite zip_with_app. Qed.

(** A block without change of state is the xor with the key stream. *)
Lemma tail_xor {St} (byte : St -> nat -> Z -> Z * St) s ks n inp :
  (forall n x, byte s n x = (Z.lxor x (at16 ks n), s)) -> (n + length inp <= length ks)%nat ->
  stream_tail byte s n inp = (xor_list inp (drop n ks), s, (n + length inp)%nat).
Proof.
  intros H. revert n. induction inp as [|x inp IH]; intros n Hl; simpl.
  - by rewrite Nat.add_0_r.
  - rewrite H, IH by (simpl in Hl; lia). simpl in Hl. destruct (lookup_lt_is_Some_2 ks n) as [k Hk]; [lia|].
    rewrite (drop_S _ _ _ Hk). unfold at16. rewrite Hk, Nat.add_1_r. simpl. do 2 f_equal. lia.
Qed.

(** A block where each byte of the state is replaced by [g]. *)
Lemma tail_replace (byte : list Z -> nat -> Z -> Z * list Z) (g : Z -> Z -> Z) iv n inp :
  (forall iv n x, byte iv n x = (Z.lxor (at16 iv n) x, <[n := g (at16 iv n) x]> iv)) -> (n + length inp = length iv)%nat ->
  stream_tail byte iv n inp =
    (xor_list (drop n iv) inp, take n iv ++ zip_with g (drop n iv) inp, (n + length inp)%nat).
Proof.
  intros H. revert iv n. induction inp as [|x inp IH]; intros iv n Hl; simpl in *.
  - rewrite Nat.add_0_r in *. by rewrite drop_ge, take_ge, app_nil_r by lia.
  - destruct (lookup_lt_is_Some_2 iv n) as [k Hk]; [lia|]. rewrite H, IH by (rewrite length_insert; lia).
    rewrite (drop_S _ _ _ Hk). unfold at16. rewrite Hk, Nat.add_1_r. simpl.
    assert (E1 : drop (S n) (<[n := g k x]> iv) = drop (S n) iv) by (apply drop_insert_lt; lia).
    assert (E2 : take (S n) (<[n := g k x]> iv) = take n iv ++ [g k x]).
    { rewrite (take_S_r _ n (g k x)) by (apply list_lookup_insert_eq; lia). by rewrite take_insert_ge. }
    rewrite E1, E2, <- app_assoc. do 2 f_equal. lia.
Qed.

Definition len16 (l : list Z) : Prop := length l = 16%nat.
Definition ctr_good (s : ctr_state) : Prop := len16 (ivec s) /\ len16 (ecount_buf s).

Lemma length_ctr_inc n l : length (ctr_inc_from n l) = length l.
Proof.
  revert l. induction n as [|n IH]; intros l; [done|]. cbn [ctr_inc_from]. destruct (negb _); [|rewrite IH]; apply length_insert.
Qed.

Lemma zip_with_snd {A B} (l : list A) (k : list B) : length l = length k -> zip_with (fun _ y => y) l k = k.
Proof. revert k. induction l as [|x l IH]; intros [|y k]; simpl; try done. intros [= H]. by rewrite IH. Qed.

(** A sequence of calls that pass the state on. *)
Fixpoint calls {St} (f : St -> nat -> list Z -> list Z * St * nat) (s : St) (n : nat) (chunks : list (list Z)) :
    list Z * St * nat :=
  match chunks with
  | [] => ([], s, n)
  | c :: chunks' =>
      let '(out, s, n) := f s n c in
      let '(out', s, n) := calls f s n chunks' in
      (out ++ out', s, n)
  end.

Lemma stream_bytes_good {St} (refill : St -> St) byte (good : St -> Prop) s n inp :
  (forall s, good s -> good (refill s)) -> (forall s n x, good s -> (n < 16)%nat -> good (snd (byte s n x))) ->
  good s -> (n < 16)%nat -> let '(_, s', m) := stream_bytes refill byte s n inp in good s' /\ (m < 16)%nat.
Proof.
  intros Hr Hb. revert s n. induction inp as [|x inp IH]; intros s n Hs Hn; simpl; [done|].
  set (s0 := if (n =? 0)%nat then refill s else s). assert (good s0) by (unfold s0; case_match; auto).
  pose proof (Hb s0 n x ltac:(done) Hn). destruct (byte s0 n x) as [y s1]. simpl in *.
  specialize (IH s1 ((n + 1) mod 16)%nat ltac:(done) ltac:(lia)). by destruct (stream_bytes refill byte s1 _ inp) as [[? ?] ?].
Qed.

(** Calls that go byte by byte make one stream. *)
Lemma calls_stream {St} (refill : St -> St) byte (good : St -> Prop) f chunks s n :
  (forall s, good s -> good (refill s)) -> (forall s n x, good s -> (n < 16)%nat -> good (snd (byte s n x))) ->
  (forall s n inp, good s -> (n < 16)%nat -> f s n inp = stream_bytes refill byte s n inp) ->
  good s -> (n < 16)%nat -> calls f s n chunks = stream_bytes refill byte s n (mjoin chunks).
Proof.
  intros Hr Hb Hf. revert s n. induction chunks as [|c chunks IH]; intros s n Hs Hn; simpl; [done|].
  rewrite Hf, stream_bytes_app by done. pose proof (stream_bytes_good refill byte good s n c Hr Hb Hs Hn) as Hg.
  destruct (stream_bytes refill byte s n c) as [[out s1] m]. destruct Hg. by rewrite IH.
Qed.

(** Encryption in some calls and decryption in others. *)
Lemma calls_inverse {St} (refill : St -> St) byte1 byte2 (good : St -> Prop) f1 f2 :
  (forall s, good s -> good (refill s)) ->
  (forall s n x, good s -> (n < 16)%nat -> good (snd (byte1 s n x))) ->
  (forall s n x, good s -> (n < 16)%nat -> good (snd (byte2 s n x))) ->
  (forall s n inp, good s -> (n < 16)%nat -> f1 s n inp = stream_bytes refill byte1 s n inp) ->
  (forall s n inp, good s -> (n < 16)%nat -> f2 s n inp = stream_bytes refill byte2 s n inp) ->
  (forall s n x, byte2 s n (fst (byte1 s n x)) = (x, snd (byte1 s n x))) ->
  forall s n plain cut, good s -> (n < 16)%nat ->
  let '(out, s', m) := calls f1 s n plain in
  mjoin cut = out -> calls f2 s n cut = (mjoin plain, s', m).
Proof.
  intros Hr H1 H2 F1 F2 Hi s n plain cut Hs Hn. rewrite (calls_stream refill byte1 good) by done.
  pose proof (stream_inverse refill byte1 byte2 Hi (mjoin plain) s n) as HH.
  destruct (stream_bytes refill byte1 s n (mjoin plain)) as [[out s'] m]. destruct HH as [HH _]. intros <-.
  by rewrite (calls_stream refill byte2 good).
Qed.

Section Streams.
Context (cipher : list Z -> list Z) (size_t : nat).
Hypothesis cipher_length : forall x, length x = 16%nat -> length (cipher x) = 16%nat.
Hypothesis word_size : size_t = 4%nat \/ size_t = 8%nat.

Lemma xor_words16_spec k x y :
  length x = (size_t * k)%nat -> length y = (size_t * k)%nat -> xor_words16 size_t k x y = xor_list x y.
Proof.
  revert x y. induction k as [|k IH]; intros x y Hx Hy.
  - rewrite Nat.mul_0_r in *. by destruct x, y.
  - cbn [xor_words16]. rewrite IH by (rewrite length_drop; lia).
    rewrite <- xor_list_app by (rewrite !length_take; lia). by rewrite !take_drop.
Qed.

Lemma xor_block_spec x y : length x = 16%nat -> length y = 16%nat -> xor_block size_t x y = xor_list x y.
Proof. intros Hx Hy. apply xor_words16_spec; destruct word_size as [-> | ->]; done. Qed.

Lemma ctr_fast s num inp :
  ctr_good s -> (num < 16)%nat -> CRYPTO_ctr128_encrypt cipher size_t s num inp = stream_bytes (ctr_refill cipher) ctr_byte s num inp.
Proof.
  intros Hs Hn. apply (stream_call_bytes _ _ _ ctr_good); try done.
  - intros s' [H1 H2]. split; simpl; [unfold len16, ctr128_inc; by rewrite length_ctr_inc|by apply cipher_length].
  - intros s' l [H1 H2] Hl. rewrite (tail_xor _ s' (ecount_buf s')) by (done || (rewrite H2; simpl; lia)).
    unfold ctr_words. by rewrite xor_block_spec, drop_0.
Qed.

Lemma ofb_fast iv num inp :
  len16 iv -> (num < 16)%nat -> CRYPTO_ofb128_encrypt cipher size_t iv num inp = stream_bytes cipher ofb_byte iv num inp.
Proof.
  intros Hs Hn. apply (stream_call_bytes _ _ _ len16); try done.
  intros s' l H2 Hl. rewrite (tail_xor _ s' s') by (done || (rewrite H2; simpl; lia)).
  unfold ofb_words. by rewrite xor_block_spec, drop_0.
Qed.

Lemma cfb_fast iv num enc inp :
  len16 iv -> (num < 16)%nat -> 
  CRYPTO_cfb128_encrypt cipher size_t iv num enc inp = stream_bytes cipher (if enc then cfb_enc_byte else cfb_dec_byte) iv num inp.
Proof.
  intros Hs Hn. unfold CRYPTO_cfb128_encrypt. destruct enc.
  - apply (stream_call_bytes _ _ _ len16); try done.
    + intros s' l H2 Hl. simpl. unfold len16. by rewrite xor_block_spec, length_xor_list by congruence.
    + intros s' l H2 Hl. rewrite (tail_replace _ Z.lxor) by (done || (rewrite H2; simpl; lia)).
      unfold cfb_enc_words. by rewrite xor_block_spec, drop_0.
    + intros s' n x H2 Hn'. unfold len16. simpl. by rewrite length_insert.
  - apply (stream_call_bytes _ _ _ len16); try done.
    + intros s' l H2 Hl. rewrite (tail_replace _ (fun _ y => y)) by (done || (rewrite H2; simpl; lia)).
      unfold cfb_dec_words. rewrite xor_block_spec, drop_0 by done. simpl. by rewrite zip_with_snd by congruence.
    + intros s' n x H2 Hn'. unfold len16. simpl. by rewrite length_insert.
Qed.

Lemma good_refill_ctr s : ctr_good s -> ctr_good (ctr_refill cipher s).
Proof.
  intros [H1 H2]. split; simpl; [unfold len16, ctr128_inc; by rewrite length_ctr_inc|by apply cipher_length].
Qed.

(** C12: counter, output feedback and cipher feedback mode decrypt what they
    encrypted, for any block cipher and however the two sides cut the data
    into calls, and both sides end in the same state. *)
Theorem stream_modes_roundtrip s iv num plain cut :
  ctr_good s -> len16 iv -> (num < 16)%nat ->
  (let '(out, s', m) := calls (CRYPTO_ctr128_encrypt cipher size_t) s num plain in
   mjoin cut = out -> calls (CRYPTO_ctr128_encrypt cipher size_t) s num cut = (mjoin plain, s', m)) /\
  (let '(out, iv', m) := calls (CRYPTO_ofb128_encrypt cipher size_t) iv num plain in
   mjoin cut = out -> calls (CRYPTO_ofb128_encrypt cipher size_t) iv num cut = (mjoin plain, iv', m)) /\
  (let '(out, iv', m) := calls (fun iv n => CRYPTO_cfb128_encrypt cipher size_t iv n true) iv num plain in
   mjoin cut = out -> calls (fun iv n => CRYPTO_cfb128_encrypt cipher size_t iv n false) iv num cut = (mjoin plain, iv', m)).
Proof.
  intros Hs Hiv Hn. split; [|split].
  - apply (calls_inverse (ctr_refill cipher) ctr_byte ctr_byte ctr_good); try done; auto using good_refill_ctr, ctr_fast.
    intros s0 n x. unfold ctr_byte. simpl. by rewrite lxor_cancel.
  - apply (calls_inverse cipher ofb_byte ofb_byte len16); try done; auto using ofb_fast.
    intros s0 n x. unfold ofb_byte. simpl. by rewrite lxor_cancel.
  - apply (calls_inverse cipher cfb_enc_byte cfb_dec_byte len16); try done; auto.
    + intros s' n x H _. unfold len16. simpl. by rewrite length_insert.
    + intros s' n x H _. unfold len16. simpl. by rewrite length_insert.
    + intros s' n inp H H'. by apply (cfb_fast s' n true).
    + intros s' n inp H H'. by apply (cfb_fast s' n false).
    + intros s0 n x. unfold cfb_dec_byte, cfb_enc_byte. simpl. f_equal.
      by rewrite <- Z.lxor_assoc, Z.lxor_nilpotent, Z.lxor_0_l.
Qed.

(** The word-wise code of the three modes computes what the byte-wise
    code for strict alignment computes, with the same final state, from any
    position inside a block and for any length. *)
Lemma word_path_is_byte_path s iv num enc inp :
  ctr_good s -> len16 iv -> (num < 16)%nat ->
  CRYPTO_ctr128_encrypt cipher size_t s num inp = ctr128_strict cipher s num inp /\
  CRYPTO_ofb128_encrypt cipher size_t iv num inp = ofb128_strict cipher iv num inp /\
  CRYPTO_cfb128_encrypt cipher size_t iv num enc inp = cfb128_strict cipher iv num enc inp.
Proof.
  intros Hs Hiv Hn. unfold ctr128_strict, ofb128_strict, cfb128_strict. rewrite !stream_strict_bytes by done.
  split; [by apply ctr_fast|]. split; [by apply ofb_fast|by apply cfb_fast].
Qed.
End Streams.
