(* ===== verification/CtrMode.v ===== *)
(** * CtrMode: the counters of [crypto/modes/ctr.c]

    [ctr128_inc] adds one to a 128-bit big-endian integer, and the variant
    with a 32-bit counter, which hands runs of blocks to a bulk function and
    carries into the upper 96 bits itself, is the plain counter mode. *)

From Stdlib Require Import ZifyNat.
From S2P Require Import Prelude.
From S2P Require Import Words.
From S2P Require Import AesTables.
From S2P Require Import Aes.
From S2P Require Import AesSpec.
From S2P Require Import AesInverse.
From S2P Require Import Modes.

#[local] Arguments Nat.modulo : simpl never.
#[local] Arguments Nat.div : simpl never.

Lemma be_value_inj a b : length a = length b -> Forall is_byte a -> Forall is_byte b -> be_value a = be_value b -> a = b.
Proof. intros Hl Ha Hb H. rewrite <- (be_bytes_be_value a Ha), <- (be_bytes_be_value b Hb), H. by rewrite Hl. Qed.

Lemma be_value_snoc l x : be_value (l ++ [x]) = be_value l * 256 + x.
Proof. rewrite be_value_app. change (zlen [x]) with 1. rewrite Z.pow_1_r. unfold be_value at 2. simpl. lia. Qed.

(** The first [n] bytes count up, the others stay. *)
Lemma ctr_inc_spec n l :
  Forall is_byte l -> (n <= length l)%nat ->
  Forall is_byte (ctr_inc_from n l) /\ drop n (ctr_inc_from n l) = drop n l /\
  be_value (take n (ctr_inc_from n l)) = (be_value (take n l) + 1) mod 256 ^ Z.of_nat n.
Proof.
  revert l. induction n as [|n IH]; intros l Hb Hl.
  - simpl. split; [done|]. split; [done|]. by rewrite Z.mod_1_r.
  - cbn [ctr_inc_from]. destruct (lookup_lt_is_Some_2 l n) as [b Hx]; [lia|].
    assert (Hbb : is_byte b) by (by eapply Forall_lookup_1). unfold at16. rewrite Hx. change (default 0 (Some b)) with b.
    set (c := u8 (b + 1)). assert (Hc : is_byte c) by (apply wrapU_range; lia).
    assert (Hins : Forall is_byte (<[n := c]> l)) by (by apply Forall_insert).
    rewrite (take_S_r l n b) by done. rewrite be_value_snoc.
    assert (HV : 0 <= be_value (take n l) < 256 ^ Z.of_nat n).
    { pose proof (be_value_range (take n l) (Forall_take _ n l Hb)) as H. unfold zlen in H. rewrite length_take, Nat.min_l in H by lia.
      rewrite Z.pow_mul_r in H by lia. exact H. }
    replace (256 ^ Z.of_nat (S n)) with (256 ^ Z.of_nat n * 256) by (rewrite Nat2Z.inj_succ, Z.pow_succ_r by lia; lia).
    unfold is_u in Hbb. change (2 ^ 8) with 256 in Hbb. destruct (Z.eqb_spec c 0) as [Hc0|Hc0]; cbn [negb].
    + destruct (IH (<[n := c]> l) Hins) as (B & D & V); [rewrite length_insert; lia|]. split; [done|].
      assert (Hd : drop n (<[n := c]> l) = c :: drop (S n) l).
      { rewrite drop_insert_ge, Nat.sub_diag by lia. by rewrite (drop_S _ _ _ Hx). }
      assert (Hn : ctr_inc_from n (<[n := c]> l) !! n = Some c).
      { transitivity (drop n (ctr_inc_from n (<[n := c]> l)) !! 0%nat); [by rewrite lookup_drop, Nat.add_0_r|by rewrite D, Hd]. }
      split.
      { transitivity (drop 1 (drop n (ctr_inc_from n (<[n := c]> l)))); [rewrite drop_drop; f_equal; lia|by rewrite D, Hd]. }
      rewrite (take_S_r _ n c) by done. rewrite be_value_snoc, V, take_insert_ge by lia.
      assert (b = 255) as ->. { unfold c, wrapU in Hc0. change (2 ^ 8) with 256 in Hc0. zlia. }
      rewrite Hc0, Z.add_0_r, <- Z.mul_mod_distr_r by lia. f_equal. lia.
    + split; [done|]. split; [apply drop_insert_lt; lia|].
      rewrite (take_S_r _ n c) by (apply list_lookup_insert_eq; lia). rewrite be_value_snoc, take_insert_ge by lia.
      assert (c = b + 1) as ->. { unfold c, wrapU in *. change (2 ^ 8) with 256 in *. zlia. }
      rewrite Z.mod_small; [lia|]. unfold is_u in Hc. change (2 ^ 8) with 256 in Hc. nia.
Qed.

(** Sixteen bytes as a counter. *)
Definition counter (iv : list Z) : Prop := length iv = 16%nat /\ Forall is_byte iv.

Lemma ctr128_inc_spec iv :
  counter iv -> counter (ctr128_inc iv) /\ be_value (ctr128_inc iv) = (be_value iv + 1) mod 2 ^ 128.
Proof.
  intros [Hl Hb]. destruct (ctr_inc_spec 16 iv Hb ltac:(lia)) as (B & D & V). unfold ctr128_inc.
  rewrite !take_ge in V by (rewrite ?length_ctr_inc; lia). split; [|done]. split; [by rewrite length_ctr_inc|done].
Qed.

Lemma ctr128_iter k iv :
  counter iv -> counter (Nat.iter k ctr128_inc iv) /\
  be_value (Nat.iter k ctr128_inc iv) = (be_value iv + Z.of_nat k) mod 2 ^ 128.
Proof.
  intros Hc. induction k as [|k [IH1 IH2]]; simpl.
  - split; [done|]. rewrite Z.add_0_r, Z.mod_small; [done|]. destruct Hc as [Hl Hb].
    pose proof (be_value_range iv Hb) as H. unfold zlen in H. by rewrite Hl in H.
  - destruct (ctr128_inc_spec _ IH1) as [H1 ->]. split; [done|]. rewrite IH2, Zplus_mod_idemp_l. f_equal. lia.
Qed.

(** The counter block [i] of a bulk function: only the last four bytes
    count. *)
Definition add32 (iv : list Z) (i : nat) : list Z := take 12 iv ++ be_bytes 4 (ctr32_of iv + Z.of_nat i).

Lemma ctr32_of_value iv : counter iv -> be_value iv = be_value (take 12 iv) * 2 ^ 32 + ctr32_of iv /\ is_u32 (ctr32_of iv).
Proof.
  intros [Hl Hb]. rewrite <- (take_drop 12 iv) at 1. rewrite be_value_app.
  assert (H : exists a b c d, drop 12 iv = [a; b; c; d] /\ ctr32_of iv = word4 a b c d).
  { do 16 (destruct iv as [|? iv]; [discriminate Hl|]). destruct iv; [|discriminate Hl]. by eexists _, _, _, _. }
  destruct H as (a & b & c & d & E & ->). assert (Hd : Forall is_byte (drop 12 iv)) by (by apply Forall_drop). rewrite E in *.
  repeat match goal with HF : Forall _ (_ :: _) |- _ => inversion_clear HF end.
  change (zlen [a; b; c; d]) with 4. split; [|by apply word4_range]. do 2 f_equal.
  transitivity (be_value (be_bytes 4 (word4 a b c d))); [by rewrite word4_be|].
  rewrite be_value_be_bytes. apply Z.mod_small. by apply word4_range.
Qed.

Lemma counter_parts hi lo : length hi = 12%nat -> length lo = 4%nat -> Forall is_byte hi -> Forall is_byte lo -> counter (hi ++ lo).
Proof. intros H1 H2 H3 H4. split; [rewrite length_app; lia|by apply Forall_app]. Qed.

Lemma counter_add32 iv i : counter iv -> counter (add32 iv i).
Proof.
  intros [Hl Hb]. apply counter_parts; [rewrite length_take; lia|apply length_be_bytes|by apply Forall_take|apply be_bytes_bytes].
Qed.

Lemma hi_range iv : counter iv -> 0 <= be_value (take 12 iv) < 2 ^ 96.
Proof.
  intros [Hl Hb]. pose proof (be_value_range (take 12 iv) (Forall_take _ 12 iv Hb)) as H. unfold zlen in H.
  by rewrite length_take, Hl in H.
Qed.

(** Without a carry the bulk function counts as [ctr128_inc]. *)
Lemma add32_iter iv i : counter iv -> ctr32_of iv + Z.of_nat i < 2 ^ 32 -> add32 iv i = Nat.iter i ctr128_inc iv.
Proof.
  intros Hc Hi. destruct (ctr128_iter i iv Hc) as [C V]. pose proof (counter_add32 iv i Hc) as C'.
  destruct (ctr32_of_value iv Hc) as [E Hu]. pose proof (hi_range iv Hc). unfold is_u in Hu.
  apply be_value_inj; [by rewrite (proj1 C), (proj1 C')|apply C'|apply C|]. rewrite V, E. unfold add32.
  rewrite be_value_app, be_value_be_bytes, zlen_be_bytes. change (256 ^ Z.of_nat 4) with (2 ^ 32). change (8 * Z.of_nat 4) with 32.
  rewrite Z.mod_small by lia. rewrite Z.mod_small; lia.
Qed.

(** [PUTU32] and the carry. *)
Lemma put_ctr32_iter iv k :
  counter iv -> 0 < Z.of_nat k -> ctr32_of iv + Z.of_nat k <= 2 ^ 32 ->
  put_ctr32 iv (u32 (ctr32_of iv + Z.of_nat k)) = Nat.iter k ctr128_inc iv.
Proof.
  intros Hc Hk Hle. destruct (ctr128_iter k iv Hc) as [C V]. destruct (ctr32_of_value iv Hc) as [E Hu].
  pose proof (hi_range iv Hc). unfold is_u in Hu. destruct Hc as [Hl Hb]. unfold put_ctr32.
  assert (P : forall w, PUTU32 w = be_bytes 4 w) by (intros w; unfold PUTU32; simpl; by rewrite Z.shiftr_0_r).
  rewrite P. set (lo := be_bytes 4 (u32 (ctr32_of iv + Z.of_nat k))).
  assert (Clo : counter (take 12 iv ++ lo)).
  { apply counter_parts; [rewrite length_take; lia|apply length_be_bytes|by apply Forall_take|apply be_bytes_bytes]. }
  assert (Vlo : be_value lo = u32 (ctr32_of iv + Z.of_nat k)) by (unfold lo; rewrite be_value_be_bytes; unfold wrapU; by rewrite Z.mod_mod).
  destruct (Z.eqb_spec (u32 (ctr32_of iv + Z.of_nat k)) 0) as [E0|E0].
  - assert (Hs : ctr32_of iv + Z.of_nat k = 2 ^ 32) by (unfold wrapU in E0; zlia).
    destruct (ctr_inc_spec 12 _ (proj2 Clo)) as (B & D & V'); [rewrite (proj1 Clo); lia|].
    unfold ctr96_inc. apply be_value_inj; [rewrite length_ctr_inc, (proj1 C); apply Clo|done|apply C|].
    rewrite <- (take_drop 12 (ctr_inc_from 12 _)), D, be_value_app, V'.
    assert (L12 : length (take 12 iv) = 12%nat) by (rewrite length_take; lia).
    rewrite take_app_le, (take_ge (take 12 iv)) by (rewrite ?L12; lia).
    replace (drop 12 (take 12 iv ++ lo)) with lo by (rewrite drop_app_ge, L12 by lia; done).
    rewrite Vlo, E0, V, E. unfold zlen, lo. rewrite length_be_bytes. change (256 ^ Z.of_nat 4) with (2 ^ 32).
    change (256 ^ Z.of_nat 12) with (2 ^ 96). rewrite Z.add_0_r, <- Z.mul_mod_distr_r by lia.
    change (2 ^ 96 * 2 ^ 32) with (2 ^ 128). f_equal. lia.
  - assert (Hs : ctr32_of iv + Z.of_nat k < 2 ^ 32).
    { destruct (Z.eq_dec (ctr32_of iv + Z.of_nat k) (2 ^ 32)) as [E1|]; [|lia]. by rewrite E1 in E0. }
    apply be_value_inj; [rewrite (proj1 C); apply Clo|apply Clo|apply C|].
    rewrite be_value_app, Vlo, V, E. unfold zlen, lo. rewrite length_be_bytes. change (256 ^ Z.of_nat 4) with (2 ^ 32).
    unfold wrapU. rewrite Z.mod_small by lia. rewrite Z.mod_small; lia.
Qed.

Section Ctr32.
Context (cipher : list Z -> list Z) (size_t : nat) (func : list Z -> nat -> list Z -> list Z).
Hypothesis cipher_length : forall x, length x = 16%nat -> length (cipher x) = 16%nat.

(** The documented behaviour of a [ctr128_f]: block [i] is xored with the
    encrypted counter block [i]. *)
Hypothesis func_spec : forall inp k iv, length inp = (16 * k)%nat ->
  func inp k iv = mjoin ((fun i => xor_list (take 16 (drop (16 * i) inp)) (cipher (add32 iv i))) <$> seq 0 k).

Abbreviation strict := (stream_bytes (ctr_refill cipher) ctr_byte).

Lemma strict_block s inp :
  len16 (ivec s) -> length inp = 16%nat ->
  strict s 0 inp = (xor_list inp (cipher (ivec s)), ctr_refill cipher s, 0%nat).
Proof.
  intros Hs Hl. destruct inp as [|x inp]; [done|]. simpl in Hl. cbn [stream_bytes]. simpl.
  change (1 mod 16)%nat with 1%nat. rewrite stream_tail_wrap by lia.
  rewrite (tail_xor _ (ctr_refill cipher s) (cipher (ivec s))) by (done || (rewrite cipher_length by done; lia)).
  assert (Hc : length (cipher (ivec s)) = 16%nat) by auto. destruct (cipher (ivec s)); [done|]. done.
Qed.

(** A run of blocks. *)
Lemma strict_run k s inp :
  counter (ivec s) -> length inp = (16 * k)%nat ->
  exists ec, strict s 0 inp =
    (mjoin ((fun i => xor_list (take 16 (drop (16 * i) inp)) (cipher (Nat.iter i ctr128_inc (ivec s)))) <$> seq 0 k),
     mkCtr (Nat.iter k ctr128_inc (ivec s)) ec, 0%nat).
Proof.
  revert s inp. induction k as [|k IH]; intros s inp Hc Hl.
  - destruct inp; [|done]. exists (ecount_buf s). by destruct s.
  - destruct (IH (ctr_refill cipher s) (drop 16 inp)) as [ec E]; [by apply ctr128_inc_spec|rewrite length_drop; lia|].
    exists ec. transitivity (strict s 0 (take 16 inp ++ drop 16 inp)); [by rewrite take_drop|].
    rewrite stream_bytes_app, strict_block by (apply Hc || (rewrite length_take; lia)). rewrite E. cbn [ctr_refill ivec]. rewrite <- (Nat.iter_succ_r k _ ctr128_inc). f_equal. f_equal.
    cbn [seq fmap list_fmap mjoin list_join]. change (16 * 0)%nat with 0%nat. rewrite drop_0. f_equal.
    rewrite <- fmap_S_seq, <- list_fmap_compose. f_equal. apply list_fmap_ext. intros _ i _. simpl.
    rewrite drop_drop, <- (Nat.iter_succ_r i _ ctr128_inc). do 3 f_equal. lia.
Qed.

(** Equal but for an [ecount_buf] that will not be used. *)
Definition ctr_same (r1 r2 : list Z * ctr_state * nat) : Prop :=
  let '(o1, s1, m1) := r1 in let '(o2, s2, m2) := r2 in
  o1 = o2 /\ ivec s1 = ivec s2 /\ m1 = m2 /\ (m1 <> 0%nat -> ecount_buf s1 = ecount_buf s2).

Lemma func_run inp k iv :
  counter iv -> length inp = (16 * k)%nat -> ctr32_of iv + Z.of_nat k <= 2 ^ 32 ->
  func inp k iv = mjoin ((fun i => xor_list (take 16 (drop (16 * i) inp)) (cipher (Nat.iter i ctr128_inc iv))) <$> seq 0 k).
Proof.
  intros Hc Hl Hk. rewrite func_spec by done. f_equal. apply list_fmap_ext. intros _ i Hi%list_elem_of_lookup_2%elem_of_seq.
  by rewrite add32_iter by (done || lia).
Qed.

Lemma xor_zeros n l : length l = n -> xor_list (replicate n 0) l = l.
Proof. intros <-. induction l as [|x l IH]; [done|]. simpl. unfold xor_list in *. simpl. by rewrite IH. Qed.

Lemma ctr32_of_iter_zero iv k : counter iv -> ctr32_of iv + Z.of_nat k = 2 ^ 32 -> ctr32_of (Nat.iter k ctr128_inc iv) = 0.
Proof.
  intros Hc Hk. destruct (ctr128_iter k iv Hc) as [C V]. destruct (ctr32_of_value iv Hc) as [E _].
  destruct (ctr32_of_value _ C) as [E' Hu]. unfold is_u in Hu. pose proof (hi_range _ C). rewrite V, E in E'.
  replace (be_value (take 12 iv) * 2 ^ 32 + ctr32_of iv + Z.of_nat k) with ((be_value (take 12 iv) + 1) * 2 ^ 32) in E' by lia.
  change (2 ^ 128) with (2 ^ 96 * 2 ^ 32) in E'. rewrite Z.mul_mod_distr_r in E' by lia. lia.
Qed.

Lemma ctr32_of_iter iv k : counter iv -> ctr32_of iv + Z.of_nat k < 2 ^ 32 -> ctr32_of (Nat.iter k ctr128_inc iv) = ctr32_of iv + Z.of_nat k.
Proof.
  intros Hc Hk. destruct (ctr128_iter k iv Hc) as [C V]. destruct (ctr32_of_value iv Hc) as [E Hu0].
  destruct (ctr32_of_value _ C) as [E' Hu]. unfold is_u in Hu, Hu0. pose proof (hi_range _ C). pose proof (hi_range _ Hc).
  rewrite V, E, Z.mod_small in E' by lia. lia.
Qed.

Lemma head_frame s n inp :
  let '(_, rest, s', _) := stream_head ctr_byte s n inp in s' = s /\ (length rest <= length inp)%nat.
Proof.
  revert n. induction inp as [|x inp IH]; intros n; simpl; [done|]. destruct (n =? 0)%nat; [done|].
  specialize (IH ((n + 1) mod 16)%nat). destruct (stream_head ctr_byte s _ inp) as [[[? ?] ?] ?]. destruct IH. split; [done|lia].
Qed.

(** The number of blocks of one turn: up to the carry. *)
Lemma turn_blocks c n blocks ctr32 :
  is_u32 c -> 0 < n <= 2 ^ 28 -> (if u32 (c + u32 n) <? n then (n - u32 (c + u32 n), 0) else (n, u32 (c + u32 n))) = (blocks, ctr32) ->
  0 < blocks <= n /\ c + blocks <= 2 ^ 32 /\ ctr32 = u32 (c + blocks).
Proof.
  unfold is_u, wrapU. intros Hc Hn. rewrite (Z.mod_small n) by lia.
  destruct (Z.ltb_spec ((c + n) mod 2 ^ 32) n) as [H|H]; intros [= <- <-].
  - assert ((c + n) mod 2 ^ 32 = c + n - 2 ^ 32) as -> by zlia.
    split; [lia|]. split; [lia|]. replace (c + (n - (c + n - 2 ^ 32))) with (2 ^ 32) by lia. done.
  - split; [lia|]. split; [|done]. zlia.
Qed.

Lemma ctr32_blocks_spec fuel s n inp :
  (length inp < fuel)%nat -> (4 < size_t)%nat \/ Z.of_nat (length inp) < 2 ^ 32 -> counter (ivec s) -> (inp = [] \/ n = 0%nat) ->
  ctr_same (ctr32_blocks size_t func fuel s (ctr32_of (ivec s)) n inp) (strict s n inp).
Proof.
  revert s n inp. induction fuel as [|fuel IH]; intros s n inp Hf Hz Hc Hn; [lia|]. cbn [ctr32_blocks].
  destruct (ctr32_of_value (ivec s) Hc) as [_ Hu].
  destruct (Nat.leb_spec 16 (length inp)) as [Hl|Hl].
  - destruct Hn as [->| ->]; [simpl in Hl; lia|].
    change (Z.shiftl 1 28) with (2 ^ 28).
    set (most := if (4 <? size_t)%nat && (Z.of_nat (length inp / 16) >? 2 ^ 28) then 2 ^ 28 else Z.of_nat (length inp / 16)).
    assert (Hmost : 0 < most <= 2 ^ 28 /\ most <= Z.of_nat (length inp / 16)).
    { unfold most. rewrite Z.gtb_ltb. destruct (Nat.ltb_spec 4 size_t), (Z.ltb_spec (2 ^ 28) (Z.of_nat (length inp / 16))); simpl; lia. }
    clearbody most. destruct (if _ <? _ then _ else _) as [blocks ctr32] eqn:Et.
    apply turn_blocks in Et as (Hb & Hle & ->); [|done|lia]. set (k := Z.to_nat blocks). assert (Hk : Z.of_nat k = blocks) by lia.
    rewrite <- Hk in Hle |- *. rewrite put_ctr32_iter by (done || lia).
    assert (Ht : length (take (16 * k) inp) = (16 * k)%nat) by (rewrite length_take; lia).
    rewrite func_run by done.
    destruct (strict_run k s (take (16 * k) inp) Hc Ht) as [ec E].
    assert (Es : strict s 0 inp = let '(oa, s1, m) := strict s 0 (take (16 * k) inp) in
      let '(ob, s2, j) := strict s1 m (drop (16 * k) inp) in (oa ++ ob, s2, j)) by (by rewrite <- stream_bytes_app, take_drop).
    rewrite E in Es. rewrite Es.
    specialize (IH (mkCtr (Nat.iter k ctr128_inc (ivec s)) (ecount_buf s)) 0%nat (drop (16 * k) inp)).
    assert (Hnext : u32 (ctr32_of (ivec s) + Z.of_nat k) = ctr32_of (Nat.iter k ctr128_inc (ivec s))).
    { destruct (Z.eq_dec (ctr32_of (ivec s) + Z.of_nat k) (2 ^ 32)) as [Eq|Ne].
      - by rewrite ctr32_of_iter_zero, Eq.
      - rewrite ctr32_of_iter by (done || lia). unfold is_u in Hu. unfold wrapU. apply Z.mod_small. lia. }
    rewrite Hnext. cbn [ivec] in IH.
    assert (G : ctr_same (ctr32_blocks size_t func fuel (mkCtr (Nat.iter k ctr128_inc (ivec s)) (ecount_buf s))
      (ctr32_of (Nat.iter k ctr128_inc (ivec s))) 0 (drop (16 * k) inp)) (strict (mkCtr (Nat.iter k ctr128_inc (ivec s)) (ecount_buf s)) 0 (drop (16 * k) inp))).
    { apply IH; [rewrite length_drop; lia|rewrite length_drop; lia|by apply ctr128_iter|by right]. }
    assert (Ignore : forall iv e1 e2 l, ctr_same (strict (mkCtr iv e1) 0 l) (strict (mkCtr iv e2) 0 l)).
    { intros iv e1 e2 [|x l]; [done|]. simpl. destruct (strict _ _ l) as [[? ?] ?]. by repeat split. }
    specialize (Ignore (Nat.iter k ctr128_inc (ivec s)) (ecount_buf s) ec (drop (16 * k) inp)).
    destruct (ctr32_blocks _ _ _ _ _ _ _) as [[o1 s1] m1]. destruct (strict (mkCtr _ (ecount_buf s)) _ _) as [[o2 s2] m2].
    destruct (strict (mkCtr _ ec) _ _) as [[o3 s3] m3]. simpl in *. destruct G as (-> & G2 & -> & G4), Ignore as (-> & I2 & -> & I4).
    split; [done|]. split; [congruence|]. split; [done|]. intros Hm. rewrite G4, I4; done.
  - destruct (Nat.ltb_spec 0 (length inp)) as [H0|H0].
    + destruct Hn as [->| ->]; [simpl in *; lia|]. rewrite <- (stream_tail_refill (ctr_refill cipher) ctr_byte (ctr_words size_t)) by lia.
      change 1 with (Z.of_nat 1) at 1. unfold is_u in Hu. rewrite put_ctr32_iter by (done || lia). simpl Nat.iter.
      rewrite func_run by (done || lia). cbn [seq fmap list_fmap mjoin list_join Nat.iter nat_rect].
      assert (Ec : xor_list (take 16 (drop (16 * 0) (replicate 16 0))) (cipher (ivec s)) ++ [] = cipher (ivec s)).
      { rewrite app_nil_r. change (take 16 (drop (16 * 0) (replicate 16 0))) with (replicate 16 0).
        by apply xor_zeros, cipher_length, Hc. }
      rewrite Ec. unfold ctr_refill. destruct (stream_tail _ _ _ _) as [[? ?] ?]. by repeat split.
    + destruct inp; [|simpl in *; lia]. done.
Qed.

(** The variant with a 32-bit counter gives the output, the counter and
    the position of plain counter mode, for every input and also when the 32
    bits overflow in the middle of it, given a bulk function with the
    documented behaviour. *)
Lemma ctr32_is_ctr128 s num inp :
  ctr_good s -> Forall is_byte (ivec s) -> (num < 16)%nat ->
  (4 < size_t)%nat \/ Z.of_nat (length inp) < 2 ^ 32 ->
  ctr_same (CRYPTO_ctr128_encrypt_ctr32 size_t func s num inp) (ctr128_strict cipher s num inp).
Proof.
  intros [Hs _] Hb Hn Hz. unfold CRYPTO_ctr128_encrypt_ctr32, ctr128_strict. rewrite stream_strict_bytes by done.
  pose proof (stream_head_bytes (ctr_refill cipher) ctr_byte (ctr_words size_t) s num inp Hn) as H.
  pose proof (head_frame s num inp) as Hfr.
  destruct (stream_head ctr_byte s num inp) as [[[out rest] s1] m]. destruct H as (Hm & Hr & ->), Hfr as [-> Hlen].
  pose proof (ctr32_blocks_spec (S (length rest)) s m rest ltac:(lia) ltac:(lia) (conj Hs Hb) Hr) as G.
  destruct (ctr32_blocks _ _ _ _ _ _ _) as [[o1 s1] m1]. destruct (strict s m rest) as [[o2 s2] m2].
  destruct G as (-> & G). by split.
Qed.
End Ctr32.

(** AES under a fixed key, total by returning the block on a fault. *)
Definition aes_block (ek : AES_KEY) (x : list Z) : list Z :=
  match AES_encrypt x ek with Ok y => y | Fault _ => x end.

Definition demo_ek : AES_KEY :=
  match AES_set_encrypt_key (demo_key 16) 128 blank_key with Ok (_, ek) => ek | Fault _ => blank_key end.

Lemma length_store_state s : length (store_state s) = 16%nat.
Proof. by destruct s as [[[? ?] ?] ?]. Qed.

Lemma length_aes_block ek x : length x = 16%nat -> length (aes_block ek x) = 16%nat.
Proof.
  intros Hx. unfold aes_block. destruct (AES_encrypt x ek) as [y|] eqn:E; [|done]. unfold AES_encrypt, mbind, res_bind in E.
  destruct (load_state _ _); [|done]. destruct (rolled _ _ _ _ _ _) as [[t rk]|]; [|done]. destruct (Te_last _ _ _); [|done].
  injection E as <-. apply length_store_state.
Qed.

(** A bulk function over [aes_block]. *)
Definition aes_ctr32_blocks (ek : AES_KEY) (inp : list Z) (k : nat) (iv : list Z) : list Z :=
  mjoin ((fun i => xor_list (take 16 (drop (16 * i) inp)) (aes_block ek (add32 iv i))) <$> seq 0 k).

(** A counter two blocks before the overflow of its last 32 bits. *)
Definition near_overflow : ctr_state := mkCtr (replicate 12 7 ++ [255; 255; 255; 254]) (replicate 16 0).

Lemma stream_modes_roundtrip_witness :
  (let '(out, s', m) := calls (CRYPTO_ctr128_encrypt (aes_block demo_ek) 8) near_overflow 3 [demo_key 5; demo_key 40] in
   calls (CRYPTO_ctr128_encrypt (aes_block demo_ek) 8) near_overflow 3 [take 1 out; drop 1 out] = (demo_key 5 ++ demo_key 40, s', m)).
Proof.
  pose proof (stream_modes_roundtrip (aes_block demo_ek) 8 (length_aes_block demo_ek) (or_intror eq_refl) near_overflow
    demo_block 3 [demo_key 5; demo_key 40]) as H.
  destruct (calls (CRYPTO_ctr128_encrypt (aes_block demo_ek) 8) near_overflow 3 [demo_key 5; demo_key 40]) as [[out s'] m] eqn:E.
  destruct (H [take 1 out; drop 1 out]) as (H1 & _ & _); [by split|done|lia|]. apply H1. simpl. by rewrite app_nil_r, take_drop.
Defined.
