(* ===== verification/ChaCha.v ===== *)
(** * ChaCha: the stream cipher of BoringSSL's random generator

    Models the portable C code of
    [src/fastsocks/cpp/boringssl/crypto/chacha/chacha_generic.c].  The state
    is an array of sixteen 32-bit words, a list here; the output may be the
    input (each byte is read before it is written, blocks go forward), so
    the function from the input to the output says all of it.  The branch
    that calls NEON assembler is left out. *)

From S2P Require Import Prelude.
From Stdlib Require Import ZifyNat.

Definition sigma : list Z := [101; 120; 112; 97; 110; 100; 32; 51; 50; 45; 98; 121; 116; 101; 32; 107].

Definition ROTATE (v n : Z) : Z := Z.lor (u32 (Z.shiftl v n)) (Z.shiftr v (32 - n)).
Definition XOR (v w : Z) : Z := Z.lxor v w.
Definition PLUS (x y : Z) : Z := u32 (x + y).

Definition U32TO8_LITTLE (v : Z) : list Z :=
  [Z.land (Z.shiftr v 0) 255; Z.land (Z.shiftr v 8) 255; Z.land (Z.shiftr v 16) 255; Z.land (Z.shiftr v 24) 255].

(** The word at offset [off]. *)
Definition U8TO32_LITTLE (p : list Z) (off : nat) : Z :=
  Z.lor (Z.lor (Z.lor (p !!! off) (Z.shiftl (p !!! (off + 1)%nat) 8)) (Z.shiftl (p !!! (off + 2)%nat) 16))
    (Z.shiftl (p !!! (off + 3)%nat) 24).

(** [x[i] = v] *)
Definition put (i : nat) (v : Z) (x : list Z) : list Z := <[i := v]> x.

Definition QUARTERROUND (a b c d : nat) (x : list Z) : list Z :=
  let x := put a (PLUS (x !!! a) (x !!! b)) x in
  let x := put d (ROTATE (XOR (x !!! d) (x !!! a)) 16) x in
  let x := put c (PLUS (x !!! c) (x !!! d)) x in
  let x := put b (ROTATE (XOR (x !!! b) (x !!! c)) 12) x in
  let x := put a (PLUS (x !!! a) (x !!! b)) x in
  let x := put d (ROTATE (XOR (x !!! d) (x !!! a)) 8) x in
  let x := put c (PLUS (x !!! c) (x !!! d)) x in
  put b (ROTATE (XOR (x !!! b) (x !!! c)) 7) x.

(** One turn of the loop of [chacha_core]. *)
Definition double_round (x : list Z) : list Z :=
  let x := QUARTERROUND 0 4 8 12 x in
  let x := QUARTERROUND 1 5 9 13 x in
  let x := QUARTERROUND 2 6 10 14 x in
  let x := QUARTERROUND 3 7 11 15 x in
  let x := QUARTERROUND 0 5 10 15 x in
  let x := QUARTERROUND 1 6 11 12 x in
  let x := QUARTERROUND 2 7 8 13 x in
  QUARTERROUND 3 4 9 14 x.

Definition chacha_core (input : list Z) : list Z :=
  mjoin (U32TO8_LITTLE <$> zip_with PLUS (Nat.iter 10 double_round input) input).

(** The words before the loop; [counter] is a [size_t]. *)
Definition chacha_input (key nonce : list Z) (counter : Z) : list Z :=
  [U8TO32_LITTLE sigma 0; U8TO32_LITTLE sigma 4; U8TO32_LITTLE sigma 8; U8TO32_LITTLE sigma 12;
   U8TO32_LITTLE key 0; U8TO32_LITTLE key 4; U8TO32_LITTLE key 8; U8TO32_LITTLE key 12;
   U8TO32_LITTLE key 16; U8TO32_LITTLE key 20; U8TO32_LITTLE key 24; U8TO32_LITTLE key 28;
   u32 counter; u32 (Z.shiftr (u64 counter) 32); U8TO32_LITTLE nonce 0; U8TO32_LITTLE nonce 4].

(** [input[12]++; if (input[12] == 0) input[13]++;] *)
Definition next_input (input : list Z) : list Z :=
  let input := put 12 (PLUS (input !!! 12%nat) 1) input in
  if input !!! 12%nat =? 0 then put 13 (PLUS (input !!! 13%nat) 1) input else input.

Fixpoint chacha_loop (fuel : nat) (input inp : list Z) : res (list Z) :=
  match fuel with
  | O => Fault OutOfFuel
  | S fuel' =>
      if zlen inp >? 0 then
        let todo := if (length inp <? 64)%nat then length inp else 64%nat in
        let buf := chacha_core input in
        rest ← chacha_loop fuel' (next_input input) (drop todo inp);
        Ok (zip_with XOR (take todo inp) (take todo buf) ++ rest)
      else Ok []
  end.

(** A turn takes at least one byte. *)
Definition CRYPTO_chacha_20 (inp key nonce : list Z) (counter : Z) : res (list Z) :=
  chacha_loop (S (length inp)) (chacha_input key nonce counter) inp.

(** RFC 7539, section 2.4.2, with its 32-bit counter and 96-bit nonce as the
    64-bit ones of this code. *)
Definition rfc_key : list Z := Z.of_nat <$> seq 0 32.

Example chacha_rfc :
  take 16 <$> CRYPTO_chacha_20 (replicate 16 0) rfc_key [0; 0; 0; 74; 0; 0; 0; 0] 1 =
  Ok [34; 79; 81; 243; 64; 27; 217; 225; 47; 222; 39; 111; 184; 99; 29; 237].
Proof. vm_compute. reflexivity. Qed.

(** ** The key stream *)

(** Byte [i] of the stream that starts at block [counter]. *)
Definition keystream (key nonce : list Z) (counter : Z) (i : nat) : Z :=
  chacha_core (chacha_input key nonce (u64 (counter + Z.of_nat (i / 64)))) !!! (i mod 64)%nat.

(** The carry makes the two words a 64-bit counter. *)
Lemma counter_words c :
  u32 (u64 (c + 1)) = PLUS (u32 (u64 c)) 1 /\
  u32 (Z.shiftr (u64 (u64 (c + 1))) 32) =
    (if PLUS (u32 (u64 c)) 1 =? 0 then PLUS (u32 (Z.shiftr (u64 (u64 c)) 32)) 1 else u32 (Z.shiftr (u64 (u64 c)) 32)).
Proof.
  unfold PLUS, wrapU. rewrite !Z.mod_mod, !Z.shiftr_div_pow2, <- (Zplus_mod_idemp_l c) by lia.
  assert (Hd : 0 <= c mod 2 ^ 64 < 2 ^ 64) by (apply Z.mod_pos_bound; lia).
  generalize dependent (c mod 2 ^ 64). intros d Hd.
  pose proof (Z.div_mod d (2 ^ 32) ltac:(lia)) as E. pose proof (Z.mod_pos_bound d (2 ^ 32) ltac:(lia)).
  assert (0 <= d / 2 ^ 32 < 2 ^ 32) by (split; [apply Z.div_pos; lia|apply Z.div_lt_upper_bound; lia]).
  generalize dependent (d / 2 ^ 32). generalize dependent (d mod 2 ^ 32). intros lo Hlo hi -> Hhi.
  rewrite (Z.mod_small hi) by lia.
  destruct (Z.eqb_spec ((lo + 1) mod 2 ^ 32) 0); zlia.
Qed.

Lemma next_input_counter key nonce c :
  next_input (chacha_input key nonce (u64 c)) = chacha_input key nonce (u64 (c + 1)).
Proof.
  destruct (counter_words c) as [E1 E2]. unfold chacha_input. rewrite E1, E2.
  generalize (u32 (u64 c)), (u32 (Z.shiftr (u64 (u64 c)) 32)). intros lo hi.
  unfold next_input, put. cbn -[U8TO32_LITTLE PLUS Z.eqb]. by destruct (PLUS lo 1 =? 0).
Qed.

Lemma length_double_round x : length (double_round x) = length x.
Proof.
  assert (Q : forall a b c d y, length (QUARTERROUND a b c d y) = length y).
  { intros. unfold QUARTERROUND, put. by rewrite !length_insert. }
  unfold double_round. by rewrite !Q.
Qed.

#[local] Opaque double_round U32TO8_LITTLE U8TO32_LITTLE.

Lemma length_iter_round n x : length (Nat.iter n double_round x) = length x.
Proof. induction n as [|n IH]; [done|]. simpl. by rewrite length_double_round. Qed.

Lemma length_core input : length (chacha_core input) = (4 * length input)%nat.
Proof.
  unfold chacha_core. set (l := zip_with _ _ _).
  assert (Hl : length l = length input) by (unfold l; rewrite length_zip_with, length_iter_round; lia).
  rewrite <- Hl. clearbody l. clear Hl. induction l as [|v l IH]; [done|].
  change (length (U32TO8_LITTLE v ++ mjoin (U32TO8_LITTLE <$> l)) = (4 * length (v :: l))%nat).
  rewrite length_app, IH. change (length (U32TO8_LITTLE v)) with 4%nat. simpl. lia.
Qed.
#[local] Opaque chacha_core.

(** The stream from the next block on is the rest of the stream. *)
Lemma keystream_next key nonce c i :
  keystream key nonce (c + 1) i = keystream key nonce c (i + 64).
Proof.
  unfold keystream.
  assert (((i + 64) mod 64 = i mod 64) /\ ((i + 64) / 64 = i / 64 + 1))%nat as [-> ->] by lia.
  by assert (c + 1 + Z.of_nat (i / 64) = c + Z.of_nat (i / 64 + 1)) as -> by lia.
Qed.

Lemma keystream_first key nonce c i :
  (i < 64)%nat -> keystream key nonce c i = chacha_core (chacha_input key nonce (u64 c)) !!! i.
Proof.
  intros H. unfold keystream. rewrite Nat.div_small, Nat.mod_small by done. by rewrite Z.add_0_r.
Qed.

#[local] Opaque keystream chacha_input next_input.

(** What a call puts out: the input under the stream. *)
Definition masked (key nonce : list Z) (counter : Z) (inp : list Z) : list Z :=
  imap (fun i x => XOR x (keystream key nonce counter i)) inp.

Lemma masked_block key nonce c bs :
  (length bs <= 64)%nat ->
  zip_with XOR bs (take (length bs) (chacha_core (chacha_input key nonce (u64 c)))) = masked key nonce c bs.
Proof.
  intros H. apply list_eq. intros i. unfold masked. rewrite list_lookup_imap, lookup_zip_with.
  destruct (bs !! i) as [x|] eqn:Ex; [|done]. simpl.
  assert (Hi : (i < length bs)%nat) by (by eapply lookup_lt_Some).
  rewrite lookup_take_lt by done. rewrite keystream_first by lia.
  destruct (chacha_core (chacha_input key nonce (u64 c)) !! i) as [y|] eqn:Ey.
  - simpl. by rewrite (list_lookup_total_correct _ _ _ Ey).
  - apply lookup_ge_None in Ey. rewrite length_core in Ey. change (length (chacha_input key nonce (u64 c))) with 16%nat in Ey. lia.
Qed.

Lemma masked_masked key nonce c bs : masked key nonce c (masked key nonce c bs) = bs.
Proof.
  apply list_eq. intros i. unfold masked. rewrite !list_lookup_imap. destruct (bs !! i) as [x|]; [|done]. cbn [fmap option_fmap option_map].
  unfold XOR. by rewrite Z.lxor_assoc, Z.lxor_nilpotent, Z.lxor_0_r.
Qed.

Lemma keystream_skip key nonce c n i :
  keystream key nonce (c + Z.of_nat n) i = keystream key nonce c (64 * n + i).
Proof.
  induction n as [|n IH] in c |- *; [by rewrite Z.add_0_r|].
  replace (c + Z.of_nat (S n)) with (c + 1 + Z.of_nat n) by lia. rewrite IH, keystream_next.
  by replace (64 * n + i + 64)%nat with (64 * S n + i)%nat by lia.
Qed.

Lemma masked_app_n key nonce c n b rest :
  length b = (64 * n)%nat ->
  masked key nonce c (b ++ rest) = masked key nonce c b ++ masked key nonce (c + Z.of_nat n) rest.
Proof.
  intros H. unfold masked. rewrite imap_app, H. apply (f_equal (app _)), imap_ext. intros i x _.
  unfold compose. by rewrite keystream_skip.
Qed.

Lemma masked_app key nonce c b rest :
  length b = 64%nat -> masked key nonce c (b ++ rest) = masked key nonce c b ++ masked key nonce (c + 1) rest.
Proof. intros H. by apply (masked_app_n key nonce c 1). Qed.

Lemma chacha_loop_masked fuel key nonce c inp :
  (length inp < fuel)%nat -> chacha_loop fuel (chacha_input key nonce (u64 c)) inp = Ok (masked key nonce c inp).
Proof.
  revert c inp. induction fuel as [|fuel IH]; intros c inp Hf; [lia|]. cbn [chacha_loop].
  destruct inp as [|x inp']; [done|]. set (inp := x :: inp') in *. assert (Hn : length inp = S (length inp')) by done.
  clearbody inp. assert ((zlen inp >? 0) = true) as -> by (apply Z.gtb_lt; unfold zlen; lia).
  rewrite next_input_counter. destruct (Nat.ltb_spec (length inp) 64).
  - rewrite drop_ge, IH by (simpl; lia). rewrite take_ge by lia. cbn [mbind res_bind]. rewrite masked_block by lia. cbn [masked imap]. by rewrite app_nil_r.
  - rewrite IH by (rewrite length_drop; lia). cbn [mbind res_bind].
    assert (Hs : masked key nonce c inp = masked key nonce c (take 64 inp) ++ masked key nonce (c + 1) (drop 64 inp)).
    { rewrite <- masked_app by (rewrite length_take; lia). by rewrite take_drop. }
    rewrite Hs, <- (masked_block key nonce c (take 64 inp)) by (rewrite length_take; lia).
    assert (Ht : length (take 64 inp) = 64%nat) by (rewrite length_take; lia). by rewrite Ht.
Qed.

#[local] Transparent chacha_input.
Lemma chacha_input_u64 key nonce c : chacha_input key nonce (u64 c) = chacha_input key nonce c.
Proof.
  unfold chacha_input. rewrite (wrapU_id 64 (u64 c)) by (by apply wrapU_range).
  assert (u32 (u64 c) = u32 c) as ->; [|done].
  unfold wrapU. change (2 ^ 64) with (2 ^ 32 * 2 ^ 32). rewrite Z.rem_mul_r by lia. zlia.
Qed.

Lemma chacha_masked key nonce c bs : CRYPTO_chacha_20 bs key nonce c = Ok (masked key nonce c bs).
Proof. unfold CRYPTO_chacha_20. rewrite <- chacha_input_u64. apply chacha_loop_masked. lia. Qed.

Lemma length_masked key nonce c bs : length (masked key nonce c bs) = length bs.
Proof. apply length_imap. Qed.

(** C22: [CRYPTO_chacha_20] is a stream cipher in counter mode: it returns
    for every input, byte [i] of the output is byte [i] of the input under
    byte [i mod 64] of the block with the 64-bit number [counter + i / 64]
    (the carry between the two counter words is right, also past [2^32]
    blocks), so that a second call undoes the first, and a message may be
    cut at a block boundary and its parts handled by separate calls. *)
Theorem chacha_is_counter_stream key nonce counter inp :
  CRYPTO_chacha_20 inp key nonce counter = Ok (masked key nonce counter inp) /\
  CRYPTO_chacha_20 (masked key nonce counter inp) key nonce counter = Ok inp /\
  (forall n, (64 * n <= length inp)%nat -> exists a b,
     CRYPTO_chacha_20 (take (64 * n) inp) key nonce counter = Ok a /\
     CRYPTO_chacha_20 (drop (64 * n) inp) key nonce (counter + Z.of_nat n) = Ok b /\
     CRYPTO_chacha_20 inp key nonce counter = Ok (a ++ b)).
Proof.
  split; [apply chacha_masked|]. split.
  - rewrite chacha_masked, masked_masked. done.
  - intros n Hn. eexists _, _. split; [apply chacha_masked|]. split; [apply chacha_masked|]. rewrite chacha_masked. f_equal.
    rewrite <- (take_drop (64 * n) inp) at 1. apply masked_app_n. by rewrite length_take, Nat.min_l.
Qed.
