(* ===== verification/Rand.v ===== *)
(** * Rand: the random generator of BoringSSL

    Models [src/fastsocks/cpp/boringssl/crypto/rand/rand.c], the library
    behind the [openssl/rand.h] that [ConnectionsManager.cpp] includes, over
    the cipher of [ChaCha.v].  The operating system's and the hardware's
    random numbers and [malloc] are the class [Entropy]; [size_t] has the 32
    bits of the targets.

    [epoch] and [spent] are not in the code: [epoch] counts the keys that
    were read, and [spent] lists the nonces that were used, with the key they
    were used under. *)

From S2P Require Import Prelude.
From S2P Require Import ChaCha.

Record rand_thread_state : Type := mkRandState {
  key : list Z;
  calls_used : Z;               (* uint64_t *)
  bytes_used : Z;               (* size_t *)
  partial_block : list Z;
  partial_block_used : Z        (* unsigned *)
}.

Definition kMaxCallsPerRefresh : Z := 1024.
Definition kMaxBytesPerRefresh : Z := 1024 * 1024.
Definition kMaxBytesPerCall : Z := 2147483648.

(** What the outside answers to its [n]-th question. *)
Class Entropy := {
  CRYPTO_sysrand : nat -> Z -> list Z;
  CRYPTO_hwrand : nat -> Z -> option (list Z);     (* None: no hardware generator *)
  has_memory : nat -> bool;                        (* malloc and set_thread_local *)
  garbage : Z                                      (* what malloc leaves in a field *)
}.

Class EntropyLaws (R : Entropy) := {
  sysrand_length : forall t n, 0 <= n -> zlen (CRYPTO_sysrand t n) = n;
  hwrand_length : forall t n bs, 0 <= n -> CRYPTO_hwrand t n = Some bs -> zlen bs = n
}.

Record RandWorld : Type := mkRandWorld {
  thread : option rand_thread_state;
  rand_tick : nat;
  epoch : nat;
  spent : list (nat * Z)
}.

Definition next_question : SR RandWorld nat := fun w =>
  Ok (rand_tick w, mkRandWorld (thread w) (S (rand_tick w)) (epoch w) (spent w)).
Definition put_thread (s : rand_thread_state) : SR RandWorld unit :=
  modify (fun w => mkRandWorld (Some s) (rand_tick w) (epoch w) (spent w)).

(** The eight bytes of [calls_used] in memory. *)
Definition nonce_bytes (n : Z) : list Z := rev (be_bytes 8 n).

Section Rand.
Context {R : Entropy}.

(** [CRYPTO_chacha_20(buf, buf, len, state->key, &state->calls_used, 0)] *)
Definition mask (s : rand_thread_state) (buf : list Z) : SR RandWorld (list Z) :=
  modify (fun w => mkRandWorld (thread w) (rand_tick w) (epoch w) (spent w ++ [(epoch w, calls_used s)]));;
  lift_res (CRYPTO_chacha_20 buf (key s) (nonce_bytes (calls_used s)) 0).

Definition count_call (s : rand_thread_state) : rand_thread_state :=
  mkRandState (key s) (u64 (calls_used s + 1)) (bytes_used s) (partial_block s) (partial_block_used s).

(** A new key from the operating system. *)
Definition refresh (s : rand_thread_state) : SR RandWorld rand_thread_state :=
  if (kMaxCallsPerRefresh <=? calls_used s) || (kMaxBytesPerRefresh <=? bytes_used s) then
    t ← next_question;
    modify (fun w => mkRandWorld (thread w) (rand_tick w) (S (epoch w)) (spent w));;
    mret (mkRandState (CRYPTO_sysrand t 32) 0 0 (partial_block s) 64)
  else mret s.

(** [while (remaining > 0)] *)
Fixpoint mask_long (fuel : nat) (s : rand_thread_state) (buf : list Z) : SR RandWorld (rand_thread_state * list Z) :=
  match fuel with
  | O => fault_with OutOfFuel
  | S fuel' =>
      if zlen buf >? 0 then
        let todo := if zlen buf >? kMaxBytesPerCall then kMaxBytesPerCall else zlen buf in
        out ← mask s (take (Z.to_nat todo) buf);
        r ← mask_long fuel' (count_call s) (drop (Z.to_nat todo) buf);
        mret (r.1, out ++ r.2)
      else mret (s, [])
  end.

(** [for (i = 0; i < len; i++) buf[i] ^= partial_block[partial_block_used++];] *)
Fixpoint mask_short (block : list Z) (used : Z) (buf : list Z) : SR RandWorld (Z * list Z) :=
  match buf with
  | [] => mret (used, [])
  | x :: buf' =>
      y ← lift_res (read_one block used);
      r ← mask_short block (u32 (used + 1)) buf';
      mret (r.1, Z.lxor x y :: r.2)
  end.

Definition small_request (s : rand_thread_state) (buf : list Z) : SR RandWorld (rand_thread_state * list Z) :=
  s ← (if u32 (64 - partial_block_used s) <? zlen buf then
         block ← mask s (partial_block s);
         mret (mkRandState (key s) (calls_used s) (bytes_used s) block 0)
       else mret s);
  r ← mask_short (partial_block s) (partial_block_used s) buf;
  mret (count_call (mkRandState (key s) (calls_used s) (bytes_used s) (partial_block s) r.1), r.2).

(** The state of the thread, made at the first call. *)
Definition thread_state : SR RandWorld (option rand_thread_state) :=
  st ← gets thread;
  match st with
  | Some s => mret (Some s)
  | None =>
      t ← next_question;
      mret (if has_memory t then Some (mkRandState [] kMaxCallsPerRefresh garbage (replicate 64 0) garbage) else None)
  end.

Definition RAND_bytes (len : Z) : SR RandWorld (list Z) :=
  if len =? 0 then mret []
  else
    t ← next_question;
    match CRYPTO_hwrand t len with
    | None => t ← next_question; mret (CRYPTO_sysrand t len)
    | Some buf =>
        st ← thread_state;
        match st with
        | None => t ← next_question; mret (CRYPTO_sysrand t len)
        | Some s =>
            s ← refresh s;
            r ← (if 64 <=? len then mask_long (S (length buf)) s buf else small_request s buf);
            let s := r.1 in
            put_thread (mkRandState (key s) (calls_used s) (u32 (bytes_used s + len)) (partial_block s) (partial_block_used s));;
            mret r.2
        end
    end.

Definition RAND_pseudo_bytes (len : Z) : SR RandWorld (list Z) := RAND_bytes len.

(** The answer to a request to load a file: nothing is read. *)
Definition RAND_load_file (num : Z) : Z :=
  if num <? 0 then 1 else if num <=? 2 ^ 31 - 1 then num else 2 ^ 31 - 1.

Definition rand_start : RandWorld := mkRandWorld None 0 0 [].

Fixpoint exec_rand (lens : list Z) : SR RandWorld (list (list Z)) :=
  match lens with
  | [] => mret []
  | n :: lens' => out ← RAND_bytes n; outs ← exec_rand lens'; mret (out :: outs)
  end.
End Rand.

(** ** Nonces are used once *)

Record nonces_ok (w : RandWorld) (s : rand_thread_state) : Prop := {
  no_nodup : NoDup (spent w);
  no_fresh : forall e n, (e, n) ∈ spent w -> (e < epoch w)%nat \/ (e = epoch w /\ n < calls_used s)
}.

(** The state between two calls; a state that was just made has no position
    in its block yet, but asks for a key. *)
Record thread_ok (s : rand_thread_state) : Prop := {
  to_calls : 0 <= calls_used s <= kMaxCallsPerRefresh + 2;
  to_block : zlen (partial_block s) = 64;
  to_used : calls_used s < kMaxCallsPerRefresh -> 0 <= partial_block_used s <= 64
}.

Definition rand_inv (w : RandWorld) : Prop :=
  match thread w with
  | None => spent w = []
  | Some s => thread_ok s /\ nonces_ok w s
  end.

Lemma nonces_ok_calls w s s' : calls_used s = calls_used s' -> nonces_ok w s -> nonces_ok w s'.
Proof. intros E [N F]. constructor; [done|]. intros e n. rewrite <- E. apply F. Qed.

Section RandLemmas.
Context {R : Entropy} {L : EntropyLaws R}.

Lemma wp_question Q w :
  (forall t, Q t (mkRandWorld (thread w) (S t) (epoch w) (spent w))) -> wp next_question Q w.
Proof. intros H. apply H. Qed.

Lemma mask_ok s buf Q w :
  nonces_ok w s -> 0 <= calls_used s < 2 ^ 32 ->
  (forall out w', zlen out = zlen buf -> thread w' = thread w -> nonces_ok w' (count_call s) -> Q out w') ->
  wp (mask s buf) Q w.
Proof.
  intros [N F] Hc HQ. unfold mask. rewrite wp_bind, wp_modify, chacha_masked, wp_lift. apply HQ.
  - unfold zlen. by rewrite length_masked.
  - done.
  - constructor; simpl.
    + apply NoDup_app. split; [done|]. split; [|apply NoDup_singleton].
      intros [e n] Hin Heq. apply list_elem_of_singleton in Heq. injection Heq as -> ->. apply F in Hin. lia.
    + intros e n. rewrite elem_of_app, list_elem_of_singleton. unfold count_call. simpl.
      rewrite wrapU_id by (split; lia). intros [Hin|[= -> ->]]; [|lia]. apply F in Hin. lia.
Qed.

Lemma count_call_calls s : 0 <= calls_used s < 2 ^ 32 -> calls_used (count_call s) = calls_used s + 1.
Proof. intros H. simpl. apply wrapU_id. split; lia. Qed.

(** The number of calls of the cipher for [n] bytes. *)
Definition cipher_calls (n : Z) : Z := (n + (kMaxBytesPerCall - 1)) / kMaxBytesPerCall.

Lemma cipher_calls_step n : 0 < n ->
  0 <= cipher_calls (n - Z.min n kMaxBytesPerCall) /\ cipher_calls (n - Z.min n kMaxBytesPerCall) + 1 <= cipher_calls n.
Proof. unfold cipher_calls, kMaxBytesPerCall. intros H. zlia. Qed.

Lemma mask_long_ok fuel s buf w :
  (length buf < fuel)%nat -> nonces_ok w s -> 0 <= calls_used s -> calls_used s + cipher_calls (zlen buf) < 2 ^ 32 ->
  wp (mask_long fuel s buf) (fun r w' =>
    zlen r.2 = zlen buf /\ nonces_ok w' r.1 /\ partial_block r.1 = partial_block s /\
    partial_block_used r.1 = partial_block_used s /\
    calls_used s <= calls_used r.1 <= calls_used s + cipher_calls (zlen buf)) w.
Proof.
  revert s buf w. induction fuel as [|fuel IH]; intros s buf w Hf Hn Hc Hb; [lia|]. cbn [mask_long].
  pose proof (zlen_nonneg buf). destruct (Z.gtb_spec (zlen buf) 0).
  2: { rewrite wp_ret. cbn [fst snd]. replace (zlen buf) with 0 by lia. change (cipher_calls 0) with 0.
       split; [done|]. split; [done|]. split; [done|]. split; [done|lia]. }
  destruct (cipher_calls_step (zlen buf)) as [Hs0 Hs1]; [lia|].
  set (todo := if _ >? _ then _ else _). assert (Ht : todo = Z.min (zlen buf) kMaxBytesPerCall).
  { unfold todo. destruct (Z.gtb_spec (zlen buf) kMaxBytesPerCall); lia. }
  rewrite <- Ht in Hs0, Hs1. assert (0 < todo <= zlen buf) by (unfold kMaxBytesPerCall in Ht; lia).
  clearbody todo. clear Ht. rewrite wp_bind. apply mask_ok; [done|lia|]. intros out w' Ho _ Hn'.
  assert (zlen (take (Z.to_nat todo) buf) = todo) as Hz by (unfold zlen in *; rewrite length_take; lia).
  assert (zlen (drop (Z.to_nat todo) buf) = zlen buf - todo) as Hd by (unfold zlen in *; rewrite length_drop; lia).
  rewrite wp_bind. eapply wp_mono.
  { apply (IH (count_call s)); [unfold zlen in *; lia|done| |]; rewrite count_call_calls, ?Hd by lia; lia. }
  intros [s' out'] w2 (Hl & Hn2 & Hp & Hu & Hk). cbn [fst snd] in *. rewrite count_call_calls, Hd in * by lia.
  rewrite wp_ret. cbn [fst snd]. rewrite zlen_app. split; [lia|]. split; [done|]. split; [done|]. split; [done|lia].
Qed.

Lemma mask_short_ok block used buf w :
  0 <= used -> used + zlen buf <= zlen block -> zlen block = 64 ->
  wp (mask_short block used buf) (fun r w' => w' = w /\ zlen r.2 = zlen buf /\ r.1 = used + zlen buf) w.
Proof.
  revert used. induction buf as [|x buf IH]; intros used Hu Hl Hb; cbn [mask_short].
  { rewrite wp_ret. cbn [fst snd]. rewrite zlen_nil. repeat split; lia. }
  rewrite zlen_cons in *. pose proof (zlen_nonneg buf).
  destruct (read_one_Ok block used) as (y & Hy & _); [lia|]. rewrite wp_bind, wp_lift, Hy, wp_bind.
  rewrite wrapU_id by (split; lia). eapply wp_mono; [apply IH; lia|].
  intros [u out] w' (-> & Ho & Hu'). cbn [fst snd] in *. rewrite wp_ret. cbn [fst snd].
  rewrite zlen_cons. repeat split; lia.
Qed.

Lemma small_request_ok s buf w :
  nonces_ok w s -> 0 <= calls_used s < 2 ^ 32 -> zlen (partial_block s) = 64 -> 0 <= partial_block_used s <= 64 ->
  zlen buf < 64 ->
  wp (small_request s buf) (fun r w' =>
    zlen r.2 = zlen buf /\ nonces_ok w' r.1 /\ zlen (partial_block r.1) = 64 /\
    0 <= partial_block_used r.1 <= 64 /\ calls_used r.1 = calls_used s + 1) w.
Proof.
  intros Hn Hc Hb Hu Hl. unfold small_request. pose proof (zlen_nonneg buf). rewrite wrapU_id by (split; lia).
  assert (S : forall s' w', nonces_ok w' (count_call s') -> calls_used s' = calls_used s -> zlen (partial_block s') = 64 ->
     0 <= partial_block_used s' -> partial_block_used s' + zlen buf <= 64 ->
     wp (r ← mask_short (partial_block s') (partial_block_used s') buf;
         mret (count_call (mkRandState (key s') (calls_used s') (bytes_used s') (partial_block s') r.1), r.2))
       (fun r w' => zlen r.2 = zlen buf /\ nonces_ok w' r.1 /\ zlen (partial_block r.1) = 64 /\
          0 <= partial_block_used r.1 <= 64 /\ calls_used r.1 = calls_used s + 1) w').
  { intros s' w' Hn' Hc' Hb' Hu' Hl'. rewrite wp_bind. eapply wp_mono; [apply mask_short_ok; lia|].
    intros [u out] w2 (-> & Ho & Hu2). cbn [fst snd] in *. rewrite wp_ret. cbn [fst snd].
    rewrite count_call_calls by (simpl; lia). split; [done|]. split; [|split; [done|split; simpl; lia]].
    by eapply nonces_ok_calls, Hn'. }
  rewrite wp_bind. destruct (Z.ltb_spec (64 - partial_block_used s) (zlen buf)).
  - rewrite wp_bind. apply mask_ok; [done|lia|]. intros block w' Hz _ Hn'. rewrite wp_ret.
    apply S; simpl; try lia. by eapply nonces_ok_calls, Hn'.
  - rewrite wp_ret. apply S; try lia. destruct Hn as [N F]. constructor; [done|].
    intros e n Hin. rewrite count_call_calls by lia. apply F in Hin. lia.
Qed.

Lemma refresh_ok s Q w :
  thread_ok s -> nonces_ok w s ->
  (forall s' w', thread_ok s' -> calls_used s' < kMaxCallsPerRefresh -> nonces_ok w' s' -> Q s' w') ->
  wp (refresh s) Q w.
Proof.
  intros [Hc Hb Hu] [N F] HQ. unfold refresh. destruct (_ || _) eqn:Er.
  - rewrite wp_bind. apply wp_question. intros t. rewrite wp_bind, wp_modify, wp_ret. apply HQ; [|done|].
    + constructor; simpl; unfold kMaxCallsPerRefresh; try lia.
    + constructor; [done|]. simpl. intros e n Hin. apply F in Hin. lia.
  - apply orb_false_iff in Er as [E1 _]. zify_bools. rewrite wp_ret. apply HQ; [by constructor|lia|by constructor].
Qed.

(** The rest of a call once there is a state. *)
Lemma serve_ok s buf w :
  thread_ok s -> nonces_ok w s -> 0 < zlen buf < 2 ^ 32 ->
  wp (s ← refresh s;
      r ← (if 64 <=? zlen buf then mask_long (S (length buf)) s buf else small_request s buf);
      let s := r.1 in
      put_thread (mkRandState (key s) (calls_used s) (u32 (bytes_used s + zlen buf)) (partial_block s) (partial_block_used s));;
      mret r.2) (fun out w' => zlen out = zlen buf /\ rand_inv w') w.
Proof.
  intros Ht Hn Hl. rewrite wp_bind. apply refresh_ok; [done|done|]. intros s1 w1 [Hc Hb Hu] Hlt Hn1.
  specialize (Hu Hlt). unfold kMaxCallsPerRefresh in *.
  assert (Hcc : 0 <= cipher_calls (zlen buf) <= 2) by (unfold cipher_calls, kMaxBytesPerCall; zlia).
  assert (F : forall (r : rand_thread_state * list Z) w', zlen r.2 = zlen buf -> nonces_ok w' r.1 -> zlen (partial_block r.1) = 64 ->
    0 <= partial_block_used r.1 <= 64 -> calls_used s1 <= calls_used r.1 <= calls_used s1 + 2 ->
    wp (let s := r.1 in put_thread (mkRandState (key s) (calls_used s) (u32 (bytes_used s + zlen buf)) (partial_block s) (partial_block_used s));;
      mret r.2) (fun out w' => zlen out = zlen buf /\ rand_inv w') w').
  { intros [s2 out] w' Hz Hn2 Hb2 Hu2 Hc2. cbn [fst snd] in *. unfold put_thread. rewrite wp_bind, wp_modify, wp_ret.
    split; [done|]. unfold rand_inv. simpl. split.
    - constructor; simpl; unfold kMaxCallsPerRefresh; lia.
    - destruct Hn2. by constructor. }
  rewrite wp_bind. destruct (Z.leb_spec 64 (zlen buf)).
  - eapply wp_mono; [apply mask_long_ok; [lia|done|lia|lia]|].
    intros r w' (Hz & Hn2 & Hp & Hu2 & Hc2). apply F; try done; rewrite ?Hp, ?Hu2; lia.
  - eapply wp_mono; [apply small_request_ok; [done|lia|done|done|lia]|].
    intros r w' (Hz & Hn2 & Hp & Hu2 & Hc2). apply F; try done; lia.
Qed.

Lemma RAND_bytes_ok len w :
  rand_inv w -> 0 <= len < 2 ^ 32 -> wp (RAND_bytes len) (fun out w' => zlen out = len /\ rand_inv w') w.
Proof.
  intros I Hl. unfold RAND_bytes. destruct (Z.eqb_spec len 0) as [->|]; [by rewrite wp_ret|].
  rewrite wp_bind. apply wp_question. intros t.
  assert (I1 : rand_inv (mkRandWorld (thread w) (S t) (epoch w) (spent w))).
  { unfold rand_inv in *. simpl. destruct (thread w); [|done]. destruct I as [? [? ?]]. split; [done|by constructor]. }
  set (w1 := mkRandWorld _ _ _ _) in *. clearbody w1. clear I w.
  assert (Sys : forall w, rand_inv w -> wp (t ← next_question; mret (CRYPTO_sysrand t len))
                (fun out w' => zlen out = len /\ rand_inv w') w).
  { intros w I. rewrite wp_bind. apply wp_question. intros t'. rewrite wp_ret. split; [by apply sysrand_length; lia|].
    unfold rand_inv in *. simpl. destruct (thread w); [|done]. destruct I as [? [? ?]]. split; [done|by constructor]. }
  destruct (CRYPTO_hwrand t len) as [buf|] eqn:Eh; [|by apply Sys].
  apply hwrand_length in Eh as Hb; [|lia]. rewrite wp_bind. unfold thread_state. rewrite wp_bind, wp_gets.
  unfold rand_inv in I1. destruct (thread w1) as [s|] eqn:Et.
  - rewrite wp_ret. rewrite <- Hb. apply serve_ok; [apply I1|apply I1|lia].
  - rewrite wp_bind. apply wp_question. intros t'. rewrite wp_ret. destruct (has_memory t').
    + rewrite <- Hb. apply serve_ok; [|by constructor; simpl; rewrite I1; [constructor|intros ? ? ?%not_elem_of_nil]|lia].
      constructor; simpl; unfold kMaxCallsPerRefresh; try lia. done.
    + apply Sys. unfold rand_inv. simpl. by rewrite Et.
Qed.

Lemma exec_rand_ok lens w :
  rand_inv w -> Forall (fun n => 0 <= n < 2 ^ 32) lens ->
  wp (exec_rand lens) (fun outs w' => zlen <$> outs = lens /\ rand_inv w') w.
Proof.
  intros I H. revert w I. induction H as [|n lens Hn _ IH]; intros w I; cbn [exec_rand]; [by rewrite wp_ret|].
  rewrite wp_bind. eapply wp_mono; [by apply RAND_bytes_ok|]. intros out w1 [Ho I1].
  rewrite wp_bind. eapply wp_mono; [by apply IH|]. intros outs w2 [Hos I2]. rewrite wp_ret.
  split; [|done]. cbn. by rewrite Ho, Hos.
Qed.

(** C23: any sequence of requests is served: every call of [RAND_bytes]
    returns as many bytes as were asked for, never reading outside the
    buffered block, whichever of the generators are there; and no nonce is
    used twice under one key, so the key stream is never repeated. *)
Theorem rand_never_repeats lens :
  Forall (fun n => 0 <= n < 2 ^ 32) lens ->
  exists outs w, exec_rand lens rand_start = Ok (outs, w) /\ zlen <$> outs = lens /\ NoDup (spent w) /\
    (forall s, thread w = Some s -> zlen (partial_block s) = 64 /\ 0 <= calls_used s <= kMaxCallsPerRefresh + 2).
Proof.
  intros H. destruct (proj1 (wp_run _ _ _) (exec_rand_ok lens rand_start ltac:(done) H)) as (outs & w & E & Hl & I).
  exists outs, w. split; [done|]. split; [done|]. unfold rand_inv in I. destruct (thread w) as [s|] eqn:Et.
  - destruct I as [[Hc Hb _] [N _]]. split; [done|]. by intros s' [= <-].
  - rewrite I. split; [constructor|done].
Qed.
End RandLemmas.

(** A machine with all generators, of zeros. *)
#[export] Instance zero_entropy : Entropy := {|
  CRYPTO_sysrand := fun _ n => replicate (Z.to_nat n) 0;
  CRYPTO_hwrand := fun _ n => Some (replicate (Z.to_nat n) 0);
  has_memory := fun _ => true;
  garbage := 99
|}.

#[export] Instance zero_entropy_laws : EntropyLaws zero_entropy.
Proof.
  constructor; intros; simpl in *; simplify_eq/=; unfold zlen; rewrite length_replicate; lia.
Qed.

(** Small requests share a block; the third one starts a new one. *)
Lemma rand_never_repeats_witness :
  exists outs w, exec_rand [20; 30; 40; 200; 0] rand_start = Ok (outs, w) /\ zlen <$> outs = [20; 30; 40; 200; 0] /\
    NoDup (spent w) /\
    (forall s, thread w = Some s -> zlen (partial_block s) = 64 /\ 0 <= calls_used s <= kMaxCallsPerRefresh + 2).
Proof. apply (@rand_never_repeats zero_entropy zero_entropy_laws). repeat constructor; lia. Defined.

Example rand_nonces :
  match exec_rand [20; 30; 40; 200; 0] rand_start with
  | Ok (_, w) => spent w = [(1%nat, 0); (1%nat, 2); (1%nat, 3)]
  | Fault _ => False
  end.
Proof. vm_compute. reflexivity. Qed.
