(* ===== verification/Md32.v ===== *)
(** * Md32: the collector of the message digests

    Models [src/fastsocks/cpp/boringssl/crypto/digest/md32_common.h], which
    MD5, SHA-1 and SHA-256 include: [HASH_UPDATE] gathers the input into
    blocks of 64 bytes and counts its bits in two 32-bit words, [HASH_FINAL]
    pads the last block.  The macros that a digest defines before the
    inclusion are the variables of the section: the block function, the byte
    order of the bit count and [HASH_MAKE_STRING].

    The theorem of this file is used by the digests: whatever pieces the
    input comes in, the result is that of the padded message. *)

From S2P Require Import Prelude.
From Stdlib Require Import ZifyNat.

Definition HASH_CBLOCK : Z := 64.

(** Addition of 64-bit numbers in two words: the low word wrapped exactly
    if it is smaller than before. *)
Lemma add_words a b :
  0 <= a < 2 ^ 64 -> 0 <= b ->
  let l := (a mod 2 ^ 32 + b mod 2 ^ 32) mod 2 ^ 32 in
  let nh := if l <? a mod 2 ^ 32 then (a / 2 ^ 32 + 1) mod 2 ^ 32 else a / 2 ^ 32 in
  l = (a + b) mod 2 ^ 64 mod 2 ^ 32 /\ (nh + (b / 2 ^ 32) mod 2 ^ 32) mod 2 ^ 32 = (a + b) mod 2 ^ 64 / 2 ^ 32.
Proof.
  intros Ha Hb l nh.
  set (al := a mod 2 ^ 32) in *. set (bl := b mod 2 ^ 32) in *. set (ah := a / 2 ^ 32) in *. set (bh := b / 2 ^ 32).
  assert (Hal : 0 <= al < 2 ^ 32) by (apply Z.mod_pos_bound; lia).
  assert (Hbl : 0 <= bl < 2 ^ 32) by (apply Z.mod_pos_bound; lia).
  assert (Ea : a = 2 ^ 32 * ah + al) by (apply Z.div_mod; lia).
  assert (Eb : b = 2 ^ 32 * bh + bl) by (apply Z.div_mod; lia).
  assert (C : exists c, (c = 0 \/ c = 1) /\ al + bl = c * 2 ^ 32 + l /\ 0 <= l < 2 ^ 32 /\ (l <? al) = (c =? 1)).
  { exists ((al + bl) / 2 ^ 32). unfold l. pose proof (Z.div_mod (al + bl) (2 ^ 32) ltac:(lia)).
    pose proof (Z.mod_pos_bound (al + bl) (2 ^ 32) ltac:(lia)).
    split; [lia|]. split; [lia|]. split; [lia|].
    destruct (Z.ltb_spec ((al + bl) mod 2 ^ 32) al), (Z.eqb_spec ((al + bl) / 2 ^ 32) 1); lia. }
  destruct C as (c & Hc & Es & Hl & Ec).
  assert (Et : (a + b) mod 2 ^ 64 = 2 ^ 32 * ((ah + bh + c) mod 2 ^ 32) + l).
  { replace (a + b) with (l + (ah + bh + c) * 2 ^ 32) by lia. change (2 ^ 64) with (2 ^ 32 * 2 ^ 32).
    rewrite Z.rem_mul_r, Z.mod_add, Z.div_add, (Z.mod_small l), (Z.div_small l) by lia. lia. }
  rewrite Et. split.
  - rewrite Z.add_comm, Z.mul_comm, Z.mod_add, Z.mod_small by lia. done.
  - rewrite (Z.mul_comm (2 ^ 32)), Z.div_add_l, (Z.div_small l) by lia. rewrite Z.add_0_r. unfold nh. rewrite Ec.
    destruct Hc as [-> | ->].
    + change (0 =? 1) with false. cbv iota. rewrite Zplus_mod_idemp_r. f_equal. lia.
    + change (1 =? 1) with true. cbv iota. rewrite <- Zplus_mod. f_equal. lia.
Qed.

(** ** The macros on words *)

Definition ROTATE (a n : Z) : Z := Z.lor (u32 (Z.shiftl a n)) (Z.shiftr (Z.land a 4294967295) (32 - n)).

(** The rotation of the standards. *)
Definition ROTL (n x : Z) : Z := Z.lor (u32 (Z.shiftl x n)) (Z.shiftr (u32 x) (32 - n)).

Lemma ROTATE_ROTL x n : ROTATE x n = ROTL n x.
Proof. unfold ROTATE, ROTL. change 4294967295 with (Z.ones 32). by rewrite Z.land_ones. Qed.

(** Equations between bitwise formulas, bit by bit. *)
Create Rewrite HintDb word_bits.
#[export] Hint Rewrite Z.lxor_spec Z.land_spec Z.lor_spec : word_bits.

Ltac bitwise :=
  apply Z.bits_inj'; intros n Hn; autorewrite with word_bits; rewrite ?Z.lnot_spec by done;
  repeat match goal with |- context [Z.testbit ?x n] => destruct (Z.testbit x n) end; reflexivity.

(** The word at [off], and a word as bytes, big-endian. *)
Definition HOST_c2l (p : list Z) (off : nat) : Z :=
  Z.lor (Z.lor (Z.lor (Z.shiftl (p !!! off) 24) (Z.shiftl (p !!! (off + 1)%nat) 16)) (Z.shiftl (p !!! (off + 2)%nat) 8))
    (p !!! (off + 3)%nat).
Definition HOST_l2c (l : Z) : list Z :=
  [u8 (Z.land (Z.shiftr l 24) 255); u8 (Z.land (Z.shiftr l 16) 255); u8 (Z.land (Z.shiftr l 8) 255); u8 (Z.land l 255)].

(** The same, little-endian. *)
Definition HOST_c2l_le (p : list Z) (off : nat) : Z :=
  Z.lor (Z.lor (Z.lor (p !!! off) (Z.shiftl (p !!! (off + 1)%nat) 8)) (Z.shiftl (p !!! (off + 2)%nat) 16))
    (Z.shiftl (p !!! (off + 3)%nat) 24).
Definition HOST_l2c_le (l : Z) : list Z :=
  [u8 (Z.land l 255); u8 (Z.land (Z.shiftr l 8) 255); u8 (Z.land (Z.shiftr l 16) 255); u8 (Z.land (Z.shiftr l 24) 255)].

(** The sixteen words of a block. *)
Definition block_words (p : list Z) : list Z := (fun i => HOST_c2l p (4 * i)%nat) <$> seq 0 16.

Definition block_words_le (p : list Z) : list Z := (fun i => HOST_c2l_le p (4 * i)%nat) <$> seq 0 16.

Lemma length_block_words p : length (block_words p) = 16%nat.
Proof. done. Qed.

(** ** The collector *)

Section Md32.
Context {H : Type}.                                 (* the chaining value *)
Variable block : list Z -> H -> H.                  (* one block of [HASH_BLOCK_DATA_ORDER] *)
Variable length_bytes : Z -> Z -> list Z.           (* the eight bytes of [Nh] and [Nl] *)
Variable make_string : H -> list Z.                 (* [HASH_MAKE_STRING] *)

Record HASH_CTX : Type := mkHashCtx {
  hash : H;
  Nl : Z;                                           (* uint32_t *)
  Nh : Z;                                           (* uint32_t *)
  data : list Z;
  num : Z                                           (* unsigned int *)
}.

Definition zeros (n : Z) : list Z := replicate (Z.to_nat n) 0.

(** [HASH_BLOCK_DATA_ORDER(c, p, n)] *)
Fixpoint block_data_order (n : nat) (p : list Z) (h : H) : H :=
  match n with
  | O => h
  | S n' => block_data_order n' (drop 64 p) (block (take 64 p) h)
  end.

(** The bit count of [HASH_UPDATE]: the new [Nl] and [Nh]. *)
Definition count_bits (c : HASH_CTX) (len : Z) : Z * Z :=
  let l := u32 (Nl c + u32 (Z.shiftl (u32 len) 3)) in
  let nh := if l <? Nl c then u32 (Nh c + 1) else Nh c in
  (l, u32 (nh + u32 (Z.shiftr len 29))).

(** The second half of [HASH_UPDATE]: whole blocks and the rest. *)
Definition update_blocks (c : HASH_CTX) (p : list Z) : res HASH_CTX :=
  let n := zlen p / HASH_CBLOCK in
  let h := if n >? 0 then block_data_order (Z.to_nat n) p (hash c) else hash c in
  let rest := drop (Z.to_nat (n * HASH_CBLOCK)) p in
  if negb (zlen rest =? 0) then
    d ← write_at (data c) 0 rest;
    Ok (mkHashCtx h (Nl c) (Nh c) d (zlen rest))
  else Ok (mkHashCtx h (Nl c) (Nh c) (data c) (num c)).

Definition HASH_UPDATE (c : HASH_CTX) (p : list Z) : res HASH_CTX :=
  let len := zlen p in
  if len =? 0 then Ok c
  else
    let '(l, nh) := count_bits c len in
    let c := mkHashCtx (hash c) l nh (data c) (num c) in
    let n := num c in
    if negb (n =? 0) then
      if (HASH_CBLOCK <=? len) || (HASH_CBLOCK <=? len + n) then
        d ← write_at (data c) n (take (Z.to_nat (HASH_CBLOCK - n)) p);
        update_blocks (mkHashCtx (block_data_order 1 d (hash c)) l nh (zeros HASH_CBLOCK) 0)
          (drop (Z.to_nat (HASH_CBLOCK - n)) p)
      else
        d ← write_at (data c) n p;
        Ok (mkHashCtx (hash c) l nh d (u32 (n + u32 len)))
    else update_blocks c p.

(** The digest and the context that is left. *)
Definition HASH_FINAL (c : HASH_CTX) : res (list Z * HASH_CTX) :=
  let n := num c in
  p ← write_at (data c) n [128];
  let n := n + 1 in
  '(h, p, n) ← (if n >? HASH_CBLOCK - 8 then
                  p ← write_at p n (zeros (HASH_CBLOCK - n));
                  Ok (block_data_order 1 p (hash c), p, 0)
                else Ok (hash c, p, n));
  p ← write_at p n (zeros (HASH_CBLOCK - 8 - n));
  p ← write_at p (HASH_CBLOCK - 8) (length_bytes (Nh c) (Nl c));
  let h := block_data_order 1 p h in
  Ok (make_string h, mkHashCtx h (Nl c) (Nh c) (zeros HASH_CBLOCK) 0).

Definition HASH_TRANSFORM (c : HASH_CTX) (p : list Z) : HASH_CTX :=
  mkHashCtx (block_data_order 1 p (hash c)) (Nl c) (Nh c) (data c) (num c).

(** An input in pieces. *)
Fixpoint update_all (c : HASH_CTX) (ps : list (list Z)) : res HASH_CTX :=
  match ps with
  | [] => Ok c
  | p :: ps' => c ← HASH_UPDATE c p; update_all c ps'
  end.

(** ** The specification *)

(** The padding of a message of [n] bytes: a one bit, zeros to 56 bytes
    of the last block, and the number of bits. *)
Definition padding (n : Z) : list Z :=
  128 :: zeros ((55 - n) mod 64) ++ length_bytes (u64 (8 * n) / 2 ^ 32) (u64 (8 * n) mod 2 ^ 32).

Definition digest (init : H) (msg : list Z) : list Z :=
  let m := msg ++ padding (zlen msg) in
  make_string (block_data_order (length m / 64) m init).

(** ** Blocks *)

Lemma block_data_order_app n m p h :
  block_data_order (n + m) p h = block_data_order m (drop (64 * n) p) (block_data_order n p h).
Proof.
  revert p h. induction n as [|n IH]; intros p h; [done|]. cbn [block_data_order Nat.add].
  rewrite IH, drop_drop. do 2 f_equal. lia.
Qed.

Lemma block_data_order_prefix n p q h :
  (64 * n <= length p)%nat -> block_data_order n (p ++ q) h = block_data_order n p h.
Proof.
  revert p h. induction n as [|n IH]; intros p h Hl; [done|]. cbn [block_data_order].
  rewrite drop_app_le, take_app_le by lia. apply IH. rewrite length_drop. lia.
Qed.

(** Whole blocks one after the other. *)
Lemma block_data_order_join n m p q h :
  length p = (64 * n)%nat ->
  block_data_order (n + m) (p ++ q) h = block_data_order m q (block_data_order n p h).
Proof.
  intros Hp. rewrite block_data_order_app, block_data_order_prefix by lia.
  by rewrite <- Hp, drop_app_length.
Qed.

(** ** What the context has absorbed *)

Variable init : H.

Record absorbed (c : HASH_CTX) (full tail : list Z) (k : nat) : Prop := {
  ab_full : length full = (64 * k)%nat;
  ab_tail : zlen tail < 64;
  ab_hash : hash c = block_data_order k full init;
  ab_data : zlen (data c) = 64;
  ab_num : num c = zlen tail;
  ab_part : slice (data c) 0 (zlen tail) = tail;
  ab_nl : Nl c = u64 (8 * zlen (full ++ tail)) mod 2 ^ 32;
  ab_nh : Nh c = u64 (8 * zlen (full ++ tail)) / 2 ^ 32
}.

Lemma zlen_zeros n : 0 <= n -> zlen (zeros n) = n.
Proof. intros. unfold zlen, zeros. rewrite length_replicate. lia. Qed.

Lemma zeros_add a b : 0 <= a -> 0 <= b -> zeros a ++ zeros b = zeros (a + b).
Proof. intros. unfold zeros. rewrite <- replicate_add. f_equal. lia. Qed.

(** The two words count modulo [2^64]. *)
Lemma count_bits_ok c n len :
  0 <= len -> Nl c = u64 (8 * n) mod 2 ^ 32 -> Nh c = u64 (8 * n) / 2 ^ 32 ->
  count_bits c len = (u64 (8 * (n + len)) mod 2 ^ 32, u64 (8 * (n + len)) / 2 ^ 32).
Proof.
  intros Hl El Eh. unfold count_bits. rewrite El, Eh.
  assert (Ha : 0 <= u64 (8 * n) < 2 ^ 64) by (apply Z.mod_pos_bound; lia).
  assert (Es : u64 (8 * (n + len)) = u64 (u64 (8 * n) + 8 * len)).
  { unfold wrapU. rewrite Zplus_mod_idemp_l. f_equal. lia. }
  rewrite Es. clear El Eh Es. generalize dependent (u64 (8 * n)). intros a Ha.
  rewrite Z.shiftl_mul_pow2, Z.shiftr_div_pow2 by lia. unfold wrapU.
  assert (E1 : (len mod 2 ^ 32 * 2 ^ 3) mod 2 ^ 32 = (8 * len) mod 2 ^ 32).
  { rewrite Zmult_mod_idemp_l. f_equal. lia. }
  assert (E2 : len / 2 ^ 29 = 8 * len / 2 ^ 32).
  { change (2 ^ 32) with (8 * 2 ^ 29). by rewrite Z.div_mul_cancel_l by lia. }
  rewrite E1, E2. destruct (add_words a (8 * len) Ha) as [El Eh]; [lia|]. cbv zeta in El, Eh.
  by rewrite Eh, <- El.
Qed.

Lemma update_blocks_ok c full k p :
  length full = (64 * k)%nat -> hash c = block_data_order k full init -> zlen (data c) = 64 -> num c = 0 ->
  Nl c = u64 (8 * zlen (full ++ p)) mod 2 ^ 32 -> Nh c = u64 (8 * zlen (full ++ p)) / 2 ^ 32 ->
  exists c' full' tail' k', update_blocks c p = Ok c' /\ absorbed c' full' tail' k' /\ full' ++ tail' = full ++ p.
Proof.
  intros Hf Hh Hd Hn Hl Hnh. unfold update_blocks, HASH_CBLOCK. pose proof (zlen_nonneg p).
  set (n := Z.to_nat (zlen p / 64)).
  assert (Hq : zlen p / 64 = Z.of_nat n) by (unfold n; assert (0 <= zlen p / 64) by (apply Z.div_pos; lia); lia).
  rewrite Hq. replace (Z.to_nat (Z.of_nat n * 64)) with (64 * n)%nat by lia.
  assert (Hlen : (64 * n <= length p < 64 * n + 64)%nat).
  { pose proof (Z.div_mod (zlen p) 64 ltac:(lia)). pose proof (Z.mod_pos_bound (zlen p) 64 ltac:(lia)). unfold zlen in *. lia. }
  set (rest := drop (64 * n) p). set (h := if _ >? _ then _ else _).
  assert (Eh : h = block_data_order (k + n) (full ++ take (64 * n) p) init).
  { rewrite block_data_order_join by done. rewrite <- Hh. unfold h. rewrite ?Nat2Z.id.
    destruct (Z.gtb_spec (Z.of_nat n) 0) as [Hg|Hg].
    - rewrite <- (take_drop (64 * n) p) at 1. apply block_data_order_prefix. rewrite length_take. lia.
    - by assert (n = 0%nat) as -> by lia. }
  assert (Hr : zlen rest < 64 /\ 0 <= zlen rest) by (unfold zlen, rest; rewrite length_drop; lia).
  assert (A : forall d m, zlen d = 64 -> m = zlen rest -> slice d 0 (zlen rest) = rest ->
            absorbed (mkHashCtx h (Nl c) (Nh c) d m) (full ++ take (64 * n) p) rest (k + n)).
  { intros d m Hd' Hm Hs. constructor; simpl; try done; rewrite <- ?app_assoc; unfold rest; rewrite ?take_drop; try done.
    - rewrite length_app, length_take. lia.
    - apply Hr. }
  assert (Ej : (full ++ take (64 * n) p) ++ rest = full ++ p) by (rewrite <- app_assoc; unfold rest; by rewrite take_drop).
  destruct (Z.eqb_spec (zlen rest) 0) as [E0|E0]; simpl.
  - eexists _, _, _, _. split; [reflexivity|]. split; [|exact Ej]. apply A; [done|congruence|].
    rewrite E0. unfold zlen in E0. by destruct rest.
  - rewrite write_at_Ok by lia. simpl. eexists _, _, _, _. split; [reflexivity|]. split; [|exact Ej].
    apply A; [rewrite zlen_splice; lia|done|]. apply slice_splice_same; lia.
Qed.

Lemma HASH_UPDATE_ok c full tail k p :
  absorbed c full tail k ->
  exists c' full' tail' k', HASH_UPDATE c p = Ok c' /\ absorbed c' full' tail' k' /\
    full' ++ tail' = (full ++ tail) ++ p.
Proof.
  intros A. destruct A as [Af At Ah Ad An Ap Al Anh] eqn:EA. unfold HASH_UPDATE.
  pose proof (zlen_nonneg p). pose proof (zlen_nonneg tail).
  destruct (Z.eqb_spec (zlen p) 0) as [E0|E0].
  { assert (p = []) as -> by (unfold zlen in E0; by destruct p). exists c, full, tail, k. by rewrite app_nil_r. }
  rewrite (count_bits_ok c (zlen (full ++ tail))) by done. rewrite <- zlen_app. cbn [num hash data].
  unfold HASH_CBLOCK. rewrite An. destruct (Z.eqb_spec (zlen tail) 0) as [Et|Et]; cbn [negb].
  - assert (tail = []) as -> by (unfold zlen in Et; by destruct tail). rewrite app_nil_r in *. by apply (update_blocks_ok _ _ k).
  - replace ((64 <=? zlen p) || (64 <=? zlen p + zlen tail)) with (64 <=? zlen p + zlen tail).
    2: { destruct (Z.leb_spec 64 (zlen p)), (Z.leb_spec 64 (zlen p + zlen tail)); try done; lia. }
    destruct (Z.leb_spec 64 (zlen p + zlen tail)).
    + set (m := Z.to_nat (64 - zlen tail)).
      assert (Hm : zlen (take m p) = 64 - zlen tail) by (unfold zlen in *; rewrite length_take; lia).
      rewrite write_at_Ok by lia. cbn [mbind res_bind].
      assert (Es : splice (data c) (zlen tail) (take m p) = tail ++ take m p).
      { rewrite <- (slice_full (splice _ _ _)), zlen_splice, Ad by lia.
        replace 64 with (zlen tail + zlen (take m p)) at 1 by lia. rewrite slice_app by lia.
        rewrite slice_splice_before by lia. rewrite Z.add_0_l, slice_splice_same by lia. by rewrite Ap. }
      rewrite Es. assert (Hb : length (tail ++ take m p) = 64%nat) by (rewrite length_app; unfold zlen in *; lia).
      destruct (update_blocks_ok
        (mkHashCtx (block_data_order 1 (tail ++ take m p) (hash c)) (u64 (8 * zlen ((full ++ tail) ++ p)) mod 2 ^ 32)
           (u64 (8 * zlen ((full ++ tail) ++ p)) / 2 ^ 32) (zeros 64) 0)
        (full ++ tail ++ take m p) (k + 1) (drop m p)) as (c' & f' & t' & k' & E & A' & Ej); simpl; try done.
      * rewrite length_app. lia.
      * rewrite Ah. symmetry. by apply (block_data_order_join k 1).
      * rewrite <- !app_assoc, take_drop. done.
      * rewrite <- !app_assoc, take_drop. done.
      * exists c', f', t', k'. split; [exact E|]. split; [done|]. rewrite Ej, <- !app_assoc, take_drop. done.
    + rewrite write_at_Ok by lia. cbn [mbind res_bind]. exists (mkHashCtx (hash c) (u64 (8 * zlen ((full ++ tail) ++ p)) mod 2 ^ 32)
        (u64 (8 * zlen ((full ++ tail) ++ p)) / 2 ^ 32) (splice (data c) (zlen tail) p) (u32 (zlen tail + u32 (zlen p)))), full, (tail ++ p), k.
      split; [done|]. split; [|by rewrite app_assoc]. constructor; simpl; try done; rewrite ?zlen_app.
      * lia.
      * rewrite zlen_splice; lia.
      * rewrite (wrapU_id 32 (zlen p)) by (split; lia). apply wrapU_id. split; lia.
      * rewrite slice_app, slice_splice_before by lia. rewrite Z.add_0_l, slice_splice_same by lia. by rewrite Ap.
      * by rewrite Z.add_assoc.
      * by rewrite Z.add_assoc.
Qed.

(** Bytes written behind a known beginning of the block. *)
Lemma write_behind (d l bs : list Z) :
  zlen d = 64 -> slice d 0 (zlen l) = l -> zlen l + zlen bs <= 64 ->
  exists d', write_at d (zlen l) bs = Ok d' /\ zlen d' = 64 /\ slice d' 0 (zlen (l ++ bs)) = l ++ bs.
Proof.
  intros Hd Hl Hz. pose proof (zlen_nonneg l). pose proof (zlen_nonneg bs).
  rewrite write_at_Ok by lia. eexists. split; [done|]. split; [rewrite zlen_splice; lia|].
  rewrite zlen_app, slice_app, slice_splice_before by lia. rewrite Z.add_0_l, slice_splice_same by lia. by rewrite Hl.
Qed.

Lemma slice_all (d l : list Z) : zlen d = 64 -> zlen l = 64 -> slice d 0 (zlen l) = l -> d = l.
Proof. intros Hd Hl <-. rewrite Hl, <- Hd. by rewrite slice_full. Qed.

Hypothesis length_bytes_8 : forall nh nl, zlen (length_bytes nh nl) = 8.

(** The end of [HASH_FINAL] on a block that begins with [l]. *)
Lemma final_block d l h nh nl :
  zlen d = 64 -> slice d 0 (zlen l) = l -> zlen l <= 56 ->
  exists d' , (p ← write_at d (zlen l) (zeros (64 - 8 - zlen l)); write_at p (64 - 8) (length_bytes nh nl)) = Ok d' /\
    block_data_order 1 d' h = block_data_order 1 (l ++ zeros (56 - zlen l) ++ length_bytes nh nl) h.
Proof.
  intros Hd Hl Hz. pose proof (zlen_nonneg l). replace (64 - 8 - zlen l) with (56 - zlen l) by lia.
  assert (Hzz : zlen (zeros (56 - zlen l)) = 56 - zlen l) by (apply zlen_zeros; lia).
  destruct (write_behind d l (zeros (56 - zlen l))) as (d1 & -> & Hd1 & Hs1); [done|done|lia|]. cbn [mbind res_bind].
  assert (H56 : zlen (l ++ zeros (56 - zlen l)) = 56) by (rewrite zlen_app; lia).
  destruct (write_behind d1 (l ++ zeros (56 - zlen l)) (length_bytes nh nl)) as (d2 & E2 & Hd2 & Hs2); [done|done|rewrite length_bytes_8; lia|].
  rewrite H56 in E2. exists d2. split; [exact E2|]. f_equal. rewrite app_assoc. apply slice_all; [done| |done].
  rewrite zlen_app, length_bytes_8. lia.
Qed.

Lemma digest_blocks full tail k pad m :
  length full = (64 * k)%nat -> padding (zlen (full ++ tail)) = pad -> length (tail ++ pad) = (64 * m)%nat ->
  digest init (full ++ tail) = make_string (block_data_order m (tail ++ pad) (block_data_order k full init)).
Proof.
  intros Hf Hp Hm. unfold digest. rewrite Hp. rewrite <- app_assoc.
  replace (length (full ++ tail ++ pad) / 64)%nat with (k + m)%nat by (rewrite length_app, Hf, Hm; lia).
  by rewrite block_data_order_join.
Qed.

Lemma HASH_FINAL_ok c full tail k :
  absorbed c full tail k -> exists c', HASH_FINAL c = Ok (digest init (full ++ tail), c').
Proof.
  intros [Af At Ah Ad An Ap Al Anh]. unfold HASH_FINAL, HASH_CBLOCK. rewrite An. pose proof (zlen_nonneg tail).
  destruct (write_behind (data c) tail [128]) as (d1 & -> & Hd1 & Hs1); [done|done|change (zlen [128]) with 1; lia|].
  cbn [mbind res_bind]. rewrite zlen_app in Hs1. change (zlen [128]) with 1 in Hs1.
  assert (Hl : zlen (tail ++ [128]) = zlen tail + 1) by (rewrite zlen_app; done).
  assert (Hmod : (55 - zlen (full ++ tail)) mod 64 = if zlen tail + 1 >? 56 then 119 - zlen tail else 55 - zlen tail).
  { rewrite zlen_app. unfold zlen at 1. rewrite Af. destruct (Z.gtb_spec (zlen tail + 1) 56); zlia. }
  destruct (Z.gtb_spec (zlen tail + 1) (64 - 8)) as [Hg|Hg].
  - destruct (write_behind d1 (tail ++ [128]) (zeros (64 - (zlen tail + 1)))) as (d2 & E2 & Hd2 & Hs2);
      [done|by rewrite Hl|rewrite Hl, zlen_zeros; lia|].
    rewrite Hl in E2. rewrite E2. cbn [mbind res_bind].
    apply slice_all in Hs2; [|done|rewrite zlen_app, Hl, zlen_zeros; lia].
    destruct (final_block d2 [] (block_data_order 1 d2 (hash c)) (Nh c) (Nl c)) as (d3 & E3 & Hb3); [done|done|done|].
    change (zlen []) with 0 in E3. unfold mbind, res_bind in E3 |- *.
    destruct (write_at d2 0 (zeros (64 - 8 - 0))) as [d2'|]; [|done]. rewrite E3. eexists. f_equal. f_equal.
    rewrite Hb3. change (zlen []) with 0. rewrite app_nil_l. rewrite Ah, Hs2.
    rewrite (digest_blocks full tail k ([128] ++ zeros (64 - (zlen tail + 1)) ++ zeros 56 ++ length_bytes (Nh c) (Nl c)) 2); [|done| |].
    + change (56 - 0) with 56.
      replace (tail ++ [128] ++ zeros (64 - (zlen tail + 1)) ++ zeros 56 ++ length_bytes (Nh c) (Nl c))
        with (((tail ++ [128]) ++ zeros (64 - (zlen tail + 1))) ++ zeros 56 ++ length_bytes (Nh c) (Nl c)) by (by rewrite <- !app_assoc).
      rewrite (block_data_order_join 1 1); [done|].
      rewrite <- (Nat2Z.id (length _)). change (Z.of_nat (length ?l)) with (zlen l). rewrite zlen_app, Hl, zlen_zeros; lia.
    + unfold padding. rewrite Hmod, Al, Anh. destruct (Z.gtb_spec (zlen tail + 1) 56); [|lia].
      rewrite (app_assoc (zeros _) (zeros 56)), zeros_add by lia.
      by replace (64 - (zlen tail + 1) + 56) with (119 - zlen tail) by lia.
    + rewrite <- (Nat2Z.id (length _)). change (Z.of_nat (length ?l)) with (zlen l).
      rewrite !zlen_app, !zlen_zeros, length_bytes_8 by lia. change (zlen [128]) with 1. lia.
  - destruct (final_block d1 (tail ++ [128]) (hash c) (Nh c) (Nl c)) as (d3 & E3 & Hb3); [done|by rewrite Hl|lia|].
    rewrite Hl in E3, Hb3. unfold mbind, res_bind in E3 |- *.
    destruct (write_at d1 (zlen tail + 1) _) as [d2'|]; [|done]. rewrite E3. eexists. f_equal. f_equal.
    rewrite Hb3, Ah.
    rewrite (digest_blocks full tail k ([128] ++ zeros (56 - (zlen tail + 1)) ++ length_bytes (Nh c) (Nl c)) 1); [|done| |].
    + by rewrite <- app_assoc.
    + unfold padding. rewrite Hmod, Al, Anh. destruct (Z.gtb_spec (zlen tail + 1) 56); [lia|].
      by replace (56 - (zlen tail + 1)) with (55 - zlen tail) by lia.
    + rewrite <- (Nat2Z.id (length _)). change (Z.of_nat (length ?l)) with (zlen l).
      rewrite !zlen_app, !zlen_zeros, length_bytes_8 by lia. change (zlen [128]) with 1. lia.
Qed.

Definition fresh_ctx : HASH_CTX := mkHashCtx init 0 0 (zeros 64) 0.

Lemma absorbed_fresh : absorbed fresh_ctx [] [] 0.
Proof. by constructor. Qed.

Lemma update_all_ok c full tail k ps :
  absorbed c full tail k ->
  exists c' full' tail' k', update_all c ps = Ok c' /\ absorbed c' full' tail' k' /\
    full' ++ tail' = (full ++ tail) ++ mjoin ps.
Proof.
  revert c full tail k. induction ps as [|p ps IH]; intros c full tail k A; cbn [update_all].
  - exists c, full, tail, k. by rewrite app_nil_r.
  - destruct (HASH_UPDATE_ok c full tail k p A) as (c1 & f1 & t1 & k1 & E1 & A1 & J1). rewrite E1. cbn [mbind res_bind].
    destruct (IH c1 f1 t1 k1 A1) as (c2 & f2 & t2 & k2 & E2 & A2 & J2). exists c2, f2, t2, k2.
    split; [done|]. split; [done|]. rewrite J2, J1. cbn. by rewrite app_assoc.
Qed.

(** The digest of an input in pieces is that of the padded message. *)
Lemma update_final ps :
  exists c c', update_all fresh_ctx ps = Ok c /\ HASH_FINAL c = Ok (digest init (mjoin ps), c').
Proof.
  destruct (update_all_ok fresh_ctx [] [] 0 ps absorbed_fresh) as (c & f & t & k & E & A & J).
  destruct (HASH_FINAL_ok c f t k A) as [c' E']. exists c, c'. split; [done|]. by rewrite J in E'.
Qed.
End Md32.

(** ** Message schedules

    The standards define words [16] to [n] of the schedule from those before
    them; the code keeps the last sixteen in a ring. *)

Section Schedule.
Variable next : list Z -> Z.          (* the word after the given ones *)

Fixpoint extend (n : nat) (W : list Z) : list Z :=
  match n with O => W | S n' => extend n' (W ++ [next W]) end.

Lemma extend_prefix n W j : (j < length W)%nat -> extend n W !!! j = W !!! j.
Proof.
  revert W. induction n as [|n IH]; intros W Hj; [done|]. cbn [extend].
  rewrite IH by (rewrite length_app; simpl; lia). by rewrite lookup_total_app_l.
Qed.

Lemma extend_next n W t :
  (length W <= t < length W + n)%nat -> exists P,
    extend n W !!! t = next P /\ length P = t /\ forall j, (j < t)%nat -> P !!! j = extend n W !!! j.
Proof.
  revert W. induction n as [|n IH]; intros W Ht; [lia|]. cbn [extend].
  destruct (decide (t = length W)) as [->|Hne].
  - exists W. split; [|split; [done|]].
    + rewrite extend_prefix by (rewrite length_app; simpl; lia). by rewrite lookup_total_app_r, Nat.sub_diag by lia.
    + intros j Hj. rewrite extend_prefix by (rewrite length_app; simpl; lia). by rewrite lookup_total_app_l.
  - apply IH. rewrite length_app. simpl. lia.
Qed.
End Schedule.

(** The ring holds the sixteen words before word [i]. *)
Record ring (X W : list Z) (i : nat) : Prop := {
  rg_length : length X = 16%nat;
  rg_words : forall j, (j < 16)%nat -> X !!! ((i + j) mod 16)%nat = W !!! (i + j - 16)%nat
}.

Lemma ring_first X W : length X = 16%nat -> (forall j, (j < 16)%nat -> X !!! j = W !!! j) -> ring X W 16.
Proof.
  intros Hl H. constructor; [done|]. intros j Hj.
  replace ((16 + j) mod 16)%nat with j by lia. replace (16 + j - 16)%nat with j by lia. by apply H.
Qed.

(** Word [i] takes the place of word [i - 16]. *)
Lemma ring_step X W i : (16 <= i)%nat -> ring X W i -> ring (<[(i mod 16)%nat := W !!! i]> X) W (i + 1).
Proof.
  intros Hi [Hl Hr]. constructor; [by rewrite length_insert|].
  intros j Hj. destruct (decide (j = 15%nat)) as [->|Hne].
  - replace ((i + 1 + 15) mod 16)%nat with (i mod 16)%nat by lia.
    rewrite list_lookup_total_insert_eq; [f_equal; lia|]. rewrite Hl. lia.
  - assert ((i mod 16 <> (i + 1 + j) mod 16)%nat) by (zify; Z.to_euclidean_division_equations; lia).
    rewrite list_lookup_total_insert_ne by done. replace (i + 1 + j)%nat with (i + (j + 1))%nat by lia. apply Hr. lia.
Qed.

Lemma ring_oldest X W i : (16 <= i)%nat -> ring X W i -> X !!! (i mod 16)%nat = W !!! (i - 16)%nat.
Proof. intros Hi [_ H]. specialize (H 0%nat). rewrite Nat.add_0_r in H. apply H. lia. Qed.

(** ** Words modulo [2^32] *)

Lemma u32_add_l a b : u32 (u32 a + b) = u32 (a + b).
Proof. unfold wrapU. apply Zplus_mod_idemp_l. Qed.
Lemma u32_add_r a b : u32 (a + u32 b) = u32 (a + b).
Proof. unfold wrapU. apply Zplus_mod_idemp_r. Qed.

(** ** The digests of the standards *)

(** Integers as bytes, low byte first ([be_bytes] is the other order), and
    bytes as a word. *)
Definition le_bytes (n : nat) (x : Z) : list Z := rev (be_bytes n x).

Definition be_word (p : list Z) (off : nat) : Z :=
  foldl (fun x i => Z.lor (Z.shiftl x 8) (p !!! (off + i)%nat)) 0 (seq 0 4).
Definition le_word (p : list Z) (off : nat) : Z :=
  foldr (fun i x => Z.lor (p !!! (off + i)%nat) (Z.shiftl x 8)) 0 (seq 0 4).

(** The message is followed by a one bit, zeros up to the last eight bytes of
    a block and its number of bits, and the blocks are hashed in order. *)
Definition chunks (m : list Z) : list (list Z) :=
  (fun i => take 64 (drop (64 * i) m)) <$> seq 0 (length m / 64).

Definition standard_padding (bytes : nat -> Z -> list Z) (n : Z) : list Z :=
  [128] ++ replicate (Z.to_nat ((55 - n) mod 64)) 0 ++ bytes 8%nat (8 * n mod 2 ^ 64).

Definition standard_digest {H} (block : list Z -> H -> H) (bytes : nat -> Z -> list Z) (output : H -> list Z) (init : H)
    (msg : list Z) : list Z :=
  output (foldl (fun h q => block q h) init (chunks (msg ++ standard_padding bytes (zlen msg)))).

(** The macros give the words and bytes of the standards. *)
Lemma HOST_c2l_be p off : HOST_c2l p off = be_word p off.
Proof.
  unfold HOST_c2l, be_word. cbn [seq foldl]. rewrite Z.shiftl_0_l, Z.lor_0_l, Nat.add_0_r.
  by rewrite !Z.shiftl_lor, !Z.shiftl_shiftl by lia.
Qed.

Lemma HOST_c2l_le_le p off : HOST_c2l_le p off = le_word p off.
Proof.
  unfold HOST_c2l_le, le_word. cbn [seq foldr]. rewrite Z.shiftl_0_l, Z.lor_0_r, Nat.add_0_r.
  by rewrite !Z.shiftl_lor, !Z.shiftl_shiftl, !Z.lor_assoc by lia.
Qed.

Lemma u8_land x : u8 (Z.land x 255) = u8 x.
Proof. change 255 with (Z.ones 8). rewrite Z.land_ones by lia. apply Z.mod_mod. done. Qed.

Lemma HOST_l2c_be l : HOST_l2c l = be_bytes 4 l.
Proof. unfold HOST_l2c. by rewrite !u8_land. Qed.

Lemma HOST_l2c_le_le l : HOST_l2c_le l = le_bytes 4 l.
Proof. unfold HOST_l2c_le. by rewrite !u8_land. Qed.

Lemma u8_shiftr_low x k : 0 <= k <= 24 -> u8 (Z.shiftr (x mod 2 ^ 32) k) = u8 (Z.shiftr x k).
Proof.
  intros Hk. unfold wrapU. apply Z.bits_inj'. intros n Hn. destruct (Z.lt_ge_cases n 8).
  - rewrite !Z.mod_pow2_bits_low, !Z.shiftr_spec, Z.mod_pow2_bits_low by lia. done.
  - by rewrite !Z.mod_pow2_bits_high by lia.
Qed.

Lemma be_bytes_split x : be_bytes 8 x = be_bytes 4 (x / 2 ^ 32) ++ be_bytes 4 (x mod 2 ^ 32).
Proof.
  rewrite <- (Z.shiftr_div_pow2 x 32) by lia. cbn [be_bytes app Z.of_nat].
  rewrite !Z.shiftr_shiftr, !u8_shiftr_low by lia. done.
Qed.

Lemma le_bytes_split x : le_bytes 8 x = le_bytes 4 (x mod 2 ^ 32) ++ le_bytes 4 (x / 2 ^ 32).
Proof. unfold le_bytes. by rewrite be_bytes_split, rev_app_distr. Qed.

Lemma block_words_be p : block_words p = (fun i => be_word p (4 * i)) <$> seq 0 16.
Proof. apply list_fmap_ext. intros. apply HOST_c2l_be. Qed.

Lemma block_words_le_le p : block_words_le p = (fun i => le_word p (4 * i)) <$> seq 0 16.
Proof. apply list_fmap_ext. intros. apply HOST_c2l_le_le. Qed.

Lemma block_data_order_chunks {H} (f g : list Z -> H -> H) n p h :
  (forall q k, f q k = g q k) ->
  block_data_order f n p h = foldl (fun h q => g q h) h ((fun i => take 64 (drop (64 * i) p)) <$> seq 0 n).
Proof.
  intros E. revert p h. induction n as [|n IH]; intros p h; [done|]. cbn [block_data_order seq fmap list_fmap foldl].
  rewrite IH, E, <- fmap_S_seq, <- list_fmap_compose. cbn. f_equal. apply list_fmap_ext. intros i j _. cbn.
  rewrite drop_drop. do 2 f_equal. lia.
Qed.

(** The digest of the collector is that of the standard with the same block
    function, byte order and output. *)
Lemma digest_standard {H} (f g : list Z -> H -> H) len_bytes str bytes output init msg :
  (forall q k, f q k = g q k) -> (forall x, len_bytes (x / 2 ^ 32) (x mod 2 ^ 32) = bytes 8%nat x) ->
  (forall h, str h = output h) ->
  digest f len_bytes str init msg = standard_digest g bytes output init msg.
Proof.
  intros E L O. unfold digest, padding, standard_digest, chunks, standard_padding. rewrite O, L.
  f_equal. by apply block_data_order_chunks.
Qed.

(** One call of update on the whole input. *)
Lemma update_once {H} (f : list Z -> H -> H) len_bytes str (init : H) msg :
  (forall nh nl, zlen (len_bytes nh nl) = 8) ->
  (c ← HASH_UPDATE f (fresh_ctx init) msg; fst <$> HASH_FINAL f len_bytes str c) = Ok (digest f len_bytes str init msg).
Proof.
  intros L. destruct (update_final f len_bytes str init L [msg]) as (c & c' & E & F).
  cbn [update_all] in E. unfold mbind, res_bind in E |- *. destruct (HASH_UPDATE f (fresh_ctx init) msg) as [c1|]; [|done].
  injection E as ->. rewrite F. cbn. by rewrite app_nil_r.
Qed.
