(* ===== verification/Sha256.v ===== *)
(** * Sha256: SHA-224 and SHA-256

    Models the portable C code of
    [src/fastsocks/cpp/boringssl/crypto/sha/sha256.c] over the collector of
    [Md32.v], and shows that it computes the digest of FIPS 180-4.  The code
    rotates the names of the eight registers instead of their values, keeps
    sixteen words of the message schedule in a ring, and rotates words to the
    left; the standard moves the values, has sixty-four words and rotates to
    the right.  The assembler versions are left out. *)

From S2P Require Import Prelude.
From S2P Require Import Md32.
From Stdlib Require Import ZifyNat.

(** ** The code *)

Definition K256 : list Z :=
  [1116352408; 1899447441; 3049323471; 3921009573; 961987163; 1508970993; 2453635748; 2870763221;
   3624381080; 310598401; 607225278; 1426881987; 1925078388; 2162078206; 2614888103; 3248222580;
   3835390401; 4022224774; 264347078; 604807628; 770255983; 1249150122; 1555081692; 1996064986;
   2554220882; 2821834349; 2952996808; 3210313671; 3336571891; 3584528711; 113926993; 338241895;
   666307205; 773529912; 1294757372; 1396182291; 1695183700; 1986661051; 2177026350; 2456956037;
   2730485921; 2820302411; 3259730800; 3345764771; 3516065817; 3600352804; 4094571909; 275423344;
   430227734; 506948616; 659060556; 883997877; 958139571; 1322822218; 1537002063; 1747873779;
   1955562222; 2024104815; 2227730452; 2361852424; 2428436474; 2756734187; 3204031479; 3329325298].

Definition Sigma0 (x : Z) : Z := Z.lxor (Z.lxor (ROTATE x 30) (ROTATE x 19)) (ROTATE x 10).
Definition Sigma1 (x : Z) : Z := Z.lxor (Z.lxor (ROTATE x 26) (ROTATE x 21)) (ROTATE x 7).
Definition sigma0 (x : Z) : Z := Z.lxor (Z.lxor (ROTATE x 25) (ROTATE x 14)) (Z.shiftr x 3).
Definition sigma1 (x : Z) : Z := Z.lxor (Z.lxor (ROTATE x 15) (ROTATE x 13)) (Z.shiftr x 10).
Definition Ch (x y z : Z) : Z := Z.lxor (Z.land x y) (Z.land (u32 (Z.lnot x)) z).
Definition Maj (x y z : Z) : Z := Z.lxor (Z.lxor (Z.land x y) (Z.land x z)) (Z.land y z).

(** The new [d] and [h]. *)
Definition ROUND_00_15 (i : nat) (a b c d e f g h T1 : Z) : Z * Z :=
  let T1 := u32 (T1 + u32 (u32 (u32 (h + Sigma1 e) + Ch e f g) + K256 !!! i)) in
  let h := u32 (Sigma0 a + Maj a b c) in
  (u32 (d + T1), u32 (h + T1)).

(** The new ring, [d] and [h]. *)
Definition ROUND_16_63 (i : nat) (a b c d e f g h : Z) (X : list Z) : list Z * Z * Z :=
  let s0 := sigma0 (X !!! ((i + 1) mod 16)%nat) in
  let s1 := sigma1 (X !!! ((i + 14) mod 16)%nat) in
  let T1 := u32 (X !!! (i mod 16)%nat + u32 (u32 (s0 + s1) + X !!! ((i + 9) mod 16)%nat)) in
  let '(d, h) := ROUND_00_15 i a b c d e f g h T1 in
  (<[(i mod 16)%nat := T1]> X, d, h).

Record Regs : Type := mkRegs { ra : Z; rb : Z; rc : Z; rd : Z; re : Z; rf : Z; rg : Z; rh : Z }.

(** Eight of the first sixteen rounds, from [i] on. *)
Definition rounds_00_15 (X : list Z) (i : nat) (r : Regs) : Regs :=
  let 'mkRegs a b c d e f g h := r in
  let '(d, h) := ROUND_00_15 (i + 0) a b c d e f g h (X !!! (i + 0)%nat) in
  let '(c, g) := ROUND_00_15 (i + 1) h a b c d e f g (X !!! (i + 1)%nat) in
  let '(b, f) := ROUND_00_15 (i + 2) g h a b c d e f (X !!! (i + 2)%nat) in
  let '(a, e) := ROUND_00_15 (i + 3) f g h a b c d e (X !!! (i + 3)%nat) in
  let '(h, d) := ROUND_00_15 (i + 4) e f g h a b c d (X !!! (i + 4)%nat) in
  let '(g, c) := ROUND_00_15 (i + 5) d e f g h a b c (X !!! (i + 5)%nat) in
  let '(f, b) := ROUND_00_15 (i + 6) c d e f g h a b (X !!! (i + 6)%nat) in
  let '(e, a) := ROUND_00_15 (i + 7) b c d e f g h a (X !!! (i + 7)%nat) in
  mkRegs a b c d e f g h.

(** The body of the loop over the other rounds. *)
Definition rounds_16_63 (i : nat) (X : list Z) (r : Regs) : list Z * Regs :=
  let 'mkRegs a b c d e f g h := r in
  let '(X, d, h) := ROUND_16_63 (i + 0) a b c d e f g h X in
  let '(X, c, g) := ROUND_16_63 (i + 1) h a b c d e f g X in
  let '(X, b, f) := ROUND_16_63 (i + 2) g h a b c d e f X in
  let '(X, a, e) := ROUND_16_63 (i + 3) f g h a b c d e X in
  let '(X, h, d) := ROUND_16_63 (i + 4) e f g h a b c d X in
  let '(X, g, c) := ROUND_16_63 (i + 5) d e f g h a b c X in
  let '(X, f, b) := ROUND_16_63 (i + 6) c d e f g h a b X in
  let '(X, e, a) := ROUND_16_63 (i + 7) b c d e f g h a X in
  (X, mkRegs a b c d e f g h).

(** [for (i = 16; i < 64; i += 8)] *)
Fixpoint rounds_loop (n i : nat) (X : list Z) (r : Regs) : Regs :=
  match n with
  | O => r
  | S n' => let '(X, r) := rounds_16_63 i X r in rounds_loop n' (i + 8) X r
  end.

Definition add_regs (h r : Regs) : Regs :=
  mkRegs (u32 (ra h + ra r)) (u32 (rb h + rb r)) (u32 (rc h + rc r)) (u32 (rd h + rd r))
    (u32 (re h + re r)) (u32 (rf h + rf r)) (u32 (rg h + rg r)) (u32 (rh h + rh r)).

Definition sha256_block (p : list Z) (h : Regs) : Regs :=
  let X := block_words p in
  let r := rounds_00_15 X 0 h in
  let r := rounds_00_15 X 8 r in
  add_regs h (rounds_loop 6 16 X r).

Definition reg_list (r : Regs) : list Z := [ra r; rb r; rc r; rd r; re r; rf r; rg r; rh r].

(** [HASH_MAKE_STRING] for a digest of [md_len] bytes. *)
Definition sha256_make_string (md_len : Z) (r : Regs) : list Z :=
  mjoin (HOST_l2c <$> take (Z.to_nat (md_len / 4)) (reg_list r)).

(** The bit count, big-endian. *)
Definition sha256_length (Nh Nl : Z) : list Z := HOST_l2c Nh ++ HOST_l2c Nl.

Definition SHA224_Init : Regs :=
  mkRegs 3238371032 914150663 812702999 4144912697 4290775857 1750603025 1694076839 3204075428.
Definition SHA256_Init : Regs :=
  mkRegs 1779033703 3144134277 1013904242 2773480762 1359893119 2600822924 528734635 1541459225.

Definition SHA224_DIGEST_LENGTH : Z := 28.
Definition SHA256_DIGEST_LENGTH : Z := 32.

Abbreviation SHA256_Update := (HASH_UPDATE sha256_block).
Abbreviation SHA256_Final := (fun md_len => HASH_FINAL sha256_block sha256_length (sha256_make_string md_len)).

(** One call on the whole input. *)
Definition SHA256 (data : list Z) : res (list Z) :=
  c ← SHA256_Update (fresh_ctx SHA256_Init) data; fst <$> SHA256_Final SHA256_DIGEST_LENGTH c.
Definition SHA224 (data : list Z) : res (list Z) :=
  c ← SHA256_Update (fresh_ctx SHA224_Init) data; fst <$> SHA256_Final SHA224_DIGEST_LENGTH c.

Example sha256_abc :
  SHA256 [97; 98; 99] = Ok [186; 120; 22; 191; 143; 1; 207; 234; 65; 65; 64; 222; 93; 174; 34; 35;
                            176; 3; 97; 163; 150; 23; 122; 156; 180; 16; 255; 97; 242; 0; 21; 173].
Proof. vm_compute. reflexivity. Qed.

(** ** FIPS 180-4 *)

(** Words of 32 bits; [ROTR] and [SHR] of section 2.2.2. *)
Definition ROTR (n x : Z) : Z := Z.lor (Z.shiftr (u32 x) n) (u32 (Z.shiftl x (32 - n))).
Definition SHR (n x : Z) : Z := Z.shiftr x n.

(** The functions (4.2) to (4.7). *)
Definition fips_Ch (x y z : Z) : Z := Z.lxor (Z.land x y) (Z.land (u32 (Z.lnot x)) z).
Definition fips_Maj (x y z : Z) : Z := Z.lxor (Z.lxor (Z.land x y) (Z.land x z)) (Z.land y z).
Definition fips_Sigma0 (x : Z) : Z := Z.lxor (Z.lxor (ROTR 2 x) (ROTR 13 x)) (ROTR 22 x).
Definition fips_Sigma1 (x : Z) : Z := Z.lxor (Z.lxor (ROTR 6 x) (ROTR 11 x)) (ROTR 25 x).
Definition fips_sigma0 (x : Z) : Z := Z.lxor (Z.lxor (ROTR 7 x) (ROTR 18 x)) (SHR 3 x).
Definition fips_sigma1 (x : Z) : Z := Z.lxor (Z.lxor (ROTR 17 x) (ROTR 19 x)) (SHR 10 x).

(** The constants (4.2.2) are the first 32 bits of the fractional parts of the
    cube roots of the first sixty-four primes.  The root is found bit by bit
    from the top. *)
Definition is_prime (n : nat) : bool := (2 <=? n)%nat && forallb (fun d => negb (n mod d =? 0)%nat) (seq 2 (n - 2)).

Definition primes : list Z := Z.of_nat <$> List.filter is_prime (seq 0 312).

Definition cbrt (n : Z) : Z :=
  foldr (fun b r => let r' := r + 2 ^ Z.of_nat b in if r' * r' * r' <=? n then r' else r) 0 (seq 0 40).

Definition fips_K : list Z := (fun p => cbrt (p * 2 ^ 96) mod 2 ^ 32) <$> primes.

(** The initial values: 32 bits of the square roots of the first eight primes
    (5.3.3), and the 32 bits after them for the next eight (5.3.2). *)
Definition regs_of (l : list Z) : Regs :=
  mkRegs (l !!! 0%nat) (l !!! 1%nat) (l !!! 2%nat) (l !!! 3%nat) (l !!! 4%nat) (l !!! 5%nat) (l !!! 6%nat) (l !!! 7%nat).

Definition fips_H256 : Regs := regs_of ((fun p => Z.sqrt (p * 2 ^ 64) mod 2 ^ 32) <$> primes).
Definition fips_H224 : Regs := regs_of ((fun p => Z.sqrt (p * 2 ^ 128) mod 2 ^ 32) <$> drop 8 primes).

(** The message schedule: the next word from those before it. *)
Definition next_word (W : list Z) : Z :=
  let t := length W in
  u32 (fips_sigma1 (W !!! (t - 2)%nat) + W !!! (t - 7)%nat + fips_sigma0 (W !!! (t - 15)%nat) + W !!! (t - 16)%nat).

Definition schedule (M : list Z) : list Z := extend next_word 48 M.

Definition fips_round (W : list Z) (t : nat) (r : Regs) : Regs :=
  let 'mkRegs a b c d e f g h := r in
  let T1 := u32 (h + fips_Sigma1 e + fips_Ch e f g + fips_K !!! t + W !!! t) in
  let T2 := u32 (fips_Sigma0 a + fips_Maj a b c) in
  mkRegs (u32 (T1 + T2)) a b c (u32 (d + T1)) e f g.

Definition fips_block (p : list Z) (h : Regs) : Regs :=
  let W := schedule ((fun i => be_word p (4 * i)) <$> seq 0 16) in
  let r := foldl (fun r t => fips_round W t r) h (seq 0 64) in
  regs_of (zip_with (fun x y => (x + y) mod 2 ^ 32) (reg_list h) (reg_list r)).

(** The digests of sections 6.2 and 6.3, with the padding of section 5.1.1:
    the first [md_len] bytes of the eight words. *)
Definition fips_digest (init : Regs) (md_len : nat) (msg : list Z) : list Z :=
  standard_digest fips_block be_bytes (fun r => take md_len (mjoin (be_bytes 4 <$> reg_list r))) init msg.

Definition fips_sha256 (msg : list Z) : list Z := fips_digest fips_H256 32 msg.
Definition fips_sha224 (msg : list Z) : list Z := fips_digest fips_H224 28 msg.

(** The tables of the code are those numbers. *)
Lemma K256_fips : K256 = fips_K.
Proof. vm_compute. reflexivity. Qed.

Lemma SHA256_Init_fips : SHA256_Init = fips_H256.
Proof. vm_compute. reflexivity. Qed.

Lemma SHA224_Init_fips : SHA224_Init = fips_H224.
Proof. vm_compute. reflexivity. Qed.

#[local] Opaque K256 fips_K fips_H256 fips_H224.

(** ** The rounds *)

#[local] Arguments Nat.modulo : simpl never.

Lemma ROTATE_ROTR x n : ROTATE x (32 - n) = ROTR n x.
Proof.
  unfold ROTATE, ROTR. rewrite Z.lor_comm. change 4294967295 with (Z.ones 32). rewrite Z.land_ones by lia.
  replace (32 - (32 - n)) with n by lia. done.
Qed.

Lemma Sigma0_fips x : Sigma0 x = fips_Sigma0 x.
Proof. unfold Sigma0, fips_Sigma0. by rewrite <- !ROTATE_ROTR. Qed.
Lemma Sigma1_fips x : Sigma1 x = fips_Sigma1 x.
Proof. unfold Sigma1, fips_Sigma1. by rewrite <- !ROTATE_ROTR. Qed.
Lemma sigma0_fips x : sigma0 x = fips_sigma0 x.
Proof. unfold sigma0, fips_sigma0. by rewrite <- !ROTATE_ROTR. Qed.
Lemma sigma1_fips x : sigma1 x = fips_sigma1 x.
Proof. unfold sigma1, fips_sigma1. by rewrite <- !ROTATE_ROTR. Qed.

(** One round: the two registers that change. *)
Lemma ROUND_00_15_fips W i a b c d e f g h :
  ROUND_00_15 i a b c d e f g h (W !!! i) =
    (re (fips_round W i (mkRegs a b c d e f g h)), ra (fips_round W i (mkRegs a b c d e f g h))).
Proof.
  unfold ROUND_00_15, fips_round. cbn [ra re]. rewrite Sigma0_fips, Sigma1_fips, <- K256_fips.
  change (fips_Ch e f g) with (Ch e f g). change (fips_Maj a b c) with (Maj a b c).
  assert (E : u32 (W !!! i + u32 (u32 (u32 (h + fips_Sigma1 e) + Ch e f g) + K256 !!! i)) =
          u32 (h + fips_Sigma1 e + Ch e f g + K256 !!! i + W !!! i)).
  { rewrite u32_add_r, (Z.add_comm (u32 _)), Z.add_assoc, u32_add_r.
    rewrite <- Z.add_assoc, (Z.add_comm _ (Ch e f g)), !Z.add_assoc. rewrite u32_add_r. f_equal. lia. }
  rewrite E. f_equal. f_equal. lia.
Qed.

Lemma round_00_15_step W i a b c d e f g h d' h' :
  ROUND_00_15 i a b c d e f g h (W !!! i) = (d', h') ->
  fips_round W i (mkRegs a b c d e f g h) = mkRegs h' a b c d' e f g.
Proof. rewrite ROUND_00_15_fips. by intros [= <- <-]. Qed.

(** The rounds of the standard from [i] on. *)
Definition fips_rounds (W : list Z) (i n : nat) (r : Regs) : Regs :=
  foldl (fun r t => fips_round W t r) r (seq i n).

Lemma fips_rounds_add W i n m r : fips_rounds W i (n + m) r = fips_rounds W (i + n) m (fips_rounds W i n r).
Proof. unfold fips_rounds. by rewrite seq_app, foldl_app. Qed.

Lemma fips_rounds_8 W i r :
  fips_rounds W i 8 r =
    fips_round W (i + 7) (fips_round W (i + 6) (fips_round W (i + 5) (fips_round W (i + 4)
      (fips_round W (i + 3) (fips_round W (i + 2) (fips_round W (i + 1) (fips_round W (i + 0) r))))))).
Proof.
  unfold fips_rounds. cbn [seq foldl].
  by rewrite !Nat.add_succ_r, !Nat.add_0_r.
Qed.

#[local] Opaque ROUND_00_15 ROUND_16_63 fips_round.

Lemma rounds_00_15_fips X W i r :
  (forall j, (j < 8)%nat -> X !!! (i + j)%nat = W !!! (i + j)%nat) -> rounds_00_15 X i r = fips_rounds W i 8 r.
Proof.
  intros HX. destruct r as [a b c d e f g h]. rewrite fips_rounds_8. unfold rounds_00_15.
  rewrite (HX 0%nat), (HX 1%nat), (HX 2%nat), (HX 3%nat), (HX 4%nat), (HX 5%nat), (HX 6%nat), (HX 7%nat) by lia.
  repeat match goal with
  | |- context [let '(_, _) := ROUND_00_15 ?i ?a ?b ?c ?d ?e ?f ?g ?h ?x in _] =>
      let E := fresh in destruct (ROUND_00_15 i a b c d e f g h x) eqn:E;
      apply round_00_15_step in E; rewrite E; clear E
  end.
  reflexivity.
Qed.

(** The words of the schedule obey the recurrence. *)
Definition scheduled (W : list Z) : Prop :=
  forall t, (16 <= t < 64)%nat ->
    W !!! t = u32 (fips_sigma1 (W !!! (t - 2)%nat) + W !!! (t - 7)%nat + fips_sigma0 (W !!! (t - 15)%nat) + W !!! (t - 16)%nat).

Transparent ROUND_16_63.
Lemma round_16_63_step W i a b c d e f g h X X' d' h' :
  scheduled W -> (16 <= i < 64)%nat -> ring X W i -> ROUND_16_63 i a b c d e f g h X = (X', d', h') ->
  fips_round W i (mkRegs a b c d e f g h) = mkRegs h' a b c d' e f g /\ ring X' W (i + 1).
Proof.
  intros HW Hi R. destruct (R) as [Hl Hr]. unfold ROUND_16_63.
  rewrite (Hr 1%nat), (Hr 14%nat), (Hr 9%nat) by lia. rewrite (ring_oldest X W i), sigma0_fips, sigma1_fips by (done || lia).
  replace (i + 1 - 16)%nat with (i - 15)%nat by lia. replace (i + 14 - 16)%nat with (i - 2)%nat by lia.
  replace (i + 9 - 16)%nat with (i - 7)%nat by lia.
  match goal with |- context [ROUND_00_15 _ _ _ _ _ _ _ _ _ ?T] => assert (ET : T = W !!! i) end.
  { rewrite (HW i) by lia. rewrite u32_add_r, Z.add_assoc. rewrite (Z.add_comm (W !!! (i - 16)%nat)), <- Z.add_assoc, u32_add_l.
    f_equal. lia. }
  rewrite ET. destruct (ROUND_00_15 i a b c d e f g h (W !!! i)) as [d1 h1] eqn:ER.
  intros [= <- <- <-]. split; [by apply round_00_15_step|]. apply ring_step; [lia|done].
Qed.
#[local] Opaque ROUND_16_63.

Lemma rounds_16_63_fips W i X r :
  scheduled W -> (16 <= i)%nat -> (i + 8 <= 64)%nat -> ring X W i ->
  exists X', rounds_16_63 i X r = (X', fips_rounds W i 8 r) /\ ring X' W (i + 8).
Proof.
  intros HW Hi Hi8 R. destruct r as [a b c d e f g h]. rewrite fips_rounds_8. unfold rounds_16_63.
  rewrite <- (Nat.add_0_r i) in R.
  repeat match goal with
  | R : ring ?X _ _ |- context [ROUND_16_63 ?i ?a ?b ?c ?d ?e ?f ?g ?h ?X] =>
      let E := fresh in let R' := fresh "R" in
      destruct (ROUND_16_63 i a b c d e f g h X) as [[? ?] ?] eqn:E;
      apply (round_16_63_step W) in E as [E R']; [|done|lia|exact R]; rewrite E; clear E R;
      rewrite <- Nat.add_assoc in R'; cbn [Nat.add] in R'
  end.
  by eexists.
Qed.

Lemma rounds_loop_fips n W i X r :
  scheduled W -> (16 <= i)%nat -> (i + 8 * n <= 64)%nat -> ring X W i ->
  rounds_loop n i X r = fips_rounds W i (8 * n) r.
Proof.
  intros HW. revert i X r. induction n as [|n IH]; intros i X r Hi Hn R; [done|]. cbn [rounds_loop].
  destruct (rounds_16_63_fips W i X r HW Hi) as (X' & -> & R'); [lia|done|].
  rewrite IH by (done || lia). replace (8 * S n)%nat with (8 + 8 * n)%nat by lia. by rewrite fips_rounds_add.
Qed.

(** ** The schedule *)

Lemma schedule_scheduled p : scheduled (schedule (block_words p)).
Proof.
  intros t Ht. unfold schedule. destruct (extend_next next_word 48 (block_words p) t) as (P & E & Hl & HP).
  { rewrite length_block_words. lia. }
  rewrite E. unfold next_word at 1. rewrite Hl, !HP by lia. reflexivity.
Qed.

Lemma schedule_first p j : (j < 16)%nat -> block_words p !!! j = schedule (block_words p) !!! j.
Proof. intros Hj. symmetry. by apply extend_prefix. Qed.

#[local] Opaque schedule block_words.

Lemma sha256_block_fips p h : sha256_block p h = fips_block p h.
Proof.
  unfold sha256_block, fips_block. rewrite <- block_words_be. cbv zeta.
  change (foldl _ h (seq 0 64)) with (fips_rounds (schedule (block_words p)) 0 (8 + (8 + 48)) h).
  rewrite !fips_rounds_add. rewrite (rounds_00_15_fips _ (schedule (block_words p)) 0) by (intros j Hj; apply schedule_first; lia).
  rewrite (rounds_00_15_fips _ (schedule (block_words p)) 8) by (intros j Hj; apply schedule_first; lia).
  rewrite (rounds_loop_fips 6 (schedule (block_words p))); [done|apply schedule_scheduled|lia|lia|].
  apply ring_first; [apply length_block_words|apply schedule_first].
Qed.

(** The digest lengths of the code are whole words. *)
Lemma sha256_make_string_fips md_len r :
  md_len = 28 \/ md_len = 32 -> sha256_make_string md_len r = take (Z.to_nat md_len) (mjoin (be_bytes 4 <$> reg_list r)).
Proof.
  unfold sha256_make_string. intros [-> | ->].
  - change (Z.to_nat (28 / 4)) with 7%nat. cbn [reg_list take fmap list_fmap]. by rewrite !HOST_l2c_be.
  - change (Z.to_nat (32 / 4)) with 8%nat. cbn [reg_list take fmap list_fmap]. by rewrite !HOST_l2c_be.
Qed.

Lemma sha256_length_fips x : sha256_length (x / 2 ^ 32) (x mod 2 ^ 32) = be_bytes 8 x.
Proof. unfold sha256_length. by rewrite !HOST_l2c_be, be_bytes_split. Qed.

Lemma sha256_digest init md_len msg :
  md_len = 28 \/ md_len = 32 ->
  digest sha256_block sha256_length (sha256_make_string md_len) init msg = fips_digest init (Z.to_nat md_len) msg.
Proof.
  intros L. apply digest_standard; [apply sha256_block_fips|apply sha256_length_fips|].
  intros r. by apply sha256_make_string_fips.
Qed.

Lemma sha256_stream init md_len ps :
  md_len = 28 \/ md_len = 32 ->
  exists c c', update_all sha256_block (fresh_ctx init) ps = Ok c /\
    SHA256_Final md_len c = Ok (fips_digest init (Z.to_nat md_len) (mjoin ps), c').
Proof.
  intros L. destruct (update_final sha256_block sha256_length (sha256_make_string md_len) init) with (ps := ps) as (c & c' & E & F).
  { done. }
  exists c, c'. split; [done|]. by rewrite <- sha256_digest.
Qed.

(** C20: SHA-256 and SHA-224 are those of FIPS 180-4: for every message and
    every way of cutting it into pieces, the calls of [SHA256_Update] and
    [SHA256_Final] run without leaving the 64-byte buffer and give the digest
    of the standard: its padding, its message schedule, its rounds, its
    constants taken from the roots of the primes, and its output. *)
Theorem sha256_is_fips ps :
  (exists c c', update_all sha256_block (fresh_ctx SHA256_Init) ps = Ok c /\
     SHA256_Final SHA256_DIGEST_LENGTH c = Ok (fips_sha256 (mjoin ps), c')) /\
  (exists c c', update_all sha256_block (fresh_ctx SHA224_Init) ps = Ok c /\
     SHA256_Final SHA224_DIGEST_LENGTH c = Ok (fips_sha224 (mjoin ps), c')) /\
  SHA256 (mjoin ps) = Ok (fips_sha256 (mjoin ps)) /\ SHA224 (mjoin ps) = Ok (fips_sha224 (mjoin ps)).
Proof.
  unfold SHA256, SHA224, fips_sha256, fips_sha224. rewrite SHA256_Init_fips, SHA224_Init_fips.
  split; [apply (sha256_stream _ 32); auto|]. split; [apply (sha256_stream _ 28); auto|].
  by split; rewrite update_once, sha256_digest by auto.
Qed.
