(* ===== verification/Sha1.v ===== *)
(** * Sha1: SHA-1

    Models the portable C code of
    [src/fastsocks/cpp/boringssl/crypto/sha/sha1.c] over the collector of
    [Md32.v], and shows that it computes the digest of FIPS 180-4.

    The block function is eighty lines of macro calls that differ in the
    names of the six registers and of the sixteen words.  The lines are kept
    as they are in the source, as a list of instructions; the words of the
    block are loaded before the first one (the source loads each shortly
    before its use). *)

From S2P Require Import Prelude.
From S2P Require Import Md32.
From Stdlib Require Import ZifyNat.

(** ** The code *)

Definition K_00_19 : Z := 1518500249.
Definition K_20_39 : Z := 1859775393.
Definition K_40_59 : Z := 2400959708.
Definition K_60_79 : Z := 3395469782.

Definition F_00_19 (b c d : Z) : Z := Z.lxor (Z.land (Z.lxor c d) b) d.
Definition F_20_39 (b c d : Z) : Z := Z.lxor (Z.lxor b c) d.
Definition F_40_59 (b c d : Z) : Z := Z.lor (Z.land b c) (Z.land (Z.lor b c) d).
Definition F_60_79 (b c d : Z) : Z := F_20_39 b c d.

(** The names of the registers. *)
Inductive reg : Type := A | B | C | D | E | T.

Definition reg_index (r : reg) : nat :=
  match r with A => 0 | B => 1 | C => 2 | D => 3 | E => 4 | T => 5 end.

(** A macro call with its registers and the numbers of its words. *)
Inductive body : Type :=
  | BODY_00_15 (a b c d e f : reg) (xi : nat)
  | BODY_16_19 (a b c d e f : reg) (xi xa xb xc xd : nat)
  | BODY_20_31 (a b c d e f : reg) (xi xa xb xc xd : nat)
  | BODY_32_39 (a b c d e f : reg) (xa xb xc xd : nat)
  | BODY_40_59 (a b c d e f : reg) (xa xb xc xd : nat)
  | BODY_60_79 (a b c d e f : reg) (xa xb xc xd : nat).

(** The six registers and the sixteen words. *)
Record Machine : Type := mkMachine { regs : list Z; words : list Z }.

Definition get (r : reg) (s : Machine) : Z := regs s !!! reg_index r.
Definition set (r : reg) (v : Z) (s : Machine) : Machine := mkMachine (<[reg_index r := v]> (regs s)) (words s).
Definition set_word (i : nat) (v : Z) (s : Machine) : Machine := mkMachine (regs s) (<[i := v]> (words s)).

(** [(a) = (ia ^ ib ^ ic ^ id), ix = (a) = ROTATE((a), 1)] *)
Definition Xupdate (a : reg) (ix ia ib ic id : nat) (s : Machine) : Machine :=
  let w := words s in
  let s := set a (Z.lxor (Z.lxor (Z.lxor (w !!! ia) (w !!! ib)) (w !!! ic)) (w !!! id)) s in
  let s := set a (ROTATE (get a s) 1) s in
  set_word ix (get a s) s.

(** [f = v + e + K + ROTATE(a, 5) + F(b, c, d); b = ROTATE(b, 30);] *)
Definition round_tail (F : Z -> Z -> Z -> Z) (K v : Z) (a b c d e f : reg) (s : Machine) : Machine :=
  let s := set f (u32 (v + u32 (u32 (u32 (get e s + K) + ROTATE (get a s) 5) + F (get b s) (get c s) (get d s)))) s in
  set b (ROTATE (get b s) 30) s.

Definition exec (i : body) (s : Machine) : Machine :=
  match i with
  | BODY_00_15 a b c d e f xi => round_tail F_00_19 K_00_19 (words s !!! xi) a b c d e f s
  | BODY_16_19 a b c d e f xi xa xb xc xd =>
      let s := Xupdate f xi xa xb xc xd s in round_tail F_00_19 K_00_19 (get f s) a b c d e f s
  | BODY_20_31 a b c d e f xi xa xb xc xd =>
      let s := Xupdate f xi xa xb xc xd s in round_tail F_20_39 K_20_39 (get f s) a b c d e f s
  | BODY_32_39 a b c d e f xa xb xc xd =>
      let s := Xupdate f xa xa xb xc xd s in round_tail F_20_39 K_20_39 (get f s) a b c d e f s
  | BODY_40_59 a b c d e f xa xb xc xd =>
      let s := Xupdate f xa xa xb xc xd s in round_tail F_40_59 K_40_59 (get f s) a b c d e f s
  | BODY_60_79 a b c d e f xa xb xc xd =>
      let s := Xupdate f xa xa xb xc xd s in round_tail F_60_79 K_60_79 (words s !!! xa) a b c d e f s
  end.

(** The lines of the block function. *)
Definition sha1_lines : list body :=
  [BODY_00_15 A B C D E T 0; BODY_00_15 T A B C D E 1;
   BODY_00_15 E T A B C D 2; BODY_00_15 D E T A B C 3;
   BODY_00_15 C D E T A B 4; BODY_00_15 B C D E T A 5;
   BODY_00_15 A B C D E T 6; BODY_00_15 T A B C D E 7;
   BODY_00_15 E T A B C D 8; BODY_00_15 D E T A B C 9;
   BODY_00_15 C D E T A B 10; BODY_00_15 B C D E T A 11;
   BODY_00_15 A B C D E T 12; BODY_00_15 T A B C D E 13;
   BODY_00_15 E T A B C D 14; BODY_00_15 D E T A B C 15;
   BODY_16_19 C D E T A B 0 0 2 8 13; BODY_16_19 B C D E T A 1 1 3 9 14;
   BODY_16_19 A B C D E T 2 2 4 10 15; BODY_16_19 T A B C D E 3 3 5 11 0;
   BODY_20_31 E T A B C D 4 4 6 12 1; BODY_20_31 D E T A B C 5 5 7 13 2;
   BODY_20_31 C D E T A B 6 6 8 14 3; BODY_20_31 B C D E T A 7 7 9 15 4;
   BODY_20_31 A B C D E T 8 8 10 0 5; BODY_20_31 T A B C D E 9 9 11 1 6;
   BODY_20_31 E T A B C D 10 10 12 2 7; BODY_20_31 D E T A B C 11 11 13 3 8;
   BODY_20_31 C D E T A B 12 12 14 4 9; BODY_20_31 B C D E T A 13 13 15 5 10;
   BODY_20_31 A B C D E T 14 14 0 6 11; BODY_20_31 T A B C D E 15 15 1 7 12;
   BODY_32_39 E T A B C D 0 2 8 13; BODY_32_39 D E T A B C 1 3 9 14;
   BODY_32_39 C D E T A B 2 4 10 15; BODY_32_39 B C D E T A 3 5 11 0;
   BODY_32_39 A B C D E T 4 6 12 1; BODY_32_39 T A B C D E 5 7 13 2;
   BODY_32_39 E T A B C D 6 8 14 3; BODY_32_39 D E T A B C 7 9 15 4;
   BODY_40_59 C D E T A B 8 10 0 5; BODY_40_59 B C D E T A 9 11 1 6;
   BODY_40_59 A B C D E T 10 12 2 7; BODY_40_59 T A B C D E 11 13 3 8;
   BODY_40_59 E T A B C D 12 14 4 9; BODY_40_59 D E T A B C 13 15 5 10;
   BODY_40_59 C D E T A B 14 0 6 11; BODY_40_59 B C D E T A 15 1 7 12;
   BODY_40_59 A B C D E T 0 2 8 13; BODY_40_59 T A B C D E 1 3 9 14;
   BODY_40_59 E T A B C D 2 4 10 15; BODY_40_59 D E T A B C 3 5 11 0;
   BODY_40_59 C D E T A B 4 6 12 1; BODY_40_59 B C D E T A 5 7 13 2;
   BODY_40_59 A B C D E T 6 8 14 3; BODY_40_59 T A B C D E 7 9 15 4;
   BODY_40_59 E T A B C D 8 10 0 5; BODY_40_59 D E T A B C 9 11 1 6;
   BODY_40_59 C D E T A B 10 12 2 7; BODY_40_59 B C D E T A 11 13 3 8;
   BODY_60_79 A B C D E T 12 14 4 9; BODY_60_79 T A B C D E 13 15 5 10;
   BODY_60_79 E T A B C D 14 0 6 11; BODY_60_79 D E T A B C 15 1 7 12;
   BODY_60_79 C D E T A B 0 2 8 13; BODY_60_79 B C D E T A 1 3 9 14;
   BODY_60_79 A B C D E T 2 4 10 15; BODY_60_79 T A B C D E 3 5 11 0;
   BODY_60_79 E T A B C D 4 6 12 1; BODY_60_79 D E T A B C 5 7 13 2;
   BODY_60_79 C D E T A B 6 8 14 3; BODY_60_79 B C D E T A 7 9 15 4;
   BODY_60_79 A B C D E T 8 10 0 5; BODY_60_79 T A B C D E 9 11 1 6;
   BODY_60_79 E T A B C D 10 12 2 7; BODY_60_79 D E T A B C 11 13 3 8;
   BODY_60_79 C D E T A B 12 14 4 9; BODY_60_79 B C D E T A 13 15 5 10;
   BODY_60_79 A B C D E T 14 0 6 11; BODY_60_79 T A B C D E 15 1 7 12].

(** The chaining value [h0] to [h4]. *)
Record SHA_H : Type := mkSHA { h0 : Z; h1 : Z; h2 : Z; h3 : Z; h4 : Z }.

(** [T] is not set before it is written. *)
Definition sha1_block (p : list Z) (h : SHA_H) : SHA_H :=
  let s := foldl (fun s i => exec i s) (mkMachine [h0 h; h1 h; h2 h; h3 h; h4 h; 0] (block_words p)) sha1_lines in
  mkSHA (u32 (h0 h + get E s)) (u32 (h1 h + get T s)) (u32 (h2 h + get A s)) (u32 (h3 h + get B s)) (u32 (h4 h + get C s)).

Definition SHA1_Init : SHA_H := mkSHA 1732584193 4023233417 2562383102 271733878 3285377520.

Definition sha1_make_string (h : SHA_H) : list Z :=
  HOST_l2c (h0 h) ++ HOST_l2c (h1 h) ++ HOST_l2c (h2 h) ++ HOST_l2c (h3 h) ++ HOST_l2c (h4 h).

Definition sha1_length (Nh Nl : Z) : list Z := HOST_l2c Nh ++ HOST_l2c Nl.

Abbreviation SHA1_Update := (HASH_UPDATE sha1_block).
Abbreviation SHA1_Final := (HASH_FINAL sha1_block sha1_length sha1_make_string).

Definition SHA1 (data : list Z) : res (list Z) :=
  c ← SHA1_Update (fresh_ctx SHA1_Init) data; fst <$> SHA1_Final c.

Example sha1_abc :
  SHA1 [97; 98; 99] = Ok [169; 153; 62; 54; 71; 6; 129; 106; 186; 62; 37; 113; 120; 80; 194; 108; 156; 208; 216; 157].
Proof. vm_compute. reflexivity. Qed.

(** ** FIPS 180-4, section 6.1 *)

(** The functions (4.1) and the constants (4.2.1). *)
Definition fips_f (t : nat) (x y z : Z) : Z :=
  if (t <? 20)%nat then Z.lxor (Z.land x y) (Z.land (Z.lnot x) z)
  else if (t <? 40)%nat then Z.lxor (Z.lxor x y) z
  else if (t <? 60)%nat then Z.lxor (Z.lxor (Z.land x y) (Z.land x z)) (Z.land y z)
  else Z.lxor (Z.lxor x y) z.

(** The constants are the roots of 2, 3, 5 and 10 in units of [2 ^ -30]. *)
Definition root30 (n : Z) : Z := Z.sqrt (n * 2 ^ 60).

Definition fips_K (t : nat) : Z :=
  if (t <? 20)%nat then root30 2 else if (t <? 40)%nat then root30 3 else if (t <? 60)%nat then root30 5 else root30 10.

Definition sha1_next_word (W : list Z) : Z :=
  let t := length W in
  ROTL 1 (Z.lxor (Z.lxor (Z.lxor (W !!! (t - 3)%nat) (W !!! (t - 8)%nat)) (W !!! (t - 14)%nat)) (W !!! (t - 16)%nat)).

Definition sha1_schedule (M : list Z) : list Z := extend sha1_next_word 64 M.

(** The five working variables. *)
Definition sha1_round (W : list Z) (t : nat) (v : SHA_H) : SHA_H :=
  let 'mkSHA a b c d e := v in
  mkSHA (u32 (ROTL 5 a + fips_f t b c d + e + fips_K t + W !!! t)) a (ROTL 30 b) c d.

Definition sha1_fips_block (p : list Z) (h : SHA_H) : SHA_H :=
  let W := sha1_schedule ((fun i => be_word p (4 * i)) <$> seq 0 16) in
  let 'mkSHA a b c d e := foldl (fun v t => sha1_round W t v) h (seq 0 80) in
  mkSHA (u32 (h0 h + a)) (u32 (h1 h + b)) (u32 (h2 h + c)) (u32 (h3 h + d)) (u32 (h4 h + e)).

(** The words of the initial value (5.3.1) are digits counted up and down. *)
Definition fips_H1 : SHA_H :=
  mkSHA (le_word [1; 35; 69; 103] 0) (le_word [137; 171; 205; 239] 0) (le_word [254; 220; 186; 152] 0)
    (le_word [118; 84; 50; 16] 0) (le_word [240; 225; 210; 195] 0).

Definition fips_sha1 (msg : list Z) : list Z :=
  standard_digest sha1_fips_block be_bytes (fun h => mjoin (be_bytes 4 <$> [h0 h; h1 h; h2 h; h3 h; h4 h])) fips_H1 msg.

(** ** The lines are the rounds *)

(** The register that plays role [j] in round [t]: the roles move on by one
    register in each round. *)
Definition role (t j : nat) : reg :=
  match (j + 5 * t) mod 6 with 0 => A | 1 => B | 2 => C | 3 => D | 4 => E | _ => T end%nat.

Definition line (t : nat) : body := (
  let r := role t in
  let x k := ((t + k) mod 16) in
  if (t <? 16) then BODY_00_15 (r 0) (r 1) (r 2) (r 3) (r 4) (r 5) t
  else if (t <? 20) then BODY_16_19 (r 0) (r 1) (r 2) (r 3) (r 4) (r 5) (x 0) (x 0) (x 2) (x 8) (x 13)
  else if (t <? 32) then BODY_20_31 (r 0) (r 1) (r 2) (r 3) (r 4) (r 5) (x 0) (x 0) (x 2) (x 8) (x 13)
  else if (t <? 40) then BODY_32_39 (r 0) (r 1) (r 2) (r 3) (r 4) (r 5) (x 0) (x 2) (x 8) (x 13)
  else if (t <? 60) then BODY_40_59 (r 0) (r 1) (r 2) (r 3) (r 4) (r 5) (x 0) (x 2) (x 8) (x 13)
  else BODY_60_79 (r 0) (r 1) (r 2) (r 3) (r 4) (r 5) (x 0) (x 2) (x 8) (x 13))%nat.

Lemma sha1_lines_pattern : sha1_lines = line <$> seq 0 80.
Proof. vm_compute. reflexivity. Qed.

(** ** The functions and constants *)

Lemma K_roots_1 : K_00_19 = root30 2.
Proof. vm_compute. reflexivity. Qed.
Lemma K_roots_2 : K_20_39 = root30 3.
Proof. vm_compute. reflexivity. Qed.
Lemma K_roots_3 : K_40_59 = root30 5.
Proof. vm_compute. reflexivity. Qed.
Lemma K_roots_4 : K_60_79 = root30 10.
Proof. vm_compute. reflexivity. Qed.

Lemma F_00_19_fips b c d : F_00_19 b c d = Z.lxor (Z.land b c) (Z.land (Z.lnot b) d).
Proof. unfold F_00_19. bitwise. Qed.

Lemma F_40_59_fips b c d : F_40_59 b c d = Z.lxor (Z.lxor (Z.land b c) (Z.land b d)) (Z.land c d).
Proof. unfold F_40_59. bitwise. Qed.

(** ** Registers by role *)

Lemma reg_index_role t j : reg_index (role t j) = ((j + 5 * t) mod 6)%nat.
Proof.
  unfold role. assert (H : ((j + 5 * t) mod 6 < 6)%nat) by (apply Nat.mod_upper_bound; lia).
  destruct ((j + 5 * t) mod 6)%nat as [|[|[|[|[|[|n]]]]]]; try done. lia.
Qed.

Lemma role_next t j : (j < 5)%nat -> role (t + 1) (S j) = role t j.
Proof. intros H. unfold role. by replace ((S j + 5 * (t + 1)) mod 6)%nat with ((j + 5 * t) mod 6)%nat by lia. Qed.

Lemma role_wrap t : role (t + 1) 0 = role t 5.
Proof. unfold role. by replace ((0 + 5 * (t + 1)) mod 6)%nat with ((5 + 5 * t) mod 6)%nat by lia. Qed.

Lemma get_set_eq r v s : length (regs s) = 6%nat -> get r (set r v s) = v.
Proof. intros H. unfold get, set. simpl. apply list_lookup_total_insert_eq. rewrite H. destruct r; simpl; lia. Qed.

Lemma get_set_role t i j v s : (i < 6)%nat -> (j < 6)%nat -> i <> j -> get (role t i) (set (role t j) v s) = get (role t i) s.
Proof.
  intros Hi Hj Hne. unfold get, set. simpl. apply list_lookup_total_insert_ne. rewrite !reg_index_role.
  zify. Z.to_euclidean_division_equations. lia.
Qed.

Lemma length_set r v s : length (regs (set r v s)) = length (regs s).
Proof. unfold set. simpl. by rewrite length_insert. Qed.

(** The working variables are in the registers of their roles. *)
Record holds (t : nat) (s : Machine) (v : SHA_H) : Prop := {
  ho_length : length (regs s) = 6%nat;
  ho_a : get (role t 0) s = h0 v;
  ho_b : get (role t 1) s = h1 v;
  ho_c : get (role t 2) s = h2 v;
  ho_d : get (role t 3) s = h3 v;
  ho_e : get (role t 4) s = h4 v
}.

Lemma holds_set_free t s v x : holds t s v -> holds t (set (role t 5) x s) v.
Proof.
  intros [Hl Ha Hb Hc Hd He]. constructor; [by rewrite length_set|..]; by rewrite get_set_role by lia.
Qed.

Lemma round_tail_ok W t F K s v :
  holds t s v -> (forall x y z, F x y z = fips_f t x y z) -> K = fips_K t ->
  let s' := round_tail F K (W !!! t) (role t 0) (role t 1) (role t 2) (role t 3) (role t 4) (role t 5) s in
  holds (t + 1) s' (sha1_round W t v) /\ words s' = words s.
Proof.
  intros Hs HF -> s'. destruct (holds_set_free t s v
    (u32 (W !!! t + u32 (u32 (u32 (get (role t 4) s + fips_K t) + ROTATE (get (role t 0) s) 5) +
       F (get (role t 1) s) (get (role t 2) s) (get (role t 3) s)))) Hs) as [Hl Ha Hb Hc Hd He].
  destruct v as [a b c d e]. cbn [h0 h1 h2 h3 h4 sha1_round] in *.
  destruct Hs as [Hl0 Ha0 Hb0 Hc0 Hd0 He0]. cbn [h0 h1 h2 h3 h4] in *.
  unfold s', round_tail. split; [|done].
  constructor; cbn [h0 h1 h2 h3 h4]; rewrite ?length_set; try done.
  - rewrite role_wrap, get_set_role, get_set_eq by (done || lia). rewrite Ha0, Hb0, Hc0, Hd0, He0, HF, ROTATE_ROTL.
    rewrite u32_add_r, !Z.add_assoc. rewrite (Z.add_comm (W !!! t)). rewrite <- Z.add_assoc, u32_add_l.
    rewrite <- !Z.add_assoc, u32_add_l. f_equal. lia.
  - rewrite (role_next t 0), get_set_role by lia. done.
  - rewrite (role_next t 1), get_set_eq by (rewrite ?length_set; done || lia). by rewrite Hb, ROTATE_ROTL.
  - rewrite (role_next t 2), get_set_role by lia. done.
  - rewrite (role_next t 3), get_set_role by lia. done.
Qed.

Lemma Xupdate_unfold a ix ia ib ic id s :
  length (regs s) = 6%nat ->
  let y := Z.lxor (Z.lxor (Z.lxor (words s !!! ia) (words s !!! ib)) (words s !!! ic)) (words s !!! id) in
  Xupdate a ix ia ib ic id s = set_word ix (ROTATE y 1) (set a (ROTATE y 1) (set a y s)).
Proof. intros Hl y. unfold Xupdate. fold y. cbv zeta. rewrite !get_set_eq by (by rewrite ?length_set). done. Qed.

Lemma Xupdate_ok W t s v :
  (16 <= t)%nat -> holds t s v -> ring (words s) W t ->
  W !!! t = ROTL 1 (Z.lxor (Z.lxor (Z.lxor (W !!! (t - 3)%nat) (W !!! (t - 8)%nat)) (W !!! (t - 14)%nat)) (W !!! (t - 16)%nat)) ->
  let s' := Xupdate (role t 5) ((t + 0) mod 16) ((t + 0) mod 16) ((t + 2) mod 16) ((t + 8) mod 16) ((t + 13) mod 16) s in
  holds t s' v /\ get (role t 5) s' = W !!! t /\ words s' = <[(t mod 16)%nat := W !!! t]> (words s).
Proof.
  intros Ht Hs [Hwl Hw] HW s'.
  assert (E : ROTATE (Z.lxor (Z.lxor (Z.lxor (words s !!! ((t + 0) mod 16)%nat) (words s !!! ((t + 2) mod 16)%nat))
     (words s !!! ((t + 8) mod 16)%nat)) (words s !!! ((t + 13) mod 16)%nat)) 1 = W !!! t).
  { rewrite !Hw, ROTATE_ROTL, HW by lia. replace (t + 0 - 16)%nat with (t - 16)%nat by lia.
    replace (t + 2 - 16)%nat with (t - 14)%nat by lia. replace (t + 8 - 16)%nat with (t - 8)%nat by lia.
    replace (t + 13 - 16)%nat with (t - 3)%nat by lia. f_equal. bitwise. }
  pose proof (Xupdate_unfold (role t 5) ((t + 0) mod 16) ((t + 0) mod 16) ((t + 2) mod 16) ((t + 8) mod 16) ((t + 13) mod 16) s
    (ho_length _ _ _ Hs)) as X. cbv zeta in X. rewrite E in X. subst s'. rewrite X.
  match goal with |- context [set_word _ _ (set _ _ ?s0)] => set (s1 := s0) end.
  assert (H1 : holds t s1 v) by (by apply holds_set_free).
  assert (H2 : holds t (set (role t 5) (W !!! t) s1) v) by (by apply holds_set_free).
  split; [by destruct H2|]. split; [apply get_set_eq, H1|]. simpl. by rewrite Nat.add_0_r.
Qed.

(** One line is one round. *)
Lemma line_ok W t s v :
  (t < 80)%nat -> holds t s v -> ring (words s) W (Nat.max 16 t) -> (forall j, (j < 16)%nat -> (t < 16)%nat -> words s !!! j = W !!! j) ->
  ((16 <= t)%nat -> W !!! t = ROTL 1 (Z.lxor (Z.lxor (Z.lxor (W !!! (t - 3)%nat) (W !!! (t - 8)%nat)) (W !!! (t - 14)%nat)) (W !!! (t - 16)%nat))) ->
  holds (t + 1) (exec (line t) s) (sha1_round W t v) /\ ring (words (exec (line t) s)) W (Nat.max 16 (t + 1)) /\
  (forall j, (j < 16)%nat -> (t + 1 < 16)%nat -> words (exec (line t) s) !!! j = W !!! j).
Proof.
  intros Ht Hs Hr Hf HW.
  destruct (decide (t < 16)%nat) as [Hlt|Hge].
  - unfold line. rewrite (proj2 (Nat.ltb_lt t 16) Hlt). cbn [exec]. rewrite Hf by lia.
    destruct (round_tail_ok W t F_00_19 K_00_19 s v Hs) as [Hh Hw].
    { intros x y z. unfold fips_f. rewrite (proj2 (Nat.ltb_lt t 20)) by lia. apply F_00_19_fips. }
    { unfold fips_K. by rewrite K_roots_1, (proj2 (Nat.ltb_lt t 20)) by lia. }
    rewrite Hw. split; [done|]. replace (Nat.max 16 (t + 1)) with 16%nat by lia. replace (Nat.max 16 t) with 16%nat in Hr by lia.
    split; [done|]. intros j Hj _. by apply Hf.
  - replace (Nat.max 16 t) with t in Hr by lia. replace (Nat.max 16 (t + 1)) with (t + 1)%nat by lia.
    destruct (Xupdate_ok W t s v ltac:(lia) Hs Hr (HW ltac:(lia))) as (H1 & G1 & E1).
    pose proof (ring_step _ _ t ltac:(lia) Hr) as R1. rewrite <- E1 in R1.
    set (s1 := Xupdate _ _ _ _ _ _ s) in *.
    assert (Fin : forall F K, (forall x y z, F x y z = fips_f t x y z) -> K = fips_K t ->
      let s' := round_tail F K (W !!! t) (role t 0) (role t 1) (role t 2) (role t 3) (role t 4) (role t 5) s1 in
      holds (t + 1) s' (sha1_round W t v) /\ ring (words s') W (t + 1) /\
      (forall j, (j < 16)%nat -> (t + 1 < 16)%nat -> words s' !!! j = W !!! j)).
    { intros F K HF HK s'. destruct (round_tail_ok W t F K s1 v H1 HF HK) as [Hh Hw]. unfold s'. rewrite Hw.
      split; [done|]. split; [done|]. intros j _ ?. lia. }
    assert (Wx : words s1 !!! ((t + 0) mod 16)%nat = W !!! t).
    { rewrite E1, Nat.add_0_r. apply list_lookup_total_insert_eq. rewrite (rg_length _ _ _ Hr). lia. }
    unfold line. destruct (Nat.ltb_spec t 16); [lia|].
    destruct (Nat.ltb_spec t 20); [|destruct (Nat.ltb_spec t 32); [|destruct (Nat.ltb_spec t 40); [|destruct (Nat.ltb_spec t 60)]]];
      cbn [exec]; fold s1; rewrite ?G1, ?Wx; apply Fin; unfold fips_f, fips_K, F_60_79, F_20_39;
      repeat match goal with |- context [(?a <? ?b)%nat] => destruct (Nat.ltb_spec a b); try lia end;
      intros; auto using F_00_19_fips, F_40_59_fips, K_roots_1, K_roots_2, K_roots_3, K_roots_4.
Qed.

(** ** The block *)

Definition sha1_scheduled (W : list Z) : Prop :=
  forall t, (16 <= t < 80)%nat ->
    W !!! t = ROTL 1 (Z.lxor (Z.lxor (Z.lxor (W !!! (t - 3)%nat) (W !!! (t - 8)%nat)) (W !!! (t - 14)%nat)) (W !!! (t - 16)%nat)).

Lemma sha1_schedule_scheduled p : sha1_scheduled (sha1_schedule (block_words p)).
Proof.
  intros t Ht. unfold sha1_schedule. destruct (extend_next sha1_next_word 64 (block_words p) t) as (P & E & Hl & HP).
  { rewrite length_block_words. lia. }
  rewrite E. unfold sha1_next_word at 1. rewrite Hl, !HP by lia. reflexivity.
Qed.

Lemma sha1_schedule_first p j : (j < 16)%nat -> block_words p !!! j = sha1_schedule (block_words p) !!! j.
Proof. intros Hj. symmetry. by apply extend_prefix. Qed.

Lemma lines_ok W n t s v :
  sha1_scheduled W -> (t + n <= 80)%nat -> holds t s v -> ring (words s) W (Nat.max 16 t) ->
  (forall j, (j < 16)%nat -> (t < 16)%nat -> words s !!! j = W !!! j) ->
  holds (t + n) (foldl (fun s i => exec i s) s (line <$> seq t n)) (foldl (fun v t => sha1_round W t v) v (seq t n)).
Proof.
  intros HW. revert t s v. induction n as [|n IH]; intros t s v Hn Hs Hr Hf; [by rewrite Nat.add_0_r|].
  destruct (line_ok W t s v) as (Hs' & Hr' & Hf'); [lia|done|done|done|intros; apply HW; lia|].
  cbn [seq fmap list_fmap foldl]. replace (S t) with (t + 1)%nat by lia. replace (t + S n)%nat with (t + 1 + n)%nat by lia.
  apply IH; [lia|done|done|done].
Qed.

#[local] Opaque sha1_schedule block_words exec sha1_round line.

Lemma sha1_block_fips p h : sha1_block p h = sha1_fips_block p h.
Proof.
  unfold sha1_block, sha1_fips_block. rewrite sha1_lines_pattern, <- block_words_be. cbv zeta.
  pose proof (lines_ok (sha1_schedule (block_words p)) 80 0
    (mkMachine [h0 h; h1 h; h2 h; h3 h; h4 h; 0] (block_words p)) h) as L.
  destruct L as [_ La Lb Lc Ld Le]; [apply sha1_schedule_scheduled|lia|by destruct h|..].
  { apply ring_first; [apply length_block_words|apply sha1_schedule_first]. }
  { intros j Hj _. by apply sha1_schedule_first. }
  change (role (0 + 80) 0) with E in La. change (role (0 + 80) 1) with T in Lb. change (role (0 + 80) 2) with A in Lc.
  change (role (0 + 80) 3) with B in Ld. change (role (0 + 80) 4) with C in Le.
  rewrite La, Lb, Lc, Ld, Le.
  by destruct (foldl (fun v t => sha1_round _ t v) h (seq 0 80)).
Qed.

Lemma sha1_digest msg : digest sha1_block sha1_length sha1_make_string SHA1_Init msg = fips_sha1 msg.
Proof.
  change SHA1_Init with fips_H1. apply digest_standard; [apply sha1_block_fips|..].
  - intros x. unfold sha1_length. by rewrite !HOST_l2c_be, be_bytes_split.
  - intros h. unfold sha1_make_string. by rewrite !HOST_l2c_be.
Qed.

(** C31: SHA-1 is that of FIPS 180-4: for every message and every way of
    cutting it into pieces, [SHA1_Update] and [SHA1_Final] run without
    leaving the 64-byte buffer and give the digest of the standard, and so
    does the one-shot [SHA1]: the eighty lines of the block function, with
    their six rotating registers and sixteen recycled words, are the eighty
    rounds with the message schedule, the constants are the roots, and the
    padding and output are those of the standard. *)
Theorem sha1_is_fips ps :
  (exists c c', update_all sha1_block (fresh_ctx SHA1_Init) ps = Ok c /\ SHA1_Final c = Ok (fips_sha1 (mjoin ps), c')) /\
  SHA1 (mjoin ps) = Ok (fips_sha1 (mjoin ps)).
Proof.
  rewrite <- sha1_digest. split; [by apply update_final|]. unfold SHA1. by rewrite update_once.
Qed.
