(* ===== verification/Md5.v ===== *)
(** * Md5: MD5

    Models [src/fastsocks/cpp/boringssl/crypto/md5/md5.c] over the collector
    of [Md32.v], and shows that it computes the digest of RFC 1321.  As in
    [Sha1.v] the lines of the block function are kept as a list of macro
    calls, and the words of the block are loaded before the first one. *)

From S2P Require Import Prelude.
From S2P Require Import Md32.
From Stdlib Require Import ZifyNat.

(** ** The code *)

Definition F (b c d : Z) : Z := Z.lxor (Z.land (Z.lxor c d) b) d.
Definition G (b c d : Z) : Z := Z.lxor (Z.land (Z.lxor b c) d) c.
Definition H (b c d : Z) : Z := Z.lxor (Z.lxor b c) d.
Definition I (b c d : Z) : Z := Z.lxor (Z.lor (u32 (Z.lnot d)) b) c.

Inductive reg : Type := A | B | C | D.

Definition reg_index (r : reg) : nat := match r with A => 0 | B => 1 | C => 2 | D => 3 end.

(** A macro call: registers, the number of the word, shift and constant. *)
Inductive step : Type :=
  | R0 (a b c d : reg) (k : nat) (s t : Z)
  | R1 (a b c d : reg) (k : nat) (s t : Z)
  | R2 (a b c d : reg) (k : nat) (s t : Z)
  | R3 (a b c d : reg) (k : nat) (s t : Z).

Definition get (r : reg) (st : list Z) : Z := st !!! reg_index r.
Definition set (r : reg) (v : Z) (st : list Z) : list Z := <[reg_index r := v]> st.

(** [a += k + t + F(b, c, d); a = ROTATE(a, s); a += b;] *)
Definition R (f : Z -> Z -> Z -> Z) (a b c d : reg) (k s t : Z) (st : list Z) : list Z :=
  let st := set a (u32 (get a st + (k + t + f (get b st) (get c st) (get d st)))) st in
  let st := set a (ROTATE (get a st) s) st in
  set a (u32 (get a st + get b st)) st.

Definition exec (X : list Z) (i : step) (st : list Z) : list Z :=
  match i with
  | R0 a b c d k s t => R F a b c d (X !!! k) s t st
  | R1 a b c d k s t => R G a b c d (X !!! k) s t st
  | R2 a b c d k s t => R H a b c d (X !!! k) s t st
  | R3 a b c d k s t => R I a b c d (X !!! k) s t st
  end.

(** The lines of the block function. *)
Definition md5_lines : list step :=
  [R0 A B C D 0 7 3614090360; R0 D A B C 1 12 3905402710;
   R0 C D A B 2 17 606105819; R0 B C D A 3 22 3250441966;
   R0 A B C D 4 7 4118548399; R0 D A B C 5 12 1200080426;
   R0 C D A B 6 17 2821735955; R0 B C D A 7 22 4249261313;
   R0 A B C D 8 7 1770035416; R0 D A B C 9 12 2336552879;
   R0 C D A B 10 17 4294925233; R0 B C D A 11 22 2304563134;
   R0 A B C D 12 7 1804603682; R0 D A B C 13 12 4254626195;
   R0 C D A B 14 17 2792965006; R0 B C D A 15 22 1236535329;
   R1 A B C D 1 5 4129170786; R1 D A B C 6 9 3225465664;
   R1 C D A B 11 14 643717713; R1 B C D A 0 20 3921069994;
   R1 A B C D 5 5 3593408605; R1 D A B C 10 9 38016083;
   R1 C D A B 15 14 3634488961; R1 B C D A 4 20 3889429448;
   R1 A B C D 9 5 568446438; R1 D A B C 14 9 3275163606;
   R1 C D A B 3 14 4107603335; R1 B C D A 8 20 1163531501;
   R1 A B C D 13 5 2850285829; R1 D A B C 2 9 4243563512;
   R1 C D A B 7 14 1735328473; R1 B C D A 12 20 2368359562;
   R2 A B C D 5 4 4294588738; R2 D A B C 8 11 2272392833;
   R2 C D A B 11 16 1839030562; R2 B C D A 14 23 4259657740;
   R2 A B C D 1 4 2763975236; R2 D A B C 4 11 1272893353;
   R2 C D A B 7 16 4139469664; R2 B C D A 10 23 3200236656;
   R2 A B C D 13 4 681279174; R2 D A B C 0 11 3936430074;
   R2 C D A B 3 16 3572445317; R2 B C D A 6 23 76029189;
   R2 A B C D 9 4 3654602809; R2 D A B C 12 11 3873151461;
   R2 C D A B 15 16 530742520; R2 B C D A 2 23 3299628645;
   R3 A B C D 0 6 4096336452; R3 D A B C 7 10 1126891415;
   R3 C D A B 14 15 2878612391; R3 B C D A 5 21 4237533241;
   R3 A B C D 12 6 1700485571; R3 D A B C 3 10 2399980690;
   R3 C D A B 10 15 4293915773; R3 B C D A 1 21 2240044497;
   R3 A B C D 8 6 1873313359; R3 D A B C 15 10 4264355552;
   R3 C D A B 6 15 2734768916; R3 B C D A 13 21 1309151649;
   R3 A B C D 4 6 4149444226; R3 D A B C 11 10 3174756917;
   R3 C D A B 2 15 718787259; R3 B C D A 9 21 3951481745].

(** The chaining value: the members [A], [B], [C] and [D]. *)
Record MD5_H : Type := mkMD5 { hA : Z; hB : Z; hC : Z; hD : Z }.

Definition md5_block (p : list Z) (h : MD5_H) : MD5_H :=
  let st := foldl (fun st i => exec (block_words_le p) i st) [hA h; hB h; hC h; hD h] md5_lines in
  mkMD5 (u32 (hA h + get A st)) (u32 (hB h + get B st)) (u32 (hC h + get C st)) (u32 (hD h + get D st)).

Definition MD5_Init : MD5_H := mkMD5 1732584193 4023233417 2562383102 271733878.

Definition md5_make_string (h : MD5_H) : list Z :=
  HOST_l2c_le (hA h) ++ HOST_l2c_le (hB h) ++ HOST_l2c_le (hC h) ++ HOST_l2c_le (hD h).

Definition md5_length (Nh Nl : Z) : list Z := HOST_l2c_le Nl ++ HOST_l2c_le Nh.

Abbreviation MD5_Update := (HASH_UPDATE md5_block).
Abbreviation MD5_Final := (HASH_FINAL md5_block md5_length md5_make_string).

Definition MD5 (data : list Z) : res (list Z) :=
  c ← MD5_Update (fresh_ctx MD5_Init) data; fst <$> MD5_Final c.

Example md5_abc :
  MD5 [97; 98; 99] = Ok [144; 1; 80; 152; 60; 210; 79; 176; 214; 150; 63; 125; 40; 225; 127; 114].
Proof. vm_compute. reflexivity. Qed.

(** ** RFC 1321, section 3 *)

(** The four functions. *)
Definition rfc_F (i : nat) (x y z : Z) : Z :=
  match (i / 16)%nat with
  | 0%nat => Z.lor (Z.land x y) (Z.land (Z.lnot x) z)
  | 1%nat => Z.lor (Z.land x z) (Z.land y (Z.lnot z))
  | 2%nat => Z.lxor (Z.lxor x y) z
  | _ => Z.lxor y (Z.lor x (u32 (Z.lnot z)))
  end.

(** The word and the shift of a step. *)
Definition rfc_word (i : nat) : nat :=
  (match i / 16 with 0 => i | 1 => (5 * i + 1) mod 16 | 2 => (3 * i + 5) mod 16 | _ => (7 * i) mod 16 end)%nat.

Definition rfc_shift (i : nat) : Z :=
  match (i / 16)%nat with
  | 0%nat => [7; 12; 17; 22] | 1%nat => [5; 9; 14; 20] | 2%nat => [4; 11; 16; 23] | _ => [6; 10; 15; 21]
  end !!! (i mod 4)%nat.

(** The table: the integer part of 4294967296 times the absolute value of the
    sine of [i], in radians.  The sine is the Taylor polynomial with 120
    terms, as a fraction; at 64 its error is below 10 ^ -30. *)
Fixpoint taylor (n : nat) (k x2 : Z) : Z * Z :=
  match n with
  | O => (1, 1)
  | S n' => let '(p, q) := taylor n' (k + 2) x2 in (k * (k + 1) * q - x2 * p, k * (k + 1) * q)
  end.

Definition rfc_T (i : Z) : Z := let '(p, q) := taylor 119 2 (i * i) in 4294967296 * Z.abs (i * p) / q.

(** Step [i] computes [a = b + ((a + F(b, c, d) + X[k] + T[i + 1]) <<< s)]
    and the roles move on. *)
Definition rfc_step (X : list Z) (i : nat) (v : MD5_H) : MD5_H :=
  let 'mkMD5 a b c d := v in
  mkMD5 d (u32 (b + ROTL (rfc_shift i) (u32 (a + rfc_F i b c d + X !!! rfc_word i + rfc_T (Z.of_nat i + 1))))) b c.

Definition rfc_block (p : list Z) (h : MD5_H) : MD5_H :=
  let X := (fun i => le_word p (4 * i)) <$> seq 0 16 in
  let 'mkMD5 a b c d := foldl (fun v i => rfc_step X i v) h (seq 0 64) in
  mkMD5 (u32 (hA h + a)) (u32 (hB h + b)) (u32 (hC h + c)) (u32 (hD h + d)).

(** The words of the initial value are given by their bytes. *)
Definition rfc_init : MD5_H :=
  mkMD5 (le_word [1; 35; 69; 103] 0) (le_word [137; 171; 205; 239] 0) (le_word [254; 220; 186; 152] 0)
    (le_word [118; 84; 50; 16] 0).

Definition rfc_digest (msg : list Z) : list Z :=
  standard_digest rfc_block le_bytes (fun h => mjoin (le_bytes 4 <$> [hA h; hB h; hC h; hD h])) rfc_init msg.

(** ** The lines are the steps *)

Definition role (i j : nat) : reg := match (j + 3 * i) mod 4 with 0 => A | 1 => B | 2 => C | _ => D end%nat.

Definition line (i : nat) : step :=
  (match (i / 16)%nat with 0%nat => R0 | 1%nat => R1 | 2%nat => R2 | _ => R3 end)
    (role i 0) (role i 1) (role i 2) (role i 3) (rfc_word i) (rfc_shift i) (rfc_T (Z.of_nat i + 1)).

Lemma md5_lines_pattern : md5_lines = line <$> seq 0 64.
Proof. vm_compute. reflexivity. Qed.

Lemma F_rfc x y z : F x y z = Z.lor (Z.land x y) (Z.land (Z.lnot x) z).
Proof. unfold F. bitwise. Qed.

Lemma G_rfc x y z : G x y z = Z.lor (Z.land x z) (Z.land y (Z.lnot z)).
Proof. unfold G. bitwise. Qed.

Lemma I_rfc x y z : I x y z = Z.lxor y (Z.lor x (u32 (Z.lnot z))).
Proof. unfold I. bitwise. Qed.

(** ** Registers by role *)

Lemma md5_reg_index_role i j : reg_index (role i j) = ((j + 3 * i) mod 4)%nat.
Proof.
  unfold role. assert (L : ((j + 3 * i) mod 4 < 4)%nat) by (apply Nat.mod_upper_bound; lia).
  destruct ((j + 3 * i) mod 4)%nat as [|[|[|[|n]]]]; try done. lia.
Qed.

Lemma md5_role_next i j : (j < 3)%nat -> role (i + 1) (S j) = role i j.
Proof. intros L. unfold role. by replace ((S j + 3 * (i + 1)) mod 4)%nat with ((j + 3 * i) mod 4)%nat by lia. Qed.

Lemma md5_role_wrap i : role (i + 1) 0 = role i 3.
Proof. unfold role. by replace ((0 + 3 * (i + 1)) mod 4)%nat with ((3 + 3 * i) mod 4)%nat by lia. Qed.

Lemma md5_get_set_eq r v st : length st = 4%nat -> get r (set r v st) = v.
Proof. intros L. unfold get, set. apply list_lookup_total_insert_eq. rewrite L. destruct r; simpl; lia. Qed.

Lemma md5_get_set_role i j k v st : (j < 4)%nat -> (k < 4)%nat -> j <> k -> get (role i j) (set (role i k) v st) = get (role i j) st.
Proof.
  intros Hj Hk Hne. unfold get, set. apply list_lookup_total_insert_ne. rewrite !md5_reg_index_role.
  zify. Z.to_euclidean_division_equations. lia.
Qed.

Lemma md5_length_set r v st : length (set r v st) = length st.
Proof. apply length_insert. Qed.

(** The variables of the standard are in the registers of their roles. *)
Record holds (i : nat) (st : list Z) (v : MD5_H) : Prop := {
  ho_length : length st = 4%nat;
  ho_a : get (role i 0) st = hA v;
  ho_b : get (role i 1) st = hB v;
  ho_c : get (role i 2) st = hC v;
  ho_d : get (role i 3) st = hD v
}.

Lemma R_ok X i f st v :
  holds i st v -> (forall x y z, f x y z = rfc_F i x y z) ->
  holds (i + 1)
    (R f (role i 0) (role i 1) (role i 2) (role i 3) (X !!! rfc_word i) (rfc_shift i) (rfc_T (Z.of_nat i + 1)) st)
    (rfc_step X i v).
Proof.
  intros [Hl Ha Hb Hc Hd] Hf. destruct v as [a b c d]. cbn [hA hB hC hD] in *. unfold R, rfc_step.
  constructor; cbn [hA hB hC hD]; rewrite ?md5_length_set; try done.
  - by rewrite md5_role_wrap, !md5_get_set_role by lia.
  - rewrite (md5_role_next i 0), !md5_get_set_eq, !md5_get_set_role, Ha, Hb, Hc, Hd, Hf, ROTATE_ROTL by (rewrite ?md5_length_set; done || lia).
    rewrite (Z.add_comm b). do 4 f_equal. lia.
  - by rewrite (md5_role_next i 1), !md5_get_set_role by lia.
  - by rewrite (md5_role_next i 2), !md5_get_set_role by lia.
Qed.

#[local] Opaque R rfc_step rfc_T.

Lemma md5_line_ok X i st v : (i < 64)%nat -> holds i st v -> holds (i + 1) (exec X (line i) st) (rfc_step X i v).
Proof.
  intros Hi Hs. assert (Hq : (i / 16 < 4)%nat) by (apply Nat.Div0.div_lt_upper_bound; lia). unfold line.
  destruct (i / 16)%nat as [|[|[|n]]] eqn:Eq; cbn [exec]; apply R_ok; try done; intros x y z; unfold rfc_F; rewrite Eq.
  - apply F_rfc.
  - apply G_rfc.
  - done.
  - apply I_rfc.
Qed.

Lemma md5_lines_ok X n i st v :
  (i + n <= 64)%nat -> holds i st v ->
  holds (i + n) (foldl (fun st i => exec X i st) st (line <$> seq i n)) (foldl (fun v i => rfc_step X i v) v (seq i n)).
Proof.
  revert i st v. induction n as [|n IH]; intros i st v Hn Hs; [by rewrite Nat.add_0_r|].
  cbn [seq fmap list_fmap foldl]. replace (S i) with (i + 1)%nat by lia. replace (i + S n)%nat with (i + 1 + n)%nat by lia.
  apply IH; [lia|]. apply md5_line_ok; [lia|done].
Qed.

#[local] Opaque exec line.

Lemma md5_block_rfc p h : md5_block p h = rfc_block p h.
Proof.
  unfold md5_block, rfc_block. rewrite md5_lines_pattern, <- block_words_le_le. cbv zeta.
  destruct (md5_lines_ok (block_words_le p) 64 0 [hA h; hB h; hC h; hD h] h) as [_ La Lb Lc Ld]; [lia|by destruct h|].
  change (role (0 + 64) 0) with A in La. change (role (0 + 64) 1) with B in Lb.
  change (role (0 + 64) 2) with C in Lc. change (role (0 + 64) 3) with D in Ld.
  rewrite La, Lb, Lc, Ld. by destruct (foldl (fun v i => rfc_step _ i v) h (seq 0 64)).
Qed.

Lemma md5_digest msg : digest md5_block md5_length md5_make_string MD5_Init msg = rfc_digest msg.
Proof.
  change MD5_Init with rfc_init. apply digest_standard; [apply md5_block_rfc|..].
  - intros x. unfold md5_length. by rewrite !HOST_l2c_le_le, le_bytes_split.
  - intros h. unfold md5_make_string. by rewrite !HOST_l2c_le_le.
Qed.

(** C34: MD5 is that of RFC 1321: for every message and every way of cutting
    it into pieces, [MD5_Update] and [MD5_Final] run without leaving the
    64-byte buffer and give the digest of the standard, and so does the
    one-shot [MD5]: the sixty-four lines of the block function are the steps
    of the standard, with its order of the words and its table of sines, and
    the padding and output are little-endian. *)
Theorem md5_is_rfc1321 ps :
  (exists c c', update_all md5_block (fresh_ctx MD5_Init) ps = Ok c /\ MD5_Final c = Ok (rfc_digest (mjoin ps), c')) /\
  MD5 (mjoin ps) = Ok (rfc_digest (mjoin ps)).
Proof.
  rewrite <- md5_digest. split; [by apply update_final|]. unfold MD5. by rewrite update_once.
Qed.
