(* ===== verification/Poly1305.v ===== *)
(** * Poly1305: the one-time authenticator of BoringSSL

    Models the portable C code of
    [src/fastsocks/cpp/boringssl/crypto/poly1305/poly1305.c]: the accumulator
    and the key are five limbs of 26 bits, the products are summed at 64 bits
    and carried once.  The NEON branches are left out.

    Shown: in every number of calls the code computes the accumulator of
    RFC 7539 modulo 2^130 - 5 without an overflow, and the tag is that of
    the RFC unless the accumulator ends a little above a multiple of 2^27
    below 2^32; there the final carry is lost, and a key and message are
    given for which the tag is wrong. *)

From S2P Require Import Prelude.
From S2P Require Import FormatTools.
From S2P Require Import Words.
From S2P Require Import Md32.
From Stdlib Require Import ZifyNat.

(** ** The code *)

(** [memcpy] between four bytes and a word of a little-endian host. *)
Definition U8TO32_LE (m : list Z) (off : Z) : res Z := le_value <$> read_at m off 4.
Definition U32TO8_LE (v : Z) : list Z := le_bytes 4 (u32 v).

Definition mul32x32_64 (a b : Z) : Z := u64 (a * b).

Record poly1305_state_st : Type := mkPoly {
  r0 : Z; r1 : Z; r2 : Z; r3 : Z; r4 : Z;
  s1 : Z; s2 : Z; s3 : Z; s4 : Z;
  h0 : Z; h1 : Z; h2 : Z; h3 : Z; h4 : Z;
  buf : list Z;
  buf_used : Z;
  key : list Z;
}.

(** [state->h0 = a0; ...; state->h4 = a4;] *)
Definition with_h (st : poly1305_state_st) (h : Z * Z * Z * Z * Z) : poly1305_state_st :=
  let '(a0, a1, a2, a3, a4) := h in
  mkPoly (r0 st) (r1 st) (r2 st) (r3 st) (r4 st) (s1 st) (s2 st) (s3 st) (s4 st) a0 a1 a2 a3 a4
    (buf st) (buf_used st) (key st).

(** [state->buf = b; state->buf_used = n;] *)
Definition with_buf (st : poly1305_state_st) (b : list Z) (n : Z) : poly1305_state_st :=
  mkPoly (r0 st) (r1 st) (r2 st) (r3 st) (r4 st) (s1 st) (s2 st) (s3 st) (s4 st) (h0 st) (h1 st) (h2 st) (h3 st)
    (h4 st) b n (key st).

(** The lines that add a block to the accumulator; [top] is what goes to
    [h4]: [(t3 >> 8) | (1 << 24)] for a whole block, [t3 >> 8] for the last. *)
Definition add_block (st : poly1305_state_st) (t0 t1 t2 t3 top : Z) : poly1305_state_st :=
  with_h st
    (u32 (h0 st + Z.land t0 0x3ffffff),
     u32 (h1 st + Z.land (Z.shiftr (Z.lor (u64 (Z.shiftl t1 32)) t0) 26) 0x3ffffff),
     u32 (h2 st + Z.land (Z.shiftr (Z.lor (u64 (Z.shiftl t2 32)) t1) 20) 0x3ffffff),
     u32 (h3 st + Z.land (Z.shiftr (Z.lor (u64 (Z.shiftl t3 32)) t2) 14) 0x3ffffff),
     u32 (h4 st + top)).

(** The sums [t[0]] to [t[4]]. *)
Definition products (st : poly1305_state_st) : Z * Z * Z * Z * Z :=
  (u64 (mul32x32_64 (h0 st) (r0 st) + mul32x32_64 (h1 st) (s4 st) + mul32x32_64 (h2 st) (s3 st) +
        mul32x32_64 (h3 st) (s2 st) + mul32x32_64 (h4 st) (s1 st)),
   u64 (mul32x32_64 (h0 st) (r1 st) + mul32x32_64 (h1 st) (r0 st) + mul32x32_64 (h2 st) (s4 st) +
        mul32x32_64 (h3 st) (s3 st) + mul32x32_64 (h4 st) (s2 st)),
   u64 (mul32x32_64 (h0 st) (r2 st) + mul32x32_64 (h1 st) (r1 st) + mul32x32_64 (h2 st) (r0 st) +
        mul32x32_64 (h3 st) (s4 st) + mul32x32_64 (h4 st) (s3 st)),
   u64 (mul32x32_64 (h0 st) (r3 st) + mul32x32_64 (h1 st) (r2 st) + mul32x32_64 (h2 st) (r1 st) +
        mul32x32_64 (h3 st) (r0 st) + mul32x32_64 (h4 st) (s4 st)),
   u64 (mul32x32_64 (h0 st) (r4 st) + mul32x32_64 (h1 st) (r3 st) + mul32x32_64 (h2 st) (r2 st) +
        mul32x32_64 (h3 st) (r1 st) + mul32x32_64 (h4 st) (r0 st))).

(** [(uint32_t) x & 0x3ffffff] *)
Definition limb (x : Z) : Z := Z.land (u32 x) 0x3ffffff.

Definition carry_limbs (t : Z * Z * Z * Z * Z) : Z * Z * Z * Z * Z :=
  let '(t0, t1, t2, t3, t4) := t in
  let a0 := limb t0 in
  let c := Z.shiftr t0 26 in
  let t1 := u64 (t1 + c) in
  let a1 := limb t1 in
  let b := u32 (Z.shiftr t1 26) in
  let t2 := u64 (t2 + b) in
  let a2 := limb t2 in
  let b := u32 (Z.shiftr t2 26) in
  let t3 := u64 (t3 + b) in
  let a3 := limb t3 in
  let b := u32 (Z.shiftr t3 26) in
  let t4 := u64 (t4 + b) in
  let a4 := limb t4 in
  let b := u32 (Z.shiftr t4 26) in
  (u32 (a0 + u32 (b * 5)), a1, a2, a3, a4).

Definition poly1305_donna_mul (st : poly1305_state_st) : poly1305_state_st := with_h st (carry_limbs (products st)).

(** The code from the label [poly1305_donna_atmost15bytes]; after its
    multiplication [len] is 0 and the function returns. *)
Definition poly1305_donna_atmost15bytes (st : poly1305_state_st) (inp : list Z) : res poly1305_state_st :=
  if zlen inp =? 0 then Ok st
  else
    let mp := inp ++ [1] ++ replicate (15 - length inp) 0 in
    t0 ← U8TO32_LE mp 0;
    t1 ← U8TO32_LE mp 4;
    t2 ← U8TO32_LE mp 8;
    t3 ← U8TO32_LE mp 12;
    Ok (poly1305_donna_mul (add_block st t0 t1 t2 t3 (Z.shiftr t3 8))).

Fixpoint poly1305_update_loop (fuel : nat) (st : poly1305_state_st) (inp : list Z) : res poly1305_state_st :=
  match fuel with
  | O => Fault OutOfFuel
  | S fuel' =>
      if zlen inp <? 16 then poly1305_donna_atmost15bytes st inp
      else
        t0 ← U8TO32_LE inp 0;
        t1 ← U8TO32_LE inp 4;
        t2 ← U8TO32_LE inp 8;
        t3 ← U8TO32_LE inp 12;
        poly1305_update_loop fuel'
          (poly1305_donna_mul (add_block st t0 t1 t2 t3 (Z.lor (Z.shiftr t3 8) (Z.shiftl 1 24)))) (drop 16 inp)
  end.

(** A turn takes sixteen bytes. *)
Definition poly1305_update (st : poly1305_state_st) (inp : list Z) : res poly1305_state_st :=
  poly1305_update_loop (S (length inp)) st inp.

(** [buffer] is what the memory held where the state was placed. *)
Definition CRYPTO_poly1305_init (buffer k : list Z) : res poly1305_state_st :=
  t0 ← U8TO32_LE k 0;
  t1 ← U8TO32_LE k 4;
  t2 ← U8TO32_LE k 8;
  t3 ← U8TO32_LE k 12;
  let a0 := Z.land t0 0x3ffffff in
  let t0 := Z.shiftr t0 26 in
  let t0 := Z.lor t0 (u32 (Z.shiftl t1 6)) in
  let a1 := Z.land t0 0x3ffff03 in
  let t1 := Z.shiftr t1 20 in
  let t1 := Z.lor t1 (u32 (Z.shiftl t2 12)) in
  let a2 := Z.land t1 0x3ffc0ff in
  let t2 := Z.shiftr t2 14 in
  let t2 := Z.lor t2 (u32 (Z.shiftl t3 18)) in
  let a3 := Z.land t2 0x3f03fff in
  let t3 := Z.shiftr t3 8 in
  let a4 := Z.land t3 0x00fffff in
  pad ← read_at k 16 16;
  Ok (mkPoly a0 a1 a2 a3 a4 (u32 (a1 * 5)) (u32 (a2 * 5)) (u32 (a3 * 5)) (u32 (a4 * 5)) 0 0 0 0 0 buffer 0 pad).

(** The first part of [CRYPTO_poly1305_update]: filling the buffer. *)
Definition fill_buf (st : poly1305_state_st) (inp : list Z) : res (poly1305_state_st * list Z) :=
  if buf_used st =? 0 then Ok (st, inp)
  else
    let todo := u32 (16 - buf_used st) in
    let todo := if todo >? zlen inp then zlen inp else todo in
    b ← write_at (buf st) (buf_used st) (slice inp 0 todo);
    let st := with_buf st b (u32 (buf_used st + todo)) in
    let inp := drop (Z.to_nat todo) inp in
    if buf_used st =? 16 then
      st ← poly1305_update st (buf st);
      Ok (with_buf st (buf st) 0, inp)
    else Ok (st, inp).

Definition CRYPTO_poly1305_update (st : poly1305_state_st) (inp : list Z) : res poly1305_state_st :=
  '(st, inp) ← fill_buf st inp;
  '(st, inp) ←
    (if zlen inp >=? 16 then
       let todo := Z.land (zlen inp) (-16) in
       st ← poly1305_update st (slice inp 0 todo);
       Ok (st, drop (Z.to_nat todo) inp)
     else Ok (st, inp));
  if zlen inp =? 0 then Ok st
  else
    b ← write_at (buf st) 0 inp;
    Ok (with_buf st b (zlen inp)).

(** The carries of [CRYPTO_poly1305_finish]. *)
Definition finish_carry (st : poly1305_state_st) : Z * Z * Z * Z * Z :=
  let b := Z.shiftr (h0 st) 26 in
  let a0 := Z.land (h0 st) 0x3ffffff in
  let a1 := u32 (h1 st + b) in
  let b := Z.shiftr a1 26 in
  let a1 := Z.land a1 0x3ffffff in
  let a2 := u32 (h2 st + b) in
  let b := Z.shiftr a2 26 in
  let a2 := Z.land a2 0x3ffffff in
  let a3 := u32 (h3 st + b) in
  let b := Z.shiftr a3 26 in
  let a3 := Z.land a3 0x3ffffff in
  let a4 := u32 (h4 st + b) in
  let b := Z.shiftr a4 26 in
  let a4 := Z.land a4 0x3ffffff in
  (u32 (a0 + u32 (b * 5)), a1, a2, a3, a4).

(** The choice between [h] and [h + 5 - 2^130]. *)
Definition finish_select (h : Z * Z * Z * Z * Z) : Z * Z * Z * Z * Z :=
  let '(a0, a1, a2, a3, a4) := h in
  let g0 := u32 (a0 + 5) in
  let b := Z.shiftr g0 26 in
  let g0 := Z.land g0 0x3ffffff in
  let g1 := u32 (a1 + b) in
  let b := Z.shiftr g1 26 in
  let g1 := Z.land g1 0x3ffffff in
  let g2 := u32 (a2 + b) in
  let b := Z.shiftr g2 26 in
  let g2 := Z.land g2 0x3ffffff in
  let g3 := u32 (a3 + b) in
  let b := Z.shiftr g3 26 in
  let g3 := Z.land g3 0x3ffffff in
  let g4 := u32 (a4 + b - Z.shiftl 1 26) in
  let b := u32 (Z.shiftr g4 31 - 1) in
  let nb := u32 (Z.lnot b) in
  (Z.lor (Z.land a0 nb) (Z.land g0 b), Z.lor (Z.land a1 nb) (Z.land g1 b), Z.lor (Z.land a2 nb) (Z.land g2 b),
   Z.lor (Z.land a3 nb) (Z.land g3 b), Z.lor (Z.land a4 nb) (Z.land g4 b)).

(** The words of the tag. *)
Definition finish_tag (h : Z * Z * Z * Z * Z) (k : list Z) : res (list Z) :=
  let '(a0, a1, a2, a3, a4) := h in
  k0 ← U8TO32_LE k 0;
  k1 ← U8TO32_LE k 4;
  k2 ← U8TO32_LE k 8;
  k3 ← U8TO32_LE k 12;
  let f0 := u64 (Z.lor a0 (u32 (Z.shiftl a1 26)) + k0) in
  let f1 := u64 (Z.lor (Z.shiftr a1 6) (u32 (Z.shiftl a2 20)) + k1) in
  let f2 := u64 (Z.lor (Z.shiftr a2 12) (u32 (Z.shiftl a3 14)) + k2) in
  let f3 := u64 (Z.lor (Z.shiftr a3 18) (u32 (Z.shiftl a4 8)) + k3) in
  let f1 := u64 (f1 + Z.shiftr f0 32) in
  let f2 := u64 (f2 + Z.shiftr f1 32) in
  let f3 := u64 (f3 + Z.shiftr f2 32) in
  Ok (U32TO8_LE f0 ++ U32TO8_LE f1 ++ U32TO8_LE f2 ++ U32TO8_LE f3).

Definition CRYPTO_poly1305_finish (st : poly1305_state_st) : res (list Z * poly1305_state_st) :=
  st ← (if buf_used st =? 0 then Ok st else
          bs ← read_at (buf st) 0 (buf_used st);
          poly1305_update st bs);
  let h := finish_select (finish_carry st) in
  mac ← finish_tag h (key st);
  Ok (mac, with_h st h).

(** [init], the data in pieces, [finish]. *)
Fixpoint updates (st : poly1305_state_st) (ps : list (list Z)) : res poly1305_state_st :=
  match ps with
  | [] => Ok st
  | p :: ps => st ← CRYPTO_poly1305_update st p; updates st ps
  end.

Definition poly1305_mac (buffer k : list Z) (ps : list (list Z)) : res (list Z) :=
  st ← CRYPTO_poly1305_init buffer k;
  st ← updates st ps;
  fst <$> CRYPTO_poly1305_finish st.

(** ** RFC 7539, section 2.5 *)

Definition P1305 : Z := 2 ^ 130 - 5.
Definition clamp (r : Z) : Z := Z.land r 0x0ffffffc0ffffffc0ffffffc0fffffff.

Definition blocks16 (m : list Z) : list (list Z) :=
  (fun i => take 16 (drop (16 * i) m)) <$> seq 0 ((length m + 15) / 16).

Definition rfc_step (r a : Z) (block : list Z) : Z := (a + le_value (block ++ [1])) * r mod P1305.
Definition rfc_acc (r : Z) (m : list Z) : Z := foldl (rfc_step r) 0 (blocks16 m).

Definition rfc_r (k : list Z) : Z := clamp (le_value (take 16 k)).
Definition rfc_tag (k m : list Z) : list Z := le_bytes 16 (rfc_acc (rfc_r k) m + le_value (drop 16 k)).

(** The example of section 2.5.2. *)
Definition rfc_poly_key : list Z :=
  [133; 214; 190; 120; 87; 85; 109; 51; 127; 68; 82; 254; 66; 213; 6; 168;
   1; 3; 128; 138; 251; 13; 178; 253; 74; 191; 246; 175; 65; 73; 245; 27].
Definition rfc_poly_text : list Z :=
  [67; 114; 121; 112; 116; 111; 103; 114; 97; 112; 104; 105; 99; 32; 70; 111; 114;
   117; 109; 32; 82; 101; 115; 101; 97; 114; 99; 104; 32; 71; 114; 111; 117; 112].

Example poly1305_rfc :
  poly1305_mac (replicate 16 7) rfc_poly_key [rfc_poly_text] =
    Ok [168; 6; 29; 193; 48; 81; 54; 198; 194; 43; 139; 175; 12; 1; 39; 169] /\
  rfc_tag rfc_poly_key rfc_poly_text = [168; 6; 29; 193; 48; 81; 54; 198; 194; 43; 139; 175; 12; 1; 39; 169].
Proof. by vm_compute. Qed.

(** ** Limbs *)

(** The number five limbs stand for. *)
Definition val (h : Z * Z * Z * Z * Z) : Z :=
  let '(a0, a1, a2, a3, a4) := h in a0 + 2 ^ 26 * a1 + 2 ^ 52 * a2 + 2 ^ 78 * a3 + 2 ^ 104 * a4.

Definition limbs (st : poly1305_state_st) : Z * Z * Z * Z * Z := (h0 st, h1 st, h2 st, h3 st, h4 st).
Definition r_limbs (st : poly1305_state_st) : Z * Z * Z * Z * Z := (r0 st, r1 st, r2 st, r3 st, r4 st).

(** How large the first limb can get: the last carry goes in five-fold. *)
Definition H0_BOUND : Z := 2819620864.

Definition reduced (h : Z * Z * Z * Z * Z) : Prop :=
  let '(a0, a1, a2, a3, a4) := h in
  0 <= a0 < H0_BOUND /\ is_u 26 a1 /\ is_u 26 a2 /\ is_u 26 a3 /\ is_u 26 a4.

(** The same after a block has been added. *)
Definition loaded (h : Z * Z * Z * Z * Z) : Prop :=
  let '(a0, a1, a2, a3, a4) := h in
  0 <= a0 < H0_BOUND + 2 ^ 26 - 1 /\ 0 <= a1 <= 2 ^ 27 - 2 /\ 0 <= a2 <= 2 ^ 27 - 2 /\ 0 <= a3 <= 2 ^ 27 - 2 /\
  0 <= a4 <= 2 ^ 26 + 2 ^ 25 - 2.

Record keyed (st : poly1305_state_st) : Prop := {
  k_r0 : 0 <= r0 st <= 0x3ffffff;
  k_r1 : 0 <= r1 st <= 0x3ffff03;
  k_r2 : 0 <= r2 st <= 0x3ffc0ff;
  k_r3 : 0 <= r3 st <= 0x3f03fff;
  k_r4 : 0 <= r4 st <= 0x00fffff;
  k_s1 : s1 st = 5 * r1 st;
  k_s2 : s2 st = 5 * r2 st;
  k_s3 : s3 st = 5 * r3 st;
  k_s4 : s4 st = 5 * r4 st;
}.

Lemma shiftr_div x n : 0 <= n -> Z.shiftr x n = x / 2 ^ n.
Proof. apply Z.shiftr_div_pow2. Qed.

Lemma land26 x : Z.land x 0x3ffffff = x mod 2 ^ 26.
Proof. change 0x3ffffff with (Z.ones 26). by rewrite Z.land_ones. Qed.

Lemma limb_mod x : limb x = x mod 2 ^ 26.
Proof.
  unfold limb, wrapU. rewrite land26. change (2 ^ 32) with (2 ^ 26 * 2 ^ 6).
  apply Z.mod_mod_divide. exists (2 ^ 6). lia.
Qed.

Lemma u64_small x : 0 <= x < 2 ^ 64 -> u64 x = x.
Proof. apply wrapU_id. Qed.
Lemma u32_small x : 0 <= x < 2 ^ 32 -> u32 x = x.
Proof. apply wrapU_id. Qed.

Lemma mul_bound a b A B : 0 <= a <= A -> 0 <= b <= B -> 0 <= a * b <= A * B.
Proof. intros. split; [lia|]. apply Z.mul_le_mono_nonneg; lia. Qed.

(** Bounds small enough that the 64-bit sums and the 32-bit carries do not
    overflow. *)
Definition sums_fit (t : Z * Z * Z * Z * Z) : Prop :=
  let '(t0, t1, t2, t3, t4) := t in
  0 <= t0 <= 317574179885940738 /\ 0 <= t1 <= 281547489149974554 /\ 0 <= t2 <= 245654120230158354 /\
  0 <= t3 <= 218292653910917130 /\ 0 <= t4 <= 36663211838144514.

(** A sum of five products that cannot overflow. *)
Lemma sum5 B x0 y0 x1 y1 x2 y2 x3 y3 x4 y4 X0 Y0 X1 Y1 X2 Y2 X3 Y3 X4 Y4 :
  0 <= x0 <= X0 -> 0 <= y0 <= Y0 -> 0 <= x1 <= X1 -> 0 <= y1 <= Y1 -> 0 <= x2 <= X2 -> 0 <= y2 <= Y2 ->
  0 <= x3 <= X3 -> 0 <= y3 <= Y3 -> 0 <= x4 <= X4 -> 0 <= y4 <= Y4 ->
  X0 * Y0 + X1 * Y1 + X2 * Y2 + X3 * Y3 + X4 * Y4 <= B -> B < 2 ^ 64 ->
  exists t, u64 (mul32x32_64 x0 y0 + mul32x32_64 x1 y1 + mul32x32_64 x2 y2 + mul32x32_64 x3 y3 + mul32x32_64 x4 y4) = t /\
    t = x0 * y0 + x1 * y1 + x2 * y2 + x3 * y3 + x4 * y4 /\ 0 <= t <= B.
Proof.
  intros. eexists. split; [done|]. unfold mul32x32_64.
  pose proof (mul_bound x0 y0 X0 Y0 ltac:(done) ltac:(done)). pose proof (mul_bound x1 y1 X1 Y1 ltac:(done) ltac:(done)).
  pose proof (mul_bound x2 y2 X2 Y2 ltac:(done) ltac:(done)). pose proof (mul_bound x3 y3 X3 Y3 ltac:(done) ltac:(done)).
  pose proof (mul_bound x4 y4 X4 Y4 ltac:(done) ltac:(done)).
  generalize dependent (x0 * y0). generalize dependent (x1 * y1). generalize dependent (x2 * y2).
  generalize dependent (x3 * y3). generalize dependent (x4 * y4). intros z4 ? z3 ? z2 ? z1 ? z0 ?.
  rewrite (u64_small z0), (u64_small z1), (u64_small z2), (u64_small z3), (u64_small z4) by lia.
  rewrite u64_small by lia. lia.
Qed.

Lemma times5 y Y : 0 <= y <= Y -> 0 <= 5 * y <= 5 * Y.
Proof. lia. Qed.

Lemma products_exact st :
  keyed st -> loaded (limbs st) ->
  sums_fit (products st) /\ (exists q, val (products st) = val (limbs st) * val (r_limbs st) - q * P1305).
Proof.
  intros [C0 C1 C2 C3 C4 E1 E2 E3 E4] (B0 & B1 & B2 & B3 & B4).
  unfold limbs, r_limbs, products, H0_BOUND in *. rewrite E1, E2, E3, E4. clear E1 E2 E3 E4.
  assert (B0' : 0 <= h0 st <= 2819620864 + 2 ^ 26 - 2) by lia. clear B0.
  pose proof (times5 _ _ C1) as S1. pose proof (times5 _ _ C2) as S2.
  pose proof (times5 _ _ C3) as S3. pose proof (times5 _ _ C4) as S4.
  destruct (sum5 _ _ _ _ _ _ _ _ _ _ _ _ _ _ _ _ _ _ _ _ _ B0' C0 B1 S4 B2 S3 B3 S2 B4 S1 (Z.le_refl _) ltac:(done))
    as (t0 & -> & T0 & L0).
  destruct (sum5 _ _ _ _ _ _ _ _ _ _ _ _ _ _ _ _ _ _ _ _ _ B0' C1 B1 C0 B2 S4 B3 S3 B4 S2 (Z.le_refl _) ltac:(done))
    as (t1 & -> & T1 & L1).
  destruct (sum5 _ _ _ _ _ _ _ _ _ _ _ _ _ _ _ _ _ _ _ _ _ B0' C2 B1 C1 B2 C0 B3 S4 B4 S3 (Z.le_refl _) ltac:(done))
    as (t2 & -> & T2 & L2).
  destruct (sum5 _ _ _ _ _ _ _ _ _ _ _ _ _ _ _ _ _ _ _ _ _ B0' C3 B1 C2 B2 C1 B3 C0 B4 S4 (Z.le_refl _) ltac:(done))
    as (t3 & -> & T3 & L3).
  destruct (sum5 _ _ _ _ _ _ _ _ _ _ _ _ _ _ _ _ _ _ _ _ _ B0' C4 B1 C3 B2 C2 B3 C1 B4 C0 (Z.le_refl _) ltac:(done))
    as (t4 & -> & T4 & L4).
  split; [exact (conj L0 (conj L1 (conj L2 (conj L3 L4))))|]. rewrite T0, T1, T2, T3, T4.
  exists (h1 st * r4 st + h2 st * r3 st + h3 st * r2 st + h4 st * r1 st +
          2 ^ 26 * (h2 st * r4 st + h3 st * r3 st + h4 st * r2 st) +
          2 ^ 52 * (h3 st * r4 st + h4 st * r3 st) + 2 ^ 78 * (h4 st * r4 st)).
  unfold val, P1305. ring.
Qed.

(** The low limb of [x] and what is carried on. *)
Lemma split26 x : exists q m, x / 2 ^ 26 = q /\ x mod 2 ^ 26 = m /\ x = 2 ^ 26 * q + m /\ 0 <= m < 2 ^ 26.
Proof. exists (x / 2 ^ 26), (x mod 2 ^ 26). pose proof (Z.div_mod x (2 ^ 26)). pose proof (Z.mod_pos_bound x (2 ^ 26)). lia. Qed.

(** Name the limb and the carry of [x]. *)
Ltac carry26 x q m := destruct (split26 x) as (q & m & -> & -> & ? & ?).

(** One pass of carries: the value goes down by a multiple of the modulus. *)
Lemma carry_limbs_exact t :
  sums_fit t -> reduced (carry_limbs t) /\ (exists q, val (carry_limbs t) = val t - q * P1305).
Proof.
  destruct t as [[[[t0 t1] t2] t3] t4]. intros (T0 & T1 & T2 & T3 & T4).
  unfold carry_limbs. rewrite !limb_mod, !shiftr_div by lia.
  carry26 t0 q0 m0. rewrite (u64_small (t1 + _)) by lia.
  carry26 (t1 + q0) q1 m1. rewrite (u32_small q1), (u64_small (t2 + _)) by lia.
  carry26 (t2 + q1) q2 m2. rewrite (u32_small q2), (u64_small (t3 + _)) by lia.
  carry26 (t3 + q2) q3 m3. rewrite (u32_small q3), (u64_small (t4 + _)) by lia.
  carry26 (t4 + q3) q4 m4. rewrite (u32_small q4), (u32_small (q4 * 5)), u32_small by lia.
  split.
  - unfold reduced, H0_BOUND, is_u. lia.
  - exists q4. unfold val, P1305. lia.
Qed.

Lemma donna_mul_ok st :
  keyed st -> loaded (limbs st) ->
  let st' := poly1305_donna_mul st in
  keyed st' /\ reduced (limbs st') /\ r_limbs st' = r_limbs st /\
  val (limbs st') mod P1305 = val (limbs st) * val (r_limbs st) mod P1305.
Proof.
  intros K L st'. destruct (products_exact st K L) as (F & q & E).
  destruct (carry_limbs_exact _ F) as (Rd & q' & E'). unfold st', poly1305_donna_mul.
  destruct (carry_limbs (products st)) as [[[[b0 b1] b2] b3] b4].
  split; [by destruct K|]. split; [done|]. split; [done|].
  change (limbs (with_h st (b0, b1, b2, b3, b4))) with (b0, b1, b2, b3, b4). rewrite E', E.
  replace (_ - q * P1305 - q' * P1305) with (val (limbs st) * val (r_limbs st) + - (q + q') * P1305) by ring.
  apply Z_mod_plus_full.
Qed.

(** ** Blocks *)

Lemma le_value_app a b : le_value (a ++ b) = le_value a + 2 ^ (8 * zlen a) * le_value b.
Proof.
  unfold le_value. rewrite rev_app_distr, be_value_app, zlen_rev. rewrite Z.pow_mul_r by (pose proof (zlen_nonneg a); lia).
  change (2 ^ 8) with 256. lia.
Qed.

Lemma le_value_zeros k : le_value (replicate k 0) = 0.
Proof.
  induction k as [|k IH]; [done|]. change (replicate (S k) 0) with ([0] ++ replicate k 0).
  rewrite le_value_app, IH. done.
Qed.

Lemma le_value_range bs : Forall is_byte bs -> 0 <= le_value bs < 2 ^ (8 * zlen bs).
Proof. intros. unfold le_value. rewrite <- (zlen_rev bs). by apply be_value_range, Forall_rev_bytes. Qed.

(** The four words of a block. *)
Lemma words_of_block m :
  Forall is_byte m -> 16 <= zlen m ->
  exists t0 t1 t2 t3,
    U8TO32_LE m 0 = Ok t0 /\ U8TO32_LE m 4 = Ok t1 /\ U8TO32_LE m 8 = Ok t2 /\ U8TO32_LE m 12 = Ok t3 /\
    is_u32 t0 /\ is_u32 t1 /\ is_u32 t2 /\ is_u32 t3 /\
    le_value (take 16 m) = t0 + 2 ^ 32 * t1 + 2 ^ 64 * t2 + 2 ^ 96 * t3.
Proof.
  intros Hb Hl.
  assert (R : forall off, 0 <= off <= 12 -> U8TO32_LE m off = Ok (le_value (slice m off 4)) /\
                is_u32 (le_value (slice m off 4)) /\ zlen (slice m off 4) = 4).
  { intros off Ho. assert (L : zlen (slice m off 4) = 4) by (apply zlen_slice; lia).
    split; [unfold U8TO32_LE; by rewrite read_at_Ok by lia|]. split; [|done].
    unfold is_u. replace 32 with (8 * zlen (slice m off 4)) by lia. by apply le_value_range, Forall_slice. }
  destruct (R 0 ltac:(lia)) as (E0 & U0 & L0), (R 4 ltac:(lia)) as (E1 & U1 & L1),
    (R 8 ltac:(lia)) as (E2 & U2 & L2), (R 12 ltac:(lia)) as (E3 & U3 & L3).
  eexists _, _, _, _. do 8 (split; [eassumption|]).
  assert (take 16 m = slice m 0 4 ++ slice m 4 4 ++ slice m 8 4 ++ slice m 12 4) as ->.
  { change (take 16 m) with (slice m 0 (4 + (4 + (4 + 4)))). rewrite !slice_app by lia. done. }
  rewrite !le_value_app, L0, L1, L2. change (2 ^ (8 * 4)) with (2 ^ 32). lia.
Qed.

(** The limbs that [add_block] cuts out of the words. *)
Definition cut (t0 t1 t2 t3 : Z) : Z * Z * Z * Z * Z :=
  (Z.land t0 0x3ffffff, Z.land (Z.shiftr (Z.lor (u64 (Z.shiftl t1 32)) t0) 26) 0x3ffffff,
   Z.land (Z.shiftr (Z.lor (u64 (Z.shiftl t2 32)) t1) 20) 0x3ffffff,
   Z.land (Z.shiftr (Z.lor (u64 (Z.shiftl t3 32)) t2) 14) 0x3ffffff, Z.shiftr t3 8).

(** The word [hi] above the word [lo], moved down by [k] bits. *)
Lemma wide_shift hi lo k :
  is_u32 hi -> is_u32 lo -> 0 <= k <= 32 ->
  Z.shiftr (Z.lor (u64 (Z.shiftl hi 32)) lo) k = hi * 2 ^ (32 - k) + lo / 2 ^ k.
Proof.
  intros Hh Hl Hk. unfold is_u in *. rewrite Z.shiftl_mul_pow2 by lia. rewrite u64_small by lia.
  rewrite lor_mul_add, shiftr_div by lia.
  replace (2 ^ 32) with (2 ^ (32 - k) * 2 ^ k) by (rewrite <- Z.pow_add_r by lia; f_equal; lia).
  rewrite Z.mul_assoc, Z.add_comm, Z.div_add by lia. lia.
Qed.

Lemma cut_ok t0 t1 t2 t3 :
  is_u32 t0 -> is_u32 t1 -> is_u32 t2 -> is_u32 t3 ->
  exists c0 c1 c2 c3 c4, cut t0 t1 t2 t3 = (c0, c1, c2, c3, c4) /\
    is_u 26 c0 /\ is_u 26 c1 /\ is_u 26 c2 /\ is_u 26 c3 /\ is_u 24 c4 /\
    val (c0, c1, c2, c3, c4) = t0 + 2 ^ 32 * t1 + 2 ^ 64 * t2 + 2 ^ 96 * t3.
Proof.
  intros U0 U1 U2 U3. eexists _, _, _, _, _. split; [reflexivity|].
  rewrite !land26, !wide_shift, shiftr_div by done || lia. unfold is_u in *.
  do 4 (split; [by apply Z.mod_pos_bound|]). split; [zlia|]. unfold val.
  change (32 - 26) with 6. change (32 - 20) with 12. change (32 - 14) with 18. zlia.
Qed.

Lemma with_h_with_h st h h' : with_h (with_h st h) h' = with_h st h'.
Proof. by destruct h as [[[[? ?] ?] ?] ?], h' as [[[[? ?] ?] ?] ?]. Qed.
Lemma limbs_with_h st h : limbs (with_h st h) = h.
Proof. by destruct h as [[[[? ?] ?] ?] ?]. Qed.
Lemma r_limbs_with_h st h : r_limbs (with_h st h) = r_limbs st.
Proof. by destruct h as [[[[? ?] ?] ?] ?]. Qed.
Lemma buf_with_h st h : buf (with_h st h) = buf st.
Proof. by destruct h as [[[[? ?] ?] ?] ?]. Qed.
Lemma buf_used_with_h st h : buf_used (with_h st h) = buf_used st.
Proof. by destruct h as [[[[? ?] ?] ?] ?]. Qed.
Lemma key_with_h st h : key (with_h st h) = key st.
Proof. by destruct h as [[[[? ?] ?] ?] ?]. Qed.
Lemma keyed_with_h st h : keyed st -> keyed (with_h st h).
Proof. intros []. by destruct h as [[[[? ?] ?] ?] ?]. Qed.
Create HintDb poly.
Create Rewrite HintDb poly.
#[local] Hint Rewrite with_h_with_h limbs_with_h r_limbs_with_h buf_with_h buf_used_with_h key_with_h : poly.
#[local] Hint Resolve keyed_with_h : poly.

Lemma add_block_ok st t0 t1 t2 t3 top hi :
  reduced (limbs st) -> is_u32 t0 -> is_u32 t1 -> is_u32 t2 -> is_u32 t3 ->
  top = Z.shiftr t3 8 + 2 ^ 24 * hi -> 0 <= hi <= 1 ->
  exists h, add_block st t0 t1 t2 t3 top = with_h st h /\ loaded h /\
    val h = val (limbs st) + (t0 + 2 ^ 32 * t1 + 2 ^ 64 * t2 + 2 ^ 96 * t3) + 2 ^ 128 * hi.
Proof.
  intros (R0 & R1 & R2 & R3 & R4) U0 U1 U2 U3 -> Hhi.
  destruct (cut_ok t0 t1 t2 t3) as (c0 & c1 & c2 & c3 & c4 & E & C0 & C1 & C2 & C3 & C4 & <-); [done..|].
  unfold cut in E. simplify_eq. unfold add_block. eexists. split; [reflexivity|].
  repeat match goal with |- context [Z.land ?a ?b] => generalize dependent (Z.land a b); intros end.
  generalize dependent (Z.shiftr t3 8). intros c4 C4. unfold is_u, H0_BOUND in *.
  rewrite !u32_small by lia. unfold loaded, val, limbs, H0_BOUND. lia.
Qed.

(** A block is added and multiplied. *)
Lemma block_step st t0 t1 t2 t3 top hi n :
  keyed st -> reduced (limbs st) -> is_u32 t0 -> is_u32 t1 -> is_u32 t2 -> is_u32 t3 ->
  top = Z.shiftr t3 8 + 2 ^ 24 * hi -> 0 <= hi <= 1 ->
  n = t0 + 2 ^ 32 * t1 + 2 ^ 64 * t2 + 2 ^ 96 * t3 + 2 ^ 128 * hi ->
  exists h, poly1305_donna_mul (add_block st t0 t1 t2 t3 top) = with_h st h /\ reduced h /\
    val h mod P1305 = (val (limbs st) + n) * val (r_limbs st) mod P1305.
Proof.
  intros K R U0 U1 U2 U3 Ht Hhi Hn.
  destruct (add_block_ok st t0 t1 t2 t3 top hi) as (h & -> & L & V); [done..|].
  destruct (donna_mul_ok (with_h st h)) as (_ & Rd & _ & M); [auto with poly|by rewrite limbs_with_h|].
  unfold poly1305_donna_mul in *. autorewrite with poly in *.
  eexists. split; [reflexivity|]. split; [done|]. rewrite M, V. f_equal. f_equal. lia.
Qed.

(** ** The blocks of a message *)

Lemma blocks16_cons m : (16 <= length m)%nat -> blocks16 m = take 16 m :: blocks16 (drop 16 m).
Proof.
  intros Hl. unfold blocks16. rewrite length_drop.
  replace ((length m + 15) / 16)%nat with (S ((length m - 16 + 15) / 16)) by lia.
  rewrite <- cons_seq, fmap_cons. f_equal. rewrite <- fmap_S_seq, <- list_fmap_compose.
  apply list_fmap_ext. intros i x _. unfold compose. rewrite drop_drop. do 2 f_equal. lia.
Qed.

Lemma blocks16_short m : (0 < length m <= 16)%nat -> blocks16 m = [m].
Proof.
  intros Hl. unfold blocks16. replace ((length m + 15) / 16)%nat with 1%nat by lia.
  cbv [seq]. by rewrite list_fmap_singleton, Nat.mul_0_r, drop_0, take_ge by lia.
Qed.

Lemma blocks16_app k a b : length a = (16 * k)%nat -> blocks16 (a ++ b) = blocks16 a ++ blocks16 b.
Proof.
  revert a. induction k as [|k IH]; intros a Ha.
  - by destruct a.
  - rewrite (blocks16_cons (a ++ b)), (blocks16_cons a) by (rewrite ?length_app; lia).
    rewrite take_app_le, drop_app_le by lia. simpl. f_equal. apply IH. rewrite length_drop. lia.
Qed.

Lemma rfc_step_mod r a b : rfc_step r (a mod P1305) b = rfc_step r a b.
Proof. unfold rfc_step. by rewrite Zmult_mod, Zplus_mod_idemp_l, <- Zmult_mod. Qed.

(** ** Absorbing data *)

Lemma atmost15_ok st m :
  keyed st -> reduced (limbs st) -> Forall is_byte m -> (length m < 16)%nat ->
  exists h, poly1305_donna_atmost15bytes st m = Ok (with_h st h) /\ reduced h /\
    val h mod P1305 = foldl (rfc_step (val (r_limbs st))) (val (limbs st) mod P1305) (blocks16 m).
Proof.
  intros K R Hb Hl. unfold poly1305_donna_atmost15bytes. destruct (Z.eqb_spec (zlen m) 0) as [E|E].
  - destruct m; [|done]. exists (limbs st). split; [by destruct st|done].
  - rewrite blocks16_short by (unfold zlen in E; lia). cbn [foldl]. rewrite rfc_step_mod.
    set (mp := m ++ _). assert (Lm : length mp = 16%nat).
    { unfold mp. rewrite !length_app, length_replicate. simpl. lia. }
    assert (Hm : Forall is_byte mp).
    { apply Forall_app; split; [done|]. apply Forall_cons; split; [done|]. by apply Forall_replicate. }
    destruct (words_of_block mp) as (t0 & t1 & t2 & t3 & -> & -> & -> & -> & U0 & U1 & U2 & U3 & V);
      [done|unfold zlen; lia|]. cbn [mbind res_bind].
    destruct (block_step st t0 t1 t2 t3 (Z.shiftr t3 8) 0 (le_value (m ++ [1]))) as (h & -> & Rd & M); [done..|lia|lia| |by exists h].
    rewrite take_ge in V by lia. rewrite <- V. unfold mp. rewrite app_assoc, (le_value_app (m ++ [1])).
    rewrite le_value_zeros. lia.
Qed.

Lemma update_loop_ok fuel st m :
  keyed st -> reduced (limbs st) -> Forall is_byte m -> (length m < fuel)%nat ->
  exists h, poly1305_update_loop fuel st m = Ok (with_h st h) /\ reduced h /\
    val h mod P1305 = foldl (rfc_step (val (r_limbs st))) (val (limbs st) mod P1305) (blocks16 m).
Proof.
  revert st m. induction fuel as [|fuel IH]; intros st m K R Hb Hf; [lia|]. cbn [poly1305_update_loop].
  destruct (Z.ltb_spec (zlen m) 16) as [Hl|Hl]; [apply atmost15_ok; unfold zlen in *; auto; lia|].
  destruct (words_of_block m) as (t0 & t1 & t2 & t3 & -> & -> & -> & -> & U0 & U1 & U2 & U3 & V); [done|done|].
  cbn [mbind res_bind]. unfold zlen in Hl.
  destruct (block_step st t0 t1 t2 t3 (Z.lor (Z.shiftr t3 8) (Z.shiftl 1 24)) 1 (le_value (take 16 m ++ [1])))
    as (h & -> & Rd & M); [done..| |lia| |].
  { rewrite Z.lor_comm, lor_shiftl_add; [lia|lia|]. rewrite shiftr_div by lia. unfold is_u in U3. zlia. }
  { rewrite le_value_app, V. unfold zlen. rewrite length_take. replace (16 `min` length m)%nat with 16%nat by lia.
    change (le_value [1]) with 1. lia. }
  destruct (IH (with_h st h) (drop 16 m)) as (h' & -> & Rd' & M').
  { auto with poly. } { by rewrite limbs_with_h. } { by apply Forall_drop. } { rewrite length_drop. lia. }
  autorewrite with poly in *. exists h'. split; [done|]. split; [done|].
  rewrite M', (blocks16_cons m), M by lia. cbn [foldl]. by rewrite rfc_step_mod.
Qed.

Lemma poly1305_update_ok st m :
  keyed st -> reduced (limbs st) -> Forall is_byte m ->
  exists h, poly1305_update st m = Ok (with_h st h) /\ reduced h /\
    val h mod P1305 = foldl (rfc_step (val (r_limbs st))) (val (limbs st) mod P1305) (blocks16 m).
Proof. intros. apply update_loop_ok; auto. Qed.

(** The state after the bytes [m]: the whole blocks are in the accumulator,
    the rest is in the buffer. *)
Record taken_in (st : poly1305_state_st) (r : Z) (m : list Z) : Prop := {
  ti_keyed : keyed st;
  ti_reduced : reduced (limbs st);
  ti_r : val (r_limbs st) = r;
  ti_buf : zlen (buf st) = 16;
  ti_bytes : Forall is_byte (buf st);
  ti_used : 0 <= buf_used st < 16;
  ti_split : exists k full, length full = (16 * k)%nat /\ m = full ++ slice (buf st) 0 (buf_used st) /\
    val (limbs st) mod P1305 = rfc_acc r full;
}.

Lemma rfc_acc_app r k a b : length a = (16 * k)%nat -> rfc_acc r (a ++ b) = foldl (rfc_step r) (rfc_acc r a) (blocks16 b).
Proof. intros Ha. unfold rfc_acc. by rewrite (blocks16_app k), foldl_app. Qed.

(** Whole blocks go into the accumulator when the buffer is empty. *)
Lemma taken_blocks st r m p k :
  taken_in st r m -> buf_used st = 0 -> Forall is_byte p -> length p = (16 * k)%nat ->
  exists st', poly1305_update st p = Ok st' /\ taken_in st' r (m ++ p) /\ buf_used st' = 0 /\ key st' = key st.
Proof.
  intros [K R Er Lb Bb U (k0 & full & Lf & -> & V)] E0 Hp Lp.
  destruct (poly1305_update_ok st p K R Hp) as (h & -> & Rd & M).
  eexists. split; [done|]. autorewrite with poly. split; [|done].
  split; autorewrite with poly; try done; [auto with poly|].
  exists (k0 + k)%nat, (full ++ p). rewrite E0, slice_nil, !app_nil_r, length_app, (rfc_acc_app _ k0), M, Er, V by done.
  split; [lia|done].
Qed.

(** The bytes of the buffer in front of the new ones. *)
Lemma slice_fill (b bs : list Z) n :
  0 <= n -> n + zlen bs <= zlen b -> slice (splice b n bs) 0 (n + zlen bs) = slice b 0 n ++ bs.
Proof.
  intros Hn Hl. pose proof (zlen_nonneg bs). rewrite slice_app by lia.
  rewrite slice_splice_before, Z.add_0_l, slice_splice_same by lia. done.
Qed.

Lemma slice_rest {A} (p : list A) n : slice p 0 n ++ drop (Z.to_nat n) p = p.
Proof. unfold slice. change (drop (Z.to_nat 0) p) with p. apply take_drop. Qed.

(** More bytes that still leave the block incomplete. *)
Lemma taken_buffered st r m bs :
  taken_in st r m -> Forall is_byte bs -> buf_used st + zlen bs < 16 ->
  write_at (buf st) (buf_used st) bs = Ok (splice (buf st) (buf_used st) bs) /\
  taken_in (with_buf st (splice (buf st) (buf_used st) bs) (buf_used st + zlen bs)) r (m ++ bs).
Proof.
  intros [K R Er Lb Bb U (k & full & Lf & -> & V)] Hb Hl. pose proof (zlen_nonneg bs).
  split; [apply write_at_Ok; lia|]. split; simpl; [by destruct K|done|done| | |lia|].
  - rewrite zlen_splice; lia.
  - by apply Forall_splice.
  - exists k, full. split; [done|]. split; [|done]. rewrite slice_fill by lia. by rewrite app_assoc.
Qed.

Lemma fill_buf_ok st r m p :
  taken_in st r m -> Forall is_byte p ->
  exists st' m' p', fill_buf st p = Ok (st', p') /\ m ++ p = m' ++ p' /\ taken_in st' r m' /\
    Forall is_byte p' /\ (buf_used st' = 0 \/ p' = []) /\ key st' = key st.
Proof.
  intros T Hp. unfold fill_buf. pose proof (ti_used _ _ _ T) as U. pose proof (zlen_nonneg p).
  destruct (Z.eqb_spec (buf_used st) 0) as [E|E]; [exists st, m, p; naive_solver|].
  rewrite (u32_small (16 - _)) by lia. rewrite Z.gtb_ltb.
  destruct (Z.ltb_spec (zlen p) (16 - buf_used st)) as [Hs|Hs].
  - rewrite slice_full. destruct (taken_buffered st r m p T Hp ltac:(lia)) as [-> T'].
    cbn [mbind res_bind with_buf buf_used]. rewrite u32_small by lia.
    destruct (Z.eqb_spec (buf_used st + zlen p) 16); [lia|].
    eexists _, (m ++ p), _. split; [reflexivity|]. unfold zlen. rewrite Nat2Z.id, drop_all, app_nil_r. naive_solver.
  - set (todo := 16 - buf_used st) in *. assert (Ls : zlen (slice p 0 todo) = todo) by (apply zlen_slice; lia).
    destruct T as [K R Er Lb Bb _ (k & full & Lf & -> & V)].
    rewrite write_at_Ok by lia. cbn [mbind res_bind with_buf buf_used buf].
    assert (buf_used st + todo = 16) as -> by lia. rewrite (u32_small 16), Z.eqb_refl by lia.
    set (b := splice (buf st) (buf_used st) (slice p 0 todo)).
    assert (Hb : b = slice (buf st) 0 (buf_used st) ++ slice p 0 todo).
    { rewrite <- slice_fill, Ls by lia. fold b. replace (buf_used st + todo) with (zlen b); [by rewrite slice_full|].
      unfold b. rewrite zlen_splice; lia. }
    assert (Bbb : Forall is_byte b) by (apply Forall_splice; [done|by apply Forall_slice]).
    assert (Lbb : zlen b = 16) by (unfold b; rewrite zlen_splice; lia).
    destruct (poly1305_update_ok (with_buf st b 16) b) as (h & -> & Rd & M); [by destruct K|done|done|].
    cbn [mbind res_bind]. rewrite buf_with_h. simpl buf.
    eexists _, (full ++ b), _. split; [reflexivity|]. split.
    { rewrite Hb, <- !app_assoc. do 2 f_equal. by rewrite slice_rest. }
    split; [|split; [by apply Forall_drop|split; [by left|by destruct h as [[[[? ?] ?] ?] ?]]]].
    destruct h as [[[[a0 a1] a2] a3] a4]. split; simpl; [by destruct K|done|done|done|done|lia|].
    exists (S k), (full ++ b). rewrite slice_nil, app_nil_r, length_app, (rfc_acc_app _ k) by done.
    unfold zlen in Lbb. split; [clear -Lf Lbb; lia|]. split; [done|].
    change (val (a0, a1, a2, a3, a4) mod P1305 = foldl (rfc_step r) (rfc_acc r full) (blocks16 b)).
    rewrite M, <- V, <- Er. done.
Qed.

Lemma update_taken st r m p :
  taken_in st r m -> Forall is_byte p ->
  exists st', CRYPTO_poly1305_update st p = Ok st' /\ taken_in st' r (m ++ p) /\ key st' = key st.
Proof.
  intros T Hp. unfold CRYPTO_poly1305_update.
  destruct (fill_buf_ok st r m p T Hp) as (st1 & m1 & p1 & -> & -> & T1 & Hp1 & D & <-).
  cbn [mbind res_bind]. clear m p st T Hp. rewrite Z.geb_leb.
  assert (exists st2 m2 p2, (if 16 <=? zlen p1 then
              st ← poly1305_update st1 (slice p1 0 (Z.land (zlen p1) (-16)));
              Ok (st, drop (Z.to_nat (Z.land (zlen p1) (-16))) p1) else Ok (st1, p1)) = Ok (st2, p2) /\
            m1 ++ p1 = m2 ++ p2 /\ taken_in st2 r m2 /\ Forall is_byte p2 /\ (buf_used st2 = 0 \/ p2 = []) /\
            zlen p2 < 16 /\ key st2 = key st1)
    as (st2 & m2 & p2 & -> & -> & T2 & Hp2 & D2 & L2 & <-).
  { destruct (Z.leb_spec 16 (zlen p1)) as [Hl|Hl]; [|by exists st1, m1, p1].
    assert (Ht : Z.land (zlen p1) (-16) = 16 * (zlen p1 / 16)).
    { change (-16) with (Z.lnot (Z.ones 4)). rewrite <- Z.ldiff_land, Z.ldiff_ones_r, Z.shiftl_mul_pow2, shiftr_div by lia.
      change (2 ^ 4) with 16. lia. }
    rewrite Ht. set (q := zlen p1 / 16). assert (Q : 0 <= 16 * q <= zlen p1 /\ zlen p1 < 16 * q + 16) by (unfold q; zlia).
    destruct D as [D| ->]; [|done].
    assert (Ls : zlen (slice p1 0 (16 * q)) = 16 * q) by (apply zlen_slice; lia).
    destruct (taken_blocks st1 r m1 (slice p1 0 (16 * q)) (Z.to_nat q)) as (st2 & -> & T2 & B2 & E2);
      [done|done|by apply Forall_slice|unfold zlen in Ls; lia|].
    eexists st2, _, _. split; [reflexivity|]. rewrite <- app_assoc.
    split; [by rewrite slice_rest|]. split; [done|]. split; [by apply Forall_drop|].
    split; [by left|]. split; [|done]. unfold zlen in *. rewrite length_drop. lia. }
  cbn [mbind res_bind]. destruct (Z.eqb_spec (zlen p2) 0) as [E|E].
  - destruct p2; [|done]. exists st2. by rewrite app_nil_r.
  - destruct D2 as [D2| ->]; [|done].
    destruct (taken_buffered st2 r m2 p2 T2 Hp2) as [W T3]; [lia|]. rewrite D2 in W, T3. rewrite W.
    by eexists.
Qed.

(** ** The key *)

(** Masking, limb by limb. *)
Lemma land_limb k a b c m :
  0 <= k -> is_u k a -> is_u k c -> Z.land (a + 2 ^ k * b) (c + 2 ^ k * m) = Z.land a c + 2 ^ k * Z.land b m.
Proof.
  intros Hk Ha Hc. rewrite !(Z.mul_comm (2 ^ k)), !(Z.add_comm _ (_ * 2 ^ k)).
  assert (Hac : is_u k (Z.land a c)) by (apply is_u_land; [done|done|apply Hc]).
  rewrite <- (lor_mul_add a), <- (lor_mul_add c), <- (lor_mul_add (Z.land a c)) by done.
  rewrite <- !Z.shiftl_mul_pow2 by done. bits n.
  repeat rewrite ?Z.land_spec, ?Z.lor_spec, ?Z.shiftl_spec by done.
  destruct (Z.lt_ge_cases n k).
  - by rewrite !(Z.testbit_neg_r _ (n - k)) by lia.
  - by rewrite (is_u_bits k a), (is_u_bits k c), !orb_false_r by done.
Qed.

(** A mask of [k] bits only sees the low [k] bits. *)
Lemma land_mask k x m : 0 <= k -> is_u k m -> Z.land x m = Z.land (x mod 2 ^ k) m.
Proof.
  intros Hk Hm. bits n. rewrite !Z.land_spec. destruct (Z.lt_ge_cases n k).
  - by rewrite Z.mod_pow2_bits_low.
  - by rewrite (is_u_bits k m), !andb_false_r.
Qed.

(** [(lo >> k) | (hi << (32 - k))], where only low bits matter. *)
Lemma narrow_shift hi lo k :
  is_u32 hi -> is_u32 lo -> 6 <= k <= 26 ->
  Z.lor (Z.shiftr lo k) (u32 (Z.shiftl hi (32 - k))) mod 2 ^ 26 = (lo / 2 ^ k + 2 ^ (32 - k) * hi) mod 2 ^ 26.
Proof.
  intros Hh Hl Hk. assert (Hlow : 0 <= lo / 2 ^ k < 2 ^ (32 - k)).
  { unfold is_u in *. pose proof (pow2_pos k). split; [apply Z.div_pos; lia|].
    apply Z.div_lt_upper_bound; [lia|]. rewrite <- Z.pow_add_r by lia. replace (k + (32 - k)) with 32 by lia. lia. }
  unfold wrapU. rewrite shiftr_div, Z.shiftl_mul_pow2, Z.lor_comm by lia.
  rewrite (lor_low_add _ (32 - k)); [|lia|done|].
  - rewrite Z.add_comm, <- (Zplus_mod_idemp_r (_ mod 2 ^ 32)), Z.mod_mod_divide by (exists (2 ^ 6); done).
    by rewrite Zplus_mod_idemp_r, (Z.mul_comm hi).
  - rewrite Z.mod_mod_divide by (exists (2 ^ k); rewrite <- Z.pow_add_r by lia; f_equal; lia). apply Z_mod_mult.
Qed.

Lemma clamp_words t0 t1 t2 t3 :
  is_u32 t0 -> is_u32 t1 -> is_u32 t2 -> is_u32 t3 ->
  clamp (t0 + 2 ^ 32 * t1 + 2 ^ 64 * t2 + 2 ^ 96 * t3) =
  val (Z.land t0 0x3ffffff, Z.land (Z.lor (Z.shiftr t0 26) (u32 (Z.shiftl t1 6))) 0x3ffff03,
       Z.land (Z.lor (Z.shiftr t1 20) (u32 (Z.shiftl t2 12))) 0x3ffc0ff,
       Z.land (Z.lor (Z.shiftr t2 14) (u32 (Z.shiftl t3 18))) 0x3f03fff, Z.land (Z.shiftr t3 8) 0x00fffff).
Proof.
  intros U0 U1 U2 U3. destruct (cut_ok t0 t1 t2 t3) as (c0 & c1 & c2 & c3 & c4 & E & C0 & C1 & C2 & C3 & C4 & <-); [done..|].
  unfold cut in E. rewrite !land26, !wide_shift in E by done || lia.
  pose proof (narrow_shift t1 t0 26 U1 U0 ltac:(lia)) as N1. pose proof (narrow_shift t2 t1 20 U2 U1 ltac:(lia)) as N2.
  pose proof (narrow_shift t3 t2 14 U3 U2 ltac:(lia)) as N3. injection E as E0 E1 E2 E3 E4.
  change (32 - 26) with 6 in *. change (32 - 20) with 12 in *. change (32 - 14) with 18 in *.
  rewrite (land_mask 26 (Z.lor (Z.shiftr t0 26) _)), (land_mask 26 (Z.lor (Z.shiftr t1 20) _)),
    (land_mask 26 (Z.lor (Z.shiftr t2 14) _)), land26, N1, N2, N3 by done || lia.
  rewrite !(Z.add_comm (_ / _)), !(Z.mul_comm (2 ^ _) t1), !(Z.mul_comm (2 ^ _) t2), !(Z.mul_comm (2 ^ _) t3), E0, E1, E2, E3, E4.
  unfold clamp, val.
  replace (c0 + _ + _ + _ + _) with (c0 + 2 ^ 26 * (c1 + 2 ^ 26 * (c2 + 2 ^ 26 * (c3 + 2 ^ 26 * c4)))) by ring.
  change 0x0ffffffc0ffffffc0ffffffc0fffffff with (0x3ffffff + 2 ^ 26 * (0x3ffff03 + 2 ^ 26 * (0x3ffc0ff + 2 ^ 26 * (0x3f03fff + 2 ^ 26 * 0x00fffff)))).
  rewrite !land_limb by done || lia. change 0x3ffffff with (Z.ones 26). rewrite Z.land_ones, Z.mod_small by done || lia. ring.
Qed.

Lemma land_bound x m : 0 <= m -> 0 <= Z.land x m <= m.
Proof.
  intros Hm. split; [apply Z.land_nonneg; by right|].
  enough (0 <= m - Z.land x m) by lia. rewrite Z.sub_nocarry_ldiff; [apply Z.ldiff_nonneg; by left|].
  bits n. rewrite Z.ldiff_spec, Z.land_spec, Z.bits_0. by destruct (Z.testbit x n), (Z.testbit m n).
Qed.

Lemma init_ok buffer k :
  Forall is_byte buffer -> zlen buffer = 16 -> Forall is_byte k -> zlen k = 32 ->
  exists st, CRYPTO_poly1305_init buffer k = Ok st /\ taken_in st (rfc_r k) [] /\ key st = drop 16 k.
Proof.
  intros Hb Lb Hk Lk. unfold CRYPTO_poly1305_init.
  destruct (words_of_block k) as (t0 & t1 & t2 & t3 & -> & -> & -> & -> & U0 & U1 & U2 & U3 & V); [done|lia|].
  cbn [mbind res_bind]. rewrite read_at_Ok by lia. cbn [mbind res_bind].
  eexists. split; [reflexivity|]. split.
  - assert (B : forall x m, 0 <= m < 2 ^ 27 -> 0 <= Z.land x m <= m /\ u32 (Z.land x m * 5) = 5 * Z.land x m).
    { intros x m Hm. pose proof (land_bound x m ltac:(lia)). rewrite u32_small by lia. lia. }
    split; try done.
    + split; cbn [r0 r1 r2 r3 r4 s1 s2 s3 s4]; by apply B.
    + unfold rfc_r. rewrite V, clamp_words by done. done.
    + by exists 0%nat, [].
  - simpl. unfold slice. rewrite take_ge; [done|]. rewrite length_drop. unfold zlen in Lk. lia.
Qed.

(** ** The tag *)

Lemma finish_carry_ok st :
  reduced (limbs st) ->
  exists a0 a1 a2 a3 a4, finish_carry st = (a0, a1, a2, a3, a4) /\
    is_u 26 a1 /\ is_u 26 a2 /\ is_u 26 a3 /\ is_u 26 a4 /\
    ((val (limbs st) = val (a0, a1, a2, a3, a4) /\ is_u 26 a0) \/
     (val (limbs st) = val (a0, a1, a2, a3, a4) + P1305 /\ 0 <= a0 < 2 ^ 26 + 5 /\ a1 < 43 /\ a2 = 0 /\ a3 = 0 /\ a4 = 0)).
Proof.
  intros (R0 & R1 & R2 & R3 & R4). unfold finish_carry, limbs, H0_BOUND, is_u in *.
  generalize dependent (h0 st). generalize dependent (h1 st). generalize dependent (h2 st).
  generalize dependent (h3 st). generalize dependent (h4 st). intros a4 R4 a3 R3 a2 R2 a1 R1 a0 R0.
  rewrite !land26, !shiftr_div by lia.
  carry26 a0 q0 m0. rewrite (u32_small (a1 + _)) by lia.
  carry26 (a1 + q0) q1 m1. rewrite (u32_small (a2 + _)) by lia.
  carry26 (a2 + q1) q2 m2. rewrite (u32_small (a3 + _)) by lia.
  carry26 (a3 + q2) q3 m3. rewrite (u32_small (a4 + _)) by lia.
  carry26 (a4 + q3) q4 m4. rewrite (u32_small (q4 * 5)), u32_small by lia.
  eexists _, _, _, _, _. split; [reflexivity|]. do 4 (split; [done|]). unfold val, P1305.
  assert (q4 = 0 \/ q4 = 1) as [-> | ->] by lia; [left|right]; lia.
Qed.

Lemma finish_select_ok a0 a1 a2 a3 a4 :
  0 <= a0 < 2 ^ 26 + 5 -> is_u 26 a1 -> is_u 26 a2 -> is_u 26 a3 -> is_u 26 a4 ->
  exists b0 b1 b2 b3 b4, finish_select (a0, a1, a2, a3, a4) = (b0, b1, b2, b3, b4) /\
    ((val (a0, a1, a2, a3, a4) = val (b0, b1, b2, b3, b4) + P1305 /\
      is_u 26 b0 /\ is_u 26 b1 /\ is_u 26 b2 /\ is_u 26 b3 /\ is_u 26 b4) \/
     (val (a0, a1, a2, a3, a4) < P1305 /\ (b0, b1, b2, b3, b4) = (a0, a1, a2, a3, a4))).
Proof.
  intros R0 R1 R2 R3 R4. unfold finish_select, is_u in *.
  rewrite (u32_small (a0 + 5)), !land26, !(shiftr_div _ 26) by lia.
  carry26 (a0 + 5) q0 m0. rewrite (u32_small (a1 + _)) by lia.
  carry26 (a1 + q0) q1 m1. rewrite (u32_small (a2 + _)) by lia.
  carry26 (a2 + q1) q2 m2. rewrite (u32_small (a3 + _)) by lia.
  carry26 (a3 + q2) q3 m3. change (Z.shiftl 1 26) with (2 ^ 26). eexists _, _, _, _, _. split; [reflexivity|].
  assert (M0 : forall x, Z.lor (Z.land x 0) 0 = 0) by (intros x; by rewrite Z.land_0_r).
  assert (M1 : forall x, 0 <= x < 2 ^ 32 -> Z.land x (2 ^ 32 - 1) = x).
  { intros x Hx. change (2 ^ 32 - 1) with (Z.ones 32). rewrite Z.land_ones by lia. by apply Z.mod_small. }
  destruct (Z.lt_ge_cases (a4 + q3) (2 ^ 26)).
  - right. assert (u32 (a4 + q3 - 2 ^ 26) = a4 + q3 + (2 ^ 32 - 2 ^ 26)) as -> by (unfold wrapU; zlia).
    rewrite shiftr_div by lia.
    assert ((a4 + q3 + (2 ^ 32 - 2 ^ 26)) / 2 ^ 31 = 1) as -> by zlia.
    change (u32 (1 - 1)) with 0. change (u32 (Z.lnot 0)) with (2 ^ 32 - 1).
    rewrite !Z.land_0_r, !Z.lor_0_r, !M1 by lia. split; [|done]. unfold val, P1305. lia.
  - left. rewrite (u32_small (a4 + q3 - 2 ^ 26)), shiftr_div by lia.
    assert ((a4 + q3 - 2 ^ 26) / 2 ^ 31 = 0) as -> by zlia.
    change (u32 (0 - 1)) with (2 ^ 32 - 1). change (u32 (Z.lnot (2 ^ 32 - 1))) with 0.
    rewrite !Z.land_0_r, !Z.lor_0_l, !M1 by lia. unfold val, P1305. lia.
Qed.

Lemma le_bytes_carry m f y : le_bytes (4 + m) (f + 2 ^ 32 * y) = U32TO8_LE f ++ le_bytes m (f / 2 ^ 32 + y).
Proof.
  unfold U32TO8_LE, le_bytes. rewrite <- rev_app_distr. f_equal.
  rewrite <- (be_bytes_be_value (be_bytes m (f / 2 ^ 32 + y) ++ be_bytes 4 (u32 f))), length_app, !length_be_bytes
    by (apply Forall_app; split; apply be_bytes_bytes).
  rewrite (Nat.add_comm m). apply be_bytes_mod.
  rewrite be_value_app, !be_value_be_bytes, zlen_be_bytes. unfold wrapU.
  change (256 ^ Z.of_nat 4) with (2 ^ 32). change (2 ^ (8 * Z.of_nat 4)) with (2 ^ 32). rewrite Z.mod_mod by lia.
  replace (8 * Z.of_nat (4 + m)) with (32 + 8 * Z.of_nat m) by lia. rewrite Z.pow_add_r by lia.
  set (M := 2 ^ (8 * Z.of_nat m)). assert (0 < M) by (apply pow2_pos; lia).
  replace (f + 2 ^ 32 * y) with (f mod 2 ^ 32 + (f / 2 ^ 32 + y) * 2 ^ 32) by (pose proof (Z.div_mod f (2 ^ 32)); lia).
  rewrite <- (Z.mul_mod_distr_r _ M (2 ^ 32)) by lia. rewrite (Z.mul_comm M), Zplus_mod_idemp_l, Z.add_comm. done.
Qed.

(** Two limbs in one word. *)
Lemma join_limbs lo hi k :
  0 <= k < 32 -> 0 <= lo < 2 ^ k -> Z.lor lo (u32 (Z.shiftl hi k)) = lo + 2 ^ k * (hi mod 2 ^ (32 - k)).
Proof.
  intros Hk Hl. unfold wrapU. rewrite Z.shiftl_mul_pow2 by lia.
  replace (2 ^ 32) with (2 ^ (32 - k) * 2 ^ k) by (rewrite <- Z.pow_add_r by lia; f_equal; lia).
  pose proof (pow2_pos k). pose proof (pow2_pos (32 - k)).
  rewrite Z.mul_mod_distr_r, Z.lor_comm, lor_mul_add by lia. lia.
Qed.

Lemma finish_tag_ok a0 a1 a2 a3 a4 k :
  is_u 26 a0 \/ (0 <= a0 < 2 ^ 27 /\ Z.even a1 = true) ->
  is_u 26 a1 -> is_u 26 a2 -> is_u 26 a3 -> is_u 26 a4 -> Forall is_byte k -> zlen k = 16 ->
  finish_tag (a0, a1, a2, a3, a4) k = Ok (le_bytes 16 (val (a0, a1, a2, a3, a4) + le_value k)).
Proof.
  intros R0 R1 R2 R3 R4 Hk Lk. unfold finish_tag.
  destruct (words_of_block k) as (k0 & k1 & k2 & k3 & -> & -> & -> & -> & U0 & U1 & U2 & U3 & V); [done|lia|].
  cbn [mbind res_bind]. rewrite take_ge in V by (unfold zlen in Lk; lia). rewrite V. unfold is_u in *.
  assert (E0 : Z.lor a0 (u32 (Z.shiftl a1 26)) = a0 + 2 ^ 26 * (a1 mod 2 ^ 6)).
  { destruct R0 as [R0|[R0 Ev]]; [by apply join_limbs|].
    apply Z.even_spec in Ev as [c ->]. replace (Z.shiftl (2 * c) 26) with (Z.shiftl c 27).
    - rewrite join_limbs by lia. change (32 - 27) with 5. zlia.
    - rewrite !Z.shiftl_mul_pow2 by lia. lia. }
  rewrite E0, !(shiftr_div _ 6), !(shiftr_div _ 12), !(shiftr_div _ 18), !join_limbs by zlia.
  change (32 - 20) with 12. change (32 - 14) with 18. change (32 - 8) with 24.
  assert (L0 : 0 <= a0 + 2 ^ 26 * (a1 mod 2 ^ 6) < 2 ^ 33) by zlia.
  rewrite (u64_small (a0 + _ + k0)), (u64_small (a1 / _ + _ + k1)), (u64_small (a2 / _ + _ + k2)),
    (u64_small (a3 / _ + _ + k3)), !shiftr_div by zlia.
  set (f0 := a0 + _ + k0). set (f1 := a1 / _ + _ + k1). set (f2 := a2 / _ + _ + k2). set (f3 := a3 / _ + _ + k3).
  assert (F0 : 0 <= f0 < 2 ^ 34) by (unfold f0; lia). assert (F1 : 0 <= f1 < 2 ^ 34) by (unfold f1; zlia).
  assert (F2 : 0 <= f2 < 2 ^ 34) by (unfold f2; zlia). assert (F3 : 0 <= f3 < 2 ^ 34) by (unfold f3; zlia).
  assert (X : val (a0, a1, a2, a3, a4) + (k0 + 2 ^ 32 * k1 + 2 ^ 64 * k2 + 2 ^ 96 * k3) =
              f0 + 2 ^ 32 * (f1 + 2 ^ 32 * (f2 + 2 ^ 32 * (f3 + 2 ^ 32 * (a4 / 2 ^ 24))))).
  { unfold val, f0, f1, f2, f3. zlia. }
  rewrite X. clearbody f0 f1 f2 f3. clear X E0 L0 V.
  rewrite (u64_small (f1 + _)) by zlia. set (g1 := f1 + f0 / 2 ^ 32). assert (0 <= g1 < 2 ^ 35) by (unfold g1; zlia).
  rewrite (u64_small (f2 + _)) by zlia. set (g2 := f2 + g1 / 2 ^ 32). assert (0 <= g2 < 2 ^ 35) by (unfold g2; zlia).
  rewrite (u64_small (f3 + _)) by zlia. f_equal. symmetry.
  rewrite (le_bytes_carry 12), Z.add_assoc, (Z.add_comm _ f1). fold g1.
  rewrite (le_bytes_carry 8), Z.add_assoc, (Z.add_comm _ f2). fold g2.
  rewrite (le_bytes_carry 4), Z.add_assoc, (Z.add_comm _ f3).
  rewrite (le_bytes_carry 0), app_nil_r. done.
Qed.

(** ** Correctness *)

(** Where the last carry cannot meet a set bit: the accumulator is not just
    above a multiple of 2^27 below 2^32. *)
Definition carry_kept (a : Z) : bool := (a <? 2 ^ 27) || (2 ^ 32 <=? a) || (5 <=? a mod 2 ^ 27).

(** The final limbs are the accumulator modulo 2^130 - 5. *)
Lemma finish_limbs st a :
  reduced (limbs st) -> val (limbs st) mod P1305 = a ->
  exists b0 b1 b2 b3 b4, finish_select (finish_carry st) = (b0, b1, b2, b3, b4) /\
    val (b0, b1, b2, b3, b4) = a /\ is_u 26 b1 /\ is_u 26 b2 /\ is_u 26 b3 /\ is_u 26 b4 /\
    (carry_kept a = true -> is_u 26 b0 \/ (0 <= b0 < 2 ^ 27 /\ Z.even b1 = true)).
Proof.
  intros R V. destruct (finish_carry_ok st R) as (a0 & a1 & a2 & a3 & a4 & -> & A1 & A2 & A3 & A4 & A).
  destruct (finish_select_ok a0 a1 a2 a3 a4) as (b0 & b1 & b2 & b3 & b4 & -> & B); [unfold is_u in *; lia|done..|].
  exists b0, b1, b2, b3, b4. split; [done|].
  assert (Hv : val (a0, a1, a2, a3, a4) mod P1305 = a).
  { destruct A as [[E _]|[E _]]; [by rewrite <- E|]. rewrite <- V, E. symmetry. rewrite <- (Z.mul_1_l P1305) at 1.
    apply Z_mod_plus_full. }
  destruct B as [(Eb & B0 & B1 & B2 & B3 & B4)|(Lb & Eb)].
  - split; [|auto 10]. rewrite <- Hv, Eb, <- (Z.mul_1_l P1305) at 1. rewrite Z_mod_plus_full. symmetry.
    apply Z.mod_small. revert Eb. unfold val, P1305, is_u in *. lia.
  - injection Eb as -> -> -> -> ->.
    assert (Ha : val (a0, a1, a2, a3, a4) = a).
    { rewrite <- Hv. symmetry. apply Z.mod_small. split; [|done]. unfold val, is_u in *. lia. }
    split; [done|]. do 4 (split; [done|]). intros Hc. destruct A as [(_ & A0)|(_ & A0 & L1 & -> & -> & ->)]; [by left|].
    destruct (Z.lt_ge_cases a0 (2 ^ 26)); [left; unfold is_u; lia|]. right. split; [lia|].
    destruct (Z.even a1) eqn:Ev; [done|]. exfalso.
    rewrite <- Z.negb_odd in Ev. apply negb_false_iff, Z.odd_spec in Ev as [c ->].
    revert Ha Hc. unfold val, carry_kept. intros <-. rewrite !orb_true_iff, Z.ltb_lt, !Z.leb_le. unfold is_u in A1. zlia.
Qed.

Lemma finish_ok st r m :
  taken_in st r m -> Forall is_byte (key st) -> zlen (key st) = 16 -> carry_kept (rfc_acc r m) = true ->
  exists st', CRYPTO_poly1305_finish st = Ok (le_bytes 16 (rfc_acc r m + le_value (key st)), st').
Proof.
  intros [K R Er Lb Bb U (k & full & Lf & -> & V)] Hk Lk Hc. unfold CRYPTO_poly1305_finish.
  assert (exists h, (if buf_used st =? 0 then Ok st else bs ← read_at (buf st) 0 (buf_used st); poly1305_update st bs) =
            Ok (with_h st h) /\ reduced h /\ val h mod P1305 = rfc_acc r (full ++ slice (buf st) 0 (buf_used st)))
    as (h & -> & Rd & M).
  { rewrite (rfc_acc_app _ k), <- V, <- Er by done. destruct (Z.eqb_spec (buf_used st) 0) as [E|E].
    - exists (limbs st). split; [by destruct st|]. split; [done|]. by rewrite E.
    - rewrite read_at_Ok by lia. apply poly1305_update_ok; [done|done|by apply Forall_slice]. }
  cbn [mbind res_bind]. destruct (finish_limbs (with_h st h) _ ltac:(by rewrite limbs_with_h) ltac:(rewrite limbs_with_h; exact M))
    as (b0 & b1 & b2 & b3 & b4 & -> & Vb & B1 & B2 & B3 & B4 & B).
  rewrite key_with_h, finish_tag_ok, Vb by auto. by eexists.
Qed.

Lemma updates_taken st r m ps :
  taken_in st r m -> Forall (Forall is_byte) ps ->
  exists st', updates st ps = Ok st' /\ taken_in st' r (m ++ mjoin ps) /\ key st' = key st.
Proof.
  revert st m. induction ps as [|p ps IH]; intros st m T H; [exists st; by rewrite app_nil_r|].
  apply Forall_cons in H as [Hp H]. destruct (update_taken st r m p T Hp) as (st1 & E1 & T1 & K1).
  destruct (IH st1 (m ++ p) T1 H) as (st2 & E2 & T2 & K2). exists st2. simpl. rewrite E1. simpl. rewrite E2.
  split; [done|]. rewrite <- app_assoc in T2. split; [done|congruence].
Qed.

(** ** The old contents of the buffer do not matter *)

(** Two states that differ at most in the unused bytes of the buffer. *)
Definition alike (st st' : poly1305_state_st) : Prop :=
  exists b, st' = with_buf st b (buf_used st) /\ zlen b = 16 /\ slice b 0 (buf_used st) = slice (buf st) 0 (buf_used st).

Lemma with_buf_with_h st h b n : with_h (with_buf st b n) h = with_buf (with_h st h) b n.
Proof. by destruct h as [[[[? ?] ?] ?] ?]. Qed.

Ltac word_read off := destruct (U8TO32_LE _ off) as [?|?]; cbn [mbind res_bind]; [|reflexivity].

Lemma update_loop_frame fuel st b n m :
  poly1305_update_loop fuel (with_buf st b n) m = (fun s => with_buf s b n) <$> poly1305_update_loop fuel st m.
Proof.
  assert (A : forall s t0 t1 t2 t3 top, poly1305_donna_mul (add_block (with_buf s b n) t0 t1 t2 t3 top) =
                with_buf (poly1305_donna_mul (add_block s t0 t1 t2 t3 top)) b n).
  { intros. unfold poly1305_donna_mul, add_block. rewrite with_buf_with_h, with_buf_with_h. done. }
  revert st m. induction fuel as [|fuel IH]; intros st m; [done|]. cbn [poly1305_update_loop].
  destruct (zlen m <? 16).
  - unfold poly1305_donna_atmost15bytes. destruct (zlen m =? 0); [done|].
    word_read 0. word_read 4. word_read 8. word_read 12. rewrite A. reflexivity.
  - word_read 0. word_read 4. word_read 8. word_read 12. rewrite A. apply IH.
Qed.

Lemma poly1305_update_frame st b n m :
  poly1305_update (with_buf st b n) m = (fun s => with_buf s b n) <$> poly1305_update st m.
Proof. apply update_loop_frame. Qed.

Lemma alike_refl st : zlen (buf st) = 16 -> alike st st.
Proof. exists (buf st). by destruct st. Qed.

Lemma alike_update st st' p s :
  alike st st' -> zlen (buf st) = 16 -> poly1305_update st p = Ok s ->
  (exists h, s = with_h st h) -> exists s', poly1305_update st' p = Ok s' /\ alike s s'.
Proof.
  intros (b & -> & Lb & Eb) _ E [h ->]. rewrite poly1305_update_frame, E. eexists. split; [reflexivity|].
  exists b. by autorewrite with poly.
Qed.

(** A write behind the used bytes. *)
Lemma alike_write st b x n :
  zlen (buf st) = 16 -> zlen b = 16 -> 0 <= buf_used st -> buf_used st + zlen x <= 16 ->
  slice b 0 (buf_used st) = slice (buf st) 0 (buf_used st) -> n = buf_used st + zlen x ->
  alike (with_buf st (splice (buf st) (buf_used st) x) n) (with_buf st (splice b (buf_used st) x) n) /\
  (n = 16 -> splice b (buf_used st) x = splice (buf st) (buf_used st) x).
Proof.
  intros L Lb U Hx Eb ->. pose proof (zlen_nonneg x).
  assert (Es : slice (splice b (buf_used st) x) 0 (buf_used st + zlen x) =
               slice (splice (buf st) (buf_used st) x) 0 (buf_used st + zlen x)) by (rewrite !slice_fill, Eb by lia; done).
  split; [exists (splice b (buf_used st) x); split; [done|]; split; [rewrite zlen_splice; lia|done]|].
  intros En. rewrite En in Es. revert Es.
  rewrite <- (slice_full (splice b _ _)) at 2. rewrite <- (slice_full (splice (buf st) _ _)) at 2.
  by rewrite !zlen_splice, L, Lb by lia.
Qed.

Lemma alike_fill st st' r m p s q :
  taken_in st r m -> alike st st' -> Forall is_byte p -> fill_buf st p = Ok (s, q) ->
  exists s', fill_buf st' p = Ok (s', q) /\ alike s s'.
Proof.
  intros T (b & -> & Lb & Eb) Hp Hs.
  assert (Bs : zlen (buf s) = 16).
  { destruct (fill_buf_ok st r m p T Hp) as (s0 & m0 & p0 & E0 & _ & T0 & _). rewrite E0 in Hs.
    injection Hs as <- <-. apply (ti_buf _ _ _ T0). }
  revert Hs. pose proof (ti_used _ _ _ T) as U. pose proof (ti_buf _ _ _ T) as L.
  pose proof (zlen_nonneg p). unfold fill_buf. cbn [buf_used with_buf].
  destruct (Z.eqb_spec (buf_used st) 0) as [E|E].
  { intros [= <- <-]. eexists. split; [reflexivity|]. by exists b. }
  rewrite (u32_small (16 - _)) by lia. rewrite Z.gtb_ltb.
  set (todo := if zlen p <? 16 - buf_used st then zlen p else 16 - buf_used st).
  assert (Ht : 0 <= todo <= zlen p /\ todo <= 16 - buf_used st) by (unfold todo; case_match; zify_bools; lia).
  assert (Ls : zlen (slice p 0 todo) = todo) by (apply zlen_slice; lia). clearbody todo.
  rewrite !write_at_Ok by (cbn [buf with_buf]; lia). cbn [mbind res_bind with_buf buf_used buf].
  rewrite (u32_small (buf_used st + todo)) by lia.
  destruct (alike_write st b (slice p 0 todo) (buf_used st + todo)) as [A F]; [done|done|lia|lia|done|lia|].
  destruct (Z.eqb_spec (buf_used st + todo) 16) as [E16|E16].
  - rewrite F by done. intros Hs. exists s. split; [done|by apply alike_refl].
  - intros [= <- <-]. eexists. split; [reflexivity|]. done.
Qed.

Lemma update_alike st st' r m p :
  taken_in st r m -> alike st st' -> Forall is_byte p ->
  exists s s', CRYPTO_poly1305_update st p = Ok s /\ CRYPTO_poly1305_update st' p = Ok s' /\ alike s s' /\ taken_in s r (m ++ p).
Proof.
  intros T A Hp. destruct (update_taken st r m p T Hp) as (s & Es & Ts & _).
  exists s. rewrite Es. revert Es. unfold CRYPTO_poly1305_update.
  destruct (fill_buf_ok st r m p T Hp) as (s1 & m1 & p1 & E1 & Em & T1 & Hp1 & _).
  destruct (alike_fill st st' r m p s1 p1 T A Hp E1) as (s1' & -> & A1). rewrite E1. cbn [mbind res_bind].
  rewrite Z.geb_leb. set (whole := slice p1 0 _).
  assert (exists s2 s2' p2, (if 16 <=? zlen p1 then st ← poly1305_update s1 whole;
              Ok (st, drop (Z.to_nat (Z.land (zlen p1) (-16))) p1) else Ok (s1, p1)) = Ok (s2, p2) /\
            (if 16 <=? zlen p1 then st ← poly1305_update s1' whole;
              Ok (st, drop (Z.to_nat (Z.land (zlen p1) (-16))) p1) else Ok (s1', p1)) = Ok (s2', p2) /\
            alike s2 s2' /\ zlen (buf s2) = 16)
    as (s2 & s2' & p2 & -> & -> & A2 & L2).
  { pose proof (ti_buf _ _ _ T1) as L1. destruct (16 <=? zlen p1); [|by eexists _, _, _].
    destruct (poly1305_update_ok s1 whole (ti_keyed _ _ _ T1) (ti_reduced _ _ _ T1)) as (h & E & _); [by apply Forall_slice|].
    destruct (alike_update s1 s1' whole _ A1 L1 E ltac:(by eexists)) as (s2' & -> & A2).
    rewrite E. cbn [mbind res_bind]. eexists _, _, _. split; [reflexivity|]. split; [reflexivity|].
    by rewrite buf_with_h. }
  cbn [mbind res_bind]. destruct A2 as (b & -> & Lb & Eb).
  destruct (Z.eqb_spec (zlen p2) 0); [intros [= ->]; eexists; split; [done|]; split; [done|]; split; [by exists b|done]|].
  pose proof (zlen_nonneg p2). unfold write_at, in_block. cbn [buf with_buf]. rewrite L2, Lb.
  destruct (_ && _) eqn:Ein; [|done]. zify_bools. cbn [mbind res_bind]. intros [= <-].
  destruct (alike_write (with_buf s2 (buf s2) 0) b p2 (zlen p2)) as [A2 _]; [done..|simpl; lia|done|done|].
  eexists. split; [done|]. split; [done|]. split; [exact A2|done].
Qed.

Lemma updates_alike st st' r m ps :
  taken_in st r m -> alike st st' -> Forall (Forall is_byte) ps ->
  exists s s', updates st ps = Ok s /\ updates st' ps = Ok s' /\ alike s s' /\ taken_in s r (m ++ mjoin ps) /\ key s = key st.
Proof.
  intros T A H. destruct (updates_taken st r m ps T H) as (s0 & E0 & T0 & K0). exists s0. rewrite E0. revert E0.
  clear T0. revert st st' m T A K0. induction ps as [|p ps IH]; intros st st' m T A K0 E0.
  - injection E0 as <-. exists st'. by rewrite app_nil_r.
  - apply Forall_cons in H as [Hp H]. destruct (update_alike st st' r m p T A Hp) as (s1 & s1' & E1 & E1' & A1 & T1).
    simpl in *. rewrite E1 in E0. rewrite E1'. simpl in *.
    destruct (update_taken st r m p T Hp) as (? & E & _ & Ek). rewrite E1 in E. injection E as <-.
    destruct (IH H s1 s1' (m ++ p)) as (s' & ? & ? & ? & ? & ?); [done|done|congruence|done|].
    exists s'. rewrite app_assoc. done.
Qed.

(** The tag as a function of the state. *)
Lemma finish_total st st' r m :
  taken_in st r m -> alike st st' -> Forall is_byte (key st) -> zlen (key st) = 16 ->
  exists mac s s', CRYPTO_poly1305_finish st = Ok (mac, s) /\ CRYPTO_poly1305_finish st' = Ok (mac, s') /\
    length mac = 16%nat /\ Forall is_byte mac.
Proof.
  intros T (b & -> & Lb & Eb) Hk Lk. pose proof (ti_used _ _ _ T) as U. pose proof (ti_buf _ _ _ T) as L.
  unfold CRYPTO_poly1305_finish. cbn [buf buf_used with_buf].
  assert (exists h, (if buf_used st =? 0 then Ok st else bs ← read_at (buf st) 0 (buf_used st); poly1305_update st bs) = Ok (with_h st h) /\
            (if buf_used st =? 0 then Ok (with_buf st b (buf_used st))
             else bs ← read_at b 0 (buf_used st); poly1305_update (with_buf st b (buf_used st)) bs) =
            Ok (with_buf (with_h st h) b (buf_used st))) as (h & -> & ->).
  { destruct (Z.eqb_spec (buf_used st) 0) as [E|E]; [exists (limbs st); by destruct st|].
    rewrite !read_at_Ok, Eb by lia. cbn [mbind res_bind]. rewrite poly1305_update_frame.
    destruct (poly1305_update_ok st (slice (buf st) 0 (buf_used st)) (ti_keyed _ _ _ T) (ti_reduced _ _ _ T)) as (h & -> & _);
      [apply Forall_slice, (ti_bytes _ _ _ T)|]. by exists h. }
  cbn [mbind res_bind].
  change (key (with_buf (with_h st h) b (buf_used st))) with (key (with_h st h)). rewrite key_with_h.
  change (finish_carry (with_buf (with_h st h) b (buf_used st))) with (finish_carry (with_h st h)).
  destruct (finish_select _) as [[[[a0 a1] a2] a3] a4]. unfold finish_tag.
  destruct (words_of_block (key st)) as (k0 & k1 & k2 & k3 & -> & -> & -> & -> & _); [done|lia|].
  cbn [mbind res_bind]. eexists _, _, _. split; [reflexivity|]. split; [reflexivity|].
  unfold U32TO8_LE, le_bytes. split; [by rewrite !length_app, !length_rev, !length_be_bytes|].
  rewrite !Forall_app. repeat split; apply Forall_rev_bytes, be_bytes_bytes.
Qed.

(** Whatever the state's memory held before, the tag is the same. *)
Lemma poly1305_mac_total k ps :
  Forall is_byte k -> zlen k = 32 -> Forall (Forall is_byte) ps ->
  exists mac, length mac = 16%nat /\ Forall is_byte mac /\
    forall buffer, Forall is_byte buffer -> zlen buffer = 16 -> poly1305_mac buffer k ps = Ok mac.
Proof.
  intros Hk Lk Hp.
  assert (G : forall buffer, Forall is_byte buffer -> zlen buffer = 16 ->
            exists mac, length mac = 16%nat /\ Forall is_byte mac /\
              poly1305_mac (replicate 16 0) k ps = Ok mac /\ poly1305_mac buffer k ps = Ok mac).
  { intros buffer Hb Lb. destruct (init_ok (replicate 16 0) k) as (st & E & T & Ek); [by apply Forall_replicate|done..|].
    destruct (init_ok buffer k) as (st' & E' & _ & _); [done..|].
    assert (A : alike st st').
    { exists buffer. revert E E'. unfold CRYPTO_poly1305_init.
      destruct (words_of_block k) as (t0 & t1 & t2 & t3 & -> & -> & -> & -> & _); [done|lia|]. cbn [mbind res_bind].
      destruct (read_at k 16 16); [|done]. cbn [mbind res_bind]. intros [= <-] [= <-]. done. }
    unfold poly1305_mac. rewrite E, E'. cbn [mbind res_bind].
    destruct (updates_alike st st' _ _ ps T A Hp) as (s & s' & -> & -> & A' & T' & Ek'). cbn [mbind res_bind].
    destruct (finish_total s s' _ _ T' A') as (mac & z & z' & -> & -> & Lm & Hm); [| |by exists mac].
    - rewrite Ek', Ek. by apply Forall_drop.
    - rewrite Ek', Ek. unfold zlen in *. rewrite length_drop. lia. }
  destruct (G (replicate 16 0)) as (mac & Lm & Hm & E & _); [by apply Forall_replicate|done|].
  exists mac. split; [done|]. split; [done|]. intros buffer Hb Lb.
  destruct (G buffer Hb Lb) as (mac' & _ & _ & E' & ->). congruence.
Qed.

(** C13: however the message is cut into pieces, [CRYPTO_poly1305_init],
    [CRYPTO_poly1305_update] and [CRYPTO_poly1305_finish] run inside their
    buffers and give the tag of RFC 7539, section 2.5, for every key and
    message whose accumulator does not end within 5 above a multiple of 2^27
    below 2^32. *)
Theorem poly1305_is_rfc buffer k ps :
  Forall is_byte buffer -> zlen buffer = 16 -> Forall is_byte k -> zlen k = 32 -> Forall (Forall is_byte) ps ->
  carry_kept (rfc_acc (rfc_r k) (mjoin ps)) = true ->
  poly1305_mac buffer k ps = Ok (rfc_tag k (mjoin ps)).
Proof.
  intros Hb Lb Hk Lk Hp Hc. unfold poly1305_mac.
  destruct (init_ok buffer k Hb Lb Hk Lk) as (st & -> & T & Ek). cbn [mbind res_bind].
  destruct (updates_taken st _ _ ps T Hp) as (st' & -> & T' & Ek'). cbn [mbind res_bind].
  destruct (finish_ok st' (rfc_r k) (mjoin ps)) as (st'' & ->); [done| | |done|].
  - rewrite Ek', Ek. by apply Forall_drop.
  - rewrite Ek', Ek. unfold zlen in *. rewrite length_drop. lia.
  - simpl. unfold rfc_tag. by rewrite Ek', Ek.
Qed.

Lemma poly1305_is_rfc_witness :
  poly1305_mac (replicate 16 7) rfc_poly_key [take 5 rfc_poly_text; drop 5 rfc_poly_text] =
    Ok (rfc_tag rfc_poly_key rfc_poly_text).
Proof.
  apply (poly1305_is_rfc (replicate 16 7) rfc_poly_key [take 5 rfc_poly_text; drop 5 rfc_poly_text]);
    by (vm_compute; repeat constructor).
Defined.

(** A key and a block for which the accumulator ends at 2^28 + 4, held as
    2^130 - 5 more than that. *)
Definition lost_key : list Z :=
  [245; 177; 101; 34; 74; 88; 183; 145; 223; 106; 241; 216; 48; 62; 97; 205;
   196; 187; 134; 195; 209; 196; 39; 16; 60; 52; 76; 65; 137; 235; 47; 30].
Definition lost_block : list Z :=
  [166; 90; 135; 208; 54; 78; 246; 134; 98; 211; 81; 139; 221; 206; 223; 252].

(** The final reduction adds five times the last carry to [h0]
    without carrying on from [h0] to [h1], and then joins the two with an
    or: for this key and message the tag differs from that of RFC 7539. *)
Lemma poly1305_carry_lost :
  poly1305_mac (replicate 16 0) lost_key [lost_block] =
    Ok [200; 187; 134; 207; 209; 196; 39; 16; 60; 52; 76; 65; 137; 235; 47; 30] /\
  rfc_tag lost_key lost_block = [200; 187; 134; 211; 209; 196; 39; 16; 60; 52; 76; 65; 137; 235; 47; 30] /\
  rfc_acc (rfc_r lost_key) lost_block = 4 * 2 ^ 26 + 4.
Proof. vm_compute. auto. Qed.
