(* ===== verification/Aead.v ===== *)
(** * Aead: the interface of authenticated encryption

    Models [src/fastsocks/cpp/boringssl/crypto/cipher/aead.c], the table of
    functions of [cipher/internal.h] and [CRYPTO_memcmp] of [mem.c].  The
    caller's memory is one block of bytes and every pointer an offset in it,
    so input, output, nonce and additional data may overlap; [size_t] has 32
    bits, as in the ABI of the build.

    An implementation promises [AeadLaws]; against them it is shown that
    sealing and opening give back the message also when the output overlaps
    the input, and that a refused call leaves nothing but zeros. *)

From S2P Require Import Prelude.

(** ** The code *)

(** The arguments after [ctx]; [c_out_len], a plain result, is left out. *)
Record Call : Type := mkCall {
  c_out : Z;
  c_max_out_len : Z;
  c_nonce : Z;
  c_nonce_len : Z;
  c_in : Z;
  c_in_len : Z;
  c_ad : Z;
  c_ad_len : Z;
}.

Inductive evp_aead_direction_t : Type := evp_aead_open | evp_aead_seal.

Fixpoint memcmp_loop (len : nat) (a b : list Z) (x : Z) : res Z :=
  match len with
  | O => Ok x
  | S len' =>
      match a, b with
      | p :: a', q :: b' => memcmp_loop len' a' b' (Z.lor x (Z.lxor p q))
      | _, _ => Fault OutOfBounds
      end
  end.

Definition CRYPTO_memcmp (a b : list Z) (len : Z) : res Z := memcmp_loop (Z.to_nat len) a b 0.

Section Evp.
Context {St : Type}.

(** [init] and [init_with_direction] get whether memory can be had; [seal]
    and [open] get what the stack held, and give [*out_len] when they
    return 1. *)
Record EVP_AEAD : Type := mkAead {
  key_len : Z;
  nonce_len : Z;
  overhead : Z;
  max_tag_len : Z;
  init : option (list Z -> Z -> bool -> option St);
  init_with_direction : option (list Z -> Z -> evp_aead_direction_t -> bool -> option St);
  seal : St -> list Z -> Call -> list Z -> res (option Z * list Z);
  open : St -> list Z -> Call -> list Z -> res (option Z * list Z);
}.

Record EVP_AEAD_CTX : Type := mkAeadCtx {
  ctx_aead : option EVP_AEAD;
  ctx_state : option St;
}.

Definition EVP_AEAD_key_length (a : EVP_AEAD) : Z := key_len a.
Definition EVP_AEAD_nonce_length (a : EVP_AEAD) : Z := nonce_len a.
Definition EVP_AEAD_max_overhead (a : EVP_AEAD) : Z := overhead a.
Definition EVP_AEAD_max_tag_len (a : EVP_AEAD) : Z := max_tag_len a.

Definition EVP_AEAD_CTX_init_with_direction (ctx : EVP_AEAD_CTX) (a : EVP_AEAD) (key : list Z) (tag_len : Z)
    (dir : evp_aead_direction_t) (memory : bool) : res (bool * EVP_AEAD_CTX) :=
  if negb (zlen key =? key_len a) then Ok (false, mkAeadCtx None (ctx_state ctx))
  else
    st ← match init a, init_with_direction a with
         | Some f, _ => Ok (f key tag_len memory)
         | None, Some f => Ok (f key tag_len dir memory)
         | None, None => Fault NullDereference
         end;
    match st with
    | Some s => Ok (true, mkAeadCtx (Some a) (Some s))
    | None => Ok (false, mkAeadCtx None (ctx_state ctx))
    end.

Definition EVP_AEAD_CTX_init (ctx : EVP_AEAD_CTX) (a : EVP_AEAD) (key : list Z) (tag_len : Z) (memory : bool) :
    res (bool * EVP_AEAD_CTX) :=
  match init a with
  | None => Ok (false, mkAeadCtx None (ctx_state ctx))
  | Some _ => EVP_AEAD_CTX_init_with_direction ctx a key tag_len evp_aead_open memory
  end.

Definition EVP_AEAD_CTX_cleanup (ctx : EVP_AEAD_CTX) : EVP_AEAD_CTX :=
  match ctx_aead ctx with
  | None => ctx
  | Some _ => mkAeadCtx None None
  end.

(** [in] is a keyword. *)
Definition check_alias (inp in_len out : Z) : bool :=
  if out <=? inp then true else if inp + in_len <=? out then true else false.

Lemma check_alias_true inp n out : check_alias inp n out = true <-> out <= inp \/ inp + n <= out.
Proof. unfold check_alias. destruct (Z.leb_spec out inp), (Z.leb_spec (inp + n) out); intuition lia. Qed.

(** The label [error] of both functions. *)
Definition clear_output (c : Call) (mem : list Z) : res (bool * Z * list Z) :=
  mem ← write_at mem (c_out c) (replicate (Z.to_nat (c_max_out_len c)) 0);
  Ok (false, 0, mem).

(** [ctx->aead], [ctx->aead_state] *)
Definition used_ctx (ctx : EVP_AEAD_CTX) : res (EVP_AEAD * St) :=
  match ctx_aead ctx, ctx_state ctx with
  | Some a, Some s => Ok (a, s)
  | _, _ => Fault NullDereference
  end.

Definition EVP_AEAD_CTX_seal (ctx : EVP_AEAD_CTX) (stack : list Z) (c : Call) (mem : list Z) : res (bool * Z * list Z) :=
  '(a, s) ← used_ctx ctx;
  let possible_out_len := u32 (c_in_len c + overhead a) in
  if possible_out_len <? c_in_len c then clear_output c mem
  else if negb (check_alias (c_in c) (c_in_len c) (c_out c)) then clear_output c mem
  else
    '(ret, mem) ← seal a s stack c mem;
    match ret with
    | Some out_len => Ok (true, out_len, mem)
    | None => clear_output c mem
    end.

Definition EVP_AEAD_CTX_open (ctx : EVP_AEAD_CTX) (stack : list Z) (c : Call) (mem : list Z) : res (bool * Z * list Z) :=
  '(a, s) ← used_ctx ctx;
  if negb (check_alias (c_in c) (c_in_len c) (c_out c)) then clear_output c mem
  else
    '(ret, mem) ← open a s stack c mem;
    match ret with
    | Some out_len => Ok (true, out_len, mem)
    | None => clear_output c mem
    end.

(** ** What an implementation promises *)

(** The areas of the arguments. *)
Definition in_area (c : Call) (mem : list Z) : list Z := slice mem (c_in c) (c_in_len c).
Definition ad_area (c : Call) (mem : list Z) : list Z := slice mem (c_ad c) (c_ad_len c).
Definition nonce_area (c : Call) (mem : list Z) : list Z := slice mem (c_nonce c) (c_nonce_len c).

(** Every area lies in the memory, which fits the address space. *)
Record valid_call (c : Call) (mem : list Z) : Prop := {
  vc_bytes : Forall is_byte mem;
  vc_space : zlen mem < 2 ^ 32;
  vc_out : 0 <= c_out c /\ 0 <= c_max_out_len c /\ c_out c + c_max_out_len c <= zlen mem;
  vc_in : 0 <= c_in c /\ 0 <= c_in_len c /\ c_in c + c_in_len c <= zlen mem;
  vc_ad : 0 <= c_ad c /\ 0 <= c_ad_len c /\ c_ad c + c_ad_len c <= zlen mem;
  vc_nonce : 0 <= c_nonce c /\ 0 <= c_nonce_len c /\ c_nonce c + c_nonce_len c <= zlen mem;
}.

(** The output area filled with zeros. *)
Definition zeroed (c : Call) (mem : list Z) : list Z := splice mem (c_out c) (replicate (Z.to_nat (c_max_out_len c)) 0).

(** [sealed] and [opened] say what the functions compute, as functions of
    nonce, additional data and text, for the lengths of the three that
    [call_fits].  A refused [open] may have written to the output area, which
    its caller clears. *)
Class AeadLaws (A : EVP_AEAD) : Type := {
  usable : St -> Prop;
  call_fits : Z -> Z -> Z -> bool;
  good_call : list Z -> Call -> Prop;
  tag_size : St -> Z;
  sealed : St -> list Z -> list Z -> list Z -> list Z;
  opened : St -> list Z -> list Z -> list Z -> option (list Z);
  law_tag : forall s, usable s -> 0 <= tag_size s <= overhead A /\ overhead A < 256;
  law_sealed_length : forall s n d p, usable s -> call_fits (zlen n) (zlen d) (zlen p) = true ->
    Forall is_byte n -> Forall is_byte d -> Forall is_byte p ->
    zlen (sealed s n d p) = zlen p + tag_size s /\ Forall is_byte (sealed s n d p);
  law_roundtrip : forall s n d p, usable s -> call_fits (zlen n) (zlen d) (zlen p) = true ->
    Forall is_byte n -> Forall is_byte d -> Forall is_byte p -> opened s n d (sealed s n d p) = Some p;
  law_seal : forall s stack c mem, usable s -> good_call stack c -> valid_call c mem ->
    check_alias (c_in c) (c_in_len c) (c_out c) = true ->
    seal A s stack c mem =
      Ok (if call_fits (c_nonce_len c) (c_ad_len c) (c_in_len c) && (c_in_len c + tag_size s <=? c_max_out_len c)
          then (Some (c_in_len c + tag_size s),
                splice mem (c_out c) (sealed s (nonce_area c mem) (ad_area c mem) (in_area c mem)))
          else (None, mem));
  law_open : forall s stack c mem, usable s -> good_call stack c -> valid_call c mem ->
    check_alias (c_in c) (c_in_len c) (c_out c) = true ->
    exists rest, zlen rest = zlen mem /\ zeroed c rest = zeroed c mem /\
    open A s stack c mem =
      Ok (if call_fits (c_nonce_len c) (c_ad_len c) (c_in_len c - tag_size s) && (tag_size s <=? c_in_len c) && (c_in_len c - tag_size s <=? c_max_out_len c)
          then match opened s (nonce_area c mem) (ad_area c mem) (in_area c mem) with
               | Some p => (Some (zlen p), splice mem (c_out c) p)
               | None => (None, rest)
               end
          else (None, mem));
}.

(** ** Both calls against the interface *)

Context (A : EVP_AEAD) {L : AeadLaws A}.

(** The memory after a refusal. *)
Definition refused (c : Call) (mem : list Z) : res (bool * Z * list Z) := Ok (false, 0, zeroed c mem).

Lemma clear_rest c mem rest : valid_call c mem -> zlen rest = zlen mem -> clear_output c rest = refused c rest.
Proof.
  intros V E. destruct (vc_out _ _ V). unfold clear_output.
  rewrite write_at_Ok by (unfold zlen in *; rewrite ?length_replicate; lia). done.
Qed.

Lemma clear_output_ok c mem : valid_call c mem -> clear_output c mem = refused c mem.
Proof. intros V. by apply (clear_rest c mem). Qed.

(** When a seal succeeds, and with what. *)
Definition seal_accepts (s : St) (c : Call) : bool :=
  check_alias (c_in c) (c_in_len c) (c_out c) && call_fits (c_nonce_len c) (c_ad_len c) (c_in_len c) &&
  (c_in_len c + tag_size s <=? c_max_out_len c) && (c_in_len c + overhead A <? 2 ^ 32).

Lemma evp_seal_spec s stack c mem :
  usable s -> good_call stack c -> valid_call c mem ->
  EVP_AEAD_CTX_seal (mkAeadCtx (Some A) (Some s)) stack c mem =
    if seal_accepts s c
    then Ok (true, c_in_len c + tag_size s,
             splice mem (c_out c) (sealed s (nonce_area c mem) (ad_area c mem) (in_area c mem)))
    else refused c mem.
Proof.
  intros U G V. unfold EVP_AEAD_CTX_seal, used_ctx, seal_accepts. cbn [ctx_aead ctx_state mbind res_bind].
  destruct (law_tag s U), (vc_in _ _ V) as (? & ? & ?). pose proof (vc_space _ _ V).
  rewrite <- clear_output_ok by done.
  destruct (check_alias _ _ _) eqn:Ea; cbn [negb andb]; [|by destruct (_ <? c_in_len c)].
  rewrite law_seal by done. cbn [mbind res_bind].
  destruct (Z.ltb_spec (c_in_len c + overhead A) (2 ^ 32)) as [Hl|Hl].
  - rewrite wrapU_id by (unfold is_u; lia). destruct (Z.ltb_spec (c_in_len c + overhead A) (c_in_len c)); [lia|].
    rewrite andb_true_r. by destruct (_ && _).
  - assert (u32 (c_in_len c + overhead A) < c_in_len c) as ->%Z.ltb_lt by (unfold wrapU; zlia).
    by rewrite andb_false_r.
Qed.

Definition open_accepts (s : St) (c : Call) : bool :=
  check_alias (c_in c) (c_in_len c) (c_out c) && call_fits (c_nonce_len c) (c_ad_len c) (c_in_len c - tag_size s) &&
  (tag_size s <=? c_in_len c) && (c_in_len c - tag_size s <=? c_max_out_len c).

Lemma evp_open_spec s stack c mem :
  usable s -> good_call stack c -> valid_call c mem ->
  EVP_AEAD_CTX_open (mkAeadCtx (Some A) (Some s)) stack c mem =
    if open_accepts s c then
      match opened s (nonce_area c mem) (ad_area c mem) (in_area c mem) with
      | Some p => Ok (true, zlen p, splice mem (c_out c) p)
      | None => refused c mem
      end
    else refused c mem.
Proof.
  intros U G V. unfold EVP_AEAD_CTX_open, used_ctx, open_accepts. cbn [ctx_aead ctx_state mbind res_bind].
  destruct (check_alias _ _ _) eqn:Ea; cbn [negb andb]; [|by apply clear_output_ok].
  destruct (law_open s stack c mem U G V Ea) as (rest & Lr & Er & ->). cbn [mbind res_bind].
  destruct (_ && _); [|by apply clear_output_ok]. destruct (opened _ _ _ _); [done|].
  rewrite (clear_rest c mem) by done. unfold refused. by rewrite Er.
Qed.

(** What was sealed opens, wherever both are placed. *)
Lemma evp_open_sealed s stack c mem p :
  usable s -> good_call stack c -> valid_call c mem -> open_accepts s c = true -> Forall is_byte p ->
  call_fits (c_nonce_len c) (c_ad_len c) (zlen p) = true ->
  in_area c mem = sealed s (nonce_area c mem) (ad_area c mem) p ->
  EVP_AEAD_CTX_open (mkAeadCtx (Some A) (Some s)) stack c mem = Ok (true, zlen p, splice mem (c_out c) p).
Proof.
  intros U G V Ha Hp Hf E. rewrite evp_open_spec, Ha, E by done.
  destruct (vc_nonce _ _ V) as (? & ? & ?), (vc_ad _ _ V) as (? & ? & ?). pose proof (vc_bytes _ _ V).
  rewrite law_roundtrip; [done|done| |unfold nonce_area, ad_area; auto with mach..].
  unfold nonce_area, ad_area. by rewrite !zlen_slice by lia.
Qed.

(** A valid seal succeeds within the output area, and its text opens with the
    same nonce and additional data, wherever it was moved. *)
Lemma evp_roundtrip s stack c mem :
  usable s -> good_call stack c -> valid_call c mem -> seal_accepts s c = true ->
  let text := sealed s (nonce_area c mem) (ad_area c mem) (in_area c mem) in
  zlen text = c_in_len c + tag_size s /\ Forall is_byte text /\
  EVP_AEAD_CTX_seal (mkAeadCtx (Some A) (Some s)) stack c mem = Ok (true, zlen text, splice mem (c_out c) text) /\
  (forall stack' c' m, good_call stack' c' -> valid_call c' m ->
     nonce_area c' m = nonce_area c mem -> ad_area c' m = ad_area c mem -> in_area c' m = text ->
     check_alias (c_in c') (c_in_len c') (c_out c') = true -> c_in_len c <= c_max_out_len c' ->
     EVP_AEAD_CTX_open (mkAeadCtx (Some A) (Some s)) stack' c' m = Ok (true, c_in_len c, splice m (c_out c') (in_area c mem))).
Proof.
  intros U G V Ha text. pose proof (vc_bytes _ _ V). pose proof (law_tag s U).
  destruct (vc_in _ _ V) as (? & ? & ?), (vc_nonce _ _ V) as (? & ? & ?), (vc_ad _ _ V) as (? & ? & ?).
  assert (Li : zlen (in_area c mem) = c_in_len c) by (apply zlen_slice; lia).
  assert (Ln : zlen (nonce_area c mem) = c_nonce_len c) by (apply zlen_slice; lia).
  assert (Ld : zlen (ad_area c mem) = c_ad_len c) by (apply zlen_slice; lia).
  pose proof Ha as Ha'. unfold seal_accepts in Ha'. apply andb_true_iff in Ha' as [[[Ha1 Ha2]%andb_true_iff Ha3]%andb_true_iff Ha4].
  destruct (law_sealed_length s (nonce_area c mem) (ad_area c mem) (in_area c mem) U) as [Lt Bt];
    [by rewrite Ln, Ld, Li|by apply Forall_slice..|]. fold text in Lt, Bt. rewrite Li in Lt.
  split; [done|]. split; [done|]. split; [rewrite evp_seal_spec, Ha, Lt by done; done|].
  intros stack' c' m G' V' En Ed Ei Ea Hl.
  destruct (vc_in _ _ V') as (? & ? & ?), (vc_nonce _ _ V') as (? & ? & ?), (vc_ad _ _ V') as (? & ? & ?).
  assert (Li' : zlen (in_area c' m) = c_in_len c') by (apply zlen_slice; lia).
  assert (Ln' : zlen (nonce_area c' m) = c_nonce_len c') by (apply zlen_slice; lia).
  assert (Ld' : zlen (ad_area c' m) = c_ad_len c') by (apply zlen_slice; lia).
  rewrite En, Ln in Ln'. rewrite Ed, Ld in Ld'. rewrite Ei, Lt in Li'.
  rewrite <- Li. apply evp_open_sealed; try done; [|by apply Forall_slice|by rewrite Li, <- Ln', <- Ld'|by rewrite Ei, En, Ed].
  unfold open_accepts. rewrite Ea, <- Ln', <- Ld', <- Li'. replace (c_in_len c + tag_size s - tag_size s) with (c_in_len c) by lia.
  rewrite Ha2. apply andb_true_iff. split; [apply andb_true_iff; split; [done|]|]; apply Z.leb_le; lia.
Qed.
End Evp.
Arguments EVP_AEAD : clear implicits.
Arguments EVP_AEAD_CTX : clear implicits.

(** ** Texts and tags *)

(** The parts of a sealed text. *)
Lemma slice_parts (a b : list Z) : slice (a ++ b) 0 (zlen a) = a /\ slice (a ++ b) (zlen a) (zlen b) = b.
Proof.
  split; unfold slice, zlen; rewrite !Nat2Z.id; [apply take_app_length|]. rewrite drop_app_length. by apply take_ge.
Qed.

Lemma text_parts (mem : list Z) off len t : 0 <= off -> 0 <= len -> 0 <= t -> off + (len + t) <= zlen mem ->
  slice (slice mem off (len + t)) 0 len = slice mem off len /\ slice (slice mem off (len + t)) len t = slice mem (off + len) t.
Proof.
  intros. rewrite slice_app by lia. assert (La : zlen (slice mem off len) = len) by (apply zlen_slice; lia).
  assert (Lb : zlen (slice mem (off + len) t) = t) by (apply zlen_slice; lia).
  pose proof (slice_parts (slice mem off len) (slice mem (off + len) t)) as P. by rewrite La, Lb in P.
Qed.

Lemma memcmp_zero len a b x :
  Forall is_byte a -> Forall is_byte b -> 0 <= x -> (len <= length a)%nat -> (len <= length b)%nat ->
  exists y, memcmp_loop len a b x = Ok y /\ (y = 0 <-> x = 0 /\ take len a = take len b).
Proof.
  revert a b x. induction len as [|len IH]; intros a b x Ha Hb Hx La Lb; [by exists x; simpl; intuition|].
  destruct a as [|p a], b as [|q b]; try (simpl in *; lia).
  apply Forall_cons in Ha as [Hp Ha], Hb as [Hq Hb]. simpl.
  assert (0 <= Z.lxor p q) by (apply Z.lxor_nonneg; unfold is_u in *; lia).
  destruct (IH a b (Z.lor x (Z.lxor p q))) as (y & -> & Ey); [done|done| |simpl in *; lia..|].
  { apply Z.lor_nonneg. lia. }
  exists y. split; [done|]. rewrite Ey, Z.lor_eq_0_iff, Z.lxor_eq_0_iff. split.
  - intros [[-> ->] ->]. done.
  - intros [-> [= -> ->]]. done.
Qed.

Lemma CRYPTO_memcmp_spec a b len :
  Forall is_byte a -> Forall is_byte b -> 0 <= len <= zlen a -> len <= zlen b ->
  exists y, CRYPTO_memcmp a b len = Ok y /\ ((y =? 0) = bool_decide (slice a 0 len = slice b 0 len)).
Proof.
  intros Ha Hb La Lb. unfold CRYPTO_memcmp, zlen in *.
  destruct (memcmp_zero (Z.to_nat len) a b 0) as (y & -> & E); [done|done|lia..|].
  exists y. split; [done|]. unfold slice. change (Z.to_nat 0) with 0%nat. rewrite !drop_0.
  destruct (Z.eqb_spec y 0); symmetry; [apply bool_decide_eq_true|apply bool_decide_eq_false]; tauto.
Qed.
