(* ===== verification/ChaChaPoly.v ===== *)
(** * ChaChaPoly: authenticated encryption with ChaCha20 and Poly1305

    Models [src/fastsocks/cpp/boringssl/crypto/cipher/e_chacha20poly1305.c]
    on top of [ChaCha.v] and [Poly1305.v], and shows that it keeps the
    promises of [Aead.v].  The cipher works in the caller's memory, where
    the output may start at or before the input. *)

From S2P Require Import Prelude.
From S2P Require Import Words.
From S2P Require Import FormatTools.
From S2P Require Import Md32.
From S2P Require Import ChaCha.
From S2P Require Import Poly1305.
From S2P Require Import Aead.

(** ** The code *)

(** [for (i = 0; i < todo; i++) out[i] = in[i] ^ buf[i];] *)
Fixpoint xor_bytes (todo : nat) (mem : list Z) (out inp : Z) (buf : list Z) : res (list Z) :=
  match todo, buf with
  | O, _ => Ok mem
  | S todo', b :: buf' =>
      x ← read_one mem inp;
      mem ← write_at mem out [XOR x b];
      xor_bytes todo' mem (out + 1) (inp + 1) buf'
  | S _, [] => Fault OutOfBounds
  end.

(** The loop of [CRYPTO_chacha_20] on memory. *)
Fixpoint chacha_mem_loop (fuel : nat) (input mem : list Z) (out inp in_len : Z) : res (list Z) :=
  match fuel with
  | O => Fault OutOfFuel
  | S fuel' =>
      if in_len >? 0 then
        let todo := if in_len <? 64 then in_len else 64 in
        let buf := chacha_core input in
        mem ← xor_bytes (Z.to_nat todo) mem out inp buf;
        chacha_mem_loop fuel' (next_input input) mem (out + todo) (inp + todo) (in_len - todo)
      else Ok mem
  end.

(** [CRYPTO_chacha_20(out, in, in_len, key, nonce, counter)] *)
Definition chacha_20_mem (mem : list Z) (out inp in_len : Z) (key : list Z) (nonce counter : Z) : res (list Z) :=
  n ← read_at mem nonce 8;
  chacha_mem_loop (S (Z.to_nat in_len)) (chacha_input key n counter) mem out inp in_len.

Definition POLY1305_TAG_LEN : Z := 16.
Definition CHACHA20_NONCE_LEN : Z := 8.

Record aead_chacha20_poly1305_ctx : Type := mkC20 {
  c20_key : list Z;
  c20_tag_len : Z;
}.

Definition aead_chacha20_poly1305_init (key : list Z) (tag_len : Z) (memory : bool) : option aead_chacha20_poly1305_ctx :=
  let tag_len := if tag_len =? 0 then POLY1305_TAG_LEN else tag_len in
  if tag_len >? POLY1305_TAG_LEN then None
  else if negb (zlen key =? 32) then None
  else if negb memory then None
  else Some (mkC20 key (u8 tag_len)).

(** [length_bytes[i] = j; j >>= 8;] *)
Fixpoint length_bytes (n : nat) (j : Z) : list Z :=
  match n with
  | O => []
  | S n' => u8 j :: length_bytes n' (Z.shiftr j 8)
  end.

Definition poly1305_update_with_length (st : poly1305_state_st) (data : list Z) : res poly1305_state_st :=
  st ← CRYPTO_poly1305_update st data;
  CRYPTO_poly1305_update st (length_bytes 8 (zlen data)).

(** [memset(poly1305_key, 0, ...); CRYPTO_chacha_20(poly1305_key, poly1305_key, ..., 0);] *)
Definition one_time_key (ctx : aead_chacha20_poly1305_ctx) (mem : list Z) (nonce : Z) : res (list Z) :=
  n ← read_at mem nonce 8;
  CRYPTO_chacha_20 (replicate 32 0) (c20_key ctx) n 0.

Definition aead_chacha20_poly1305_seal (ctx : aead_chacha20_poly1305_ctx) (stack : list Z) (c : Call) (mem : list Z) :
    res (option Z * list Z) :=
  let in_len := c_in_len c in
  if in_len >=? 2 ^ 32 * 64 - 64 then Ok (None, mem)
  else if u32 (in_len + c20_tag_len ctx) <? in_len then Ok (None, mem)
  else if c_max_out_len c <? u32 (in_len + c20_tag_len ctx) then Ok (None, mem)
  else if negb (c_nonce_len c =? CHACHA20_NONCE_LEN) then Ok (None, mem)
  else
    poly1305_key ← one_time_key ctx mem (c_nonce c);
    poly1305 ← CRYPTO_poly1305_init stack poly1305_key;
    ad ← read_at mem (c_ad c) (c_ad_len c);
    poly1305 ← poly1305_update_with_length poly1305 ad;
    mem ← chacha_20_mem mem (c_out c) (c_in c) in_len (c20_key ctx) (c_nonce c) 1;
    ct ← read_at mem (c_out c) in_len;
    poly1305 ← poly1305_update_with_length poly1305 ct;
    '(tag, _) ← CRYPTO_poly1305_finish poly1305;
    mem ← write_at mem (c_out c + in_len) (slice tag 0 (c20_tag_len ctx));
    Ok (Some (u32 (in_len + c20_tag_len ctx)), mem).

Definition aead_chacha20_poly1305_open (ctx : aead_chacha20_poly1305_ctx) (stack : list Z) (c : Call) (mem : list Z) :
    res (option Z * list Z) :=
  let in_len := c_in_len c in
  if in_len <? c20_tag_len ctx then Ok (None, mem)
  else if in_len >=? 2 ^ 32 * 64 - 64 then Ok (None, mem)
  else if negb (c_nonce_len c =? CHACHA20_NONCE_LEN) then Ok (None, mem)
  else
    let plaintext_len := in_len - c20_tag_len ctx in
    if c_max_out_len c <? plaintext_len then Ok (None, mem)
    else
      poly1305_key ← one_time_key ctx mem (c_nonce c);
      poly1305 ← CRYPTO_poly1305_init stack poly1305_key;
      ad ← read_at mem (c_ad c) (c_ad_len c);
      poly1305 ← poly1305_update_with_length poly1305 ad;
      ct ← read_at mem (c_in c) plaintext_len;
      poly1305 ← poly1305_update_with_length poly1305 ct;
      '(mac, _) ← CRYPTO_poly1305_finish poly1305;
      given ← read_at mem (c_in c + plaintext_len) (c20_tag_len ctx);
      differ ← CRYPTO_memcmp mac given (c20_tag_len ctx);
      if negb (differ =? 0) then Ok (None, mem)
      else
        mem ← chacha_20_mem mem (c_out c) (c_in c) plaintext_len (c20_key ctx) (c_nonce c) 1;
        Ok (Some plaintext_len, mem).

Definition aead_chacha20_poly1305 : EVP_AEAD aead_chacha20_poly1305_ctx :=
  mkAead 32 CHACHA20_NONCE_LEN POLY1305_TAG_LEN POLY1305_TAG_LEN (Some aead_chacha20_poly1305_init) None
    aead_chacha20_poly1305_seal aead_chacha20_poly1305_open.

(** ** The cipher in memory *)

(** Reading at [inp] is not disturbed by writing before it at [out]. *)
Definition apart (out inp n : Z) : Prop := out <= inp \/ inp + n <= out.

Lemma xor_bytes_ok n mem out inp buf :
  (n <= length buf)%nat -> 0 <= out -> out + Z.of_nat n <= zlen mem -> 0 <= inp -> inp + Z.of_nat n <= zlen mem ->
  apart out inp (Z.of_nat n) ->
  xor_bytes n mem out inp buf = Ok (splice mem out (zip_with XOR (slice mem inp (Z.of_nat n)) (take n buf))).
Proof.
  revert mem out inp buf. induction n as [|n IH]; intros mem out inp buf Hn Ho1 Ho2 Hi1 Hi2 Ha.
  - simpl. by rewrite splice_nil.
  - destruct buf as [|b buf]; [simpl in Hn; lia|]. cbn [xor_bytes].
    assert (Hn' : (n <= length buf)%nat) by (simpl in Hn; lia).
    assert (Hs : slice mem inp (Z.of_nat (S n)) = slice mem inp 1 ++ slice mem (inp + 1) (Z.of_nat n)).
    { replace (Z.of_nat (S n)) with (1 + Z.of_nat n) by lia. apply slice_app; lia. }
    assert (exists x, slice mem inp 1 = [x] /\ read_one mem inp = Ok x) as (x & Ex & ->).
    { pose proof (zlen_slice mem inp 1 Hi1 ltac:(lia) ltac:(lia)) as Hl. unfold zlen in Hl.
      destruct (slice mem inp 1) as [|x [|? ?]] eqn:E; simpl in Hl; try lia. exists x. split; [done|].
      apply read_one_lookup; [done|]. unfold slice in E. change (Z.to_nat 1) with 1%nat in E.
      apply (f_equal (.!! 0%nat)) in E. rewrite lookup_take_lt, lookup_drop, Nat.add_0_r in E by lia. done. }
    cbn [mbind res_bind]. rewrite write_at_Ok by (try done; rewrite zlen_cons, zlen_nil; lia). cbn [mbind res_bind].
    assert (L1 : zlen [XOR x b] = 1) by done.
    rewrite IH; [|done|lia|rewrite zlen_splice; lia|lia|rewrite zlen_splice; lia|unfold apart in *; lia].
    assert (slice (splice mem out [XOR x b]) (inp + 1) (Z.of_nat n) = slice mem (inp + 1) (Z.of_nat n)) as ->.
    { destruct Ha; [apply slice_splice_after; lia|apply slice_splice_before; lia]. }
    rewrite Hs, Ex. cbn [app take zip_with]. f_equal.
    set (r := zip_with _ _ _). assert (Lr : zlen r = Z.of_nat n).
    { unfold r, zlen. rewrite length_zip_with, length_take. pose proof (zlen_slice mem (inp + 1) (Z.of_nat n) ltac:(lia) ltac:(lia) ltac:(lia)) as Hl.
      unfold zlen in Hl. lia. }
    change (XOR x b :: r) with ([XOR x b] ++ r).
    rewrite <- (splice_splice mem out [XOR x b] r) by (rewrite ?L1; lia). by rewrite L1.
Qed.

Lemma length_next_input input : length (next_input input) = length input.
Proof. unfold next_input, put. case_match; by rewrite !length_insert. Qed.

Lemma chacha_loop_length fuel input inp o :
  length input = 16%nat -> chacha_loop fuel input inp = Ok o -> zlen o = zlen inp.
Proof.
  revert input inp o. induction fuel as [|fuel IH]; intros input inp o Hi; [done|]. cbn [chacha_loop].
  rewrite Z.gtb_ltb. destruct (Z.ltb_spec 0 (zlen inp)) as [H0|H0].
  - set (todo := if (_ <? _)%nat then _ else _).
    assert (Ht : (todo <= length inp /\ todo <= 64)%nat) by (unfold todo; destruct (Nat.ltb_spec (length inp) 64); lia).
    destruct (chacha_loop fuel _ _) as [rest|] eqn:Er; cbn [mbind res_bind]; [|done]. intros [= <-].
    apply IH in Er; [|by rewrite length_next_input]. unfold zlen in *.
    rewrite length_app, length_zip_with, !length_take, length_core, Hi. rewrite length_drop in Er. lia.
  - intros [= <-]. pose proof (zlen_nonneg inp). rewrite zlen_nil. lia.
Qed.

Lemma chacha_mem_ok fuel input mem out inp in_len o :
  length input = 16%nat -> 0 <= out -> 0 <= in_len -> out + in_len <= zlen mem -> 0 <= inp -> inp + in_len <= zlen mem ->
  apart out inp in_len -> chacha_loop fuel input (slice mem inp in_len) = Ok o ->
  chacha_mem_loop fuel input mem out inp in_len = Ok (splice mem out o).
Proof.
  revert input mem out inp in_len o. induction fuel as [|fuel IH]; intros input mem out inp in_len o Hi Ho1 Hn Ho2 Hi1 Hi2 Ha; [done|].
  cbn [chacha_loop chacha_mem_loop]. rewrite (zlen_slice mem inp in_len) by lia. rewrite !Z.gtb_ltb.
  destruct (Z.ltb_spec 0 in_len) as [H0|H0]; [|by intros [= <-]; rewrite splice_nil].
  assert (Ls : Z.of_nat (length (slice mem inp in_len)) = in_len) by (by apply zlen_slice).
  set (todo := if in_len <? 64 then in_len else 64).
  assert (Ht : 0 < todo <= in_len /\ todo <= 64) by (unfold todo; destruct (Z.ltb_spec in_len 64); lia).
  assert ((if (length (slice mem inp in_len) <? 64)%nat then length (slice mem inp in_len) else 64%nat) = Z.to_nat todo) as ->.
  { unfold todo. destruct (Z.ltb_spec in_len 64), (Nat.ltb_spec (length (slice mem inp in_len)) 64); lia. }
  clearbody todo. assert (Et : Z.of_nat (Z.to_nat todo) = todo) by lia.
  assert (Htake : take (Z.to_nat todo) (slice mem inp in_len) = slice mem inp todo).
  { unfold slice. rewrite take_take. f_equal. lia. }
  assert (Hdrop : drop (Z.to_nat todo) (slice mem inp in_len) = slice mem (inp + todo) (in_len - todo)).
  { replace in_len with (todo + (in_len - todo)) at 1 by lia. rewrite slice_app by lia.
    rewrite drop_app_length'; [done|]. apply Nat2Z.inj. rewrite Et. symmetry. apply zlen_slice; lia. }
  rewrite Htake, Hdrop, xor_bytes_ok, Et by (rewrite ?length_core; unfold apart in *; lia).
  set (x := zip_with XOR _ _). cbn [mbind res_bind].
  assert (Lx : zlen x = todo).
  { unfold x, zlen. rewrite length_zip_with, length_take, length_core, Hi.
    pose proof (zlen_slice mem inp todo ltac:(lia) ltac:(lia) ltac:(lia)) as Hl. unfold zlen in Hl. lia. }
  destruct (chacha_loop fuel (next_input input) _) as [rest|] eqn:Er; cbn [mbind res_bind]; [|done]. intros [= <-].
  apply chacha_loop_length in Er as Lr; [|by rewrite length_next_input].
  rewrite (zlen_slice mem (inp + todo) (in_len - todo)) in Lr by lia.
  rewrite (IH (next_input input) _ _ _ _ rest); [|by rewrite length_next_input|lia|lia|rewrite zlen_splice; lia|lia|rewrite zlen_splice; lia|unfold apart in *; lia|].
  - f_equal. rewrite <- Lx at 1. apply splice_splice; lia.
  - rewrite <- Er. f_equal. destruct Ha; [apply slice_splice_after; lia|apply slice_splice_before; lia].
Qed.

Lemma chacha_20_mem_ok mem out inp in_len key nonce counter :
  0 <= out -> 0 <= in_len -> out + in_len <= zlen mem -> 0 <= inp -> inp + in_len <= zlen mem ->
  0 <= nonce -> nonce + 8 <= zlen mem -> apart out inp in_len ->
  chacha_20_mem mem out inp in_len key nonce counter =
    Ok (splice mem out (masked key (slice mem nonce 8) counter (slice mem inp in_len))).
Proof.
  intros. unfold chacha_20_mem. rewrite read_at_Ok by lia. cbn [mbind res_bind].
  apply chacha_mem_ok; [done|done|done|done|done|done|done|].
  rewrite <- chacha_input_u64. apply chacha_loop_masked.
  pose proof (zlen_slice mem inp in_len ltac:(done) ltac:(done) ltac:(done)) as Hl. unfold zlen in Hl. lia.
Qed.

Lemma masked_bytes key nonce c bs : Forall is_byte bs -> Forall is_byte (masked key nonce c bs).
Proof.
  intros H. apply Forall_lookup. intros i x. unfold masked. rewrite list_lookup_imap.
  destruct (bs !! i) as [y|] eqn:Ey; [|done]. intros [= <-]. unfold XOR. apply is_u_lxor; [done| |].
  - by eapply Forall_lookup_1.
  - unfold keystream. generalize (chacha_input key nonce (u64 (c + Z.of_nat (i / 64)))) as input. intros input.
    assert (B : Forall is_byte (chacha_core input)).
    { unfold chacha_core. generalize (zip_with PLUS (Nat.iter 10 double_round input) input). intros l.
      induction l as [|v l IH]; [done|].
      change (Forall is_byte (U32TO8_LITTLE v ++ mjoin (U32TO8_LITTLE <$> l))). apply Forall_app. split; [|done].
      repeat (apply Forall_cons; split; [apply is_byte_at|]). done. }
    rewrite list_lookup_total_alt. destruct (chacha_core input !! _) as [z|] eqn:Ez; [|done].
    simpl. by eapply Forall_lookup_1.
Qed.

Lemma length_bytes_bytes n j : Forall is_byte (length_bytes n j).
Proof.
  revert j. induction n as [|n IH]; intros j; [done|]. apply Forall_cons. split; [by apply wrapU_range|done].
Qed.

(** ** What is computed *)

(** The text under Poly1305. *)
Definition mac_text (ad ct : list Z) : list (list Z) := [ad; length_bytes 8 (zlen ad); ct; length_bytes 8 (zlen ct)].

Definition full_tag (one_time : list Z) (ad ct : list Z) : list Z :=
  match poly1305_mac (replicate 16 0) one_time (mac_text ad ct) with Ok mac => mac | Fault _ => [] end.

Definition c20_tag (ctx : aead_chacha20_poly1305_ctx) (n ad ct : list Z) : list Z :=
  slice (full_tag (masked (c20_key ctx) n 0 (replicate 32 0)) ad ct) 0 (c20_tag_len ctx).

Definition c20_sealed (ctx : aead_chacha20_poly1305_ctx) (n ad p : list Z) : list Z :=
  let ct := masked (c20_key ctx) n 1 p in ct ++ c20_tag ctx n ad ct.

Definition c20_opened (ctx : aead_chacha20_poly1305_ctx) (n ad t : list Z) : option (list Z) :=
  let len := zlen t - c20_tag_len ctx in
  if len <? 0 then None
  else if bool_decide (slice t len (c20_tag_len ctx) = c20_tag ctx n ad (slice t 0 len))
  then Some (masked (c20_key ctx) n 1 (slice t 0 len)) else None.

Definition c20_usable (ctx : aead_chacha20_poly1305_ctx) : Prop :=
  zlen (c20_key ctx) = 32 /\ 0 < c20_tag_len ctx <= 16.

Definition c20_stack (stack : list Z) : Prop := Forall is_byte stack /\ zlen stack = 16.

(** The stages of the authenticator. *)
Lemma mac_stages stack one_time ad ct :
  c20_stack stack -> Forall is_byte one_time -> zlen one_time = 32 -> Forall is_byte ad -> Forall is_byte ct ->
  exists st0 st1 st2 fin, CRYPTO_poly1305_init stack one_time = Ok st0 /\ poly1305_update_with_length st0 ad = Ok st1 /\
    poly1305_update_with_length st1 ct = Ok st2 /\ CRYPTO_poly1305_finish st2 = Ok (full_tag one_time ad ct, fin) /\
    zlen (full_tag one_time ad ct) = 16 /\ Forall is_byte (full_tag one_time ad ct).
Proof.
  intros [Hs Ls] Hk Lk Ha Hc.
  destruct (poly1305_mac_total one_time (mac_text ad ct) Hk Lk) as (mac & Lm & Hm & E).
  { repeat (apply Forall_cons; split; [first [done|apply length_bytes_bytes]|]). done. }
  pose proof (E stack Hs Ls) as E1. unfold full_tag. rewrite (E (replicate 16 0)) by (done || by apply Forall_replicate).
  unfold poly1305_mac in E1. destruct (CRYPTO_poly1305_init stack one_time) as [st0|] eqn:E0; [|done].
  unfold mac_text, poly1305_update_with_length in *. cbn [updates mbind res_bind] in E1.
  destruct (CRYPTO_poly1305_update st0 ad) as [a|] eqn:Ea; [|done]. cbn [mbind res_bind] in E1.
  destruct (CRYPTO_poly1305_update a _) as [b|] eqn:Eb; [|done]. cbn [mbind res_bind] in E1.
  destruct (CRYPTO_poly1305_update b _) as [d|] eqn:Ed; [|done]. cbn [mbind res_bind] in E1.
  destruct (CRYPTO_poly1305_update d _) as [e|] eqn:Ee; [|done]. cbn [mbind res_bind] in E1.
  destruct (CRYPTO_poly1305_finish e) as [[mac' fin]|] eqn:Ef; [|done]. simpl in E1. injection E1 as ->.
  exists st0, b, e, fin. rewrite Ea, Ef. cbn [mbind res_bind]. rewrite Eb, Ed. cbn [mbind res_bind].
  rewrite Ee. unfold zlen. rewrite Lm. done.
Qed.

Lemma zlen_masked key n c bs : zlen (masked key n c bs) = zlen bs.
Proof. unfold zlen. by rewrite length_masked. Qed.

(** The key of the authenticator, for a nonce in memory. *)
Lemma one_time_key_ok ctx mem nonce :
  0 <= nonce -> nonce + 8 <= zlen mem ->
  one_time_key ctx mem nonce = Ok (masked (c20_key ctx) (slice mem nonce 8) 0 (replicate 32 0)) /\
  Forall is_byte (masked (c20_key ctx) (slice mem nonce 8) 0 (replicate 32 0)) /\
  zlen (masked (c20_key ctx) (slice mem nonce 8) 0 (replicate 32 0)) = 32.
Proof.
  intros. unfold one_time_key. rewrite read_at_Ok by lia. cbn [mbind res_bind]. rewrite chacha_masked, zlen_masked.
  split; [done|]. split; [|done]. apply masked_bytes. by apply Forall_replicate.
Qed.

Lemma zlen_c20_tag ctx n ad ct :
  c20_usable ctx -> Forall is_byte n -> Forall is_byte ad -> Forall is_byte ct ->
  zlen (c20_tag ctx n ad ct) = c20_tag_len ctx /\ Forall is_byte (c20_tag ctx n ad ct).
Proof.
  intros [_ Ut] Hn Ha Hc. unfold c20_tag.
  destruct (mac_stages (replicate 16 0) (masked (c20_key ctx) n 0 (replicate 32 0)) ad ct)
    as (_ & _ & _ & _ & _ & _ & _ & _ & L & B); [split; [by apply Forall_replicate|done]| |by rewrite zlen_masked|done|done|].
  { apply masked_bytes. by apply Forall_replicate. }
  split; [apply zlen_slice; lia|by apply Forall_slice].
Qed.

Lemma check_alias_apart inp n out : check_alias inp n out = true <-> apart out inp n.
Proof. apply check_alias_true. Qed.

Lemma c20_seal_ok ctx stack c mem :
  c20_usable ctx -> c20_stack stack -> valid_call c mem -> check_alias (c_in c) (c_in_len c) (c_out c) = true ->
  aead_chacha20_poly1305_seal ctx stack c mem =
    Ok (if (c_nonce_len c =? 8) && (c_in_len c + c20_tag_len ctx <=? c_max_out_len c)
        then (Some (c_in_len c + c20_tag_len ctx),
              splice mem (c_out c) (c20_sealed ctx (nonce_area c mem) (ad_area c mem) (in_area c mem)))
        else (None, mem)).
Proof.
  intros [Uk Ut] G [Hm Hs (O1 & O2 & O3) (I1 & I2 & I3) (A1 & A2 & A3) (N1 & N2 & N3)] Ha%check_alias_apart.
  unfold aead_chacha20_poly1305_seal, CHACHA20_NONCE_LEN. rewrite Z.geb_leb.
  destruct (Z.leb_spec (2 ^ 32 * 64 - 64) (c_in_len c)); [lia|].
  destruct (Z.leb_spec (c_in_len c + c20_tag_len ctx) (c_max_out_len c)) as [Hl|Hl].
  2: { rewrite andb_false_r. destruct (Z.ltb_spec (u32 (c_in_len c + c20_tag_len ctx)) (c_in_len c)) as [|H1]; [done|].
       rewrite wrapU_id in H1 |- * by (unfold is_u, wrapU in *; zlia).
       by destruct (Z.ltb_spec (c_max_out_len c) (c_in_len c + c20_tag_len ctx)); [|lia]. }
  rewrite wrapU_id by (unfold is_u; lia). rewrite andb_true_r.
  destruct (Z.ltb_spec (c_in_len c + c20_tag_len ctx) (c_in_len c)); [lia|].
  destruct (Z.ltb_spec (c_max_out_len c) (c_in_len c + c20_tag_len ctx)); [lia|].
  destruct (Z.eqb_spec (c_nonce_len c) 8) as [En|]; [|done]. cbn [negb].
  destruct (one_time_key_ok ctx mem (c_nonce c)) as (-> & Ko & Lo); [lia|lia|].
  unfold c20_sealed, nonce_area, ad_area, in_area. rewrite En.
  set (n := slice mem (c_nonce c) 8) in *. set (ct := masked (c20_key ctx) n 1 (slice mem (c_in c) (c_in_len c))).
  assert (Lc : zlen ct = c_in_len c) by (unfold ct; rewrite zlen_masked; apply zlen_slice; lia).
  assert (Bc : Forall is_byte ct) by (by apply masked_bytes, Forall_slice).
  destruct (mac_stages stack (masked (c20_key ctx) n 0 (replicate 32 0)) (slice mem (c_ad c) (c_ad_len c)) ct)
    as (st0 & st1 & st2 & fin & E0 & E1 & E2 & E3 & Lt & Bt); [done|done|done|by apply Forall_slice|done|].
  cbn [mbind res_bind]. rewrite E0. cbn [mbind res_bind]. rewrite read_at_Ok by lia. cbn [mbind res_bind].
  rewrite E1. cbn [mbind res_bind]. rewrite chacha_20_mem_ok by (done || lia). cbn [mbind res_bind]. fold n. fold ct.
  rewrite read_at_Ok, <- Lc by (rewrite ?zlen_splice; lia). rewrite slice_splice_same by lia. cbn [mbind res_bind].
  rewrite E2. cbn [mbind res_bind]. rewrite E3. cbn [mbind res_bind].
  assert (Lg : zlen (slice (full_tag (masked (c20_key ctx) n 0 (replicate 32 0)) (slice mem (c_ad c) (c_ad_len c)) ct) 0
                 (c20_tag_len ctx)) = c20_tag_len ctx) by (apply zlen_slice; lia).
  rewrite write_at_Ok by (rewrite ?zlen_splice; lia). cbn [mbind res_bind]. rewrite splice_splice by lia. done.
Qed.

Lemma c20_open_ok ctx stack c mem :
  c20_usable ctx -> c20_stack stack -> valid_call c mem -> check_alias (c_in c) (c_in_len c) (c_out c) = true ->
  aead_chacha20_poly1305_open ctx stack c mem =
    Ok (if (c_nonce_len c =? 8) && (c20_tag_len ctx <=? c_in_len c) && (c_in_len c - c20_tag_len ctx <=? c_max_out_len c)
        then match c20_opened ctx (nonce_area c mem) (ad_area c mem) (in_area c mem) with
             | Some p => (Some (zlen p), splice mem (c_out c) p)
             | None => (None, mem)
             end
        else (None, mem)).
Proof.
  intros [Uk Ut] G [Hm Hs (O1 & O2 & O3) (I1 & I2 & I3) (A1 & A2 & A3) (N1 & N2 & N3)] Ha%check_alias_apart.
  unfold aead_chacha20_poly1305_open, CHACHA20_NONCE_LEN. rewrite Z.geb_leb.
  destruct (Z.ltb_spec (c_in_len c) (c20_tag_len ctx)), (Z.leb_spec (c20_tag_len ctx) (c_in_len c)); try lia;
    [by rewrite andb_false_r|].
  destruct (Z.leb_spec (2 ^ 32 * 64 - 64) (c_in_len c)); [lia|].
  destruct (Z.eqb_spec (c_nonce_len c) 8) as [En|]; [|done]. cbn [negb andb].
  destruct (Z.ltb_spec (c_max_out_len c) (c_in_len c - c20_tag_len ctx)),
    (Z.leb_spec (c_in_len c - c20_tag_len ctx) (c_max_out_len c)); try lia; [done|].
  set (len := c_in_len c - c20_tag_len ctx) in *.
  destruct (one_time_key_ok ctx mem (c_nonce c)) as (-> & Ko & Lo); [lia|lia|].
  unfold c20_opened, nonce_area, ad_area, in_area. rewrite En, zlen_slice by lia. fold len.
  set (n := slice mem (c_nonce c) 8) in *.
  destruct (text_parts mem (c_in c) len (c20_tag_len ctx)) as [S1 S2]; [lia..|].
  replace (len + c20_tag_len ctx) with (c_in_len c) in S1, S2 by lia.
  destruct (Z.ltb_spec len 0); [lia|]. rewrite S1, S2. set (ct := slice mem (c_in c) len) in *.
  assert (Bc : Forall is_byte ct) by (by apply Forall_slice).
  destruct (mac_stages stack (masked (c20_key ctx) n 0 (replicate 32 0)) (slice mem (c_ad c) (c_ad_len c)) ct)
    as (st0 & st1 & st2 & fin & E0 & E1 & E2 & E3 & Lt & Bt); [done|done|done|by apply Forall_slice|done|].
  cbn [mbind res_bind]. rewrite E0. cbn [mbind res_bind]. rewrite (read_at_Ok mem (c_ad c)) by lia. cbn [mbind res_bind].
  rewrite E1. cbn [mbind res_bind]. rewrite (read_at_Ok mem (c_in c)) by lia. cbn [mbind res_bind]. fold ct.
  rewrite E2. cbn [mbind res_bind]. rewrite E3. cbn [mbind res_bind]. rewrite read_at_Ok by lia. cbn [mbind res_bind].
  assert (Lg : zlen (slice mem (c_in c + len) (c20_tag_len ctx)) = c20_tag_len ctx) by (apply zlen_slice; lia).
  destruct (CRYPTO_memcmp_spec (full_tag (masked (c20_key ctx) n 0 (replicate 32 0)) (slice mem (c_ad c) (c_ad_len c)) ct)
              (slice mem (c_in c + len) (c20_tag_len ctx)) (c20_tag_len ctx)) as (y & -> & Ey);
    [done|by apply Forall_slice|lia|lia|].
  set (given := slice mem (c_in c + len) (c20_tag_len ctx)) in *.
  assert ((y =? 0) = bool_decide (given = c20_tag ctx n (slice mem (c_ad c) (c_ad_len c)) ct)) as E.
  { rewrite Ey. apply bool_decide_ext. rewrite <- Lg at 2. rewrite slice_full. split; intros E; symmetry; exact E. }
  cbn [mbind res_bind]. rewrite E. clear E Ey. case_bool_decide; cbn [negb]; [|done].
  rewrite chacha_20_mem_ok by (done || unfold apart in *; lia). fold n. fold ct. cbn [mbind res_bind].
  rewrite zlen_masked. unfold ct. by rewrite zlen_slice by lia.
Qed.

(** Opening what was sealed. *)
Lemma c20_open_seal ctx n ad p :
  c20_usable ctx -> Forall is_byte n -> Forall is_byte ad -> Forall is_byte p ->
  c20_opened ctx n ad (c20_sealed ctx n ad p) = Some p.
Proof.
  intros U Hn Ha Hp. unfold c20_opened, c20_sealed. set (ct := masked (c20_key ctx) n 1 p).
  assert (Bc : Forall is_byte ct) by (by apply masked_bytes).
  destruct (zlen_c20_tag ctx n ad ct U Hn Ha Bc) as [Lt Bt]. pose proof (zlen_nonneg ct).
  rewrite zlen_app. replace (zlen ct + zlen (c20_tag ctx n ad ct) - c20_tag_len ctx) with (zlen ct) by lia.
  destruct (Z.ltb_spec (zlen ct) 0); [lia|].
  destruct (slice_parts ct (c20_tag ctx n ad ct)) as [-> E2]. rewrite Lt in E2. rewrite E2.
  rewrite bool_decide_eq_true_2 by done. unfold ct. by rewrite masked_masked.
Qed.

#[export] Instance c20_laws : AeadLaws aead_chacha20_poly1305.
Proof.
  refine {| usable := c20_usable; call_fits n _ _ := n =? 8; good_call stack _ := c20_stack stack; tag_size := c20_tag_len; sealed := c20_sealed; opened := c20_opened |}.
  - intros s [_ U]. cbn. unfold POLY1305_TAG_LEN. lia.
  - intros s n d p U _ Hn Hd Hp. unfold c20_sealed.
    destruct (zlen_c20_tag s n d (masked (c20_key s) n 1 p) U Hn Hd) as [L B]; [by apply masked_bytes|].
    rewrite zlen_app, zlen_masked, L. split; [done|]. apply Forall_app. split; [by apply masked_bytes|done].
  - intros s n d p U _ Hn Hd Hp. by apply c20_open_seal.
  - intros. by apply c20_seal_ok.
  - intros s stack c mem. exists mem. split; [done|]. split; [done|]. by apply c20_open_ok.
Defined.

(** A context for [key]. *)
Lemma c20_init_ok ctx key tag_len :
  zlen key = 32 -> 0 <= tag_len <= 16 ->
  exists s, EVP_AEAD_CTX_init ctx aead_chacha20_poly1305 key tag_len true = Ok (true, mkAeadCtx (Some aead_chacha20_poly1305) (Some s)) /\
    c20_usable s /\ c20_key s = key /\ c20_tag_len s = if tag_len =? 0 then 16 else tag_len.
Proof.
  intros Lk Ht. unfold EVP_AEAD_CTX_init, EVP_AEAD_CTX_init_with_direction. cbn [init aead_chacha20_poly1305 key_len].
  rewrite Lk. cbn [Z.eqb negb mbind res_bind Pos.eqb]. unfold aead_chacha20_poly1305_init, POLY1305_TAG_LEN. rewrite Lk.
  rewrite Z.gtb_ltb. set (t := if tag_len =? 0 then 16 else tag_len).
  assert (T : 0 < t <= 16) by (unfold t; destruct (Z.eqb_spec tag_len 0); lia).
  destruct (Z.ltb_spec 16 t); [lia|]. cbn [Z.eqb negb Pos.eqb].
  eexists. split; [reflexivity|]. cbn [c20_key c20_tag_len c20_usable]. unfold c20_usable. cbn [c20_key c20_tag_len].
  rewrite wrapU_id by (unfold is_u; lia). done.
Qed.

(** ** Sealing and opening *)

(** [EVP_AEAD_DEFAULT_TAG_LENGTH] stands for the whole tag. *)
Definition tag_length (tag_len : Z) : Z := if tag_len =? 0 then POLY1305_TAG_LEN else tag_len.

(** C14: for every key and tag length, a valid call of
    [EVP_AEAD_CTX_seal] whose output lies at, before or behind the input
    succeeds in the caller's memory without leaving the output area, and
    whoever opens the text it wrote, with the same nonce and additional data
    and again at any place in memory, gets exactly the message back. *)
Theorem c20_roundtrip ctx key tag_len stack c mem :
  zlen key = 32 -> 0 <= tag_len <= 16 -> c20_stack stack -> valid_call c mem -> c_nonce_len c = 8 ->
  check_alias (c_in c) (c_in_len c) (c_out c) = true ->
  c_in_len c + tag_length tag_len <= c_max_out_len c -> c_in_len c + 16 < 2 ^ 32 ->
  exists e text,
    EVP_AEAD_CTX_init ctx aead_chacha20_poly1305 key tag_len true = Ok (true, e) /\
    zlen text = c_in_len c + tag_length tag_len /\ Forall is_byte text /\
    EVP_AEAD_CTX_seal e stack c mem = Ok (true, zlen text, splice mem (c_out c) text) /\
    (forall stack' c' m, c20_stack stack' -> valid_call c' m ->
       nonce_area c' m = nonce_area c mem -> ad_area c' m = ad_area c mem -> in_area c' m = text ->
       check_alias (c_in c') (c_in_len c') (c_out c') = true -> c_in_len c <= c_max_out_len c' ->
       EVP_AEAD_CTX_open e stack' c' m = Ok (true, c_in_len c, splice m (c_out c') (in_area c mem))).
Proof.
  intros Lk Ht Hs V En Ea Hl Hw. destruct (c20_init_ok ctx key tag_len Lk Ht) as (s & -> & U & Ek & Et).
  assert (T : c20_tag_len s = tag_length tag_len) by exact Et.
  exists (mkAeadCtx (Some aead_chacha20_poly1305) (Some s)), (c20_sealed s (nonce_area c mem) (ad_area c mem) (in_area c mem)).
  split; [done|]. rewrite <- T in *. apply (evp_roundtrip aead_chacha20_poly1305 (L := c20_laws)); try done.
  unfold seal_accepts. rewrite Ea. cbn [call_fits tag_size c20_laws overhead aead_chacha20_poly1305]. rewrite En.
  apply andb_true_iff. split; [by apply Z.leb_le|by apply Z.ltb_lt].
Qed.

(** A message of ten bytes sealed in place. *)
Definition demo_mem : list Z := Z.of_nat <$> seq 1 60.
Definition demo_seal : Call := mkCall 20 26 0 8 20 10 8 4.
Definition demo_open : Call := mkCall 18 12 0 8 20 22 8 4.

Lemma demo_bytes : Forall is_byte demo_mem.
Proof. by apply (bool_decide_unpack _); vm_compute. Qed.

Lemma demo_valid c : c = demo_seal \/ c = demo_open -> valid_call c demo_mem.
Proof. intros [-> | ->]; (split; [exact demo_bytes|change (zlen demo_mem) with 60; cbn; lia..]). Qed.

Lemma c20_roundtrip_witness :
  exists (e : EVP_AEAD_CTX aead_chacha20_poly1305_ctx) mem',
    EVP_AEAD_CTX_seal e (replicate 16 9) demo_seal demo_mem = Ok (true, 22, mem') /\
    EVP_AEAD_CTX_open e (replicate 16 3) demo_open mem' = Ok (true, 10, splice mem' 18 (slice demo_mem 20 10)).
Proof.
  pose proof demo_bytes as Hd.
  destruct (c20_roundtrip (mkAeadCtx None None) (replicate 32 5) 12 (replicate 16 9) demo_seal demo_mem)
    as (e & text & _ & Lt & Bt & E & R);
    [done|lia|split; [by apply Forall_replicate|done]|apply demo_valid; auto|done|done|by vm_compute|done|].
  change (zlen text = 22) in Lt. rewrite Lt in E. exists e, (splice demo_mem 20 text). split; [done|].
  assert (Ls : zlen (splice demo_mem 20 text) = 60) by (rewrite zlen_splice; rewrite ?Lt; change (zlen demo_mem) with 60; lia).
  apply (R (replicate 16 3) demo_open (splice demo_mem 20 text)).
  - split; [by apply Forall_replicate|done].
  - split; [by apply Forall_splice|rewrite Ls; cbn; lia..].
  - by apply slice_splice_before.
  - by apply slice_splice_before.
  - unfold in_area. cbn [c_in c_in_len demo_open]. rewrite <- Lt. apply slice_splice_same; [done|]. by rewrite Lt.
  - done.
  - by vm_compute.
Defined.

(** C15: [EVP_AEAD_CTX_open] never leaves the memory it was given, and it
    is all or nothing: either the bytes at the end of the input are the tag
    of the additional data and the text, and the output area holds the
    decrypted text, or the call returns 0 with [*out_len] 0 and the whole
    output area is zero. *)
Theorem c20_open_all_or_nothing ctx key tag_len stack c mem :
  zlen key = 32 -> 0 <= tag_len <= 16 -> c20_stack stack -> valid_call c mem ->
  exists e ret len mem',
    EVP_AEAD_CTX_init ctx aead_chacha20_poly1305 key tag_len true = Ok (true, e) /\
    EVP_AEAD_CTX_open e stack c mem = Ok (ret, len, mem') /\
    let s := mkC20 key (tag_length tag_len) in
    let ct := slice (in_area c mem) 0 len in
    (ret = true /\ 0 <= len <= c_max_out_len c /\ c_in_len c = len + tag_length tag_len /\
     slice (in_area c mem) len (tag_length tag_len) = c20_tag s (nonce_area c mem) (ad_area c mem) ct /\
     mem' = splice mem (c_out c) (masked key (nonce_area c mem) 1 ct)) \/
    (ret = false /\ len = 0 /\ mem' = splice mem (c_out c) (replicate (Z.to_nat (c_max_out_len c)) 0)).
Proof.
  intros Lk Ht Hs V. destruct (c20_init_ok ctx key tag_len Lk Ht) as (s & -> & U & Ek & Et).
  assert (Es : s = mkC20 key (tag_length tag_len)) by (destruct s; simpl in *; subst; done). clear Ek Et.
  exists (mkAeadCtx (Some aead_chacha20_poly1305) (Some s)).
  rewrite (evp_open_spec aead_chacha20_poly1305 (L := c20_laws)) by done.
  assert (Hr : exists ret len mem', Ok (true, mkAeadCtx (Some aead_chacha20_poly1305) (Some s)) =
     Ok (true, mkAeadCtx (Some aead_chacha20_poly1305) (Some s)) /\ refused c mem = Ok (ret, len, mem') /\
     ret = false /\ len = 0 /\ mem' = splice mem (c_out c) (replicate (Z.to_nat (c_max_out_len c)) 0)).
  { by eexists _, _, _. }
  destruct (open_accepts aead_chacha20_poly1305 s c) eqn:Ha; [|naive_solver].
  destruct (opened s _ _ _) as [p|] eqn:Eo; [|naive_solver]. clear Hr.
  eexists _, _, _. split; [done|]. split; [done|]. left. split; [done|].
  destruct (vc_in _ _ V) as (? & ? & ?). assert (Li : zlen (in_area c mem) = c_in_len c) by (apply zlen_slice; lia).
  unfold open_accepts in Ha. change (tag_size s) with (c20_tag_len s) in Ha. zify_bools.
  change (opened s) with (c20_opened s) in Eo. unfold c20_opened in Eo. rewrite Li in Eo. destruct U as [_ U]. subst s. cbn [c20_tag_len c20_key] in *.
  destruct (Z.ltb_spec (c_in_len c - tag_length tag_len) 0); [done|]. case_bool_decide; [|done]. injection Eo as <-.
  rewrite zlen_masked, zlen_slice by lia. repeat split; try done; lia.
Qed.

Lemma c20_open_all_or_nothing_witness :
  exists (e : EVP_AEAD_CTX aead_chacha20_poly1305_ctx) ret len mem',
    EVP_AEAD_CTX_open e (replicate 16 3) demo_open demo_mem = Ok (ret, len, mem').
Proof.
  pose proof demo_bytes as Hd.
  destruct (c20_open_all_or_nothing (mkAeadCtx None None) (replicate 32 5) 12 (replicate 16 3) demo_open demo_mem)
    as (e & ret & len & mem' & _ & E & _);
    [done|lia|split; [by apply Forall_replicate|done]|apply demo_valid; auto|].
  exists e, ret, len, mem'. exact E.
Defined.
