(* ===== verification/Gcm.v ===== *)
(** * Gcm: multiplication in the field of GCM

    Models the portable part of
    [src/fastsocks/cpp/boringssl/crypto/modes/gcm.c] that multiplies in
    GF(2^128): a table of sixteen multiples of the hash key and a walk over
    the nibbles of the other factor.  A block is sixteen bytes; read as a
    big-endian number, its highest bit is bit 0 of the standard.  [size_t]
    is the number of bytes of that type, which both versions of the
    reduction depend on.

    Shown: the walk is the multiplication of NIST SP 800-38D, algorithm 1,
    for every factor, and the streamed version is a multiplication for every
    block. *)

From S2P Require Import Prelude.
From S2P Require Import Words.
From S2P Require Import Modes.

(** ** The code *)

Record u128 : Type := mkU128 { hi : Z; lo : Z }.

Section Code.
Context (size_t : nat).

Definition PACK (s : Z) : Z := Z.shiftl s (Z.of_nat size_t * 8 - 16).

Definition REDUCE1BIT (V : u128) : u128 :=
  if (size_t =? 8)%nat then
    let T := Z.land 0xe100000000000000 (u64 (0 - Z.land (lo V) 1)) in
    mkU128 (Z.lxor (Z.shiftr (hi V) 1) T) (Z.lor (u64 (Z.shiftl (hi V) 63)) (Z.shiftr (lo V) 1))
  else
    let T := Z.land 0xe1000000 (u32 (0 - u32 (Z.land (lo V) 1))) in
    mkU128 (Z.lxor (Z.shiftr (hi V) 1) (u64 (Z.shiftl T 32))) (Z.lor (u64 (Z.shiftl (hi V) 63)) (Z.shiftr (lo V) 1)).

(** [x.hi ^ y.hi, x.lo ^ y.lo] *)
Definition xor128 (x y : u128) : u128 := mkU128 (Z.lxor (hi x) (hi y)) (Z.lxor (lo x) (lo y)).

(** [Htable[n]] *)
Definition at128 (T : list u128) (n : Z) : u128 := nth (Z.to_nat n) T (mkU128 0 0).

Definition gcm_init_4bit (H0 H1 : Z) : list u128 :=
  let T0 := mkU128 0 0 in
  let V := mkU128 H0 H1 in
  let T8 := V in
  let V := REDUCE1BIT V in
  let T4 := V in
  let V := REDUCE1BIT V in
  let T2 := V in
  let V := REDUCE1BIT V in
  let T1 := V in
  let T3 := xor128 V T2 in
  let V := T4 in
  let T5 := xor128 V T1 in
  let T6 := xor128 V T2 in
  let T7 := xor128 V T3 in
  let V := T8 in
  let T9 := xor128 V T1 in
  let T10 := xor128 V T2 in
  let T11 := xor128 V T3 in
  let T12 := xor128 V T4 in
  let T13 := xor128 V T5 in
  let T14 := xor128 V T6 in
  let T15 := xor128 V T7 in
  [T0; T1; T2; T3; T4; T5; T6; T7; T8; T9; T10; T11; T12; T13; T14; T15].

Definition rem_4bit : list Z :=
  PACK <$> [0x0000; 0x1C20; 0x3840; 0x2460; 0x7080; 0x6CA0; 0x48C0; 0x54E0;
            0xE100; 0xFD20; 0xD940; 0xC560; 0x9180; 0x8DA0; 0xA9C0; 0xB5E0].

(** The lines from [rem = ...] to [Z.lo ^= Htable[n].lo]. *)
Definition nibble_step (Htable : list u128) (Z0 : u128) (n : Z) : u128 :=
  let rem := Z.land (lo Z0) 0xf in
  let Zlo := Z.lor (u64 (Z.shiftl (hi Z0) 60)) (Z.shiftr (lo Z0) 4) in
  let Zhi := Z.shiftr (hi Z0) 4 in
  let r := tbl rem_4bit rem in
  let Zhi := Z.lxor Zhi (if (size_t =? 8)%nat then r else u64 (Z.shiftl r 32)) in
  xor128 (mkU128 Zhi Zlo) (at128 Htable n).

(** [while (1)], with [byte cnt] for [Xi[cnt]]. *)
Fixpoint gmult_loop (Htable : list u128) (byte : nat -> Z) (cnt : nat) (Z0 : u128) (nhi : Z) : u128 :=
  let Z0 := nibble_step Htable Z0 nhi in
  match cnt with
  | O => Z0
  | S cnt' =>
      let nlo := byte cnt' in
      let nhi := Z.shiftr nlo 4 in
      let nlo := Z.land nlo 0xf in
      gmult_loop Htable byte cnt' (nibble_step Htable Z0 nlo) nhi
  end.

(** The four [PUTU32]. *)
Definition put128 (Z0 : u128) : list Z := be_bytes 8 (hi Z0) ++ be_bytes 8 (lo Z0).

Definition gmult_from (Htable : list u128) (byte : nat -> Z) : list Z :=
  let nlo := byte 15%nat in
  let nhi := Z.shiftr nlo 4 in
  let nlo := Z.land nlo 0xf in
  put128 (gmult_loop Htable byte 15 (at128 Htable nlo) nhi).

Definition gcm_gmult_4bit (Xi : list Z) (Htable : list u128) : list Z := gmult_from Htable (at16 Xi).

(** [do ... while (inp += 16, len -= 16)]: one turn for every block; the
    length is a multiple of 16, and not 0. *)
Fixpoint gcm_ghash_4bit (blocks : nat) (Xi : list Z) (Htable : list u128) (inp : list Z) : list Z :=
  match blocks with
  | O => Xi
  | S blocks' =>
      let Xi := gmult_from Htable (fun cnt => Z.lxor (at16 Xi cnt) (at16 inp cnt)) in
      gcm_ghash_4bit blocks' Xi Htable (drop 16 inp)
  end.
End Code.

(** ** NIST SP 800-38D, section 6.3 *)

Definition R128 : Z := Z.shiftl 0xe1 120.

(** [V >> 1], reduced. *)
Definition mulx (V : Z) : Z := Z.lxor (Z.shiftr V 1) (if Z.odd V then R128 else 0).

(** Algorithm 1; [n] bits of [X] are left, the next one is bit [n - 1]. *)
Fixpoint gf_loop (n : nat) (X Z0 V : Z) : Z :=
  match n with
  | O => Z0
  | S n' => gf_loop n' X (if Z.testbit X (Z.of_nat n') then Z.lxor Z0 V else Z0) (mulx V)
  end.

Definition gf_mul (X Y : Z) : Z := gf_loop 128 X 0 Y.

(** The unit is the block 1000...0. *)
Example gf_mul_unit : gf_mul (2 ^ 127) 0x66e94bd4ef8a2c3b884cfa59ca342b2e = 0x66e94bd4ef8a2c3b884cfa59ca342b2e.
Proof. by vm_compute. Qed.

(** A product of test case 2 of the specification of GCM. *)
Example gf_mul_case :
  gf_mul 0x0388dace60b6a392f328c2b971b2fe78 0x66e94bd4ef8a2c3b884cfa59ca342b2e = 0x5e2ec746917062882c85b0685353deb7 /\
  gcm_gmult_4bit 4 (be_bytes 16 0x0388dace60b6a392f328c2b971b2fe78)
    (gcm_init_4bit 4 0x66e94bd4ef8a2c3b 0x884cfa59ca342b2e) = be_bytes 16 0x5e2ec746917062882c85b0685353deb7 /\
  gcm_gmult_4bit 8 (be_bytes 16 0x0388dace60b6a392f328c2b971b2fe78)
    (gcm_init_4bit 8 0x66e94bd4ef8a2c3b 0x884cfa59ca342b2e) = be_bytes 16 0x5e2ec746917062882c85b0685353deb7.
Proof. by vm_compute. Qed.

(** ** Pairs of words *)

Definition val128 (v : u128) : Z := Z.lxor (Z.shiftl (hi v) 64) (lo v).
Definition wide (v : u128) : Prop := is_u 64 (hi v) /\ is_u 64 (lo v).

Lemma val128_add v : wide v -> val128 v = hi v * 2 ^ 64 + lo v.
Proof.
  intros [_ Hl]. unfold val128. rewrite Z.lxor_lor; [by apply lor_shiftl_add|].
  rewrite Z.land_comm. by apply land_shiftl_low.
Qed.

Lemma val128_range v : wide v -> is_u 128 (val128 v).
Proof. intros W. rewrite val128_add by done. destruct W as [Hh Hl]. unfold is_u in *. lia. Qed.

Lemma val128_xor x y : val128 (xor128 x y) = Z.lxor (val128 x) (val128 y).
Proof.
  unfold val128, xor128. cbn [hi lo]. rewrite Z.shiftl_lxor. bits n. rewrite !Z.lxor_spec.
  by destruct (Z.testbit (Z.shiftl (hi x) 64) n), (Z.testbit (Z.shiftl (hi y) 64) n), (Z.testbit (lo x) n), (Z.testbit (lo y) n).
Qed.

Lemma wide_xor x y : wide x -> wide y -> wide (xor128 x y).
Proof. intros [? ?] [? ?]. split; by apply is_u_lxor. Qed.

(** Both halves shifted right by [k] together. *)
Lemma shift_pair v k a :
  wide v -> 0 < k <= 64 ->
  wide (mkU128 (Z.shiftr (hi v) k) (Z.lor (u64 (Z.shiftl (hi v) (64 - k))) (Z.shiftr (lo v) k))) /\
  val128 (mkU128 (Z.lxor (Z.shiftr (hi v) k) a) (Z.lor (u64 (Z.shiftl (hi v) (64 - k))) (Z.shiftr (lo v) k))) =
    Z.lxor (Z.shiftr (val128 v) k) (Z.shiftl a 64).
Proof.
  intros W Hk. destruct W as [Hh Hl]. assert (W : wide v) by done. unfold is_u in *.
  pose proof (pow2_pos k ltac:(lia)) as Pk. pose proof (pow2_pos (64 - k) ltac:(lia)) as Pk'.
  assert (P : 2 ^ 64 = 2 ^ k * 2 ^ (64 - k)) by (rewrite <- Z.pow_add_r by lia; f_equal; lia).
  set (h := Z.shiftr (hi v) k). set (l := Z.lor _ _).
  assert (Eh : h = hi v / 2 ^ k) by (unfold h; by rewrite Z.shiftr_div_pow2 by lia).
  assert (Ll : 0 <= lo v / 2 ^ k < 2 ^ (64 - k)).
  { split; [apply Z.div_pos; lia|]. apply Z.div_lt_upper_bound; [lia|]. lia. }
  assert (El : l = (hi v mod 2 ^ k) * 2 ^ (64 - k) + lo v / 2 ^ k).
  { unfold l, wrapU. rewrite Z.shiftl_mul_pow2, Z.shiftr_div_pow2 by lia.
    rewrite P, Z.mul_mod_distr_r by lia. by apply lor_mul_add; [lia|]. }
  assert (Wl : wide (mkU128 h l)).
  { pose proof (Z.mod_pos_bound (hi v) (2 ^ k) Pk). split; unfold is_u; cbn [hi lo].
    - rewrite Eh. split; [apply Z.div_pos; lia|]. apply Z.div_lt_upper_bound; nia.
    - rewrite El. nia. }
  split; [done|]. clearbody l.
  assert (val128 (mkU128 (Z.lxor h a) l) = Z.lxor (val128 (mkU128 h l)) (Z.shiftl a 64)) as ->.
  { unfold val128. cbn [hi lo]. rewrite Z.shiftl_lxor. bits n. rewrite !Z.lxor_spec.
    by destruct (Z.testbit (Z.shiftl h 64) n), (Z.testbit (Z.shiftl a 64) n), (Z.testbit l n). }
  f_equal. rewrite !val128_add, Z.shiftr_div_pow2 by (done || lia). cbn [hi lo]. rewrite El, Eh.
  rewrite P at 2. rewrite (Z.mul_comm (2 ^ k)), Z.mul_assoc, Z.div_add_l by lia.
  pose proof (Z.div_mod (hi v) (2 ^ k) ltac:(lia)). nia.
Qed.

(** ** Multiplication by powers of x *)

Lemma mulx_lxor a b : mulx (Z.lxor a b) = Z.lxor (mulx a) (mulx b).
Proof.
  unfold mulx. rewrite Z.shiftr_lxor. rewrite <- !Z.bit0_odd, Z.lxor_spec.
  destruct (Z.testbit a 0), (Z.testbit b 0); cbn [xorb]; rewrite ?Z.lxor_0_r; bits n; rewrite !Z.lxor_spec;
    by destruct (Z.testbit (Z.shiftr a 1) n), (Z.testbit (Z.shiftr b 1) n), (Z.testbit R128 n).
Qed.

Lemma mulx_range v : is_u 128 v -> is_u 128 (mulx v).
Proof.
  intros H. unfold mulx. apply is_u_lxor; [done| |by destruct (Z.odd v)].
  unfold is_u in *. rewrite Z.shiftr_div_pow2 by done. zlia.
Qed.

Definition mulx4 (v : Z) : Z := mulx (mulx (mulx (mulx v))).

Lemma mulx4_lxor a b : mulx4 (Z.lxor a b) = Z.lxor (mulx4 a) (mulx4 b).
Proof. unfold mulx4. by rewrite !mulx_lxor. Qed.

Lemma mulx_double w : mulx (2 * w) = w.
Proof.
  unfold mulx. rewrite Z.odd_mul. cbn [Z.odd andb]. rewrite Z.lxor_0_r, Z.shiftr_div_pow2 by done. zlia.
Qed.

(** The low nibble decides what is added. *)
Definition rem16 : list Z :=
  [0x0000; 0x1C20; 0x3840; 0x2460; 0x7080; 0x6CA0; 0x48C0; 0x54E0;
   0xE100; 0xFD20; 0xD940; 0xC560; 0x9180; 0x8DA0; 0xA9C0; 0xB5E0].

Lemma nibble_cases (P : Z -> Prop) : Forall P (Z.of_nat <$> seq 0 16) -> forall n, 0 <= n < 16 -> P n.
Proof.
  intros H n Hn. rewrite Forall_forall in H. apply H. apply list_elem_of_fmap. exists (Z.to_nat n).
  split; [lia|]. apply elem_of_seq. lia.
Qed.

Lemma mulx4_spec v : 0 <= v -> mulx4 v = Z.lxor (Z.shiftr v 4) (Z.shiftl (tbl rem16 (Z.land v 15)) 112).
Proof.
  intros Hv. change 15 with (Z.ones 4). rewrite Z.land_ones by done.
  assert (Ev : v = Z.lxor (2 * (2 * (2 * (2 * (v / 16))))) (v mod 2 ^ 4)).
  { replace (2 * (2 * (2 * (2 * (v / 16))))) with (Z.shiftl (v / 16) 4) by (rewrite Z.shiftl_mul_pow2; lia).
    assert (0 <= v mod 2 ^ 4 < 2 ^ 4) by (by apply Z.mod_pos_bound).
    rewrite Z.lxor_lor by (rewrite Z.land_comm; by apply land_shiftl_low). rewrite lor_shiftl_add by done. zlia. }
  rewrite Ev at 1. rewrite mulx4_lxor. unfold mulx4 at 1. rewrite !mulx_double, Z.shiftr_div_pow2 by done.
  f_equal. clear Ev. assert (Hm : 0 <= v mod 2 ^ 4 < 16) by (by apply Z.mod_pos_bound). revert Hm.
  generalize (v mod 2 ^ 4). apply nibble_cases. vm_compute. by repeat constructor.
Qed.

Section Field.
Context (size_t : nat).
Hypothesis size_ok : size_t = 4%nat \/ size_t = 8%nat.

Lemma REDUCE1BIT_ok V : wide V -> wide (REDUCE1BIT size_t V) /\ val128 (REDUCE1BIT size_t V) = mulx (val128 V).
Proof.
  intros W. assert (Hodd : Z.odd (val128 V) = Z.odd (lo V)).
  { rewrite val128_add by done. rewrite Z.odd_add, Z.odd_mul. change (Z.odd (2 ^ 64)) with false.
    by rewrite andb_false_r. }
  assert (Eb : Z.land (lo V) 1 = if Z.odd (lo V) then 1 else 0).
  { change 1 with (Z.ones 1) at 1. rewrite Z.land_ones by done. change (2 ^ 1) with 2. rewrite Zmod_odd. done. }
  set (T := if Z.odd (lo V) then 0xe100000000000000 else 0).
  assert (E : REDUCE1BIT size_t V =
              mkU128 (Z.lxor (Z.shiftr (hi V) 1) T) (Z.lor (u64 (Z.shiftl (hi V) (64 - 1))) (Z.shiftr (lo V) 1))).
  { unfold REDUCE1BIT. rewrite Eb. unfold T. destruct size_ok as [-> | ->], (Z.odd (lo V)); done. }
  destruct (shift_pair V 1 T W ltac:(lia)) as [Ws Es]. rewrite E. split.
  - destruct Ws as [W1 W2]. split; [|done]. apply is_u_lxor; [done|done|]. unfold T. by destruct (Z.odd (lo V)).
  - rewrite Es. unfold mulx. f_equal. rewrite Hodd. unfold T. by destruct (Z.odd (lo V)).
Qed.

Lemma nibble_step_ok Htable Z0 n :
  wide Z0 -> wide (at128 Htable n) ->
  wide (nibble_step size_t Htable Z0 n) /\
  val128 (nibble_step size_t Htable Z0 n) = Z.lxor (mulx4 (val128 Z0)) (val128 (at128 Htable n)).
Proof.
  intros W Wn.
  assert (Hn : 0 <= Z.land (lo Z0) 15 < 16).
  { change 15 with (Z.ones 4). rewrite Z.land_ones by done. by apply Z.mod_pos_bound. }
  set (T := Z.shiftl (tbl rem16 (Z.land (lo Z0) 15)) 48).
  assert (ET : (if (size_t =? 8)%nat then tbl (rem_4bit size_t) (Z.land (lo Z0) 15)
                else u64 (Z.shiftl (tbl (rem_4bit size_t) (Z.land (lo Z0) 15)) 32)) = T /\ is_u 64 T).
  { unfold T. revert Hn. generalize (Z.land (lo Z0) 15). apply nibble_cases.
    destruct size_ok as [-> | ->]; cbn [fmap list_fmap seq];
      repeat (apply Forall_cons; split; [split; [by vm_compute|split; by vm_compute]|]); done. }
  destruct ET as [ET UT].
  assert (E : nibble_step size_t Htable Z0 n =
              xor128 (mkU128 (Z.lxor (Z.shiftr (hi Z0) 4) T) (Z.lor (u64 (Z.shiftl (hi Z0) (64 - 4))) (Z.shiftr (lo Z0) 4)))
                (at128 Htable n)).
  { unfold nibble_step. by rewrite ET. }
  destruct (shift_pair Z0 4 T W ltac:(lia)) as [Ws Es]. rewrite E, val128_xor, Es. split.
  - apply wide_xor; [|done]. destruct Ws as [W1 W2]. split; [by apply is_u_lxor|done].
  - f_equal. rewrite mulx4_spec by (apply val128_range; done). f_equal. unfold T.
    assert (Z.land (val128 Z0) 15 = Z.land (lo Z0) 15) as ->.
    { rewrite val128_add by done. change 15 with (Z.ones 4). rewrite !Z.land_ones by done.
      replace (hi Z0 * 2 ^ 64) with (hi Z0 * 2 ^ 60 * 2 ^ 4) by lia. by rewrite Z.add_comm, Z_mod_plus_full. }
    rewrite Z.shiftl_shiftl by done. done.
Qed.

(** ** Horner's rule over the nibbles *)

(** The product of a nibble and [V]. *)
Definition nib (n V : Z) : Z :=
  Z.lxor (if Z.testbit n 3 then V else 0)
    (Z.lxor (if Z.testbit n 2 then mulx V else 0)
       (Z.lxor (if Z.testbit n 1 then mulx (mulx V) else 0) (if Z.testbit n 0 then mulx (mulx (mulx V)) else 0))).

Lemma mulx_0 : mulx 0 = 0.
Proof. done. Qed.

Lemma nib_mulx n V : nib n (mulx V) = mulx (nib n V).
Proof.
  unfold nib. rewrite !mulx_lxor.
  by destruct (Z.testbit n 3), (Z.testbit n 2), (Z.testbit n 1), (Z.testbit n 0); rewrite ?mulx_0.
Qed.

(** The table over its four generators. *)
Definition table16 (T1 T2 T4 T8 : u128) : list u128 :=
  let T3 := xor128 T1 T2 in
  let T5 := xor128 T4 T1 in
  let T6 := xor128 T4 T2 in
  let T7 := xor128 T4 T3 in
  [mkU128 0 0; T1; T2; T3; T4; T5; T6; T7; T8; xor128 T8 T1; xor128 T8 T2; xor128 T8 T3;
   xor128 T8 T4; xor128 T8 T5; xor128 T8 T6; xor128 T8 T7].

Lemma table16_ok T1 T2 T4 T8 n :
  wide T1 -> wide T2 -> wide T4 -> wide T8 -> val128 T4 = mulx (val128 T8) -> val128 T2 = mulx (mulx (val128 T8)) ->
  val128 T1 = mulx (mulx (mulx (val128 T8))) -> 0 <= n < 16 ->
  wide (at128 (table16 T1 T2 T4 T8) n) /\ val128 (at128 (table16 T1 T2 T4 T8) n) = nib n (val128 T8).
Proof.
  intros W1 W2 W4 W8 E4 E2 E1. assert (Wz : wide (mkU128 0 0)) by done. revert n. apply nibble_cases.
  cbn [fmap list_fmap seq].
  repeat (apply Forall_cons; split); [..|done];
    unfold at128; rewrite Nat2Z.id; (split; [cbn -[wide xor128]; auto 6 using wide_xor|]);
    match goal with |- context [Z.of_nat ?k] => let z := eval vm_compute in (Z.of_nat k) in change (Z.of_nat k) with z end;
    unfold nib; cbn -[val128 xor128 mulx Z.lxor]; rewrite ?val128_xor, ?E1, ?E2, ?E4; generalize (val128 T8); intros x;
    rewrite ?Z.lxor_0_l, ?Z.lxor_0_r; try done; bits k; rewrite ?Z.lxor_spec;
    destruct (Z.testbit x k), (Z.testbit (mulx x) k), (Z.testbit (mulx (mulx x)) k), (Z.testbit (mulx (mulx (mulx x))) k); done.
Qed.

Lemma init_4bit_ok H0 H1 n :
  is_u 64 H0 -> is_u 64 H1 -> 0 <= n < 16 ->
  wide (at128 (gcm_init_4bit size_t H0 H1) n) /\
  val128 (at128 (gcm_init_4bit size_t H0 H1) n) = nib n (val128 (mkU128 H0 H1)).
Proof.
  intros U0 U1 Hn. set (V := mkU128 H0 H1). assert (W0 : wide V) by done.
  destruct (REDUCE1BIT_ok V W0) as [W1 E1]. destruct (REDUCE1BIT_ok _ W1) as [W2 E2]. destruct (REDUCE1BIT_ok _ W2) as [W3 E3].
  rewrite E1 in E2. rewrite E2 in E3. by apply table16_ok.
Qed.

(** *** The standard's loop, by nibbles *)

Lemma gf_loop_lxor n X Z0 V : gf_loop n X Z0 V = Z.lxor Z0 (gf_loop n X 0 V).
Proof.
  revert Z0 V. induction n as [|n IH]; intros Z0 V; simpl; [by rewrite Z.lxor_0_r|].
  rewrite IH, (IH (if Z.testbit X (Z.of_nat n) then Z.lxor 0 V else 0)). destruct (Z.testbit X (Z.of_nat n)); [|by rewrite Z.lxor_0_l].
  by rewrite Z.lxor_0_l, Z.lxor_assoc.
Qed.

Lemma gf_loop_mulx n X V : gf_loop n X 0 (mulx V) = mulx (gf_loop n X 0 V).
Proof.
  revert V. induction n as [|n IH]; intros V; [done|]. simpl.
  set (a := if Z.testbit X (Z.of_nat n) then Z.lxor 0 (mulx V) else 0). set (b := if Z.testbit X (Z.of_nat n) then Z.lxor 0 V else 0).
  rewrite (gf_loop_lxor _ _ a), (gf_loop_lxor _ _ b).
  rewrite mulx_lxor, IH. f_equal. unfold a, b. destruct (Z.testbit X (Z.of_nat n)); [by rewrite !Z.lxor_0_l|done].
Qed.

(** Only the low [n] bits matter. *)
Lemma gf_loop_low n X Y Z0 V :
  (forall i, 0 <= i < Z.of_nat n -> Z.testbit X i = Z.testbit Y i) -> gf_loop n X Z0 V = gf_loop n Y Z0 V.
Proof.
  revert Z0 V. induction n as [|n IH]; intros Z0 V H; simpl; [done|]. rewrite H by lia. apply IH. intros i Hi. apply H. lia.
Qed.

Lemma gf_loop_nibble m n x V :
  0 <= n < 16 -> is_u (Z.of_nat m) x ->
  gf_loop (4 + m) (n * 2 ^ Z.of_nat m + x) 0 V = Z.lxor (nib n V) (mulx4 (gf_loop m x 0 V)).
Proof.
  intros Hn Hx. set (X := n * 2 ^ Z.of_nat m + x).
  assert (EX : X = Z.lor (Z.shiftl n (Z.of_nat m)) x) by (unfold X; rewrite lor_shiftl_add by (done || lia); done).
  assert (Hhi : forall k, 0 <= k -> Z.testbit X (Z.of_nat m + k) = Z.testbit n k).
  { intros k Hk. rewrite EX, Z.lor_spec, Z.shiftl_spec, (is_u_bits (Z.of_nat m) x) by (done || lia).
    rewrite orb_false_r. f_equal. lia. }
  assert (Hlo : forall i, 0 <= i < Z.of_nat m -> Z.testbit X i = Z.testbit x i).
  { intros i Hi. rewrite EX, Z.lor_spec, Z.shiftl_spec, Z.testbit_neg_r by lia. done. }
  clearbody X. cbn [gf_loop Nat.add].
  replace (Z.of_nat (S (S (S m)))) with (Z.of_nat m + 3) by lia. replace (Z.of_nat (S (S m))) with (Z.of_nat m + 2) by lia.
  replace (Z.of_nat (S m)) with (Z.of_nat m + 1) by lia. rewrite !Hhi by lia.
  assert (Z.testbit X (Z.of_nat m) = Z.testbit n 0) as -> by (rewrite <- (Hhi 0), Z.add_0_r by lia; done).
  rewrite (gf_loop_low _ _ x) by done. rewrite gf_loop_lxor, !gf_loop_mulx. unfold mulx4. f_equal. unfold nib.
  rewrite ?Z.lxor_0_l.
  destruct (Z.testbit n 3), (Z.testbit n 2), (Z.testbit n 1), (Z.testbit n 0);
    rewrite ?Z.lxor_0_l, ?Z.lxor_0_r; try done; by rewrite ?Z.lxor_assoc.
Qed.

(** A byte is two nibbles. *)
Definition horner_step (V b acc : Z) : Z :=
  Z.lxor (nib (Z.shiftr b 4) V) (mulx4 (Z.lxor (nib (Z.land b 0xf) V) (mulx4 acc))).

Lemma byte_nibbles b : is_byte b -> 0 <= Z.shiftr b 4 < 16 /\ 0 <= Z.land b 0xf < 16 /\ b = Z.shiftr b 4 * 16 + Z.land b 0xf.
Proof.
  intros Hb. unfold is_u in Hb. change 0xf with (Z.ones 4). rewrite Z.land_ones, Z.shiftr_div_pow2 by done. zlia.
Qed.

Lemma gf_loop_bytes bs V :
  Forall is_byte bs -> gf_loop (8 * length bs) (be_value bs) 0 V = foldr (horner_step V) 0 bs.
Proof.
  induction bs as [|b bs IH]; intros H; [done|]. apply Forall_cons in H as [Hb H]. rewrite be_value_cons.
  destruct (byte_nibbles b Hb) as (N1 & N2 & E). pose proof (be_value_range bs H) as Hr.
  cbn [length foldr]. replace (8 * S (length bs))%nat with (4 + (4 + 8 * length bs))%nat by lia.
  set (m := (8 * length bs)%nat) in *. assert (Em : Z.of_nat m = 8 * zlen bs) by (unfold m, zlen; lia).
  assert (Ep : 256 ^ zlen bs = 2 ^ Z.of_nat m) by (rewrite Em, Z.pow_mul_r by (pose proof (zlen_nonneg bs); lia); done).
  assert (Hx : is_u (Z.of_nat m) (be_value bs)) by (unfold is_u; by rewrite Em).
  rewrite Ep, E. replace ((Z.shiftr b 4 * 16 + Z.land b 15) * 2 ^ Z.of_nat m + be_value bs) with
    (Z.shiftr b 4 * 2 ^ Z.of_nat (4 + m) + (Z.land b 15 * 2 ^ Z.of_nat m + be_value bs)).
  2: { rewrite Nat2Z.inj_add, Z.pow_add_r by lia. change (2 ^ Z.of_nat 4) with 16. ring. }
  rewrite gf_loop_nibble, gf_loop_nibble, IH by (done || auto; unfold is_u in *; rewrite ?Nat2Z.inj_add, ?Z.pow_add_r by lia; nia).
  unfold horner_step. rewrite <- E. done.
Qed.

(** *** The walk of the code *)

Definition multiples (T : list u128) (V : Z) : Prop :=
  forall n, 0 <= n < 16 -> wide (at128 T n) /\ val128 (at128 T n) = nib n V.

Lemma gmult_loop_ok T V byte cnt Z0 nhi acc :
  multiples T V -> (forall i, is_byte (byte i)) -> wide Z0 -> nhi = Z.shiftr (byte cnt) 4 ->
  val128 Z0 = Z.lxor (nib (Z.land (byte cnt) 0xf) V) (mulx4 acc) ->
  wide (gmult_loop size_t T byte cnt Z0 nhi) /\
  val128 (gmult_loop size_t T byte cnt Z0 nhi) = foldr (horner_step V) acc (byte <$> seq 0 (S cnt)).
Proof.
  intros HT Hb. revert Z0 nhi acc. induction cnt as [|cnt IH]; intros Z0 nhi acc W -> E; cbn [gmult_loop].
  - destruct (byte_nibbles (byte 0%nat) (Hb _)) as (N1 & _ & _). destruct (HT _ N1) as [W1 E1].
    destruct (nibble_step_ok T Z0 (Z.shiftr (byte 0%nat) 4) W W1) as [W2 E2]. split; [done|].
    rewrite E2, E1, E. simpl. unfold horner_step. by rewrite Z.lxor_comm.
  - destruct (byte_nibbles (byte (S cnt)) (Hb _)) as (N1 & _ & _). destruct (HT _ N1) as [W1 E1].
    destruct (nibble_step_ok T Z0 (Z.shiftr (byte (S cnt)) 4) W W1) as [W2 E2].
    destruct (byte_nibbles (byte cnt) (Hb _)) as (_ & N2 & _). destruct (HT _ N2) as [W3 E3].
    destruct (nibble_step_ok T _ (Z.land (byte cnt) 15) W2 W3) as [W4 E4].
    destruct (IH _ (Z.shiftr (byte cnt) 4) (horner_step V (byte (S cnt)) acc) W4 eq_refl) as [W5 E5].
    { rewrite E4, E3, Z.lxor_comm. f_equal. rewrite E2, E1, E. unfold horner_step. f_equal. apply Z.lxor_comm. }
    split; [done|]. rewrite E5. rewrite (seq_S (S cnt)), fmap_app, foldr_app. done.
Qed.

Lemma put128_ok v : wide v -> put128 v = be_bytes 16 (val128 v).
Proof.
  intros W. unfold put128. rewrite val128_add by done. destruct W as [Hh Hl].
  set (l := be_bytes 8 (hi v) ++ be_bytes 8 (lo v)).
  assert (Hb : Forall is_byte l) by (apply Forall_app; split; apply be_bytes_bytes).
  assert (Hn : length l = 16%nat) by (unfold l; by rewrite length_app, !length_be_bytes).
  rewrite <- (be_bytes_be_value l Hb), Hn. f_equal. unfold l. rewrite be_value_app, !be_value_be_bytes, zlen_be_bytes.
  unfold is_u in *. rewrite !Z.mod_small by done. change (256 ^ Z.of_nat 8) with (2 ^ 64). done.
Qed.

Lemma gmult_from_ok T V byte :
  multiples T V -> (forall i, is_byte (byte i)) ->
  gmult_from size_t T byte = be_bytes 16 (gf_mul (be_value (byte <$> seq 0 16)) V).
Proof.
  intros HT Hb. unfold gmult_from. destruct (byte_nibbles (byte 15%nat) (Hb _)) as (_ & N & _). destruct (HT _ N) as [W E].
  destruct (gmult_loop_ok T V byte 15 (at128 T (Z.land (byte 15%nat) 15)) (Z.shiftr (byte 15%nat) 4) 0) as [W' E'];
    [done|done|done|done|by rewrite E, Z.lxor_0_r|].
  rewrite put128_ok, E' by done. f_equal. unfold gf_mul. rewrite <- gf_loop_bytes.
  - by rewrite length_fmap, length_seq.
  - apply Forall_fmap, Forall_forall. intros i _. apply Hb.
Qed.
End Field.

Lemma at16_bytes l i : Forall is_byte l -> is_byte (at16 l i).
Proof.
  intros H. unfold at16. destruct (l !! i) as [x|] eqn:E; [|done]. simpl. by eapply Forall_lookup_1.
Qed.

Lemma at16_seq l : length l = 16%nat -> at16 l <$> seq 0 16 = l.
Proof.
  intros Hl. apply list_eq. intros i. rewrite list_lookup_fmap. destruct (Nat.lt_ge_cases i 16).
  - rewrite lookup_seq_lt by done. unfold at16. simpl. destruct (l !! i) eqn:E; [done|].
    apply lookup_ge_None in E. lia.
  - rewrite lookup_seq_ge by done. simpl. symmetry. apply lookup_ge_None. lia.
Qed.

(** The block [X] times the block [H]. *)
Definition bmul (X H : list Z) : list Z := be_bytes 16 (gf_mul (be_value X) (be_value H)).

(** GHASH of NIST SP 800-38D, section 6.4, going on from [Y]. *)
Definition GHASH (H Y : list Z) (blocks : list (list Z)) : list Z := foldl (fun Y b => bmul (xor_list Y b) H) Y blocks.

(** The table for a hash key of sixteen bytes. *)
Definition key_table (size_t : nat) (H : list Z) : list u128 :=
  gcm_init_4bit size_t (be_value (take 8 H)) (be_value (drop 8 H)).

Definition block16 (b : list Z) : Prop := length b = 16%nat /\ Forall is_byte b.

Lemma block16_bmul X H : block16 (bmul X H).
Proof. split; [apply length_be_bytes|apply be_bytes_bytes]. Qed.

Lemma block16_xor a b : block16 a -> block16 b -> block16 (xor_list a b).
Proof.
  intros [La Ba] [Lb Bb]. split; [rewrite length_xor_list; lia|]. apply Forall_lookup. intros i x Hx.
  apply lookup_zip_with_Some in Hx as (y & z & -> & Hy & Hz).
  apply is_u_lxor; [done|apply (Forall_lookup_1 _ _ _ _ Ba Hy)|apply (Forall_lookup_1 _ _ _ _ Bb Hz)].
Qed.

Lemma key_table_ok size_t H :
  size_t = 4%nat \/ size_t = 8%nat -> block16 H -> multiples (key_table size_t H) (be_value H).
Proof.
  intros Hs [Lh Bh] n Hn. unfold key_table.
  assert (U : forall l, length l = 8%nat -> Forall is_byte l -> is_u 64 (be_value l)).
  { intros l Hl Hb. pose proof (be_value_range l Hb) as R. unfold zlen in R. rewrite Hl in R. exact R. }
  assert (U0 : is_u 64 (be_value (take 8 H))) by (apply U; [rewrite length_take; lia|by apply Forall_take]).
  assert (U1 : is_u 64 (be_value (drop 8 H))) by (apply U; [rewrite length_drop; lia|by apply Forall_drop]).
  assert (E : be_value H = val128 (mkU128 (be_value (take 8 H)) (be_value (drop 8 H)))).
  { rewrite val128_add by done. cbn [hi lo]. rewrite <- (take_drop 8 H) at 1. rewrite be_value_app. unfold zlen.
    rewrite length_drop, Lh. done. }
  rewrite E. by apply init_4bit_ok.
Qed.

Lemma gmult_ok size_t X H :
  size_t = 4%nat \/ size_t = 8%nat -> block16 X -> block16 H ->
  gcm_gmult_4bit size_t X (key_table size_t H) = bmul X H.
Proof.
  intros Hs [Lx Bx] HH. unfold gcm_gmult_4bit, bmul.
  rewrite (gmult_from_ok size_t Hs _ (be_value H)) by (by apply key_table_ok || (intros; by apply at16_bytes)).
  by rewrite at16_seq.
Qed.

(** The first [k] blocks of [inp]. *)
Definition whole_blocks (k : nat) (inp : list Z) : list (list Z) := (fun i => take 16 (drop (16 * i) inp)) <$> seq 0 k.

Lemma whole_blocks_S k inp : whole_blocks (S k) inp = take 16 inp :: whole_blocks k (drop 16 inp).
Proof.
  unfold whole_blocks. rewrite <- cons_seq, fmap_cons. f_equal. rewrite <- fmap_S_seq, <- list_fmap_compose.
  apply list_fmap_ext. intros i x _. unfold compose. rewrite drop_drop. do 2 f_equal. lia.
Qed.

Lemma ghash_ok size_t k X H inp :
  size_t = 4%nat \/ size_t = 8%nat -> block16 X -> block16 H -> Forall is_byte inp -> (16 * k <= length inp)%nat ->
  gcm_ghash_4bit size_t k X (key_table size_t H) inp = GHASH H X (whole_blocks k inp).
Proof.
  intros Hs HX HH. revert X inp HX. induction k as [|k IH]; intros X inp HX Hb Hl; [done|].
  cbn [gcm_ghash_4bit]. rewrite whole_blocks_S.
  assert (Ht : block16 (take 16 inp)) by (split; [rewrite length_take; lia|by apply Forall_take]).
  assert (E : gmult_from size_t (key_table size_t H) (fun cnt => Z.lxor (at16 X cnt) (at16 inp cnt)) =
              bmul (xor_list X (take 16 inp)) H).
  { rewrite (gmult_from_ok size_t Hs _ (be_value H)); [|by apply key_table_ok|].
    2: { intros i. destruct HX. apply is_u_lxor; [done|by apply at16_bytes..]. }
    unfold bmul. do 3 f_equal. rewrite <- (at16_seq (xor_list X (take 16 inp))) by (by apply block16_xor).
    apply list_fmap_ext. intros j i Hi%lookup_seq. destruct HX as [Lx _], Ht as [Lt _]. unfold at16 at 3, xor_list.
    rewrite lookup_zip_with. unfold at16. rewrite lookup_take_lt by lia.
    destruct (X !! i) eqn:EX; [|apply lookup_ge_None in EX; lia]. simpl.
    destruct (inp !! i) eqn:Ei; [done|]. apply lookup_ge_None in Ei. rewrite length_take in Lt. lia. }
  rewrite E. apply IH; [apply block16_bmul|by apply Forall_drop|rewrite length_drop; lia].
Qed.

(** With the table of [gcm_init_4bit], for both sizes of [size_t],
    [gcm_gmult_4bit] multiplies every block with the hash key in the field
    of NIST SP 800-38D, and [gcm_ghash_4bit] is its GHASH over any number of
    blocks. *)
Lemma gcm_mult_is_nist size_t k X H inp :
  size_t = 4%nat \/ size_t = 8%nat -> block16 X -> block16 H -> Forall is_byte inp -> (16 * k <= length inp)%nat ->
  gcm_gmult_4bit size_t X (key_table size_t H) = bmul X H /\
  gcm_ghash_4bit size_t k X (key_table size_t H) inp = GHASH H X (whole_blocks k inp).
Proof. intros. split; [by apply gmult_ok|by apply ghash_ok]. Qed.
