(* ===== verification/GcmMode.v ===== *)
(** * GcmMode: Galois/counter mode

    Models the rest of
    [src/fastsocks/cpp/boringssl/crypto/modes/gcm.c]: the context, the
    initial counter, additional data, encryption and decryption in pieces,
    and the tag, with the block cipher as a parameter.  [Gcm.v] has the
    multiplication.  As in [Modes.v] the input is a list of bytes, and a loop
    over [in] and [out] consumes it and produces the output.

    [CRYPTO_gcm128_encrypt] and [CRYPTO_gcm128_decrypt] have three ways
    through a message: byte by byte for strict alignment, block by block,
    and, where [GHASH] is defined, in chunks of 3072 bytes that are encrypted
    first and hashed afterwards.  The functions for 32-bit counters hand runs
    of blocks to another function.  All of them are modelled; [ghash] says
    whether [GHASH] is defined, and [strict] whether a call takes the branch
    for strict alignment.

    The second half of the file is the mode of NIST SP 800-38D.
    [GcmCorrect.v] shows that the code implements it. *)

From Stdlib Require Import ZifyNat.
From S2P Require Import Prelude.
From S2P Require Import Words.
From S2P Require Import AesTables.
From S2P Require Import Aes.
From S2P Require Import Modes.
From S2P Require Import CtrMode.
From S2P Require Import Gcm.
From S2P Require Import Aead.

#[local] Arguments Nat.modulo : simpl never.
#[local] Arguments Nat.div : simpl never.

(** ** The code *)

Record GCM128_CONTEXT : Type := mkGcm {
  Yi : list Z;
  EKi : list Z;
  EK0 : list Z;
  alen : Z;              (* len.u[0] *)
  mlen : Z;              (* len.u[1] *)
  Xi : list Z;
  Htable : list u128;
  mres : nat;
  ares : nat;
}.

Definition set_Xi (x : list Z) (c : GCM128_CONTEXT) : GCM128_CONTEXT :=
  mkGcm (Yi c) (EKi c) (EK0 c) (alen c) (mlen c) x (Htable c) (mres c) (ares c).
Definition set_alen (n : Z) (c : GCM128_CONTEXT) : GCM128_CONTEXT :=
  mkGcm (Yi c) (EKi c) (EK0 c) n (mlen c) (Xi c) (Htable c) (mres c) (ares c).
Definition set_mlen (n : Z) (c : GCM128_CONTEXT) : GCM128_CONTEXT :=
  mkGcm (Yi c) (EKi c) (EK0 c) (alen c) n (Xi c) (Htable c) (mres c) (ares c).
Definition set_mres (n : nat) (c : GCM128_CONTEXT) : GCM128_CONTEXT :=
  mkGcm (Yi c) (EKi c) (EK0 c) (alen c) (mlen c) (Xi c) (Htable c) n (ares c).
Definition set_ares (n : nat) (c : GCM128_CONTEXT) : GCM128_CONTEXT :=
  mkGcm (Yi c) (EKi c) (EK0 c) (alen c) (mlen c) (Xi c) (Htable c) (mres c) n.

Definition zero16 : list Z := replicate 16 0.

(** [for (i = 0; i < len; ++i) x[i] ^= p[i];] *)
Definition xor_front (x p : list Z) : list Z := xor_list (take (length p) x) p ++ drop (length p) x.

Inductive way : Type := by_blocks (strict : bool) | by_ctr32.

Section Gcm128.
(** [block] with its key, [sizeof(size_t)], and whether [GHASH] is defined. *)
Context (cipher : list Z -> list Z) (size_t : nat) (ghash : bool).

(** [GCM_MUL(ctx, Xi)] *)
Definition GCM_MUL (T : list u128) (x : list Z) : list Z := gcm_gmult_4bit size_t x T.
Definition mul_Xi (c : GCM128_CONTEXT) : GCM128_CONTEXT := set_Xi (GCM_MUL (Htable c) (Xi c)) c.

Definition CRYPTO_gcm128_init : GCM128_CONTEXT :=
  let H := cipher zero16 in
  mkGcm zero16 zero16 zero16 0 0 zero16 (key_table size_t H) 0 0.

(** The loop over an initial vector of another length than 12. *)
Fixpoint setiv_loop (fuel : nat) (T : list u128) (y iv : list Z) : list Z :=
  match fuel with
  | O => y
  | S fuel' =>
      if (16 <=? length iv)%nat then setiv_loop fuel' T (GCM_MUL T (xor_front y (take 16 iv))) (drop 16 iv)
      else if (0 <? length iv)%nat then GCM_MUL T (xor_front y iv)
      else y
  end.

(** [PUTU32(ctx->Yi.c + 12, ctr)] *)
Definition put_ctr (y : list Z) (ctr : Z) : list Z := take 12 y ++ PUTU32 ctr.

Definition CRYPTO_gcm128_setiv (c : GCM128_CONTEXT) (iv : list Z) : GCM128_CONTEXT :=
  let '(y, ctr) :=
    if (length iv =? 12)%nat then (iv ++ [0; 0; 0; 1], 1)
    else
      let y := setiv_loop (S (length iv)) (Htable c) zero16 iv in
      let len0 := u64 (Z.shiftl (zlen iv) 3) in
      let y := GCM_MUL (Htable c) (take 8 y ++ xor_list (drop 8 y) (be_bytes 8 len0)) in
      (y, ctr32_of y) in
  let ek0 := cipher y in
  mkGcm (put_ctr y (u32 (ctr + 1))) (EKi c) ek0 0 0 zero16 (Htable c) 0 0.

(** [ctx->Xi.c[n] ^= x] *)
Definition absorb (x : list Z) (n : nat) (b : Z) : list Z := <[n := Z.lxor (at16 x n) b]> x.

(** *** Additional data *)

Definition aad_byte (x : list Z) (n : nat) (b : Z) : Z * list Z := (b, absorb x n b).

(** [while (len >= 16)], or one call of [GHASH] for all whole blocks. *)
Fixpoint aad_blocks (fuel : nat) (T : list u128) (x aad : list Z) : list Z * list Z :=
  match fuel with
  | O => (x, aad)
  | S fuel' =>
      if (16 <=? length aad)%nat then aad_blocks fuel' T (GCM_MUL T (xor_front x (take 16 aad))) (drop 16 aad)
      else (x, aad)
  end.

Definition aad_ghash (T : list u128) (x aad : list Z) : list Z * list Z :=
  let k := (length aad / 16)%nat in
  if (0 <? k)%nat then (gcm_ghash_4bit size_t k x T aad, drop (16 * k) aad) else (x, aad).

Definition CRYPTO_gcm128_aad (c : GCM128_CONTEXT) (aad : list Z) : bool * GCM128_CONTEXT :=
  if negb (mlen c =? 0) then (false, c)
  else
    let a := u64 (alen c + zlen aad) in
    if (a >? Z.shiftl 1 61) || ((size_t =? 8)%nat && (a <? zlen aad)) then (false, c)
    else
      let c := set_alen a c in
      let '(_, rest, x, n) := stream_head aad_byte (Xi c) (ares c) aad in
      if negb (ares c =? 0)%nat && negb (n =? 0)%nat then (true, set_ares n (set_Xi x c))
      else
        let x := if (ares c =? 0)%nat then x else GCM_MUL (Htable c) x in
        let '(x, rest) := if ghash then aad_ghash (Htable c) x rest else aad_blocks (S (length rest)) (Htable c) x rest in
        let n := if (0 <? length rest)%nat then length rest else n in
        let x := xor_front x rest in
        (true, set_ares n (set_Xi x c)).

(** *** Message

    [ctr] always holds [GETU32(ctx->Yi.c + 12)]. *)

(** [block(ctx->Yi.c, ctx->EKi.c, key); ++ctr; PUTU32(ctx->Yi.c + 12, ctr);] *)
Definition gcm_refill (c : GCM128_CONTEXT) : GCM128_CONTEXT :=
  mkGcm (put_ctr (Yi c) (u32 (ctr32_of (Yi c) + 1))) (cipher (Yi c)) (EK0 c) (alen c) (mlen c) (Xi c) (Htable c)
    (mres c) (ares c).

(** [ctx->Xi.c[n] ^= out[i] = in[i] ^ ctx->EKi.c[n]] *)
Definition enc_byte (c : GCM128_CONTEXT) (n : nat) (b : Z) : Z * GCM128_CONTEXT :=
  let y := Z.lxor b (at16 (EKi c) n) in (y, set_Xi (absorb (Xi c) n y) c).
Definition dec_byte (c : GCM128_CONTEXT) (n : nat) (b : Z) : Z * GCM128_CONTEXT :=
  (Z.lxor b (at16 (EKi c) n), set_Xi (absorb (Xi c) n b) c).

(** The loop for strict alignment multiplies at the end of a block. *)
Definition with_mul (byte : GCM128_CONTEXT -> nat -> Z -> Z * GCM128_CONTEXT) (c : GCM128_CONTEXT) (n : nat) (b : Z) :
    Z * GCM128_CONTEXT :=
  let '(y, c) := byte c n b in (y, if ((n + 1) mod 16 =? 0)%nat then mul_Xi c else c).

(** The words of a block and the multiplication. *)
Definition enc_words (c : GCM128_CONTEXT) (inp : list Z) : list Z * GCM128_CONTEXT :=
  let y := xor_block size_t inp (EKi c) in (y, mul_Xi (set_Xi (xor_block size_t (Xi c) y) c)).
Definition dec_words (c : GCM128_CONTEXT) (inp : list Z) : list Z * GCM128_CONTEXT :=
  (xor_block size_t inp (EKi c), mul_Xi (set_Xi (xor_block size_t (Xi c) inp) c)).

(** The inner loop of the chunks: [k] blocks without hashing. *)
Fixpoint ctr_run (k : nat) (c : GCM128_CONTEXT) (inp : list Z) : list Z * GCM128_CONTEXT :=
  match k with
  | O => ([], c)
  | S k' =>
      let c := gcm_refill c in
      let '(out, c') := ctr_run k' c (drop 16 inp) in
      (xor_block size_t (take 16 inp) (EKi c) ++ out, c')
  end.

Definition hash_run (k : nat) (c : GCM128_CONTEXT) (data : list Z) : GCM128_CONTEXT :=
  set_Xi (gcm_ghash_4bit size_t k (Xi c) (Htable c) data) c.

(** One chunk: encryption hashes the output, decryption the input. *)
Definition enc_chunk (k : nat) (c : GCM128_CONTEXT) (inp : list Z) : list Z * GCM128_CONTEXT :=
  let '(out, c) := ctr_run k c inp in (out, hash_run k c out).
Definition dec_chunk (k : nat) (c : GCM128_CONTEXT) (inp : list Z) : list Z * GCM128_CONTEXT :=
  ctr_run k (hash_run k c inp) inp.

Definition GHASH_CHUNK : nat := 3072.

(** The whole blocks that are left, and the last bytes. *)
Definition chunk_end (chunk : nat -> GCM128_CONTEXT -> list Z -> list Z * GCM128_CONTEXT)
    (byte : GCM128_CONTEXT -> nat -> Z -> Z * GCM128_CONTEXT) (c : GCM128_CONTEXT) (n : nat) (inp : list Z) :
    list Z * GCM128_CONTEXT * nat :=
  let k := (length inp / 16)%nat in
  let '(out, c) := if (0 <? k)%nat then chunk k c (take (16 * k) inp) else ([], c) in
  let rest := drop (16 * k) inp in
  if (0 <? length rest)%nat then
    let '(out', c, n) := stream_tail byte (gcm_refill c) n rest in (out ++ out', c, n)
  else (out, c, n).

(** [while (len >= GHASH_CHUNK)], and the rest. *)
Fixpoint chunk_loop (chunk : nat -> GCM128_CONTEXT -> list Z -> list Z * GCM128_CONTEXT)
    (byte : GCM128_CONTEXT -> nat -> Z -> Z * GCM128_CONTEXT) (fuel : nat) (c : GCM128_CONTEXT) (n : nat) (inp : list Z) :
    list Z * GCM128_CONTEXT * nat :=
  match fuel with
  | O => ([], c, n)
  | S fuel' =>
      if (GHASH_CHUNK <=? length inp)%nat then
        let '(out, c) := chunk (GHASH_CHUNK / 16)%nat c (take GHASH_CHUNK inp) in
        let '(out', c, n) := chunk_loop chunk byte fuel' c n (drop GHASH_CHUNK inp) in
        (out ++ out', c, n)
      else chunk_end chunk byte c n inp
  end.

(** The four functions have the same text up to the end of the block that an
    earlier call began; [byte] is its loop body and [run] is what follows.
    The result has the value that goes to [ctx->mres]. *)
Definition crypt_body (byte : GCM128_CONTEXT -> nat -> Z -> Z * GCM128_CONTEXT)
    (run : GCM128_CONTEXT -> nat -> list Z -> list Z * GCM128_CONTEXT * nat) (c : GCM128_CONTEXT) (inp : list Z) :
    list Z * GCM128_CONTEXT * nat :=
  let '(out, rest, c1, n) := stream_head byte c (mres c) inp in
  if negb (mres c =? 0)%nat && negb (n =? 0)%nat then (out, c1, n)
  else
    let c1 := if (mres c =? 0)%nat then c1 else mul_Xi c1 in
    let '(out', c2, n) := run c1 n rest in
    (out ++ out', c2, n).

Definition gcm_crypt (byte : GCM128_CONTEXT -> nat -> Z -> Z * GCM128_CONTEXT)
    (run : GCM128_CONTEXT -> nat -> list Z -> list Z * GCM128_CONTEXT * nat) (c : GCM128_CONTEXT) (inp : list Z) :
    bool * list Z * GCM128_CONTEXT :=
  let m := u64 (mlen c + zlen inp) in
  if (m >? Z.shiftl 1 36 - 32) || ((size_t =? 8)%nat && (m <? zlen inp)) then (false, [], c)
  else
    let c := set_mlen m c in
    let c := if (ares c =? 0)%nat then c else set_ares 0 (mul_Xi c) in
    let '(out, c, n) := crypt_body byte run c inp in
    (true, out, set_mres n c).

(** The three ways of [CRYPTO_gcm128_encrypt] and [CRYPTO_gcm128_decrypt]. *)
Definition block_run (chunk : nat -> GCM128_CONTEXT -> list Z -> list Z * GCM128_CONTEXT)
    (byte : GCM128_CONTEXT -> nat -> Z -> Z * GCM128_CONTEXT)
    (words : GCM128_CONTEXT -> list Z -> list Z * GCM128_CONTEXT) (strict : bool) (c : GCM128_CONTEXT) (n : nat)
    (inp : list Z) : list Z * GCM128_CONTEXT * nat :=
  if strict then stream_bytes gcm_refill (with_mul byte) c n inp
  else if ghash then chunk_loop chunk byte (S (length inp)) c n inp
  else stream_blocks gcm_refill byte words (S (length inp / 16)) c n inp.

Definition CRYPTO_gcm128_encrypt (strict : bool) : GCM128_CONTEXT -> list Z -> bool * list Z * GCM128_CONTEXT :=
  gcm_crypt enc_byte (block_run enc_chunk enc_byte enc_words strict).
Definition CRYPTO_gcm128_decrypt (strict : bool) : GCM128_CONTEXT -> list Z -> bool * list Z * GCM128_CONTEXT :=
  gcm_crypt dec_byte (block_run dec_chunk dec_byte dec_words strict).

(** *** With a function that encrypts many counters *)

Section Bulk.
(** What a call of [stream] for [blocks] counters from [ivec] writes to [out]. *)
Context (func : list Z -> nat -> list Z -> list Z).

Definition set_Yi (y : list Z) (c : GCM128_CONTEXT) : GCM128_CONTEXT :=
  mkGcm y (EKi c) (EK0 c) (alen c) (mlen c) (Xi c) (Htable c) (mres c) (ares c).

(** [stream], [ctr += blocks] and [PUTU32]. *)
Definition bulk_ctr (k : nat) (c : GCM128_CONTEXT) (inp : list Z) : list Z * GCM128_CONTEXT :=
  (func inp k (Yi c), set_Yi (put_ctr (Yi c) (u32 (ctr32_of (Yi c) + Z.of_nat k))) c).

(** [while (j--)], where [GHASH] is not defined. *)
Fixpoint mul_run (k : nat) (T : list u128) (x data : list Z) : list Z :=
  match k with
  | O => x
  | S k' => mul_run k' T (GCM_MUL T (xor_front x (take 16 data))) (drop 16 data)
  end.

Definition bulk_hash (k : nat) (c : GCM128_CONTEXT) (data : list Z) : GCM128_CONTEXT :=
  if ghash then hash_run k c data else set_Xi (mul_run k (Htable c) (Xi c) data) c.

Definition enc_bulk (k : nat) (c : GCM128_CONTEXT) (inp : list Z) : list Z * GCM128_CONTEXT :=
  let '(out, c) := bulk_ctr k c inp in (out, bulk_hash k c out).
Definition dec_bulk (k : nat) (c : GCM128_CONTEXT) (inp : list Z) : list Z * GCM128_CONTEXT :=
  bulk_ctr k (bulk_hash k c inp) inp.

Definition bulk_run (chunk : nat -> GCM128_CONTEXT -> list Z -> list Z * GCM128_CONTEXT)
    (byte : GCM128_CONTEXT -> nat -> Z -> Z * GCM128_CONTEXT) (c : GCM128_CONTEXT) (n : nat) (inp : list Z) :
    list Z * GCM128_CONTEXT * nat :=
  if ghash then chunk_loop chunk byte (S (length inp)) c n inp else chunk_end chunk byte c n inp.

Definition CRYPTO_gcm128_encrypt_ctr32 : GCM128_CONTEXT -> list Z -> bool * list Z * GCM128_CONTEXT :=
  gcm_crypt enc_byte (bulk_run enc_bulk enc_byte).
Definition CRYPTO_gcm128_decrypt_ctr32 : GCM128_CONTEXT -> list Z -> bool * list Z * GCM128_CONTEXT :=
  gcm_crypt dec_byte (bulk_run dec_bulk dec_byte).

(** The way a call takes: [CRYPTO_gcm128_encrypt] with or without the branch
    for strict alignment, or [CRYPTO_gcm128_encrypt_ctr32]; and the same for
    decryption. *)
Definition encrypt_by (w : way) : GCM128_CONTEXT -> list Z -> bool * list Z * GCM128_CONTEXT :=
  match w with by_blocks strict => CRYPTO_gcm128_encrypt strict | by_ctr32 => CRYPTO_gcm128_encrypt_ctr32 end.
Definition decrypt_by (w : way) : GCM128_CONTEXT -> list Z -> bool * list Z * GCM128_CONTEXT :=
  match w with by_blocks strict => CRYPTO_gcm128_decrypt strict | by_ctr32 => CRYPTO_gcm128_decrypt_ctr32 end.
End Bulk.

(** *** The tag *)

(** What [CRYPTO_gcm128_finish] does before it looks at [tag], where
    [BSWAP8] is not defined. *)
Definition finish_Xi (c : GCM128_CONTEXT) : GCM128_CONTEXT :=
  let a := u64 (Z.shiftl (alen c) 3) in
  let m := u64 (Z.shiftl (mlen c) 3) in
  let c := if negb (mres c =? 0)%nat || negb (ares c =? 0)%nat then mul_Xi c else c in
  let c := set_mlen m (set_alen a c) in
  let c := mul_Xi (set_Xi (xor_list (Xi c) (be_bytes 8 a ++ be_bytes 8 m)) c) in
  set_Xi (xor_list (Xi c) (EK0 c)) c.

Definition CRYPTO_gcm128_finish (c : GCM128_CONTEXT) (tag : option (list Z)) (len : Z) : res (bool * GCM128_CONTEXT) :=
  let c := finish_Xi c in
  match tag with
  | Some t =>
      if len <=? 16 then
        x ← CRYPTO_memcmp (Xi c) t len;
        Ok (x =? 0, c)
      else Ok (false, c)
  | None => Ok (false, c)
  end.

Definition CRYPTO_gcm128_tag (c : GCM128_CONTEXT) (len : Z) : list Z * GCM128_CONTEXT :=
  let c := finish_Xi c in
  (slice (Xi c) 0 (if len <=? 16 then len else 16), c).
End Gcm128.

(** ** NIST SP 800-38D *)

Definition blocks_of (l : list Z) : list (list Z) := whole_blocks (length l / 16) l.
Definition pad16 (l : list Z) : list Z := l ++ replicate ((16 - length l mod 16) mod 16) 0.

Section Nist.
Context (cipher : list Z -> list Z).

Definition hash_key : list Z := cipher zero16.

(** The pre-counter block of an initial vector. *)
Definition J0 (iv : list Z) : list Z :=
  if (length iv =? 12)%nat then iv ++ [0; 0; 0; 1]
  else GHASH hash_key zero16 (blocks_of (pad16 iv ++ replicate 8 0 ++ be_bytes 8 (8 * zlen iv))).

(** Byte [i] of the key stream that starts at counter block [icb]. *)
Definition ks (icb : list Z) (i : nat) : Z := at16 (cipher (add32 icb (i / 16))) (i mod 16).
Definition gctr_from (icb : list Z) (p : nat) (l : list Z) : list Z := imap (fun i x => Z.lxor x (ks icb (p + i))) l.

Definition nist_encrypt (iv P : list Z) : list Z := gctr_from (add32 (J0 iv) 1) 0 P.
Definition nist_tag (iv A C : list Z) : list Z :=
  xor_list (GHASH hash_key zero16 (blocks_of (pad16 A ++ pad16 C ++ be_bytes 8 (8 * zlen A) ++ be_bytes 8 (8 * zlen C))))
    (cipher (J0 iv)).
End Nist.
