(* ===== verification/GcmCorrect.v ===== *)
(** * GcmCorrect: GCM as implemented is GCM as specified

    The proofs about [GcmMode.v].  Hashing is described byte by byte
    ([soak]), with [settle] for the end of a part; every way through a
    message is shown to do the same to the position in the key stream and to
    the hash state ([ran]); the invariant [gcm_at] ties a context to the
    additional data and the ciphertext so far.

    Shown: every way is the mode of NIST SP 800-38D, however additional data
    and message are cut into calls; decryption gives the message back and
    accepts exactly the tag of encryption. *)

From Stdlib Require Import ZifyNat.
From S2P Require Import Prelude.
From S2P Require Import Words.
From S2P Require Import AesTables.
From S2P Require Import Aes.
From S2P Require Import AesInverse.
From S2P Require Import Modes.
From S2P Require Import CtrMode.
From S2P Require Import Gcm.
From S2P Require Import Aead.
From S2P Require Import GcmMode.

#[local] Arguments Nat.modulo : simpl never.
#[local] Arguments Nat.div : simpl never.

(** ** Absorbing bytes one at a time *)

(** The hash state after the bytes [l], at index [n] of a block. *)
Fixpoint soak (H x : list Z) (n : nat) (l : list Z) : list Z * nat :=
  match l with
  | [] => (x, n)
  | b :: l' =>
      let x := absorb x n b in
      soak H (if ((n + 1) mod 16 =? 0)%nat then bmul x H else x) ((n + 1) mod 16)%nat l'
  end.

(** The end of a part: the rest of the block is zero. *)
Definition settle (H : list Z) (s : list Z * nat) : list Z := if (snd s =? 0)%nat then fst s else bmul (fst s) H.

Lemma soak_app H x n a b : soak H x n (a ++ b) = let '(y, m) := soak H x n a in soak H y m b.
Proof. revert x n. induction a as [|c a IH]; intros x n; simpl; [done|]. apply IH. Qed.

Lemma length_absorb x n b : length (absorb x n b) = length x.
Proof. apply length_insert. Qed.

Lemma block16_absorb x n b : block16 x -> is_byte b -> block16 (absorb x n b).
Proof.
  intros [L B] Hb. split; [by rewrite length_absorb|]. apply Forall_insert; [done|].
  apply is_u_lxor; [done|by apply at16_bytes|done].
Qed.

(** [l] xored in at index [n]. *)
Definition xor_at (x : list Z) (n : nat) (l : list Z) : list Z :=
  take n x ++ xor_list (take (length l) (drop n x)) l ++ drop (n + length l) x.

Lemma xor_at_nil x n : xor_at x n [] = x.
Proof. unfold xor_at. simpl. rewrite Nat.add_0_r. apply take_drop. Qed.

Lemma xor_at_cons x n b l : (n < length x)%nat -> xor_at (absorb x n b) (n + 1) l = xor_at x n (b :: l).
Proof.
  intros Hn. destruct (lookup_lt_is_Some_2 x n Hn) as [y Hy]. unfold xor_at, absorb, at16. rewrite Hy. simpl default.
  rewrite Nat.add_1_r. rewrite (take_S_r _ n (Z.lxor y b)) by (by apply list_lookup_insert_eq).
  rewrite take_insert_ge by lia. rewrite drop_insert_lt by lia. rewrite (drop_S x y n Hy). simpl length.
  rewrite <- app_assoc. f_equal. simpl. f_equal. f_equal. rewrite drop_insert_lt by lia. f_equal. lia.
Qed.

Lemma xor_at_front x l : xor_at x 0 l = xor_front x l.
Proof. done. Qed.

(** Inside a block nothing is multiplied; at its end it is. *)
Lemma soak_inside H x n l :
  length x = 16%nat -> (n + length l < 16)%nat -> soak H x n l = (xor_at x n l, (n + length l)%nat).
Proof.
  revert x n. induction l as [|b l IH]; intros x n Hx Hl; simpl in *.
  - by rewrite xor_at_nil, Nat.add_0_r.
  - rewrite Nat.mod_small by lia. destruct (Nat.eqb_spec (n + 1) 0); [lia|].
    rewrite IH by (rewrite ?length_absorb; lia). rewrite xor_at_cons by lia. f_equal. lia.
Qed.

Lemma soak_end H x n l :
  length x = 16%nat -> (0 < length l)%nat -> (n + length l = 16)%nat -> soak H x n l = (bmul (xor_at x n l) H, 0%nat).
Proof.
  revert x n. induction l as [|b l IH]; intros x n Hx H0 Hl; simpl in *; [lia|].
  destruct l as [|b' l].
  - simpl in *. replace (n + 1)%nat with 16%nat by lia. change (16 mod 16)%nat with 0%nat. simpl.
    rewrite <- xor_at_cons, xor_at_nil by lia. done.
  - rewrite Nat.mod_small by (simpl in Hl; lia). destruct (Nat.eqb_spec (n + 1) 0); [lia|].
    rewrite IH by (rewrite ?length_absorb; simpl in *; lia). by rewrite xor_at_cons by lia.
Qed.

Lemma xor_front_whole x l : length x = length l -> xor_front x l = xor_list x l.
Proof. intros E. unfold xor_front. rewrite <- E, take_ge, drop_ge by lia. apply app_nil_r. Qed.

Lemma soak_block H x b : length x = 16%nat -> length b = 16%nat -> soak H x 0 b = (bmul (xor_list x b) H, 0%nat).
Proof. intros Hx Hb. rewrite soak_end by lia. by rewrite xor_at_front, xor_front_whole by lia. Qed.

Lemma length_bmul x H : length (bmul x H) = 16%nat.
Proof. apply length_be_bytes. Qed.

Lemma soak_blocks H x k l :
  length x = 16%nat -> length l = (16 * k)%nat -> soak H x 0 l = (GHASH H x (whole_blocks k l), 0%nat).
Proof.
  revert x l. induction k as [|k IH]; intros x l Hx Hl; [by destruct l|].
  rewrite <- (take_drop 16 l) at 1. rewrite soak_app, soak_block by (rewrite ?length_take; lia).
  rewrite IH, whole_blocks_S by (rewrite ?length_bmul, ?length_drop; lia). done.
Qed.

(** Padding with zeros is settling. *)
Lemma xor_at_zeros x n : length x = 16%nat -> (n <= 16)%nat -> xor_at x n (replicate (16 - n) 0) = x.
Proof.
  intros Hx Hn. unfold xor_at. rewrite length_replicate, (take_ge (drop n x)), (drop_ge x (n + (16 - n))) by (rewrite ?length_drop; lia).
  rewrite app_nil_r. rewrite <- (take_drop n x) at 3. f_equal.
  assert (E : length (drop n x) = (16 - n)%nat) by (rewrite length_drop; lia). rewrite <- E. clear.
  induction (drop n x) as [|y l IH]; [done|]. unfold xor_list in *. simpl. by rewrite Z.lxor_0_r, IH.
Qed.

Lemma soak_index H x n l : (n < 16)%nat -> snd (soak H x n l) = ((n + length l) mod 16)%nat.
Proof.
  revert x n. induction l as [|b l IH]; intros x n Hn; simpl; [rewrite Nat.mod_small; lia|]. rewrite IH by lia. lia.
Qed.

Lemma block16_soak H x n l : block16 x -> Forall is_byte l -> block16 (fst (soak H x n l)).
Proof.
  revert x n. induction l as [|b l IH]; intros x n Hx Hl; [done|]. apply Forall_cons in Hl as [Hb Hl]. simpl. apply IH; [|done].
  case_match; [apply block16_bmul|by apply block16_absorb].
Qed.

Lemma length_soak H x n l : length x = 16%nat -> length (fst (soak H x n l)) = 16%nat.
Proof.
  revert x n. induction l as [|b l IH]; intros x n Hx; [done|]. simpl. apply IH. case_match; [apply length_bmul|by rewrite length_absorb].
Qed.

Lemma length_pad16 l : exists k, length (pad16 l) = (16 * k)%nat.
Proof. exists ((length l + 15) / 16)%nat. unfold pad16. rewrite length_app, length_replicate. lia. Qed.

Lemma settle_pad H x l :
  length x = 16%nat -> settle H (soak H x 0 l) = GHASH H x (blocks_of (pad16 l)).
Proof.
  intros Hx. destruct (length_pad16 l) as [k Hk]. unfold blocks_of. replace (length (pad16 l) / 16)%nat with k by lia.
  assert (E : soak H x 0 (pad16 l) = (settle H (soak H x 0 l), 0%nat)).
  { unfold pad16. rewrite soak_app. pose proof (soak_index H x 0 l ltac:(lia)) as Hi. pose proof (length_soak H x 0 l Hx) as Ly.
    destruct (soak H x 0 l) as [y m]. simpl in *. subst m. unfold settle. cbn [fst snd].
    destruct (Nat.eqb_spec (length l mod 16) 0) as [E|E]; [by rewrite E|].
    replace ((16 - length l mod 16) mod 16)%nat with (16 - length l mod 16)%nat by lia.
    rewrite soak_end by (rewrite ?length_replicate; lia). by rewrite xor_at_zeros by lia. }
  rewrite (soak_blocks H x k) in E by done. by injection E.
Qed.

(** ** The calls *)

Section Calls.
Context (cipher : list Z -> list Z) (size_t : nat) (ghash : bool).
Hypothesis size_ok : size_t = 4%nat \/ size_t = 8%nat.
Hypothesis cipher_block : forall x, block16 x -> block16 (cipher x).

Abbreviation H := (hash_key cipher).
Abbreviation T := (key_table size_t (hash_key cipher)).

Lemma block16_zero : block16 zero16.
Proof. split; [done|by apply Forall_replicate]. Qed.

Lemma H_block : block16 H.
Proof. apply cipher_block, block16_zero. Qed.

Lemma MUL_bmul x : block16 x -> GCM_MUL size_t T x = bmul x H.
Proof. intros Hx. unfold GCM_MUL. apply gmult_ok; [done|done|apply H_block]. Qed.

Lemma block16_xor_at x n l : block16 x -> Forall is_byte l -> (n + length l <= 16)%nat -> block16 (xor_at x n l).
Proof.
  intros [Lx Bx] Hl Hn. unfold xor_at. assert (La : length (take (length l) (drop n x)) = length l) by (rewrite length_take, length_drop; lia).
  split.
  - rewrite !length_app, length_xor_list, length_take, length_drop by lia. lia.
  - rewrite !Forall_app. split; [by apply Forall_take|]. split; [|by apply Forall_drop].
    apply Forall_lookup. intros i y Hy. apply lookup_zip_with_Some in Hy as (a & b & -> & Ha & Hb).
    apply is_u_lxor; [done| |by apply (Forall_lookup_1 _ _ _ _ Hl Hb)].
    refine (Forall_lookup_1 _ _ _ _ _ Ha). by apply Forall_take, Forall_drop.
Qed.

(** *** Additional data *)

(** The bytes that finish a block begun before. *)
Lemma aad_head x n l :
  block16 x -> Forall is_byte l -> (n < 16)%nat ->
  let '(_, rest, y, m) := stream_head aad_byte x n l in
  block16 y /\ Forall is_byte rest /\ (rest = [] \/ m = 0%nat) /\ (m < 16 /\ (n = 0 -> m = 0))%nat /\
  soak H x n l = soak H (if (n =? 0)%nat then y else if (m =? 0)%nat then GCM_MUL size_t T y else y) m rest.
Proof.
  revert x n. induction l as [|b l IH]; intros x n Hx Hl Hn; simpl.
  - split; [done|]. split; [done|]. split; [by left|]. split; [lia|]. by destruct (Nat.eqb_spec n 0).
  - destruct (Nat.eqb_spec n 0) as [->|Hn0]; [split; [done|]; split; [done|]; split; [by right|]; split; [lia|done]|].
    apply Forall_cons in Hl as [Hb Hl]. cbn [aad_byte].
    assert (Hy : block16 (absorb x n b)) by (by apply block16_absorb).
    destruct (Nat.eqb_spec ((n + 1) mod 16) 0) as [E|E].
    + rewrite E. destruct l as [|b' l']; simpl; rewrite MUL_bmul by done;
        (split; [done|]; split; [done|]; split; [auto|]; split; [lia|done]).
    + specialize (IH (absorb x n b) ((n + 1) mod 16)%nat Hy Hl ltac:(lia)).
      destruct (stream_head aad_byte (absorb x n b) _ l) as [[[o rest] y] m].
      destruct IH as (B1 & B2 & B3 & B4 & B5). apply Nat.eqb_neq in E. rewrite E in B5.
      split; [done|]. split; [done|]. split; [done|]. split; [lia|]. exact B5.
Qed.

Lemma whole_blocks_soak k x l :
  block16 x -> Forall is_byte l -> (16 * k <= length l)%nat ->
  let y := gcm_ghash_4bit size_t k x T l in
  block16 y /\ soak H x 0 l = soak H y 0 (drop (16 * k) l).
Proof.
  intros Hx Hl Hk y. unfold y. rewrite ghash_ok by (done || apply H_block).
  rewrite <- (f_equal (soak H x 0) (take_drop (16 * k) l)), soak_app.
  assert (E : whole_blocks k l = whole_blocks k (take (16 * k) l)).
  { unfold whole_blocks. apply list_fmap_ext. intros j i Hi%lookup_seq. rewrite skipn_firstn_comm, take_take. f_equal. lia. }
  rewrite (soak_blocks H x k) by (apply Hx || rewrite length_take; lia). rewrite E. split; [|done].
  destruct k as [|k]; [done|]. rewrite whole_blocks_S. cbn [GHASH foldl].
  generalize (bmul (xor_list x (take 16 (take (16 * S k) l))) H) (block16_bmul (xor_list x (take 16 (take (16 * S k) l))) H).
  generalize (whole_blocks k (drop 16 (take (16 * S k) l))). clear. intros bs. induction bs as [|b bs IH]; intros z Hz; [done|].
  simpl. apply IH, block16_bmul.
Qed.

Lemma aad_blocks_soak fuel x l :
  block16 x -> Forall is_byte l -> (length l < fuel)%nat ->
  let '(y, rest) := aad_blocks size_t fuel T x l in
  block16 y /\ Forall is_byte rest /\ (length rest < 16)%nat /\ soak H x 0 l = soak H y 0 rest.
Proof.
  revert x l. induction fuel as [|fuel IH]; intros x l Hx Hl Hf; [lia|]. cbn [aad_blocks].
  destruct (Nat.leb_spec 16 (length l)) as [H16|H16]; [|done].
  assert (Ht : block16 (take 16 l)) by (split; [rewrite length_take; lia|by apply Forall_take]).
  destruct Ht as [Lt Bt]. rewrite xor_front_whole by (rewrite Lt; apply Hx).
  rewrite MUL_bmul by (by apply block16_xor).
  specialize (IH (bmul (xor_list x (take 16 l)) H) (drop 16 l) (block16_bmul _ _)).
  destruct (aad_blocks size_t fuel T _ (drop 16 l)) as [y rest].
  destruct IH as (H1 & H2 & H3 & H4); [by apply Forall_drop|rewrite length_drop; lia|].
  split; [done|]. split; [done|]. split; [done|]. rewrite <- H4.
  rewrite <- (f_equal (soak H x 0) (take_drop 16 l)), soak_app, soak_block by (done || apply Hx). done.
Qed.

Lemma aad_ghash_soak x l :
  block16 x -> Forall is_byte l ->
  let '(y, rest) := aad_ghash size_t T x l in
  block16 y /\ Forall is_byte rest /\ (length rest < 16)%nat /\ soak H x 0 l = soak H y 0 rest.
Proof.
  intros Hx Hl. unfold aad_ghash. destruct (Nat.ltb_spec 0 (length l / 16)) as [Hk|Hk].
  - destruct (whole_blocks_soak (length l / 16) x l Hx Hl) as [H1 H2]; [lia|].
    split; [done|]. split; [by apply Forall_drop|]. split; [rewrite length_drop; lia|done].
  - split; [done|]. split; [done|]. split; [lia|done].
Qed.

(** From the start of a block: whole blocks, then the last bytes. *)
Lemma aad_rest z rest :
  block16 z -> Forall is_byte rest ->
  (let '(x, r) := if ghash then aad_ghash size_t T z rest else aad_blocks size_t (S (length rest)) T z rest in
   (xor_front x r, if (0 <? length r)%nat then length r else 0%nat)) = soak H z 0 rest.
Proof.
  intros Hz Hr.
  assert (G : let '(x, r) := if ghash then aad_ghash size_t T z rest else aad_blocks size_t (S (length rest)) T z rest in
              block16 x /\ Forall is_byte r /\ (length r < 16)%nat /\ soak H z 0 rest = soak H x 0 r).
  { destruct ghash; [by apply aad_ghash_soak|apply aad_blocks_soak; [done|done|lia]]. }
  destruct (if ghash then _ else _) as [x r]. destruct G as ([Lx _] & _ & L & ->). rewrite soak_inside by lia.
  f_equal. by destruct r.
Qed.

(** What a call adds to the additional data. *)
Lemma aad_ok c l :
  block16 (Xi c) -> Forall is_byte l -> (ares c < 16)%nat -> Htable c = T -> mlen c = 0 -> 0 <= alen c ->
  alen c + zlen l <= 2 ^ 61 ->
  CRYPTO_gcm128_aad size_t ghash c l =
    (true, set_ares (snd (soak H (Xi c) (ares c) l)) (set_Xi (fst (soak H (Xi c) (ares c) l)) (set_alen (alen c + zlen l) c))).
Proof.
  intros Hx Hl Hn HT Hm Ha Hmax. unfold CRYPTO_gcm128_aad. rewrite Hm. cbn [negb Z.eqb]. pose proof (zlen_nonneg l).
  rewrite wrapU_id by (unfold is_u; lia). change (Z.shiftl 1 61) with (2 ^ 61). rewrite Z.gtb_ltb.
  destruct (Z.ltb_spec (2 ^ 61) (alen c + zlen l)); [lia|]. destruct (Z.ltb_spec (alen c + zlen l) (zlen l)); [lia|].
  rewrite andb_false_r. cbn [orb]. cbn [set_alen Xi ares Htable].
  pose proof (aad_head (Xi c) (ares c) l Hx Hl Hn) as Hh.
  destruct (stream_head aad_byte (Xi c) (ares c) l) as [[[o rest] y] m] eqn:Eh.
  destruct Hh as (By & Br & Hr & (Hm16 & Hm0) & ->). rewrite HT.
  assert (Hy : block16 (if (ares c =? 0)%nat then y else GCM_MUL size_t T y)).
  { destruct (Nat.eqb_spec (ares c) 0); [done|]. rewrite MUL_bmul by done. apply block16_bmul. }
  destruct (Nat.eqb_spec m 0) as [->|Em].
  - rewrite andb_false_r. set (z := if (ares c =? 0)%nat then y else GCM_MUL size_t T y) in *.
    rewrite <- (aad_rest z rest Hy Br). by destruct (if ghash then _ else _) as [x r].
  - destruct (Nat.eqb_spec (ares c) 0); [lia|]. cbn [negb andb]. destruct Hr as [->|]; [|done]. done.
Qed.

(** *** Message: the three ways are one *)

(** Encryption hashes what goes out, decryption what comes in. *)
Definition gen_byte (pick : Z -> Z -> Z) (c : GCM128_CONTEXT) (n : nat) (b : Z) : Z * GCM128_CONTEXT :=
  let y := Z.lxor b (at16 (EKi c) n) in (y, set_Xi (absorb (Xi c) n (pick b y)) c).
Definition gen_words (pick : Z -> Z -> Z) (c : GCM128_CONTEXT) (inp : list Z) : list Z * GCM128_CONTEXT :=
  let y := xor_list inp (EKi c) in (y, mul_Xi size_t (set_Xi (xor_list (Xi c) (zip_with pick inp y)) c)).

Definition good (c : GCM128_CONTEXT) : Prop := block16 (Yi c) /\ length (EKi c) = 16%nat /\ length (Xi c) = 16%nat.

Abbreviation refill := (gcm_refill cipher).

Lemma PUTU32_be v : PUTU32 v = be_bytes 4 v.
Proof. unfold PUTU32. simpl. by rewrite Z.shiftr_0_r. Qed.

Lemma block16_put_ctr y v : block16 y -> block16 (put_ctr y v).
Proof.
  intros [L B]. unfold put_ctr. rewrite PUTU32_be.
  split; [rewrite length_app, length_take, length_be_bytes; lia|]. apply Forall_app. split; [by apply Forall_take|apply be_bytes_bytes].
Qed.

Lemma good_refill c : good c -> good (refill c).
Proof.
  intros (HY & HE & HX). split; [by apply block16_put_ctr|]. split; [|done]. simpl. by apply cipher_block.
Qed.

Lemma length_MUL t x : length (GCM_MUL size_t t x) = 16%nat.
Proof. unfold GCM_MUL, gcm_gmult_4bit, gmult_from, put128. by rewrite length_app, !length_be_bytes. Qed.

Lemma good_mul c : good c -> good (mul_Xi size_t c).
Proof. intros (HY & HE & HX). split; [done|]. split; [done|]. apply length_MUL. Qed.

Lemma good_gen_byte pick c n b : good c -> good (snd (gen_byte pick c n b)).
Proof. intros (HY & HE & HX). split; [done|]. split; [done|]. simpl. by rewrite length_absorb. Qed.

Lemma good_with_mul byte c n b :
  good (snd (byte c n b)) -> good (snd (with_mul size_t byte c n b)).
Proof. unfold with_mul. destruct (byte c n b) as [y c']. simpl. intros Hg. case_match; [by apply good_mul|done]. Qed.

Lemma tail_gen pick c n l :
  length (EKi c) = 16%nat -> length (Xi c) = 16%nat -> (n + length l <= 16)%nat ->
  let out := xor_list l (take (length l) (drop n (EKi c))) in
  stream_tail (gen_byte pick) c n l = (out, set_Xi (xor_at (Xi c) n (zip_with pick l out)) c, (n + length l)%nat).
Proof.
  revert c n. induction l as [|b l IH]; intros c n HE HX Hn; cbn [stream_tail].
  - simpl. rewrite xor_at_nil, Nat.add_0_r. by destruct c.
  - simpl in Hn. unfold gen_byte at 1. cbv zeta.
    rewrite IH by (cbn [set_Xi EKi Xi]; rewrite ?length_absorb; lia). cbn [set_Xi EKi Xi].
    destruct (lookup_lt_is_Some_2 (EKi c) n) as [k Hk]; [lia|]. unfold at16. rewrite Hk. simpl default.
    rewrite (drop_S _ k n Hk). rewrite Nat.add_1_r. cbn [length take xor_list zip_with].
    fold (xor_list l (take (length l) (drop (S n) (EKi c)))). rewrite <- (Nat.add_1_r n), xor_at_cons by lia.
    by replace (n + 1 + length l)%nat with (n + S (length l))%nat by lia.
Qed.

(** The multiplication at the end of a block. *)
Lemma tail_with_mul byte c n l :
  (n + length l <= 16)%nat ->
  stream_tail (with_mul size_t byte) c n l =
    let '(o, c', m) := stream_tail byte c n l in
    (o, if (0 <? length l)%nat && (n + length l =? 16)%nat then mul_Xi size_t c' else c', m).
Proof.
  revert c n. induction l as [|b l IH]; intros c n Hn; cbn [stream_tail]; [done|]. simpl in Hn.
  unfold with_mul at 1. destruct (byte c n b) as [y c'].
  destruct l as [|b' l].
  - simpl. destruct (Nat.eqb_spec (n + 1) 16) as [->|E]; [done|]. rewrite Nat.mod_small by lia.
    destruct (Nat.eqb_spec (n + 1) 0); [lia|done].
  - simpl in Hn. rewrite (Nat.mod_small (n + 1)) by lia. destruct (Nat.eqb_spec (n + 1) 0); [lia|].
    rewrite IH by (simpl; lia). destruct (stream_tail byte c' (n + 1) (b' :: l)) as [[o c2] m].
    cbn [length]. replace (n + 1 + S (length l))%nat with (n + S (S (length l)))%nat by lia. done.
Qed.

Lemma words_are_bytes pick c inp :
  good c -> length inp = 16%nat ->
  (let '(out, c', _) := stream_tail (with_mul size_t (gen_byte pick)) c 0 inp in (out, c')) = gen_words pick c inp.
Proof.
  intros (HY & HE & HX) Hi. rewrite tail_with_mul, tail_gen by lia. rewrite Hi. change ((0 <? 16)%nat && (0 + 16 =? 16)%nat) with true.
  rewrite (take_ge (drop 0 (EKi c))) by (rewrite length_drop; lia). rewrite drop_0. unfold gen_words.
  rewrite xor_at_front, xor_front_whole; [done|]. rewrite length_zip_with, length_xor_list by lia. lia.
Qed.

(** [stream_blocks] with its plain last bytes. *)
Lemma blocks_with_mul byte words fuel c inp :
  stream_blocks refill byte words fuel c 0 inp = stream_blocks refill (with_mul size_t byte) words fuel c 0 inp.
Proof.
  revert c inp. induction fuel as [|fuel IH]; intros c inp; [done|]. cbn [stream_blocks].
  destruct (Nat.leb_spec 16 (length inp)); [destruct (words _ _); by rewrite IH|].
  destruct (0 <? length inp)%nat; [|done]. rewrite tail_with_mul by lia.
  destruct (stream_tail byte (refill c) 0 inp) as [[? ?] ?]. destruct (Nat.eqb_spec (0 + length inp) 16); [lia|]. by rewrite andb_false_r.
Qed.

Abbreviation stream := (fun pick => stream_bytes refill (with_mul size_t (gen_byte pick))).

Lemma blocks_stream pick words c inp :
  (forall c inp, good c -> length inp = 16%nat -> words c inp = gen_words pick c inp) ->
  good c -> stream_blocks refill (gen_byte pick) words (S (length inp / 16)) c 0 inp = stream pick c 0%nat inp.
Proof.
  intros Hw Hg. rewrite blocks_with_mul. apply (stream_blocks_bytes _ _ _ good); try done; try lia.
  - apply good_refill.
  - intros s0 inp0 Hs Hl. rewrite Hw by done. destruct Hs as (HY & HE & HX). split; [done|]. split; [done|]. apply length_MUL.
  - intros. rewrite Hw by done. by apply words_are_bytes.
Qed.

(** A block at a time. *)
Lemma stream_block pick c inp :
  good c -> length inp = 16%nat -> stream pick c 0%nat inp = let '(out, c') := gen_words pick (refill c) inp in (out, c', 0%nat).
Proof.
  intros Hg Hl. apply (stream_block_bytes _ _ _ good); try done.
  - apply good_refill.
  - intros. by apply words_are_bytes.
Qed.

(** *** Chunks *)

Lemma gmult_from_ext t f g : (forall i, (i < 16)%nat -> f i = g i) -> gmult_from size_t t f = gmult_from size_t t g.
Proof.
  intros E. unfold gmult_from. rewrite (E 15%nat) by lia. f_equal.
  assert (L : forall n z b, (n < 16)%nat -> gmult_loop size_t t f n z b = gmult_loop size_t t g n z b).
  { induction n as [|n IH]; intros z b Hn; [done|]. cbn [gmult_loop]. rewrite (E n) by lia. apply IH. lia. }
  apply L. lia.
Qed.

(** One more block in front. *)
Lemma ghash_step k t x b l :
  length x = 16%nat -> length b = 16%nat ->
  gcm_ghash_4bit size_t (S k) x t (b ++ l) = gcm_ghash_4bit size_t k (GCM_MUL size_t t (xor_list x b)) t l.
Proof.
  intros Hx Hb. cbn [gcm_ghash_4bit]. rewrite drop_app_length' by lia. f_equal. apply gmult_from_ext. intros i Hi.
  unfold at16, xor_list. rewrite lookup_zip_with, lookup_app_l by lia.
  destruct (lookup_lt_is_Some_2 x i) as [y ->]; [lia|]. by destruct (lookup_lt_is_Some_2 b i) as [z ->]; [lia|].
Qed.

(** Running the counter leaves the hash state alone, and does not look at it. *)
Lemma ctr_run_frame k c z inp :
  ctr_run cipher size_t k (set_Xi z c) inp = let '(o, c') := ctr_run cipher size_t k c inp in (o, set_Xi z c').
Proof.
  revert c inp. induction k as [|k IH]; intros c inp; [done|]. cbn [ctr_run].
  change (gcm_refill cipher (set_Xi z c)) with (set_Xi z (refill c)). rewrite IH.
  by destruct (ctr_run cipher size_t k (refill c) (drop 16 inp)).
Qed.

Lemma ctr_run_good k c inp :
  good c -> (16 * k <= length inp)%nat ->
  let '(o, c') := ctr_run cipher size_t k c inp in
  good c' /\ Xi c' = Xi c /\ Htable c' = Htable c /\ length o = (16 * k)%nat.
Proof.
  revert c inp. induction k as [|k IH]; intros c inp Hg Hl; [done|]. cbn [ctr_run].
  specialize (IH (refill c) (drop 16 inp) (good_refill c Hg)). destruct (ctr_run cipher size_t k (refill c) (drop 16 inp)) as [o c'].
  destruct IH as (G & EX & ET & L); [rewrite length_drop; lia|]. split; [done|]. split; [done|]. split; [done|].
  destruct (good_refill c Hg) as (_ & HE & _).
  rewrite length_app, L, xor_block_spec by (done || rewrite length_take; lia || done).
  rewrite length_xor_list, length_take by (rewrite length_take; lia). lia.
Qed.

Definition gen_chunk (pick : Z -> Z -> Z) (k : nat) (c : GCM128_CONTEXT) (inp : list Z) : list Z * GCM128_CONTEXT :=
  let '(out, c) := ctr_run cipher size_t k c inp in (out, hash_run size_t k c (zip_with pick inp out)).

Lemma mul_set_Xi x c : mul_Xi size_t (set_Xi x c) = set_Xi (GCM_MUL size_t (Htable c) x) c.
Proof. done. Qed.

Lemma set_Xi_twice x y c : set_Xi x (set_Xi y c) = set_Xi x c.
Proof. done. Qed.

(** A chunk is a stream over its bytes. *)
Lemma chunk_stream pick k c inp :
  good c -> length inp = (16 * k)%nat ->
  let '(out, c') := gen_chunk pick k c inp in stream pick c 0%nat inp = (out, c', 0%nat) /\ good c'.
Proof.
  revert c inp. induction k as [|k IH]; intros c inp Hg Hl; [destruct inp; [by destruct c|done]|].
  unfold gen_chunk. cbn [ctr_run]. pose proof (good_refill c Hg) as Hg'.
  assert (Lt : length (take 16 inp) = 16%nat) by (rewrite length_take; lia).
  set (y := xor_block size_t (take 16 inp) (EKi (refill c))).
  assert (Ey : y = xor_list (take 16 inp) (EKi (refill c))) by (apply xor_block_spec; [done|done|apply Hg']).
  assert (Ly : length y = 16%nat) by (rewrite Ey, length_xor_list; destruct Hg' as (_ & HE & _); lia).
  set (z := zip_with pick (take 16 inp) y). assert (Lz : length z = 16%nat) by (unfold z; rewrite length_zip_with; lia).
  pose (x1 := GCM_MUL size_t (Htable c) (xor_list (Xi c) z)).
  assert (Hg1 : good (set_Xi x1 (refill c))).
  { destruct Hg' as (HY & HE & HX). split; [done|]. split; [done|]. apply length_MUL. }
  specialize (IH (set_Xi x1 (refill c)) (drop 16 inp) Hg1 ltac:(rewrite length_drop; lia)).
  unfold gen_chunk in IH. rewrite ctr_run_frame in IH.
  pose proof (ctr_run_good k (refill c) (drop 16 inp) Hg' ltac:(rewrite length_drop; lia)) as Hr.
  destruct (ctr_run cipher size_t k (refill c) (drop 16 inp)) as [o c'] eqn:Er.
  destruct Hr as (_ & EX & ET & Lo).
  assert (Ez : hash_run size_t (S k) c' (zip_with pick inp (y ++ o)) = hash_run size_t k (set_Xi x1 c') (zip_with pick (drop 16 inp) o)).
  { unfold hash_run. rewrite set_Xi_twice. f_equal. rewrite <- (take_drop 16 inp) at 1. rewrite zip_with_app by lia.
    rewrite ghash_step by (done || (rewrite EX; apply Hg)). rewrite EX. cbn [Xi set_Xi Htable]. unfold x1. by rewrite ET. }
  rewrite Ez. destruct IH as [IH G]. split; [|done]. rewrite <- (take_drop 16 inp) at 1. rewrite stream_bytes_app.
  rewrite stream_block by done. unfold gen_words. rewrite <- Ey, mul_set_Xi. cbv zeta.
  change (set_Xi (GCM_MUL size_t (Htable (refill c)) (xor_list (Xi (refill c)) (zip_with pick (take 16 inp) y))) (refill c))
    with (set_Xi x1 (refill c)). by rewrite IH.
Qed.

(** The bytes that finish a block begun before. *)
Lemma head_stream pick c n inp :
  good c -> (n < 16)%nat ->
  let '(out, rest, c1, m) := stream_head (gen_byte pick) c n inp in
  (rest = [] \/ m = 0%nat) /\ (n = 0%nat -> m = 0%nat) /\
  exists hd, inp = hd ++ rest /\
    stream pick c n hd = (out, if (n =? 0)%nat then c1 else if (m =? 0)%nat then mul_Xi size_t c1 else c1, m).
Proof.
  revert c n. induction inp as [|b inp IH]; intros c n Hg Hn; cbn [stream_head].
  - split; [by left|]. split; [done|]. exists []. by destruct (Nat.eqb_spec n 0).
  - destruct (Nat.eqb_spec n 0) as [->|Hn0]; [split; [by right|]; split; [done|]; by exists []|].
    pose proof (good_gen_byte pick c n b Hg) as Hg1. destruct (gen_byte pick c n b) as [y c1] eqn:Eb. cbn [snd] in Hg1.
    apply Nat.eqb_neq in Hn0 as En.
    assert (Hcons : forall hd o c2 m, stream pick (if ((n + 1) mod 16 =? 0)%nat then mul_Xi size_t c1 else c1) ((n + 1) mod 16)%nat hd = (o, c2, m) ->
              stream pick c n (b :: hd) = (y :: o, c2, m)).
    { intros hd o c2 m E. cbn [stream_bytes]. rewrite En. unfold with_mul at 1. by rewrite Eb, E. }
    destruct (Nat.eqb_spec ((n + 1) mod 16) 0) as [E|E].
    + rewrite E in *. assert (Eh : stream_head (gen_byte pick) c1 0 inp = ([], inp, c1, 0%nat)) by (by destruct inp).
      rewrite Eh. split; [by right|]. split; [done|]. exists [b]. split; [done|]. by apply Hcons.
    + specialize (IH c1 ((n + 1) mod 16)%nat Hg1 ltac:(lia)). apply Nat.eqb_neq in E as En1. rewrite En1 in IH.
      destruct (stream_head (gen_byte pick) c1 _ inp) as [[[o rest] c2] m]. destruct IH as (Hr & Hm & hd & -> & Es).
      split; [done|]. split; [done|]. exists (b :: hd). split; [done|]. by apply Hcons.
Qed.

(** The context when the bytes of a call are about to be used. *)
Definition prepared (c : GCM128_CONTEXT) (l : list Z) : GCM128_CONTEXT :=
  let c := set_mlen (mlen c + zlen l) c in if (ares c =? 0)%nat then c else set_ares 0 (mul_Xi size_t c).

Lemma good_prepared c l : good c -> good (prepared c l).
Proof. intros (HY & HE & HX). unfold prepared. case_match; [done|]. split; [done|]. split; [done|]. apply length_MUL. Qed.

Abbreviation enc_pick := (fun _ y : Z => y).
Abbreviation dec_pick := (fun x _ : Z => x).

Lemma zip_enc_pick (a b : list Z) : length a = length b -> zip_with enc_pick a b = b.
Proof. revert b. induction a as [|x a IH]; intros [|y b] Hl; simplify_eq/=; [done|]. by rewrite IH. Qed.
Lemma zip_dec_pick (a b : list Z) : length a = length b -> zip_with dec_pick a b = a.
Proof. revert b. induction a as [|x a IH]; intros [|y b] Hl; simplify_eq/=; [done|]. by rewrite IH. Qed.

Lemma words_pick c inp :
  good c -> length inp = 16%nat ->
  enc_words size_t c inp = gen_words enc_pick c inp /\ dec_words size_t c inp = gen_words dec_pick c inp.
Proof.
  intros (HY & HE & HX) Hl. unfold enc_words, dec_words, gen_words.
  assert (Ly : length (xor_list inp (EKi c)) = 16%nat) by (rewrite length_xor_list; lia).
  rewrite zip_enc_pick, zip_dec_pick, !xor_block_spec; try done; try congruence.
Qed.

Lemma chunk_pick k c inp :
  good c -> length inp = (16 * k)%nat ->
  enc_chunk cipher size_t k c inp = gen_chunk enc_pick k c inp /\ dec_chunk cipher size_t k c inp = gen_chunk dec_pick k c inp.
Proof.
  intros Hg Hl. unfold enc_chunk, dec_chunk, gen_chunk. change (hash_run size_t k c inp) with (set_Xi (gcm_ghash_4bit size_t k (Xi c) (Htable c) inp) c). rewrite ctr_run_frame.
  pose proof (ctr_run_good k c inp Hg ltac:(lia)) as Hr. destruct (ctr_run cipher size_t k c inp) as [o c'].
  destruct Hr as (_ & EX & ET & Lo). rewrite zip_enc_pick, zip_dec_pick by lia. split; [done|]. unfold hash_run. by rewrite EX, ET.
Qed.

(** *** What the stream computes *)

Lemma ctr32_add32 iv i : counter iv -> ctr32_of (add32 iv i) = (ctr32_of iv + Z.of_nat i) mod 2 ^ 32.
Proof.
  intros Hc. destruct (ctr32_of_value _ (counter_add32 iv i Hc)) as [E _]. revert E. unfold add32 at 1 2.
  rewrite take_app_length' by (rewrite length_take; destruct Hc; lia).
  rewrite be_value_app, be_value_be_bytes, zlen_be_bytes. change (256 ^ Z.of_nat 4) with (2 ^ 32). change (8 * Z.of_nat 4) with 32. lia.
Qed.

(** The counter in [Yi] moves on. *)
Lemma put_ctr_add iv i k : counter iv -> put_ctr (add32 iv i) (u32 (ctr32_of (add32 iv i) + Z.of_nat k)) = add32 iv (i + k).
Proof.
  intros Hc. rewrite ctr32_add32 by done. unfold put_ctr. rewrite PUTU32_be. unfold add32 at 1.
  rewrite take_app_length' by (rewrite length_take; destruct Hc; lia). unfold add32. f_equal. apply be_bytes_mod.
  change (8 * Z.of_nat 4) with 32. unfold wrapU. rewrite Z.mod_mod, Z.add_mod_idemp_l by lia. f_equal. lia.
Qed.

Lemma add32_add iv i j : counter iv -> add32 (add32 iv i) j = add32 iv (i + j).
Proof.
  intros Hc. unfold add32 at 1. rewrite ctr32_add32 by done. unfold add32 at 1.
  rewrite take_app_length' by (rewrite length_take; destruct Hc; lia). unfold add32. f_equal. apply be_bytes_mod.
  change (8 * Z.of_nat 4) with 32. rewrite Z.add_mod_idemp_l by lia. f_equal. lia.
Qed.

Lemma gctr_cons icb p b l : gctr_from cipher icb p (b :: l) = Z.lxor b (ks cipher icb p) :: gctr_from cipher icb (S p) l.
Proof.
  unfold gctr_from. cbn [imap]. rewrite Nat.add_0_r. f_equal. apply imap_ext. intros i x _. simpl. by rewrite Nat.add_succ_r.
Qed.

Lemma length_gctr icb p l : length (gctr_from cipher icb p l) = length l.
Proof. apply length_imap. Qed.

Lemma gctr_app icb p a b : gctr_from cipher icb p (a ++ b) = gctr_from cipher icb p a ++ gctr_from cipher icb (p + length a) b.
Proof.
  revert p. induction a as [|x a IH]; intros p; [by rewrite Nat.add_0_r|]. cbn [app length].
  rewrite !gctr_cons, IH. by rewrite Nat.add_succ_l, Nat.add_succ_r.
Qed.

(** The stream twice is nothing. *)
Lemma gctr_twice icb p l : gctr_from cipher icb p (gctr_from cipher icb p l) = l.
Proof.
  revert p. induction l as [|x l IH]; intros p; [done|]. rewrite !gctr_cons, IH. f_equal.
  by rewrite Z.lxor_assoc, Z.lxor_nilpotent, Z.lxor_0_r.
Qed.

Lemma gctr_bytes icb p l : block16 icb -> Forall is_byte l -> Forall is_byte (gctr_from cipher icb p l).
Proof.
  intros Hi. revert p. induction l as [|x l IH]; intros p Hl; [done|]. apply Forall_cons in Hl as [Hx Hl]. rewrite gctr_cons.
  constructor; [|by apply IH]. apply is_u_lxor; [done..|]. apply at16_bytes. by apply cipher_block, counter_add32.
Qed.

(** The counter and the key stream after [p] bytes from [icb]. *)
Definition at_pos (icb : list Z) (p : nat) (c : GCM128_CONTEXT) : Prop :=
  Yi c = add32 icb ((p + 15) / 16) /\ length (EKi c) = 16%nat /\ ((p mod 16)%nat <> 0%nat -> EKi c = cipher (add32 icb (p / 16))).

(** What a stream leaves alone. *)
Definition frame (c c' : GCM128_CONTEXT) : Prop :=
  EK0 c' = EK0 c /\ alen c' = alen c /\ mlen c' = mlen c /\ Htable c' = Htable c /\ ares c' = ares c.

Lemma at_pos_refill icb p c :
  block16 icb -> at_pos icb p c -> (p mod 16)%nat = 0%nat ->
  Yi (refill c) = add32 icb ((S p + 15) / 16) /\ EKi (refill c) = cipher (add32 icb (p / 16)).
Proof.
  intros Hi (HY & _ & _) Hp. simpl. rewrite HY. replace ((p + 15) / 16)%nat with (p / 16)%nat by lia.
  split; [|done]. rewrite (put_ctr_add _ _ 1) by done. f_equal. lia.
Qed.

(** One byte. *)
Lemma byte_pos pick icb p c b :
  block16 icb -> at_pos icb p c -> block16 (Xi c) -> Htable c = T ->
  let y := Z.lxor b (ks cipher icb p) in is_byte (pick b y) ->
  let '(y', c') := with_mul size_t (gen_byte pick) (if (p mod 16 =? 0)%nat then refill c else c) (p mod 16) b in
  y' = y /\ at_pos icb (S p) c' /\ frame c c' /\ block16 (Xi c') /\
  Xi c' = (let x := absorb (Xi c) (p mod 16) (pick b y) in if ((p mod 16 + 1) mod 16 =? 0)%nat then bmul x H else x).
Proof.
  intros Hi Hp HX HT y Hy. set (c0 := if (p mod 16 =? 0)%nat then refill c else c).
  assert (P : Yi c0 = add32 icb ((S p + 15) / 16) /\ EKi c0 = cipher (add32 icb (p / 16)) /\ Xi c0 = Xi c /\ frame c c0).
  { unfold c0. destruct (Nat.eqb_spec (p mod 16) 0) as [E|E].
    - destruct (at_pos_refill icb p c Hi Hp E) as [-> ->]. done.
    - destruct Hp as (HY & _ & HE). rewrite HY, (HE E). replace ((p + 15) / 16)%nat with ((S p + 15) / 16)%nat by lia. done. }
  clearbody c0. destruct P as (PY & PE & PX & PF).
  assert (LE : length (EKi c0) = 16%nat) by (rewrite PE; by apply cipher_block, counter_add32).
  assert (BA : block16 (absorb (Xi c0) (p mod 16) (pick b y))) by (rewrite PX; by apply block16_absorb).
  assert (PT : Htable c0 = T) by (destruct PF as (_ & _ & _ & -> & _); done).
  unfold with_mul, gen_byte. rewrite PE. fold (ks cipher icb p). fold y. cbv zeta. split; [done|].
  assert (HP : at_pos icb (S p) (set_Xi (absorb (Xi c0) (p mod 16) (pick b y)) c0)).
  { split; [done|]. split; [done|]. intros Hs. cbn [EKi set_Xi]. rewrite PE. do 2 f_equal. lia. }
  destruct ((p mod 16 + 1) mod 16 =? 0)%nat; [|by rewrite PX in *].
  split; [done|]. split; [done|]. unfold mul_Xi. cbn [set_Xi Xi Htable]. rewrite PT, MUL_bmul, PX by done. split; [apply block16_bmul|done].
Qed.

(** What is known before position [p], and what the bytes [inp] from there
    on do. *)
Definition ready (icb : list Z) (p : nat) (c : GCM128_CONTEXT) : Prop := at_pos icb p c /\ block16 (Xi c) /\ Htable c = T.

Definition ran (pick : Z -> Z -> Z) (icb : list Z) (p : nat) (c : GCM128_CONTEXT) (inp out : list Z) (c' : GCM128_CONTEXT) : Prop :=
  out = gctr_from cipher icb p inp /\ ready icb (p + length inp) c' /\ frame c c' /\
  Xi c' = fst (soak H (Xi c) (p mod 16) (zip_with pick inp out)).

Lemma ran_nil pick icb p c : ready icb p c -> ran pick icb p c [] [] c.
Proof. intros Hr. split; [done|]. rewrite Nat.add_0_r. done. Qed.

Lemma ran_app pick icb p c a b o1 c1 o2 c2 :
  ran pick icb p c a o1 c1 -> ran pick icb (p + length a) c1 b o2 c2 -> ran pick icb p c (a ++ b) (o1 ++ o2) c2.
Proof.
  intros (-> & R1 & F1 & X1) (-> & R2 & F2 & X2). split; [by rewrite gctr_app|]. rewrite length_app, Nat.add_assoc. split; [done|].
  split; [unfold frame in *; intuition congruence|]. rewrite zip_with_app by (by rewrite length_gctr). rewrite soak_app, X2, X1.
  pose proof (soak_index H (Xi c) (p mod 16) (zip_with pick a (gctr_from cipher icb p a)) ltac:(lia)) as Hs.
  destruct (soak H (Xi c) (p mod 16) (zip_with pick a _)) as [x m]. cbn [fst snd] in *. rewrite Hs, length_zip_with, length_gctr.
  do 2 f_equal. lia.
Qed.

Lemma ready_good icb p c : block16 icb -> ready icb p c -> good c.
Proof.
  intros Hi ((HY & HE & _) & [LX _] & _). split; [rewrite HY; by apply counter_add32|done].
Qed.

Section Runs.
Context (pick : Z -> Z -> Z) (pick_byte : forall a b, is_byte a -> is_byte b -> is_byte (pick a b)).
Context (cb : list Z) (cb_block : block16 cb).

Lemma stream_ran p c inp :
  Forall is_byte inp -> ready cb p c ->
  exists out c', stream pick c (p mod 16)%nat inp = (out, c', ((p + length inp) mod 16)%nat) /\ ran pick cb p c inp out c'.
Proof.
  revert p c. induction inp as [|b inp IH]; intros p c Hb Hr.
  - exists [], c. rewrite Nat.add_0_r. split; [done|by apply ran_nil].
  - apply Forall_cons in Hb as [Hb Hl]. cbn [stream_bytes]. destruct Hr as (Hp & HX & HT).
    assert (Hy : is_byte (Z.lxor b (ks cipher cb p))).
    { apply is_u_lxor; [done..|]. apply at16_bytes. by apply cipher_block, counter_add32. }
    pose proof (byte_pos pick cb p c b cb_block Hp HX HT (pick_byte _ _ Hb Hy)) as S1.
    destruct (with_mul size_t (gen_byte pick) _ (p mod 16) b) as [y c1].
    destruct S1 as (-> & P1 & F1 & B1 & E1).
    assert (T1 : Htable c1 = T) by (destruct F1 as (_ & _ & _ & -> & _); done).
    destruct (IH (S p) c1 Hl (conj P1 (conj B1 T1))) as (o & c2 & E2 & -> & R2 & F2 & X2).
    exists (Z.lxor b (ks cipher cb p) :: gctr_from cipher cb (S p) inp), c2.
    replace ((p mod 16 + 1) mod 16)%nat with (S p mod 16)%nat by lia. rewrite E2.
    cbn [length]. split; [by rewrite Nat.add_succ_r, <- Nat.add_succ_l|]. split; [by rewrite gctr_cons|]. cbn [length].
    rewrite Nat.add_succ_r, <- Nat.add_succ_l. split; [done|].
    split; [unfold frame in *; intuition congruence|]. rewrite X2, E1. cbn [zip_with soak].
    by replace ((p mod 16 + 1) mod 16)%nat with (S p mod 16)%nat by lia.
Qed.

(** What a run of whole blocks has to do, and what the rest of a call. *)
Definition chunk_spec (chunk : nat -> GCM128_CONTEXT -> list Z -> list Z * GCM128_CONTEXT) : Prop :=
  forall p k c inp, (p mod 16)%nat = 0%nat -> length inp = (16 * k)%nat -> Forall is_byte inp -> ready cb p c ->
  let '(out, c') := chunk k c inp in ran pick cb p c inp out c'.

Definition run_spec (run : GCM128_CONTEXT -> nat -> list Z -> list Z * GCM128_CONTEXT * nat) : Prop :=
  forall p c inp, (p mod 16)%nat = 0%nat -> Forall is_byte inp -> ready cb p c ->
  let '(out, c', m) := run c 0%nat inp in ran pick cb p c inp out c' /\ m = ((p + length inp) mod 16)%nat.

Lemma stream_run : run_spec (stream pick).
Proof.
  intros p c inp Hp Hb Hr. destruct (stream_ran p c inp Hb Hr) as (o & c' & E & R). rewrite Hp in E. by rewrite E.
Qed.

Lemma chunk_end_run chunk : chunk_spec chunk -> run_spec (chunk_end cipher chunk (gen_byte pick)).
Proof.
  intros Hch p c inp Hp Hb Hr. unfold chunk_end. set (k := (length inp / 16)%nat).
  assert (Hk16 : (16 * k <= length inp /\ length inp < 16 * k + 16)%nat) by (unfold k; lia).
  assert (Lt : length (take (16 * k) inp) = (16 * k)%nat) by (rewrite length_take; lia).
  assert (Hk : let '(out, c1) := if (0 <? k)%nat then chunk k c (take (16 * k) inp) else ([], c) in
               ran pick cb p c (take (16 * k) inp) out c1).
  { destruct (Nat.ltb_spec 0 k); [apply Hch; [done|done|by apply Forall_take|done]|].
    replace k with 0%nat by lia. by apply ran_nil. }
  destruct (if (0 <? k)%nat then _ else _) as [out c1].
  assert (Lr : (length (drop (16 * k) inp) < 16)%nat) by (rewrite length_drop; lia).
  destruct (Nat.ltb_spec 0 (length (drop (16 * k) inp))) as [H0|H0].
  - destruct Hk as (Eo & R1 & F1 & X1). assert (Hk : ran pick cb p c (take (16 * k) inp) out c1) by done. rewrite Lt in R1.
    pose proof (stream_run (p + 16 * k)%nat c1 (drop (16 * k) inp) ltac:(lia) ltac:(by apply Forall_drop) R1) as S2.
    cbv beta in S2. rewrite <- (stream_tail_refill _ _ (gen_words pick) c1) in S2 by lia. rewrite tail_with_mul in S2 by lia.
    destruct (stream_tail (gen_byte pick) (refill c1) 0 (drop (16 * k) inp)) as [[o c2] m].
    destruct (Nat.eqb_spec (0 + length (drop (16 * k) inp)) 16); [lia|]. rewrite andb_false_r in S2. destruct S2 as [S2 ->].
    split; [|rewrite length_drop; f_equal; lia]. rewrite <- (take_drop (16 * k) inp). eapply ran_app; [done|by rewrite Lt].
  - assert (length inp = (16 * k)%nat) as El by (rewrite length_drop in H0; lia). rewrite take_ge in Hk by lia.
    split; [done|]. rewrite El. lia.
Qed.

Lemma chunk_loop_run chunk fuel p c inp :
  chunk_spec chunk -> (p mod 16)%nat = 0%nat -> Forall is_byte inp -> ready cb p c -> (length inp < fuel)%nat ->
  let '(out, c', m) := chunk_loop cipher chunk (gen_byte pick) fuel c 0 inp in
  ran pick cb p c inp out c' /\ m = ((p + length inp) mod 16)%nat.
Proof.
  intros Hch. revert p c inp. induction fuel as [|fuel IH]; intros p c inp Hp Hb Hr Hf; [lia|]. cbn [chunk_loop].
  destruct (Nat.leb_spec GHASH_CHUNK (length inp)) as [Hc|Hc]; [|by apply chunk_end_run].
  assert (HC : GHASH_CHUNK = (16 * 192)%nat) by done. replace (GHASH_CHUNK / 16)%nat with 192%nat by (rewrite HC; lia).
  pose proof (Hch p 192%nat c (take GHASH_CHUNK inp) Hp ltac:(rewrite length_take; lia) ltac:(by apply Forall_take) Hr) as R1.
  destruct (chunk 192%nat c (take GHASH_CHUNK inp)) as [o1 c1].
  assert (Lt : length (take GHASH_CHUNK inp) = GHASH_CHUNK) by (rewrite length_take; lia).
  specialize (IH (p + GHASH_CHUNK)%nat c1 (drop GHASH_CHUNK inp)).
  destruct (chunk_loop cipher chunk (gen_byte pick) fuel c1 0 (drop GHASH_CHUNK inp)) as [[o2 c2] m].
  destruct IH as [R2 ->]; [lia|by apply Forall_drop| |rewrite length_drop; lia|].
  { destruct R1 as (_ & R1 & _). by rewrite Lt in R1. }
  split; [|rewrite length_drop; f_equal; lia]. rewrite <- (take_drop GHASH_CHUNK inp). eapply ran_app; [done|by rewrite Lt].
Qed.

(** The three ways. *)
Lemma block_run_ok chunk words strict :
  (forall c inp, good c -> length inp = 16%nat -> words c inp = gen_words pick c inp) ->
  (forall k c inp, good c -> length inp = (16 * k)%nat -> chunk k c inp = gen_chunk pick k c inp) ->
  run_spec (block_run cipher size_t ghash chunk (gen_byte pick) words strict).
Proof.
  intros Hw Hc p c inp Hp Hb Hr. pose proof (ready_good cb p c cb_block Hr) as Hg. unfold block_run.
  destruct strict; [by apply stream_run|]. destruct ghash.
  - apply chunk_loop_run; [|done..|lia]. clear p c inp Hp Hb Hr Hg. intros p k c inp Hp Hl Hb Hr.
    pose proof (ready_good cb p c cb_block Hr) as Hg. rewrite Hc by done. pose proof (chunk_stream pick k c inp Hg Hl) as Hk.
    destruct (gen_chunk pick k c inp) as [o c']. destruct Hk as [E _]. pose proof (stream_run p c inp Hp Hb Hr) as S.
    cbv beta in S. rewrite E in S. apply S.
  - rewrite (blocks_stream pick) by done. by apply stream_run.
Qed.
End Runs.

(** *** The initial counter and the tag *)

Lemma blocks_of_app a b k : length a = (16 * k)%nat -> blocks_of (a ++ b) = blocks_of a ++ blocks_of b.
Proof.
  revert a. induction k as [|k IH]; intros a Ha; [by destruct a|].
  assert (S1 : forall l, (16 <= length l)%nat -> blocks_of l = take 16 l :: blocks_of (drop 16 l)).
  { intros l Hl. unfold blocks_of. rewrite length_drop. replace (length l / 16)%nat with (S ((length l - 16) / 16)) by lia.
    apply whole_blocks_S. }
  rewrite (S1 (a ++ b)), (S1 a) by (rewrite ?length_app; lia). rewrite take_app_le, drop_app_le by lia.
  rewrite IH by (rewrite length_drop; lia). done.
Qed.

Lemma blocks_of_one b : length b = 16%nat -> blocks_of b = [b].
Proof. intros Hb. unfold blocks_of. rewrite Hb. change (16 / 16)%nat with 1%nat. unfold whole_blocks. simpl. by rewrite drop_0, take_ge by lia. Qed.

Lemma GHASH_pad x l rest :
  length x = 16%nat -> GHASH H x (blocks_of (pad16 l ++ rest)) = GHASH H (settle H (soak H x 0 l)) (blocks_of rest).
Proof.
  intros Hx. destruct (length_pad16 l) as [k Hk]. rewrite (blocks_of_app _ _ k Hk), settle_pad by done. apply foldl_app.
Qed.

Lemma GHASH_last x b : length b = 16%nat -> GHASH H x (blocks_of b) = bmul (xor_list x b) H.
Proof. intros Hb. by rewrite blocks_of_one. Qed.

Lemma block16_settle s : block16 (fst s) -> block16 (settle H s).
Proof. intros Hs. unfold settle. case_match; [done|apply block16_bmul]. Qed.

Lemma settled x l : block16 x -> Forall is_byte l -> block16 (settle H (soak H x 0 l)).
Proof. intros Hx Hl. by apply block16_settle, block16_soak. Qed.

Lemma setiv_loop_ok fuel y iv :
  block16 y -> Forall is_byte iv -> (length iv < fuel)%nat -> setiv_loop size_t fuel T y iv = settle H (soak H y 0 iv).
Proof.
  revert y iv. induction fuel as [|fuel IH]; intros y iv Hy Hb Hf; [lia|]. cbn [setiv_loop].
  destruct (Nat.leb_spec 16 (length iv)) as [H16|H16].
  - assert (Ht : block16 (take 16 iv)) by (split; [rewrite length_take; lia|by apply Forall_take]).
    rewrite xor_front_whole by (destruct Ht, Hy; lia). rewrite MUL_bmul by (by apply block16_xor).
    rewrite IH by (apply block16_bmul || (by apply Forall_drop) || rewrite length_drop; lia).
    rewrite <- (f_equal (soak H y 0) (take_drop 16 iv)), soak_app, (soak_block H y (take 16 iv)) by (apply Ht || apply Hy). done.
  - rewrite soak_inside by (apply Hy || lia). unfold settle. cbn [fst snd Nat.add]. rewrite xor_at_front.
    destruct (Nat.ltb_spec 0 (length iv)).
    + destruct (Nat.eqb_spec (length iv) 0); [lia|]. rewrite MUL_bmul; [done|]. rewrite <- xor_at_front. by apply block16_xor_at; [..|lia].
    + by destruct iv; [|simpl in *; lia].
Qed.

Lemma xor_low x l : length x = 16%nat -> length l = 8%nat -> take 8 x ++ xor_list (drop 8 x) l = xor_list x (replicate 8 0 ++ l).
Proof.
  intros Hx Hl. rewrite <- (take_drop 8 x) at 3. unfold xor_list. rewrite zip_with_app by (rewrite length_take, length_replicate; lia).
  f_equal. assert (E : length (take 8 x) = 8%nat) by (rewrite length_take; lia). revert E. generalize (take 8 x) as t. clear.
  intros t E. rewrite <- E. clear E. induction t as [|a t IH]; [done|]. cbn [length replicate zip_with]. by rewrite Z.lxor_0_r, <- IH.
Qed.

Lemma be8_bits (l : list Z) : be_bytes 8 (u64 (Z.shiftl (zlen l) 3)) = be_bytes 8 (8 * zlen l).
Proof. apply be_bytes_mod. change (8 * Z.of_nat 8) with 64. unfold wrapU. rewrite Z.mod_mod, Z.shiftl_mul_pow2 by lia. f_equal. lia. Qed.

Lemma J0_block iv : Forall is_byte iv -> block16 (J0 cipher iv).
Proof.
  intros Hb. unfold J0. destruct (Nat.eqb_spec (length iv) 12) as [E|E].
  - split; [rewrite length_app, E; done|]. apply Forall_app. split; [done|]. by repeat constructor.
  - rewrite GHASH_pad by done. rewrite GHASH_last by (rewrite length_app, length_replicate, length_be_bytes; done). apply block16_bmul.
Qed.

Lemma setiv_ok c iv :
  Htable c = T -> Forall is_byte iv ->
  CRYPTO_gcm128_setiv cipher size_t c iv =
    mkGcm (add32 (J0 cipher iv) 1) (EKi c) (cipher (J0 cipher iv)) 0 0 zero16 (Htable c) 0 0.
Proof.
  intros HT Hb. unfold CRYPTO_gcm128_setiv.
  match goal with |- (let '(y, ctr) := ?p in _) = _ => assert (E : p = (J0 cipher iv, ctr32_of (J0 cipher iv))) end.
  { unfold J0. destruct (Nat.eqb_spec (length iv) 12) as [L|L].
    - do 12 (destruct iv as [|? iv]; [discriminate L|]). destruct iv; [done|discriminate L].
    - cbv zeta. rewrite HT, setiv_loop_ok by (apply block16_zero || done || lia).
      pose proof (settled zero16 iv block16_zero Hb) as Hs. rewrite be8_bits, xor_low by (apply Hs || apply length_be_bytes).
      rewrite GHASH_pad, GHASH_last by (rewrite ?length_app, ?length_replicate, ?length_be_bytes; done).
      rewrite MUL_bmul; [done|]. apply block16_xor; [done|]. split; [by rewrite length_app, length_replicate, length_be_bytes|].
      apply Forall_app. split; [by apply Forall_replicate|apply be_bytes_bytes]. }
  rewrite E. f_equal. pose proof (J0_block iv Hb) as HJ. unfold put_ctr, add32. rewrite PUTU32_be. f_equal. apply be_bytes_mod.
  change (8 * Z.of_nat 4) with 32. unfold wrapU. by rewrite Z.mod_mod by lia.
Qed.

(** *** The invariant of a context

    [A] has been authenticated and [C] is the ciphertext so far; [begun]
    says whether a call for the message has come. *)
Abbreviation icb := (fun iv => add32 (J0 cipher iv) 1).
Abbreviation hashA := (fun A => settle H (soak H zero16 0 A)).

Record gcm_at (begun : bool) (c : GCM128_CONTEXT) (iv A C : list Z) : Prop := {
  ga_bytes : Forall is_byte iv /\ Forall is_byte A /\ Forall is_byte C;
  ga_table : Htable c = T;
  ga_EK0 : EK0 c = cipher (J0 cipher iv);
  ga_len : alen c = zlen A /\ mlen c = zlen C;
  ga_mres : mres c = (length C mod 16)%nat;
  ga_pos : at_pos (icb iv) (length C) c;
  ga_hash : if begun then ares c = 0%nat /\ Xi c = fst (soak H (hashA A) 0 C)
            else C = [] /\ (Xi c, ares c) = soak H zero16 0 A;
}.

Lemma icb_block iv : Forall is_byte iv -> block16 (icb iv).
Proof. intros Hb. by apply counter_add32, J0_block. Qed.

Lemma at_Xi b c iv A C : gcm_at b c iv A C -> block16 (Xi c).
Proof.
  intros [(_ & BA & BC) _ _ _ _ _ Hh]. destruct b; destruct Hh as [_ E].
  - rewrite E. by apply block16_soak; [apply settled; [apply block16_zero|]|].
  - pose proof (block16_soak H zero16 0 A block16_zero BA) as Hs. by rewrite <- E in Hs.
Qed.

Lemma at_good b c iv A C : gcm_at b c iv A C -> good c.
Proof.
  intros G. pose proof (at_Xi _ _ _ _ _ G) as [LX _]. destruct G as [(Bi & _) _ _ _ _ (HY & LE & _) _]. split; [|done].
  rewrite HY. by apply counter_add32, icb_block.
Qed.

Lemma setiv_at c iv :
  Htable c = T -> length (EKi c) = 16%nat -> Forall is_byte iv -> gcm_at false (CRYPTO_gcm128_setiv cipher size_t c iv) iv [] [].
Proof.
  intros HT HE Hb. rewrite setiv_ok by done. constructor; try done. split; [|done]. cbn [Yi length].
  change ((0 + 15) / 16)%nat with 0%nat. pose proof (icb_block iv Hb) as Hi. unfold add32 at 2.
  rewrite <- (take_drop 12 (icb iv)) at 1. f_equal. destruct (ctr32_of_value _ Hi) as [E _].
  destruct Hi as [Li Bi]. rewrite <- (be_bytes_be_value (drop 12 (icb iv))) by (by apply Forall_drop).
  rewrite length_drop, Li. f_equal. rewrite <- (take_drop 12 (icb iv)) in E at 1. rewrite be_value_app in E.
  unfold zlen in E. rewrite length_drop, Li in E. change (256 ^ Z.of_nat (16 - 12)) with (2 ^ 32) in E. lia.
Qed.

Lemma aad_at c iv A l :
  gcm_at false c iv A [] -> Forall is_byte l -> zlen A + zlen l <= 2 ^ 61 ->
  exists c', CRYPTO_gcm128_aad size_t ghash c l = (true, c') /\ gcm_at false c' iv (A ++ l) [].
Proof.
  intros G Hl Hm. pose proof (at_Xi _ _ _ _ _ G) as HX. destruct G as [(Bi & BA & BC) HT HE [Ha Hml] Hr Hp [_ Hh]].
  pose proof (zlen_nonneg A) as HA0. assert (Hn : (ares c < 16)%nat).
  { pose proof (soak_index H zero16 0 A ltac:(lia)) as Hs. rewrite <- Hh in Hs. cbn [snd] in Hs. lia. }
  rewrite aad_ok by (done || lia). eexists. split; [done|]. constructor; try done.
  - by rewrite Forall_app.
  - cbn [alen mlen set_ares set_Xi set_alen]. rewrite zlen_app. lia.
  - split; [done|]. cbn [Xi ares set_ares set_Xi]. rewrite soak_app, <- Hh. by destruct (soak H (Xi c) (ares c) l).
Qed.

(** After [prepared] the hash state is that of the message. *)
Lemma prepared_at b c iv A C l :
  gcm_at b c iv A C ->
  let c' := prepared c l in
  at_pos (icb iv) (length C) c' /\ block16 (Xi c') /\ Xi c' = fst (soak H (hashA A) 0 C) /\ ares c' = 0%nat /\
  Htable c' = T /\ EK0 c' = EK0 c /\ alen c' = alen c /\ mlen c' = mlen c + zlen l.
Proof.
  intros G. pose proof (at_Xi _ _ _ _ _ G) as HX. destruct G as [(Bi & BA & BC) HT HE [Ha Hml] Hr Hp Hh]. unfold prepared.
  cbn [set_mlen ares]. destruct b.
  - destruct Hh as [Er EX]. rewrite Er. done.
  - destruct Hh as [-> EX]. cbn [soak fst]. unfold settle. rewrite <- EX. cbn [fst snd].
    destruct (Nat.eqb_spec (ares c) 0) as [E|E]; [done|]. unfold mul_Xi. cbn [set_ares set_Xi Xi Htable set_mlen ares alen mlen EK0].
    rewrite HT, MUL_bmul by done. split; [done|]. split; [apply block16_bmul|done].
Qed.

(** The block begun before and any [run] that does its part. *)
Lemma body_ran pick run cb p c inp :
  (forall a b, is_byte a -> is_byte b -> is_byte (pick a b)) -> block16 cb -> run_spec pick cb run ->
  Forall is_byte inp -> ready cb p c -> mres c = (p mod 16)%nat ->
  exists out c', crypt_body size_t (gen_byte pick) run c inp = (out, c', ((p + length inp) mod 16)%nat) /\ ran pick cb p c inp out c'.
Proof.
  intros Hpick Hi Hrun Hl R0 Hr. unfold crypt_body. rewrite Hr.
  pose proof (head_stream pick c (p mod 16) inp (ready_good cb p c Hi R0) ltac:(lia)) as Hh.
  destruct (stream_head (gen_byte pick) c (p mod 16) inp) as [[[o rest] c1] m].
  destruct Hh as (Hrest & Hm0 & hd & -> & Es). apply Forall_app in Hl as [Hl1 Hl2].
  destruct (stream_ran pick Hpick cb Hi p c hd Hl1 R0) as (o1 & c1' & E1 & R1).
  rewrite Es in E1. injection E1 as -> <- ->. destruct (Nat.eqb_spec ((p + length hd) mod 16) 0) as [Z|Z].
  - rewrite andb_false_r. pose proof (Hrun (p + length hd)%nat _ rest Z Hl2 (proj1 (proj2 R1))) as R2. rewrite Z.
    destruct (run _ 0%nat rest) as [[o2 c2] m2]. destruct R2 as [R2 ->].
    exists (o1 ++ o2), c2. rewrite length_app, Nat.add_assoc. split; [done|]. by eapply ran_app.
  - destruct (Nat.eqb_spec (p mod 16) 0) as [Z0|Z0]; [by apply Hm0 in Z0|]. cbn [negb andb]. destruct Hrest as [->|]; [|done].
    rewrite app_nil_r. by exists o1, c1.
Qed.

Lemma crypt_at pick run b c iv A C inp :
  (forall a b, is_byte a -> is_byte b -> is_byte (pick a b)) -> run_spec pick (icb iv) run ->
  gcm_at b c iv A C -> Forall is_byte inp -> zlen C + zlen inp <= 2 ^ 36 - 32 ->
  let out := gctr_from cipher (icb iv) (length C) inp in
  exists c', gcm_crypt size_t (gen_byte pick) run c inp = (true, out, c') /\ gcm_at true c' iv A (C ++ zip_with pick inp out).
Proof.
  intros Hpick Hrun G Hl Hmax out. destruct (prepared_at b c iv A C inp G) as (P & BX & EX & Er & ET & E0 & Ea & Em).
  destruct G as [(Bi & BA & BC) HT HE [Ha Hml] Hr _ _]. pose proof (icb_block iv Bi) as Hi.
  assert (Er' : mres (prepared c inp) = mres c) by (unfold prepared; by destruct (ares _ =? 0)%nat). rewrite Hr in Er'.
  destruct (body_ran pick run (icb iv) (length C) (prepared c inp) inp Hpick Hi Hrun Hl (conj P (conj BX ET)) Er')
    as (o & c2 & EQ & -> & (P' & B' & T') & (F1 & F2 & F3 & F4 & F5) & X'). fold out in X', EQ.
  exists (set_mres ((length C + length inp) mod 16) c2). split.
  - pose proof (zlen_nonneg inp) as Hin. pose proof (zlen_nonneg C) as HC0.
    unfold gcm_crypt. rewrite Hml, wrapU_id by (unfold is_u; lia). change (Z.shiftl 1 36) with (2 ^ 36). rewrite Z.gtb_ltb.
    destruct (Z.ltb_spec (2 ^ 36 - 32) (zlen C + zlen inp)); [lia|]. destruct (Z.ltb_spec (zlen C + zlen inp) (zlen inp)); [lia|].
    rewrite andb_false_r. cbn [orb]. cbv zeta. rewrite <- Hml. fold (prepared c inp). by rewrite EQ.
  - assert (Lz : length (zip_with pick inp out) = length inp) by (unfold out; rewrite length_zip_with, length_gctr; lia).
    assert (Bz : Forall is_byte (zip_with pick inp out)).
    { apply Forall_lookup. intros i z Hz. apply lookup_zip_with_Some in Hz as (x & y & -> & Hx & Hy).
      apply Hpick; [by eapply Forall_lookup_1|]. by eapply Forall_lookup_1, Hy; apply gctr_bytes. }
    constructor; cbn [set_mres Htable EK0 alen mlen mres ares Xi]; try congruence.
    + by rewrite Forall_app.
    + rewrite F2, F3, Em, Ea, Ha, Hml, zlen_app. split; [done|]. unfold zlen. by rewrite Lz.
    + by rewrite length_app, Lz.
    + by rewrite length_app, Lz.
    + split; [congruence|]. rewrite X', EX, soak_app. pose proof (soak_index H (hashA A) 0 C ltac:(lia)) as Hs.
      destruct (soak H (hashA A) 0 C) as [x m]. cbn [fst snd] in *. by rewrite Hs.
Qed.

(** What every way of encrypting and of decrypting has in common. *)
Definition encrypts (call : GCM128_CONTEXT -> list Z -> bool * list Z * GCM128_CONTEXT) : Prop :=
  forall b c iv A C inp, gcm_at b c iv A C -> Forall is_byte inp -> zlen C + zlen inp <= 2 ^ 36 - 32 ->
  let out := gctr_from cipher (icb iv) (length C) inp in exists c', call c inp = (true, out, c') /\ gcm_at true c' iv A (C ++ out).
Definition decrypts (call : GCM128_CONTEXT -> list Z -> bool * list Z * GCM128_CONTEXT) : Prop :=
  forall b c iv A C inp, gcm_at b c iv A C -> Forall is_byte inp -> zlen C + zlen inp <= 2 ^ 36 - 32 ->
  let out := gctr_from cipher (icb iv) (length C) inp in exists c', call c inp = (true, out, c') /\ gcm_at true c' iv A (C ++ inp).

Lemma encrypts_run run : (forall cb, block16 cb -> run_spec enc_pick cb run) -> encrypts (gcm_crypt size_t enc_byte run).
Proof.
  intros Hrun b c iv A C inp G Hl Hm out. pose proof (icb_block iv (proj1 (ga_bytes _ _ _ _ _ G))) as Hi.
  destruct (crypt_at enc_pick run b c iv A C inp ltac:(done) (Hrun _ Hi) G Hl Hm) as (c' & E & G'). exists c'. split; [done|].
  by rewrite zip_enc_pick in G' by (by rewrite length_gctr).
Qed.
Lemma decrypts_run run : (forall cb, block16 cb -> run_spec dec_pick cb run) -> decrypts (gcm_crypt size_t dec_byte run).
Proof.
  intros Hrun b c iv A C inp G Hl Hm out. pose proof (icb_block iv (proj1 (ga_bytes _ _ _ _ _ G))) as Hi.
  destruct (crypt_at dec_pick run b c iv A C inp ltac:(done) (Hrun _ Hi) G Hl Hm) as (c' & E & G'). exists c'. split; [done|].
  by rewrite zip_dec_pick in G' by (by rewrite length_gctr).
Qed.

Lemma encrypt_ok strict : encrypts (CRYPTO_gcm128_encrypt cipher size_t ghash strict).
Proof. apply encrypts_run. intros cb Hcb. apply block_run_ok; try done; intros; by apply words_pick || by apply chunk_pick. Qed.
Lemma decrypt_ok strict : decrypts (CRYPTO_gcm128_decrypt cipher size_t ghash strict).
Proof. apply decrypts_run. intros cb Hcb. apply block_run_ok; try done; intros; by apply words_pick || by apply chunk_pick. Qed.

Lemma finish_at b c iv A C : gcm_at b c iv A C -> Xi (finish_Xi size_t c) = nist_tag cipher iv A C.
Proof.
  intros G. pose proof (at_Xi _ _ _ _ _ G) as HX. destruct G as [(Bi & BA & BC) HT HE [Ha Hm] Hr _ Hh].
  unfold finish_Xi, nist_tag. rewrite Ha, Hm.
  set (c1 := if negb (mres c =? 0)%nat || negb (ares c =? 0)%nat then mul_Xi size_t c else c).
  assert (E1 : Xi c1 = settle H (soak H (hashA A) 0 C) /\ Htable c1 = T /\ EK0 c1 = cipher (J0 cipher iv)).
  { assert (D : Xi c1 = if negb (mres c =? 0)%nat || negb (ares c =? 0)%nat then bmul (Xi c) H else Xi c).
    { unfold c1. destruct (_ || _); [|done]. unfold mul_Xi. cbn [set_Xi Xi]. by rewrite HT, MUL_bmul. }
    split; [|unfold c1; clear D; destruct (_ || _); [split; [exact HT|exact HE]|done]]. rewrite D. destruct b; destruct Hh as [Hz EX].
    - rewrite Hz, orb_false_r. pose proof (soak_index H (hashA A) 0 C ltac:(lia)) as Hs. unfold settle at 1. rewrite Hs, Hr, EX.
      change (0 + length C)%nat with (length C). by destruct (length C mod 16 =? 0)%nat.
    - subst C. rewrite Hr. cbn [soak length]. unfold settle at 1. cbn [fst snd Nat.eqb]. unfold settle. rewrite <- EX. cbn [fst snd].
      change (0 mod 16)%nat with 0%nat. cbn [Nat.eqb negb orb]. by destruct (ares c =? 0)%nat. }
  clearbody c1. destruct E1 as (EX & ET & E0). unfold mul_Xi. cbn [set_Xi Xi Htable set_mlen set_alen EK0].
  assert (LA : block16 (hashA A)) by (apply settled; [apply block16_zero|done]).
  rewrite E0, ET, EX, !be8_bits, MUL_bmul.
  - rewrite GHASH_pad, GHASH_pad, GHASH_last; [done|by rewrite length_app, !length_be_bytes|apply LA|done].
  - apply block16_xor; [by apply settled|]. split; [by rewrite length_app, !length_be_bytes|].
    apply Forall_app. split; apply be_bytes_bytes.
Qed.

(** *** Many counters at once *)

Lemma gctr_block cb p b :
  block16 cb -> (p mod 16)%nat = 0%nat -> length b = 16%nat -> gctr_from cipher cb p b = xor_list b (cipher (add32 cb (p / 16))).
Proof.
  intros Hc Hp Hb. assert (Lk : length (cipher (add32 cb (p / 16))) = 16%nat) by (by apply cipher_block, counter_add32).
  apply list_eq. intros i. unfold gctr_from, xor_list. rewrite list_lookup_imap, lookup_zip_with.
  destruct (b !! i) as [x|] eqn:E; [|done]. simpl. pose proof (lookup_lt_Some _ _ _ E) as Hi.
  destruct (lookup_lt_is_Some_2 (cipher (add32 cb (p / 16))) i) as [y Hy]; [lia|]. rewrite Hy. simpl. f_equal.
  unfold ks, at16. replace ((p + i) / 16)%nat with (p / 16)%nat by lia. replace ((p + i) mod 16)%nat with i by lia. by rewrite Hy.
Qed.

Lemma gctr_blocks cb p k inp :
  block16 cb -> (p mod 16)%nat = 0%nat -> length inp = (16 * k)%nat ->
  mjoin ((fun i => xor_list (take 16 (drop (16 * i) inp)) (cipher (add32 cb (p / 16 + i)))) <$> seq 0 k) = gctr_from cipher cb p inp.
Proof.
  intros Hc. revert p inp. induction k as [|k IH]; intros p inp Hp Hl; [by destruct inp|].
  rewrite <- cons_seq, fmap_cons, <- fmap_S_seq, <- list_fmap_compose.
  transitivity (gctr_from cipher cb p (take 16 inp ++ drop 16 inp)); [|by rewrite take_drop].
  rewrite gctr_app, gctr_block by (done || rewrite length_take; lia).
  rewrite length_take, Nat.min_l by lia. rewrite <- (IH (p + 16)%nat) by (rewrite ?length_drop; lia).
  rewrite Nat.mul_0_r, drop_0, Nat.add_0_r. unfold mjoin at 1. cbn [list_join]. f_equal. unfold mjoin. f_equal.
  apply list_fmap_ext. intros i x _. unfold compose. rewrite drop_drop. f_equal; [do 2 f_equal; lia|]. do 2 f_equal. lia.
Qed.

Lemma mul_run_ghash k t x data :
  length x = 16%nat -> length data = (16 * k)%nat -> mul_run size_t k t x data = gcm_ghash_4bit size_t k x t data.
Proof.
  revert x data. induction k as [|k IH]; intros x data Hx Hl; [done|]. cbn [mul_run].
  assert (Lt : length (take 16 data) = 16%nat) by (rewrite length_take; lia).
  rewrite IH by (apply length_MUL || rewrite length_drop; lia). rewrite xor_front_whole by lia.
  rewrite <- (ghash_step k t x (take 16 data) (drop 16 data)) by done. by rewrite take_drop.
Qed.

Lemma bulk_hash_ok k c data :
  block16 (Xi c) -> Htable c = T -> Forall is_byte data -> length data = (16 * k)%nat ->
  bulk_hash size_t ghash k c data = set_Xi (fst (soak H (Xi c) 0 data)) c.
Proof.
  intros HX HT Hb Hl. unfold bulk_hash, hash_run. rewrite mul_run_ghash by (done || apply HX). rewrite HT, (soak_blocks H _ k) by (done || apply HX).
  rewrite ghash_ok by (done || apply H_block || lia). by destruct ghash.
Qed.

Section Bulk.
Context (func : list Z -> nat -> list Z -> list Z).
(** The bulk function: exclusive or with the encrypted counters, of which
    the last four bytes count. *)
Hypothesis func_spec : forall inp k iv, length inp = (16 * k)%nat ->
  func inp k iv = mjoin ((fun i => xor_list (take 16 (drop (16 * i) inp)) (cipher (add32 iv i))) <$> seq 0 k).

Lemma bulk_ctr_ok cb p k c inp :
  block16 cb -> (p mod 16)%nat = 0%nat -> length inp = (16 * k)%nat -> at_pos cb p c ->
  bulk_ctr func k c inp = (gctr_from cipher cb p inp, set_Yi (add32 cb ((p + 16 * k + 15) / 16)) c).
Proof.
  intros Hi Hp Hl (HY & HE & _). unfold bulk_ctr. replace ((p + 15) / 16)%nat with (p / 16)%nat in HY by lia.
  rewrite HY, func_spec, put_ctr_add by done. f_equal; [|do 2 f_equal; lia]. rewrite <- (gctr_blocks cb p k) by done. f_equal.
  apply list_fmap_ext. intros i x _. by rewrite add32_add.
Qed.

Lemma bulk_ran pick cb p k c inp out c' :
  (forall a b, is_byte a -> is_byte b -> is_byte (pick a b)) -> block16 cb -> (p mod 16)%nat = 0%nat -> length inp = (16 * k)%nat ->
  Forall is_byte inp -> ready cb p c -> out = gctr_from cipher cb p inp ->
  c' = set_Xi (fst (soak H (Xi c) 0 (zip_with pick inp out))) (set_Yi (add32 cb ((p + 16 * k + 15) / 16)) c) ->
  ran pick cb p c inp out c'.
Proof.
  intros Hpick Hi Hp Hl Hb ((_ & HE & _) & HX & HT) Eo ->. split; [done|]. rewrite Hp, Hl. split; [|done].
  split; [|split; [|done]].
  - split; [done|]. split; [done|]. intros Hn. exfalso. lia.
  - apply block16_soak; [done|]. apply Forall_lookup. intros i z Hz. apply lookup_zip_with_Some in Hz as (x & y & -> & Hx & Hy).
    subst out. apply Hpick; [by eapply Forall_lookup_1|]. by eapply Forall_lookup_1, Hy; apply gctr_bytes.
Qed.

Lemma enc_bulk_ok cb : block16 cb -> chunk_spec enc_pick cb (enc_bulk size_t ghash func).
Proof.
  intros Hi p k c inp Hp Hl Hb Hr. unfold enc_bulk. destruct Hr as (HP & HX & HT). rewrite (bulk_ctr_ok cb p) by done.
  assert (Lg : length (gctr_from cipher cb p inp) = length inp) by apply length_gctr.
  rewrite bulk_hash_ok by (done || (by apply gctr_bytes) || lia).
  apply (bulk_ran _ cb p k); try done. by rewrite zip_enc_pick.
Qed.

Lemma dec_bulk_ok cb : block16 cb -> chunk_spec dec_pick cb (dec_bulk size_t ghash func).
Proof.
  intros Hi p k c inp Hp Hl Hb Hr. unfold dec_bulk. destruct Hr as (HP & HX & HT).
  rewrite bulk_hash_ok by done. rewrite (bulk_ctr_ok cb p) by done.
  apply (bulk_ran _ cb p k); try done. by rewrite zip_dec_pick by (by rewrite length_gctr).
Qed.

Lemma bulk_run_ok pick cb chunk :
  (forall a b, is_byte a -> is_byte b -> is_byte (pick a b)) -> block16 cb -> chunk_spec pick cb chunk ->
  run_spec pick cb (bulk_run cipher ghash chunk (gen_byte pick)).
Proof.
  intros Hpick Hi Hch p c inp Hp Hb Hr. unfold bulk_run. destruct ghash; [|by apply chunk_end_run].
  apply chunk_loop_run; [done..|lia].
Qed.

Lemma encrypt_ctr32_ok : encrypts (CRYPTO_gcm128_encrypt_ctr32 cipher size_t ghash func).
Proof. apply encrypts_run. intros cb Hcb. apply bulk_run_ok; [done|done|by apply enc_bulk_ok]. Qed.
Lemma decrypt_ctr32_ok : decrypts (CRYPTO_gcm128_decrypt_ctr32 cipher size_t ghash func).
Proof. apply decrypts_run. intros cb Hcb. apply bulk_run_ok; [done|done|by apply dec_bulk_ok]. Qed.

Lemma encrypt_by_ok w : encrypts (encrypt_by cipher size_t ghash func w).
Proof. destruct w; [apply encrypt_ok|apply encrypt_ctr32_ok]. Qed.
Lemma decrypt_by_ok w : decrypts (decrypt_by cipher size_t ghash func w).
Proof. destruct w; [apply decrypt_ok|apply decrypt_ctr32_ok]. Qed.
End Bulk.

(** *** Whole messages

    Calls for the additional data, then calls for the message, each on any
    way; a call that fails ends the sequence. *)
Fixpoint aad_calls (c : GCM128_CONTEXT) (aads : list (list Z)) : bool * GCM128_CONTEXT :=
  match aads with
  | [] => (true, c)
  | l :: aads' => let '(ok, c) := CRYPTO_gcm128_aad size_t ghash c l in if ok then aad_calls c aads' else (false, c)
  end.

Fixpoint crypt_calls (call : way -> GCM128_CONTEXT -> list Z -> bool * list Z * GCM128_CONTEXT) (c : GCM128_CONTEXT)
    (pieces : list (way * list Z)) : bool * list Z * GCM128_CONTEXT :=
  match pieces with
  | [] => (true, [], c)
  | (w, l) :: pieces' =>
      let '(ok, o, c) := call w c l in
      if ok then let '(ok, o', c) := crypt_calls call c pieces' in (ok, o ++ o', c) else (false, o, c)
  end.

Definition gcm_message (call : way -> GCM128_CONTEXT -> list Z -> bool * list Z * GCM128_CONTEXT) (iv : list Z)
    (aads : list (list Z)) (pieces : list (way * list Z)) : bool * list Z * GCM128_CONTEXT :=
  let '(ok, c) := aad_calls (CRYPTO_gcm128_setiv cipher size_t (CRYPTO_gcm128_init cipher size_t) iv) aads in
  if ok then crypt_calls call c pieces else (false, [], c).

Abbreviation text pieces := (mjoin (A := Z) (M := list) (snd <$> pieces)).

Lemma aad_calls_at c iv A aads :
  gcm_at false c iv A [] -> Forall is_byte (mjoin aads) -> zlen A + zlen (mjoin aads) <= 2 ^ 61 ->
  exists c', aad_calls c aads = (true, c') /\ gcm_at false c' iv (A ++ mjoin aads) [].
Proof.
  revert c A. induction aads as [|l aads IH]; intros c A G Hl Hm; cbn [aad_calls].
  - exists c. by rewrite app_nil_r.
  - change (mjoin (l :: aads)) with (l ++ mjoin aads) in *. apply Forall_app in Hl as [Hl Hr]. rewrite zlen_app in Hm.
    pose proof (zlen_nonneg (mjoin aads)) as Hz.
    destruct (aad_at c iv A l G Hl) as (c1 & -> & G1); [lia|].
    destruct (IH c1 (A ++ l) G1 Hr) as (c' & E & G'); [rewrite zlen_app; lia|]. exists c'. split; [done|]. by rewrite app_assoc.
Qed.

(** Encryption and decryption in any number of calls. *)
Lemma calls_at (enc : bool) call c iv A C b pieces :
  (forall w, if enc then encrypts (call w) else decrypts (call w)) ->
  gcm_at b c iv A C -> Forall is_byte (text pieces) -> zlen C + zlen (text pieces) <= 2 ^ 36 - 32 ->
  let out := gctr_from cipher (icb iv) (length C) (text pieces) in
  exists b' c', crypt_calls call c pieces = (true, out, c') /\ gcm_at b' c' iv A (C ++ if enc then out else text pieces).
Proof.
  intros Hcall. revert b c C. induction pieces as [|[w l] pieces IH]; intros b c C G Hl Hm; cbn [crypt_calls].
  - exists b, c. split; [done|]. by destruct enc; rewrite app_nil_r.
  - change (text ((w, l) :: pieces)) with (l ++ text pieces) in *. apply Forall_app in Hl as [Hl Hr].
    rewrite zlen_app in Hm. pose proof (zlen_nonneg (text pieces)) as Hz. set (o := gctr_from cipher (icb iv) (length C) l).
    assert (Lo : length o = length l) by apply length_gctr.
    assert (Hc : exists c1, call w c l = (true, o, c1) /\ gcm_at true c1 iv A (C ++ if enc then o else l)).
    { specialize (Hcall w). destruct enc; apply (Hcall b); done || lia. }
    destruct Hc as (c1 & -> & G1). set (x := if enc then o else l) in *.
    assert (Lx : length x = length l) by (unfold x; by destruct enc).
    destruct (IH true c1 (C ++ x) G1 Hr) as (b' & c' & -> & G'); [rewrite zlen_app; unfold zlen in *; lia|].
    exists b', c'. rewrite length_app, Lx in *. rewrite gctr_app. split; [done|]. fold o. unfold x in G'. rewrite <- app_assoc in G'.
    by destruct enc.
Qed.

Lemma message_at (enc : bool) call iv aads pieces :
  (forall w, if enc then encrypts (call w) else decrypts (call w)) ->
  Forall is_byte iv -> Forall is_byte (mjoin aads) -> Forall is_byte (text pieces) ->
  zlen (mjoin aads) <= 2 ^ 61 -> zlen (text pieces) <= 2 ^ 36 - 32 ->
  exists b c, gcm_message call iv aads pieces = (true, nist_encrypt cipher iv (text pieces), c) /\
    gcm_at b c iv (mjoin aads) (if enc then nist_encrypt cipher iv (text pieces) else text pieces).
Proof.
  intros Hcall Hi Ha Hp La Lp. unfold gcm_message.
  destruct (aad_calls_at _ iv [] aads (setiv_at (CRYPTO_gcm128_init cipher size_t) iv eq_refl eq_refl Hi) Ha) as (c1 & -> & G1); [done|].
  by destruct (calls_at enc call c1 iv (mjoin aads) [] false pieces Hcall G1 Hp) as (b & c & E & G); [done|]; exists b, c.
Qed.

Lemma tag_at b c iv A C len :
  gcm_at b c iv A C -> 0 <= len <= 16 -> fst (CRYPTO_gcm128_tag size_t c len) = slice (nist_tag cipher iv A C) 0 len.
Proof.
  intros G Hl. unfold CRYPTO_gcm128_tag. cbn [fst]. rewrite (finish_at b c iv A C G). by destruct (Z.leb_spec len 16); [|lia].
Qed.

Lemma nist_tag_block iv A C : Forall is_byte iv -> block16 (nist_tag cipher iv A C).
Proof.
  intros Hi. unfold nist_tag. apply block16_xor; [|by apply cipher_block, J0_block].
  rewrite !GHASH_pad, GHASH_last; [apply block16_bmul|by rewrite length_app, !length_be_bytes| |done].
  unfold settle. case_match; [by apply length_soak|apply length_bmul].
Qed.
End Calls.

(** A function that encrypts many counters, as in [CtrMode.v]. *)
Definition bulk_of (cipher : list Z -> list Z) (func : list Z -> nat -> list Z -> list Z) : Prop :=
  forall inp k iv, length inp = (16 * k)%nat ->
  func inp k iv = mjoin ((fun i => xor_list (take 16 (drop (16 * i) inp)) (cipher (add32 iv i))) <$> seq 0 k).

(** C16: a message encrypted with any initial vector, additional data and
    message cut into any calls, each call of [CRYPTO_gcm128_encrypt] or
    [CRYPTO_gcm128_encrypt_ctr32] and on any way through it, is the ciphertext
    of NIST SP 800-38D, and [CRYPTO_gcm128_tag] gives the first bytes of its
    tag. *)
Theorem gcm_is_nist cipher func size_t ghash iv aads pieces :
  size_t = 4%nat \/ size_t = 8%nat -> (forall x, block16 x -> block16 (cipher x)) -> bulk_of cipher func ->
  Forall is_byte iv -> Forall is_byte (mjoin aads) -> Forall is_byte (mjoin (snd <$> pieces)) ->
  zlen (mjoin aads) <= 2 ^ 61 -> zlen (mjoin (snd <$> pieces)) <= 2 ^ 36 - 32 ->
  let C := nist_encrypt cipher iv (mjoin (snd <$> pieces)) in
  exists c, gcm_message cipher size_t ghash (encrypt_by cipher size_t ghash func) iv aads pieces = (true, C, c) /\
    forall len, 0 <= len <= 16 -> fst (CRYPTO_gcm128_tag size_t c len) = slice (nist_tag cipher iv (mjoin aads) C) 0 len.
Proof.
  intros Hs Hc Hf Hi Ha Hp La Lp C.
  destruct (message_at cipher size_t ghash Hs Hc true _ iv aads pieces (encrypt_by_ok cipher size_t ghash Hs Hc func Hf) Hi Ha Hp La Lp)
    as (b & c & E & G).
  exists c. split; [done|]. intros len Hl. by apply (tag_at cipher size_t Hs Hc b).
Qed.

(** C21: what a sequence of encrypting calls made of a message, decrypting
    calls turn back into it, cut in any other way and on any other of the
    ways through them, and [CRYPTO_gcm128_finish] then accepts a tag of [len]
    bytes exactly when it is the one [CRYPTO_gcm128_tag] gave. *)
Theorem gcm_roundtrip cipher func size_t g1 g2 iv aads1 aads2 pieces1 pieces2 c1 out t len :
  size_t = 4%nat \/ size_t = 8%nat -> (forall x, block16 x -> block16 (cipher x)) -> bulk_of cipher func ->
  Forall is_byte iv -> Forall is_byte (mjoin aads1) -> Forall is_byte (mjoin (snd <$> pieces1)) ->
  zlen (mjoin aads1) <= 2 ^ 61 -> zlen (mjoin (snd <$> pieces1)) <= 2 ^ 36 - 32 ->
  gcm_message cipher size_t g1 (encrypt_by cipher size_t g1 func) iv aads1 pieces1 = (true, out, c1) ->
  mjoin aads2 = mjoin aads1 -> mjoin (snd <$> pieces2) = out ->
  Forall is_byte t -> 0 <= len <= 16 -> len <= zlen t ->
  exists c2 c3, gcm_message cipher size_t g2 (decrypt_by cipher size_t g2 func) iv aads2 pieces2 =
                  (true, mjoin (snd <$> pieces1), c2) /\
    CRYPTO_gcm128_finish size_t c2 (Some t) len =
      Ok (bool_decide (slice t 0 len = fst (CRYPTO_gcm128_tag size_t c1 len)), c3).
Proof.
  intros Hs Hc Hf Hi Ha Hp La Lp E1 Ea Eo Ht Hl Hlt.
  destruct (message_at cipher size_t g1 Hs Hc true _ iv aads1 pieces1 (encrypt_by_ok cipher size_t g1 Hs Hc func Hf) Hi Ha Hp La Lp)
    as (b & c & E & G). rewrite E1 in E.
  injection E as -> <-. set (C := nist_encrypt cipher iv (mjoin (snd <$> pieces1))) in *.
  assert (BC : Forall is_byte C) by (apply gctr_bytes; [done|by apply (icb_block cipher size_t)|done]).
  assert (LC : zlen C = zlen (mjoin (snd <$> pieces1))) by (unfold zlen, C, nist_encrypt; by rewrite length_gctr).
  destruct (message_at cipher size_t g2 Hs Hc false _ iv aads2 pieces2 (decrypt_by_ok cipher size_t g2 Hs Hc func Hf)) as (b2 & c2 & E2 & G2);
    rewrite ?Ea, ?Eo; try done; [lia|].
  rewrite Ea, Eo in *. rewrite E2. exists c2, (finish_Xi size_t c2). split.
  - do 2 f_equal. unfold C, nist_encrypt. by rewrite gctr_twice.
  - unfold CRYPTO_gcm128_finish. destruct (Z.leb_spec len 16); [|lia]. rewrite (finish_at cipher size_t Hs Hc b2 c2 iv _ C) by done.
    rewrite (tag_at cipher size_t Hs Hc b c1 iv (mjoin aads1) C) by done.
    destruct (nist_tag_block cipher size_t Hs Hc iv (mjoin aads1) C Hi) as [LT BT].
    destruct (CRYPTO_memcmp_spec (nist_tag cipher iv (mjoin aads1) C) t len) as (x & -> & Ex); try done; [unfold zlen; lia|].
    cbn [mbind res_bind]. rewrite Ex. do 3 f_equal. apply bool_decide_ext. done.
Qed.

(** ** AES in this mode *)

Lemma block16_aes_block ek x : block16 x -> block16 (aes_block ek x).
Proof.
  intros [L B]. split; [by apply length_aes_block|]. unfold aes_block. destruct (AES_encrypt x ek) as [y|] eqn:E; [|done].
  unfold AES_encrypt, mbind, res_bind in E.
  destruct (load_state _ _); [|done]. destruct (rolled _ _ _ _ _ _) as [[t rk]|]; [|done].
  destruct (Te_last _ _ _) as [[[[s0 s1] s2] s3]|]; [|done].
  assert (y = store_state (s0, s1, s2, s3)) as -> by (by injection E). clear E. unfold store_state.
  assert (U : forall v, Forall is_byte (PUTU32 v)) by (intros v; rewrite PUTU32_be; apply be_bytes_bytes).
  generalize (U s0), (U s1), (U s2), (U s3). generalize (PUTU32 s0), (PUTU32 s1), (PUTU32 s2), (PUTU32 s3). intros.
  by rewrite !Forall_app.
Qed.

Definition zero_ek : AES_KEY :=
  match AES_set_encrypt_key zero16 128 blank_key with Ok (_, ek) => ek | Fault _ => blank_key end.

(** Test case 2 of the specification of GCM. *)
Example gcm_case_2 :
  let '(ok, out, c) :=
    gcm_message (aes_block zero_ek) 8 true (encrypt_by (aes_block zero_ek) 8 true (aes_ctr32_blocks zero_ek)) (replicate 12 0) []
      [(by_blocks false, zero16)] in
  ok = true /\ be_value out = 0x0388dace60b6a392f328c2b971b2fe78 /\
  be_value (fst (CRYPTO_gcm128_tag 8 c 16)) = 0xab6e47d42cec13bdf53a67b21257bddf.
Proof. by vm_compute. Qed.

Definition demo_aads : list (list Z) := [demo_key 5; demo_key 20].
Definition demo_pieces : list (way * list Z) :=
  [(by_blocks false, demo_key 18); (by_blocks true, demo_key 3); (by_ctr32, demo_key 40)].

Lemma aes_bulk ek : bulk_of (aes_block ek) (aes_ctr32_blocks ek).
Proof. by intros inp k iv _. Qed.

Lemma demo_key_bytes n : (n < 256)%nat -> Forall is_byte (demo_key n).
Proof. intros Hn. apply Forall_fmap, Forall_forall. intros i Hi%elem_of_seq. unfold is_u. simpl. lia. Qed.

Lemma demo_inputs :
  Forall is_byte (demo_key 12) /\ Forall is_byte (mjoin demo_aads) /\ Forall is_byte (mjoin (snd <$> demo_pieces)).
Proof.
  unfold demo_aads, demo_pieces. cbn [mjoin list_join fmap list_fmap snd]. rewrite !Forall_app.
  split_and!; try apply Forall_nil_2; apply demo_key_bytes; lia.
Qed.

Lemma gcm_is_nist_witness :
  let cipher := aes_block demo_ek in
  let C := nist_encrypt cipher (demo_key 12) (mjoin (snd <$> demo_pieces)) in
  exists c, gcm_message cipher 4 true (encrypt_by cipher 4 true (aes_ctr32_blocks demo_ek)) (demo_key 12) demo_aads demo_pieces = (true, C, c) /\
    forall len, 0 <= len <= 16 -> fst (CRYPTO_gcm128_tag 4 c len) = slice (nist_tag cipher (demo_key 12) (mjoin demo_aads) C) 0 len.
Proof.
  destruct demo_inputs as (B1 & B2 & B3).
  apply (gcm_is_nist (aes_block demo_ek) (aes_ctr32_blocks demo_ek) 4 true (demo_key 12) demo_aads demo_pieces);
    [by left|apply block16_aes_block|apply aes_bulk|done|done|done|by vm_compute|by vm_compute].
Defined.

Definition demo_sealed : bool * list Z * GCM128_CONTEXT :=
  gcm_message (aes_block demo_ek) 4 true (encrypt_by (aes_block demo_ek) 4 true (aes_ctr32_blocks demo_ek)) (demo_key 12) demo_aads demo_pieces.
Definition demo_out : list Z := snd (fst demo_sealed).

Lemma gcm_roundtrip_witness :
  exists c2 c3, gcm_message (aes_block demo_ek) 4 false (decrypt_by (aes_block demo_ek) 4 false (aes_ctr32_blocks demo_ek)) (demo_key 12)
                  [mjoin demo_aads] [(by_ctr32, take 7 demo_out); (by_blocks false, drop 7 demo_out)] =
                  (true, mjoin (snd <$> demo_pieces), c2) /\
    CRYPTO_gcm128_finish 4 c2 (Some zero16) 12 =
      Ok (bool_decide (slice zero16 0 12 = fst (CRYPTO_gcm128_tag 4 (snd demo_sealed) 12)), c3).
Proof.
  destruct demo_inputs as (B1 & B2 & B3).
  apply (gcm_roundtrip (aes_block demo_ek) (aes_ctr32_blocks demo_ek) 4 true false (demo_key 12) demo_aads [mjoin demo_aads] demo_pieces
           [(by_ctr32, take 7 demo_out); (by_blocks false, drop 7 demo_out)] (snd demo_sealed) demo_out zero16 12).
  - by left.
  - apply block16_aes_block.
  - apply aes_bulk.
  - done.
  - done.
  - done.
  - by vm_compute.
  - by vm_compute.
  - vm_compute. reflexivity.
  - vm_compute. reflexivity.
  - vm_compute. reflexivity.
  - apply block16_zero.
  - lia.
  - vm_compute. discriminate.
Defined.
