(* ===== verification/AesGcm.v ===== *)
(** * AesGcm: AES in Galois/counter mode behind the interface

    Models [aes_ctr_set_key] and [aead_aes_gcm_*] of
    [src/fastsocks/cpp/boringssl/crypto/cipher/e_aes.c], on top of AES
    ([Aes.v]) and [gcm.c] ([GcmMode.v]), for the 32-bit ARM of the build:
    [aesni_capable] and [vpaes_capable] are constantly 0 there, and what
    assembler provides for the other branches ([aes_v8_*],
    [bsaes_ctr32_encrypt_blocks]) is a parameter with the laws [AsmLaws].
    The functions of [gcm.c] read every byte of the input before they write
    the output at its offset, so for the areas [check_alias] lets pass the
    input is read as it was before the call.

    Shown: what is sealed is the ciphertext and the tag of NIST SP 800-38D
    with the cipher of FIPS-197; opening inverts sealing and is all or
    nothing, though the code decrypts before it looks at the tag. *)

From S2P Require Import Prelude.
From S2P Require Import Words.
From S2P Require Import Aes.
From S2P Require Import AesSpec.
From S2P Require Import AesInverse.
From S2P Require Import Modes.
From S2P Require Import CtrMode.
From S2P Require Import Aead.
From S2P Require Import Gcm.
From S2P Require Import GcmMode.
From S2P Require Import GcmCorrect.

(** ** The code *)

(** The functions in assembler; a call for [blocks] counters from [ivec]. *)
Class AsmAes : Type := {
  hwaes_capable : bool;
  bsaes_capable : bool;
  v8_key : Type;
  aes_v8_set_encrypt_key : list Z -> Z -> v8_key;
  aes_v8_encrypt : v8_key -> list Z -> list Z;
  aes_v8_ctr32_encrypt_blocks : v8_key -> list Z -> nat -> list Z -> list Z;
  bsaes_ctr32_encrypt_blocks : AES_KEY -> list Z -> nat -> list Z -> list Z;
}.

Definition EVP_AEAD_AES_GCM_TAG_LEN : Z := 16.

(** [block] and [ctr] with the schedule they are called with. *)
Record aead_aes_gcm_ctx : Type := mkAesGcm {
  g_block : list Z -> list Z;
  g_gcm : GCM128_CONTEXT;
  g_ctr : option (list Z -> nat -> list Z -> list Z);
  g_tag_len : Z;
}.

Section Code.
(** The assembler, whether [GHASH] is defined, what the block from [malloc]
    held, and the address of the caller's memory. *)
Context {Asm : AsmAes} (ghash : bool) (junk : AES_KEY) (base : Z).

(** The result of [AES_set_encrypt_key] is not looked at. *)
Definition expanded (key : list Z) (bits : Z) : AES_KEY :=
  match AES_set_encrypt_key key bits junk with Ok (_, ek) => ek | Fault _ => junk end.

(** The hashing is the portable one in every branch: it is what gcm.c keeps for
    an AArch64 processor with the assembler for AES and without PMULL (lines
    145 and 479 to 482).  The NEON and PMULL versions that other processors
    put in its place are assembler and are taken to compute the same
    function. *)
Definition aes_ctr_set_key (key : list Z) (key_len : Z) :
    (list Z -> list Z) * GCM128_CONTEXT * option (list Z -> nat -> list Z -> list Z) :=
  if hwaes_capable then
    let aes_key := aes_v8_set_encrypt_key key (u32 (key_len * 8)) in
    (aes_v8_encrypt aes_key, CRYPTO_gcm128_init (aes_v8_encrypt aes_key) 4, Some (aes_v8_ctr32_encrypt_blocks aes_key))
  else if bsaes_capable then
    let aes_key := expanded key (u32 (key_len * 8)) in
    (aes_block aes_key, CRYPTO_gcm128_init (aes_block aes_key) 4, Some (bsaes_ctr32_encrypt_blocks aes_key))
  else
    let aes_key := expanded key (u32 (key_len * 8)) in
    (aes_block aes_key, CRYPTO_gcm128_init (aes_block aes_key) 4, None).

Definition aead_aes_gcm_init (key : list Z) (tag_len : Z) (memory : bool) : option aead_aes_gcm_ctx :=
  let key_len := zlen key in
  let key_bits := u32 (key_len * 8) in
  if negb (key_bits =? 128) && negb (key_bits =? 256) then None
  else
    let tag_len := if tag_len =? 0 then EVP_AEAD_AES_GCM_TAG_LEN else tag_len in
    if tag_len >? EVP_AEAD_AES_GCM_TAG_LEN then None
    else if negb memory then None
    else
      let '(block, gcm, ctr) := aes_ctr_set_key key key_len in
      Some (mkAesGcm block gcm ctr (u8 tag_len)).

(** [STRICT_ALIGNMENT && ((size_t)in | (size_t)out) % sizeof(size_t) != 0] *)
Definition unaligned (c : Call) : bool := negb (Z.lor (base + c_in c) (base + c_out c) mod 4 =? 0).

Definition encrypt_text (ctx : aead_aes_gcm_ctx) (c : Call) (gcm : GCM128_CONTEXT) (inp : list Z) :
    bool * list Z * GCM128_CONTEXT :=
  match g_ctr ctx with
  | Some f => CRYPTO_gcm128_encrypt_ctr32 (g_block ctx) 4 ghash f gcm inp
  | None => CRYPTO_gcm128_encrypt (g_block ctx) 4 ghash (unaligned c) gcm inp
  end.

Definition decrypt_text (ctx : aead_aes_gcm_ctx) (c : Call) (gcm : GCM128_CONTEXT) (inp : list Z) :
    bool * list Z * GCM128_CONTEXT :=
  match g_ctr ctx with
  | Some f => CRYPTO_gcm128_decrypt_ctr32 (g_block ctx) 4 ghash f gcm inp
  | None => CRYPTO_gcm128_decrypt (g_block ctx) 4 ghash (unaligned c) gcm inp
  end.

Definition aead_aes_gcm_seal (ctx : aead_aes_gcm_ctx) (stack : list Z) (c : Call) (mem : list Z) : res (option Z * list Z) :=
  let in_len := c_in_len c in
  if u32 (in_len + g_tag_len ctx) <? in_len then Ok (None, mem)
  else if c_max_out_len c <? u32 (in_len + g_tag_len ctx) then Ok (None, mem)
  else
    nonce ← read_at mem (c_nonce c) (c_nonce_len c);
    let gcm := CRYPTO_gcm128_setiv (g_block ctx) 4 (g_gcm ctx) nonce in
    ad ← read_at mem (c_ad c) (c_ad_len c);
    let '(ok, gcm) := if c_ad_len c >? 0 then CRYPTO_gcm128_aad 4 ghash gcm ad else (true, gcm) in
    if negb ok then Ok (None, mem)
    else
      inp ← read_at mem (c_in c) in_len;
      let '(ok, out, gcm) := encrypt_text ctx c gcm inp in
      if negb ok then Ok (None, mem)
      else
        mem ← write_at mem (c_out c) out;
        mem ← write_at mem (c_out c + in_len) (fst (CRYPTO_gcm128_tag 4 gcm (g_tag_len ctx)));
        Ok (Some (u32 (in_len + g_tag_len ctx)), mem).

Definition aead_aes_gcm_open (ctx : aead_aes_gcm_ctx) (stack : list Z) (c : Call) (mem : list Z) : res (option Z * list Z) :=
  let in_len := c_in_len c in
  if in_len <? g_tag_len ctx then Ok (None, mem)
  else
    let plaintext_len := in_len - g_tag_len ctx in
    if c_max_out_len c <? plaintext_len then Ok (None, mem)
    else
      nonce ← read_at mem (c_nonce c) (c_nonce_len c);
      let gcm := CRYPTO_gcm128_setiv (g_block ctx) 4 (g_gcm ctx) nonce in
      ad ← read_at mem (c_ad c) (c_ad_len c);
      let '(ok, gcm) := CRYPTO_gcm128_aad 4 ghash gcm ad in
      if negb ok then Ok (None, mem)
      else
        inp ← read_at mem (c_in c) plaintext_len;
        let '(ok, out, gcm) := decrypt_text ctx c gcm inp in
        if negb ok then Ok (None, mem)
        else
          mem ← write_at mem (c_out c) out;
          given ← read_at mem (c_in c + plaintext_len) (g_tag_len ctx);
          differ ← CRYPTO_memcmp (fst (CRYPTO_gcm128_tag 4 gcm (g_tag_len ctx))) given (g_tag_len ctx);
          if negb (differ =? 0) then Ok (None, mem) else Ok (Some plaintext_len, mem).

Definition aead_aes_128_gcm : EVP_AEAD aead_aes_gcm_ctx :=
  mkAead 16 12 EVP_AEAD_AES_GCM_TAG_LEN EVP_AEAD_AES_GCM_TAG_LEN (Some aead_aes_gcm_init) None aead_aes_gcm_seal aead_aes_gcm_open.
Definition aead_aes_256_gcm : EVP_AEAD aead_aes_gcm_ctx :=
  mkAead 32 12 EVP_AEAD_AES_GCM_TAG_LEN EVP_AEAD_AES_GCM_TAG_LEN (Some aead_aes_gcm_init) None aead_aes_gcm_seal aead_aes_gcm_open.
End Code.

(** ** What is computed *)

Definition gcm_sealed (cipher : list Z -> list Z) (tag_len : Z) (n ad p : list Z) : list Z :=
  let ct := nist_encrypt cipher n p in ct ++ slice (nist_tag cipher n ad ct) 0 tag_len.

Definition gcm_opened (cipher : list Z -> list Z) (tag_len : Z) (n ad t : list Z) : option (list Z) :=
  let len := zlen t - tag_len in
  let ct := slice t 0 len in
  if len <? 0 then None
  else if bool_decide (slice t len tag_len = slice (nist_tag cipher n ad ct) 0 tag_len)
  then Some (nist_encrypt cipher n ct) else None.

Record gcm_usable (ctx : aead_aes_gcm_ctx) : Prop := {
  gu_block : forall x, block16 x -> block16 (g_block ctx x);
  gu_gcm : g_gcm ctx = CRYPTO_gcm128_init (g_block ctx) 4;
  gu_ctr : forall f, g_ctr ctx = Some f -> bulk_of (g_block ctx) f;
  gu_tag : 0 < g_tag_len ctx <= 16;
}.

Section Spec.
Context (cipher : list Z -> list Z) (cipher_block : forall x, block16 x -> block16 (cipher x)).

Lemma zlen_nist_encrypt n p : zlen (nist_encrypt cipher n p) = zlen p.
Proof. unfold zlen, nist_encrypt. by rewrite length_gctr. Qed.

Lemma nist_encrypt_bytes n p : Forall is_byte n -> Forall is_byte p -> Forall is_byte (nist_encrypt cipher n p).
Proof. intros Hn Hp. apply gctr_bytes; [done|by apply (icb_block cipher 4 ltac:(by left))|done]. Qed.

Lemma nist_tag_slice n ad ct t : Forall is_byte n -> 0 < t <= 16 ->
  zlen (slice (nist_tag cipher n ad ct) 0 t) = t /\ Forall is_byte (slice (nist_tag cipher n ad ct) 0 t) /\
  zlen (nist_tag cipher n ad ct) = 16 /\ Forall is_byte (nist_tag cipher n ad ct).
Proof.
  intros Hn Ht. destruct (nist_tag_block cipher 4 (or_introl eq_refl) cipher_block n ad ct Hn) as [L B].
  assert (zlen (nist_tag cipher n ad ct) = 16) by (unfold zlen; lia).
  split; [apply zlen_slice; lia|]. split; [by apply Forall_slice|done].
Qed.

Lemma gcm_open_seal t n ad p : 0 < t <= 16 -> Forall is_byte n ->
  gcm_opened cipher t n ad (gcm_sealed cipher t n ad p) = Some p.
Proof.
  intros Ht Hn. unfold gcm_opened, gcm_sealed. set (ct := nist_encrypt cipher n p). set (tag := slice (nist_tag cipher n ad ct) 0 t).
  destruct (nist_tag_slice n ad ct t Hn Ht) as (Lt & _ & _). fold tag in Lt. pose proof (zlen_nonneg ct).
  rewrite zlen_app. replace (zlen ct + zlen tag - t) with (zlen ct) by lia. destruct (Z.ltb_spec (zlen ct) 0); [lia|].
  destruct (slice_parts ct tag) as [-> E2]. rewrite Lt in E2. rewrite E2.
  rewrite bool_decide_eq_true_2 by done. unfold ct, nist_encrypt. by rewrite gctr_twice.
Qed.
End Spec.

Section Run.
Context {Asm : AsmAes} (ghash : bool) (base : Z).

(** One message through a context, in the order of the code. *)
Lemma run_message (enc : bool) ctx call n ad inp :
  gcm_usable ctx -> (if enc then encrypts (g_block ctx) 4 call else decrypts (g_block ctx) 4 call) ->
  Forall is_byte n -> Forall is_byte ad -> Forall is_byte inp -> zlen ad < 2 ^ 32 -> zlen inp < 2 ^ 32 ->
  let gcm := CRYPTO_gcm128_setiv (g_block ctx) 4 (g_gcm ctx) n in
  let out := nist_encrypt (g_block ctx) n inp in
  (exists c1 c2, CRYPTO_gcm128_aad 4 ghash gcm ad = (true, c1) /\ call c1 inp = (true, out, c2) /\
     fst (CRYPTO_gcm128_tag 4 c2 (g_tag_len ctx)) = slice (nist_tag (g_block ctx) n ad (if enc then out else inp)) 0 (g_tag_len ctx)) /\
  (ad = [] -> exists c2, call gcm inp = (true, out, c2) /\
     fst (CRYPTO_gcm128_tag 4 c2 (g_tag_len ctx)) = slice (nist_tag (g_block ctx) n ad (if enc then out else inp)) 0 (g_tag_len ctx)).
Proof.
  intros [Ub Ug _ Ut] Hc Hn Ha Hi La Li gcm out.
  assert (M : forall aads : list (list Z), mjoin aads = ad -> exists b c, gcm_message (g_block ctx) 4 ghash (fun _ => call) n aads [(by_ctr32, inp)] = (true, out, c) /\
     gcm_at (g_block ctx) 4 b c n ad (if enc then out else inp)).
  { intros aads Ea. pose proof (message_at (g_block ctx) 4 ghash (or_introl eq_refl) Ub enc (fun _ => call) n aads [(by_ctr32, inp)]) as Hm.
    cbn [fmap list_fmap snd mjoin list_join] in Hm. rewrite app_nil_r, Ea in Hm. apply Hm; try done; lia. }
  split.
  - destruct (M [ad]) as (b & c & E & G); [cbn; by rewrite app_nil_r|]. revert E. unfold gcm_message. rewrite <- Ug. fold gcm. cbn [aad_calls].
    destruct (CRYPTO_gcm128_aad 4 ghash gcm ad) as [[] c1]; [|done]. cbn [crypt_calls].
    destruct (call c1 inp) as [[[] o] c2] eqn:Ec; [|done]. rewrite app_nil_r. intros [= -> ->]. exists c1, c. split; [done|]. split; [done|].
    apply (tag_at (g_block ctx) 4 (or_introl eq_refl) Ub b); [done|lia].
  - intros ->. destruct (M []) as (b & c & E & G); [done|]. revert E. unfold gcm_message. rewrite <- Ug. fold gcm. cbn [aad_calls crypt_calls].
    destruct (call gcm inp) as [[[] o] c2] eqn:Ec; [|done]. rewrite app_nil_r. intros [= -> ->]. exists c. split; [done|].
    apply (tag_at (g_block ctx) 4 (or_introl eq_refl) Ub b); [done|lia].
Qed.

Lemma encrypt_text_ok ctx c : gcm_usable ctx -> encrypts (g_block ctx) 4 (encrypt_text ghash base ctx c).
Proof.
  intros [Ub Ug Uc _]. unfold encrypt_text. destruct (g_ctr ctx) as [f|] eqn:E.
  - by apply (encrypt_by_ok (g_block ctx) 4 ghash (or_introl eq_refl) Ub f (Uc f eq_refl) by_ctr32).
  - apply encrypt_ok; [by left|done].
Qed.
Lemma decrypt_text_ok ctx c : gcm_usable ctx -> decrypts (g_block ctx) 4 (decrypt_text ghash base ctx c).
Proof.
  intros [Ub Ug Uc _]. unfold decrypt_text. destruct (g_ctr ctx) as [f|] eqn:E.
  - by apply (decrypt_by_ok (g_block ctx) 4 ghash (or_introl eq_refl) Ub f (Uc f eq_refl) by_ctr32).
  - apply decrypt_ok; [by left|done].
Qed.
End Run.

Section Laws.
Context {Asm : AsmAes} (ghash : bool) (junk : AES_KEY) (base : Z).

Lemma gcm_seal_ok ctx stack c mem :
  gcm_usable ctx -> valid_call c mem -> check_alias (c_in c) (c_in_len c) (c_out c) = true ->
  aead_aes_gcm_seal ghash base ctx stack c mem =
    Ok (if c_in_len c + g_tag_len ctx <=? c_max_out_len c
        then (Some (c_in_len c + g_tag_len ctx),
              splice mem (c_out c) (gcm_sealed (g_block ctx) (g_tag_len ctx) (nonce_area c mem) (ad_area c mem) (in_area c mem)))
        else (None, mem)).
Proof.
  intros U [Hm Hs (O1 & O2 & O3) (I1 & I2 & I3) (A1 & A2 & A3) (N1 & N2 & N3)] _. pose proof (gu_tag _ U) as Ut.
  unfold aead_aes_gcm_seal. destruct (Z.leb_spec (c_in_len c + g_tag_len ctx) (c_max_out_len c)) as [Hl|Hl].
  2: { destruct (Z.ltb_spec (u32 (c_in_len c + g_tag_len ctx)) (c_in_len c)) as [|H1]; [done|].
       rewrite wrapU_id in H1 |- * by (unfold is_u, wrapU in *; zlia).
       by destruct (Z.ltb_spec (c_max_out_len c) (c_in_len c + g_tag_len ctx)); [|lia]. }
  rewrite wrapU_id by (unfold is_u; lia).
  destruct (Z.ltb_spec (c_in_len c + g_tag_len ctx) (c_in_len c)); [lia|].
  destruct (Z.ltb_spec (c_max_out_len c) (c_in_len c + g_tag_len ctx)); [lia|].
  rewrite (read_at_Ok mem (c_nonce c)), (read_at_Ok mem (c_ad c)), (read_at_Ok mem (c_in c)) by lia. cbn [mbind res_bind].
  fold (nonce_area c mem) (ad_area c mem) (in_area c mem).
  assert (Li : zlen (in_area c mem) = c_in_len c) by (apply zlen_slice; lia).
  assert (La : zlen (ad_area c mem) = c_ad_len c) by (apply zlen_slice; lia).
  destruct (run_message ghash true ctx _ (nonce_area c mem) (ad_area c mem) (in_area c mem) U (encrypt_text_ok ghash base ctx c U))
    as [(c1 & c2 & E1 & E2 & E3) R]; [by apply Forall_slice..|lia|lia|].
  unfold gcm_sealed. set (out := nist_encrypt (g_block ctx) (nonce_area c mem) (in_area c mem)) in *.
  assert (Lo : zlen out = c_in_len c) by (unfold out; by rewrite zlen_nist_encrypt).
  destruct (nist_tag_slice (g_block ctx) (gu_block _ U) (nonce_area c mem) (ad_area c mem) out (g_tag_len ctx)) as (Lt & _);
    [by apply Forall_slice|lia|].
  assert (W : forall gcm2, fst (CRYPTO_gcm128_tag 4 gcm2 (g_tag_len ctx)) =
      slice (nist_tag (g_block ctx) (nonce_area c mem) (ad_area c mem) out) 0 (g_tag_len ctx) ->
    (mem0 ← write_at mem (c_out c) out;
     mem1 ← write_at mem0 (c_out c + c_in_len c) (fst (CRYPTO_gcm128_tag 4 gcm2 (g_tag_len ctx)));
     Ok (Some (c_in_len c + g_tag_len ctx), mem1)) =
    Ok (Some (c_in_len c + g_tag_len ctx), splice mem (c_out c) (out ++ slice (nist_tag (g_block ctx) (nonce_area c mem) (ad_area c mem) out) 0 (g_tag_len ctx)))).
  { intros gcm2 ->. rewrite write_at_Ok by lia. cbn [mbind res_bind]. rewrite write_at_Ok by (rewrite ?zlen_splice; lia). cbn [mbind res_bind].
    replace (c_out c + c_in_len c) with (c_out c + zlen out) by lia. by rewrite splice_splice by lia. }
  rewrite Z.gtb_ltb. destruct (Z.ltb_spec 0 (c_ad_len c)).
  - rewrite E1. cbn [negb]. rewrite E2. cbn [negb]. by apply W.
  - destruct R as (c3 & E4 & E5); [apply nil_length_inv; unfold zlen in *; lia|]. cbn [negb]. rewrite E4. cbn [negb]. by apply W.
Qed.

Lemma gcm_open_ok ctx stack c mem :
  gcm_usable ctx -> valid_call c mem -> check_alias (c_in c) (c_in_len c) (c_out c) = true ->
  exists rest, zlen rest = zlen mem /\ zeroed c rest = zeroed c mem /\
  aead_aes_gcm_open ghash base ctx stack c mem =
    Ok (if (g_tag_len ctx <=? c_in_len c) && (c_in_len c - g_tag_len ctx <=? c_max_out_len c)
        then match gcm_opened (g_block ctx) (g_tag_len ctx) (nonce_area c mem) (ad_area c mem) (in_area c mem) with
             | Some p => (Some (zlen p), splice mem (c_out c) p)
             | None => (None, rest)
             end
        else (None, mem)).
Proof.
  intros U [Hm Hs (O1 & O2 & O3) (I1 & I2 & I3) (A1 & A2 & A3) (N1 & N2 & N3)] Ha. pose proof (gu_tag _ U) as Ut.
  unfold aead_aes_gcm_open.
  destruct (Z.ltb_spec (c_in_len c) (g_tag_len ctx)), (Z.leb_spec (g_tag_len ctx) (c_in_len c)); try lia; [by exists mem|].
  destruct (Z.ltb_spec (c_max_out_len c) (c_in_len c - g_tag_len ctx)), (Z.leb_spec (c_in_len c - g_tag_len ctx) (c_max_out_len c)); try lia;
    [by exists mem|].
  cbn [andb]. set (len := c_in_len c - g_tag_len ctx) in *. assert (El : c_in_len c = len + g_tag_len ctx) by lia.
  rewrite (read_at_Ok mem (c_nonce c)), (read_at_Ok mem (c_ad c)), (read_at_Ok mem (c_in c)) by lia. cbn [mbind res_bind].
  fold (nonce_area c mem) (ad_area c mem). set (n := nonce_area c mem). set (ad := ad_area c mem).
  destruct (text_parts mem (c_in c) len (g_tag_len ctx)) as [S1 S2]; [lia..|]. rewrite <- El in S1, S2. fold (in_area c mem) in S1, S2.
  unfold gcm_opened. assert (zlen (in_area c mem) = c_in_len c) as -> by (apply zlen_slice; lia). fold len. rewrite S1, S2.
  destruct (Z.ltb_spec len 0); [lia|]. set (ct := slice mem (c_in c) len) in *. assert (Lc : zlen ct = len) by (apply zlen_slice; lia).
  destruct (run_message ghash false ctx _ n ad ct U (decrypt_text_ok ghash base ctx c U)) as [(c1 & c2 & E1 & E2 & E3) _];
    [by apply Forall_slice..|unfold ad, ad_area; rewrite zlen_slice; lia|lia|].
  rewrite E1. cbn [negb]. rewrite E2. cbn [negb]. set (out := nist_encrypt (g_block ctx) n ct).
  assert (Lo : zlen out = len) by (unfold out; by rewrite zlen_nist_encrypt).
  destruct (nist_tag_slice (g_block ctx) (gu_block _ U) n ad ct (g_tag_len ctx)) as (Lt & Bt & _); [by apply Forall_slice|lia|].
  exists (splice mem (c_out c) out). split; [apply zlen_splice; lia|]. split.
  { unfold zeroed. apply splice_over; [lia|..]; unfold zlen in *; rewrite length_replicate; lia. }
  rewrite write_at_Ok by lia. cbn [mbind res_bind]. rewrite read_at_Ok by (rewrite ?zlen_splice; lia). cbn [mbind res_bind].
  assert (slice (splice mem (c_out c) out) (c_in c + len) (g_tag_len ctx) = slice mem (c_in c + len) (g_tag_len ctx)) as ->.
  { apply check_alias_true in Ha as [Ha|Ha]; [apply slice_splice_after|apply slice_splice_before]; lia. }
  set (given := slice mem (c_in c + len) (g_tag_len ctx)).
  assert (Lg : zlen given = g_tag_len ctx) by (apply zlen_slice; lia).
  rewrite E3. set (tag := slice (nist_tag (g_block ctx) n ad ct) 0 (g_tag_len ctx)) in *.
  destruct (CRYPTO_memcmp_spec tag given (g_tag_len ctx)) as (y & -> & Ey); [done|by apply Forall_slice|lia|lia|].
  assert (slice tag 0 (g_tag_len ctx) = tag) as F1 by (rewrite <- Lt; apply slice_full).
  assert (slice given 0 (g_tag_len ctx) = given) as F2 by (rewrite <- Lg; apply slice_full).
  rewrite F1, F2 in Ey. cbn [mbind res_bind]. rewrite Ey, (bool_decide_ext (given = tag) (tag = given)) by done.
  case_bool_decide; cbn [negb]; [by rewrite Lo|done].
Qed.
End Laws.

(** Both descriptors promise the interface. *)
Definition gcm_laws {Asm : AsmAes} (ghash : bool) (base : Z) (A : EVP_AEAD aead_aes_gcm_ctx)
    (Es : seal A = aead_aes_gcm_seal ghash base) (Eo : open A = aead_aes_gcm_open ghash base) (Ev : overhead A = 16) : AeadLaws A.
Proof.
  refine {| usable := gcm_usable; call_fits _ _ _ := true; good_call _ _ := True; tag_size := g_tag_len;
            sealed s := gcm_sealed (g_block s) (g_tag_len s); opened s := gcm_opened (g_block s) (g_tag_len s) |}.
  - intros s U. pose proof (gu_tag _ U). lia.
  - intros s n d p U _ Hn Hd Hp. unfold gcm_sealed. rewrite zlen_app, zlen_nist_encrypt.
    destruct (nist_tag_slice (g_block s) (gu_block _ U) n d (nist_encrypt (g_block s) n p) (g_tag_len s)) as (L & B & _);
      [done|apply (gu_tag _ U)|]. rewrite L. split; [done|]. apply Forall_app. split; [|done]. by apply nist_encrypt_bytes; [apply (gu_block _ U)|..].
  - intros s n d p U _ Hn _ _. apply gcm_open_seal; [apply (gu_block _ U)|apply (gu_tag _ U)|done].
  - intros s stack c mem U _ V Ha. rewrite Es. cbn [andb]. by apply gcm_seal_ok.
  - intros s stack c mem U _ V Ha. rewrite Eo. cbn [andb]. by apply gcm_open_ok.
Defined.

(** ** The cipher of the standard *)

(** What is sealed and opened depends on the cipher on blocks only. *)
Section Same.
Context (f g : list Z -> list Z) (f_block : forall x, block16 x -> block16 (f x)) (same : forall x, block16 x -> f x = g x).

Lemma J0_same n : J0 f n = J0 g n.
Proof. unfold J0, hash_key. by rewrite same by apply block16_zero. Qed.

Lemma nist_encrypt_same n p : Forall is_byte n -> nist_encrypt f n p = nist_encrypt g n p.
Proof.
  intros Hn. unfold nist_encrypt, gctr_from. rewrite <- J0_same. apply imap_ext. intros i x _. f_equal. unfold ks.
  rewrite same; [done|]. apply counter_add32. by apply (icb_block f 4 ltac:(by left)).
Qed.

Lemma nist_tag_same n ad ct : Forall is_byte n -> nist_tag f n ad ct = nist_tag g n ad ct.
Proof.
  intros Hn. unfold nist_tag, hash_key. rewrite <- J0_same. rewrite (same zero16) by apply block16_zero.
  by rewrite (same (J0 f n)) by (by apply (J0_block f 4 ltac:(by left))).
Qed.

Lemma gcm_sealed_same t n ad p : Forall is_byte n -> gcm_sealed f t n ad p = gcm_sealed g t n ad p.
Proof. intros Hn. unfold gcm_sealed. by rewrite nist_encrypt_same, nist_tag_same. Qed.

Lemma gcm_opened_same t n ad p : Forall is_byte n -> gcm_opened f t n ad p = gcm_opened g t n ad p.
Proof. intros Hn. unfold gcm_opened. by rewrite nist_encrypt_same, nist_tag_same. Qed.
End Same.

Definition gcm_key (Nk : nat) (key : list Z) : Prop :=
  (Nk = 4%nat \/ Nk = 8%nat) /\ length key = (4 * Nk)%nat /\ Forall is_byte key.

Lemma gcm_key_length Nk key : gcm_key Nk key -> key_length Nk /\ zlen key = 4 * Z.of_nat Nk.
Proof. intros (H & L & _). split; [destruct H; unfold key_length; tauto|unfold zlen; lia]. Qed.

(** The schedule of the C code, whatever the memory held. *)
Lemma expanded_fips Nk key junk :
  gcm_key Nk key -> length (rd_key junk) = 60%nat ->
  AES_set_encrypt_key key (32 * Z.of_nat Nk) junk = Ok (0, expanded junk key (32 * Z.of_nat Nk)) /\
  forall x, block16 x -> aes_block (expanded junk key (32 * Z.of_nat Nk)) x = AES Nk key x.
Proof.
  intros K Hj. destruct (gcm_key_length _ _ K) as [Hn _]. destruct K as (_ & L & B).
  assert (forall x, block16 x -> AES_set_encrypt_key key (32 * Z.of_nat Nk) junk = Ok (0, expanded junk key (32 * Z.of_nat Nk)) /\
    aes_block (expanded junk key (32 * Z.of_nat Nk)) x = AES Nk key x) as H.
  { intros x Hx. destruct (encrypt_spec Nk key x junk Hn L B Hx Hj) as (rd & E0 & E1). unfold expanded. rewrite E0. split; [done|].
    unfold aes_block. by rewrite E1. }
  split; [by destruct (H zero16 block16_zero)|intros x Hx; by apply H].
Qed.

(** What the assembler versions are documented to compute. *)
Class AsmLaws (Asm : AsmAes) : Prop := {
  law_v8_block : forall Nk key x, gcm_key Nk key -> block16 x ->
    aes_v8_encrypt (aes_v8_set_encrypt_key key (32 * Z.of_nat Nk)) x = AES Nk key x;
  law_v8_length : forall k x, length x = 16%nat -> length (aes_v8_encrypt k x) = 16%nat;
  law_v8_ctr : forall Nk key, gcm_key Nk key ->
    bulk_of (aes_v8_encrypt (aes_v8_set_encrypt_key key (32 * Z.of_nat Nk)))
      (aes_v8_ctr32_encrypt_blocks (aes_v8_set_encrypt_key key (32 * Z.of_nat Nk)));
  law_bsaes_ctr : forall Nk key junk ek, gcm_key Nk key -> AES_set_encrypt_key key (32 * Z.of_nat Nk) junk = Ok (0, ek) ->
    bulk_of (aes_block ek) (bsaes_ctr32_encrypt_blocks ek);
}.

Section Aes.
Context {Asm : AsmAes} {L : AsmLaws Asm} (ghash : bool) (junk : AES_KEY) (junk_size : length (rd_key junk) = 60%nat) (base : Z).

(** The descriptor for a key of [Nk] words. *)
Definition aead_aes_gcm (Nk : nat) : EVP_AEAD aead_aes_gcm_ctx :=
  if (Nk =? 4)%nat then aead_aes_128_gcm ghash junk base else aead_aes_256_gcm ghash junk base.

#[local] Instance aes_gcm_laws Nk : AeadLaws (aead_aes_gcm Nk).
Proof. apply (gcm_laws ghash base); unfold aead_aes_gcm; by destruct (_ =? _)%nat. Defined.

Lemma aes_gcm_law_fields Nk s :
  call_fits (AeadLaws := aes_gcm_laws Nk) = (fun _ _ _ => true) /\ good_call (AeadLaws := aes_gcm_laws Nk) = (fun _ _ => True) /\
  tag_size (AeadLaws := aes_gcm_laws Nk) s = g_tag_len s /\ sealed (AeadLaws := aes_gcm_laws Nk) s = gcm_sealed (g_block s) (g_tag_len s) /\
  opened (AeadLaws := aes_gcm_laws Nk) s = gcm_opened (g_block s) (g_tag_len s).
Proof. done. Qed.

Lemma aes_ctr_set_key_ok Nk key :
  gcm_key Nk key ->
  exists block ctr, aes_ctr_set_key junk key (zlen key) = (block, CRYPTO_gcm128_init block 4, ctr) /\
    (forall x, block16 x -> block x = AES Nk key x) /\ (forall x, length x = 16%nat -> length (block x) = 16%nat) /\
    (forall f, ctr = Some f -> bulk_of block f).
Proof.
  intros K. destruct (gcm_key_length _ _ K) as [_ Lk]. destruct (expanded_fips Nk key junk K junk_size) as [Ek Eb].
  unfold aes_ctr_set_key. assert (u32 (zlen key * 8) = 32 * Z.of_nat Nk) as ->.
  { rewrite Lk, wrapU_id; [lia|]. destruct K as [[-> | ->] _]; by unfold is_u. }
  destruct hwaes_capable; [|destruct bsaes_capable]; eexists _, _; (split; [done|]).
  - split; [intros x Hx; by apply law_v8_block|]. split; [apply law_v8_length|]. intros f [= <-]. by apply law_v8_ctr.
  - split; [done|]. split; [apply length_aes_block|]. intros f [= <-]. by apply (law_bsaes_ctr Nk key junk).
  - split; [done|]. split; [apply length_aes_block|done].
Qed.

Lemma aes_gcm_init_ok ctx Nk key tag_len :
  gcm_key Nk key -> 0 <= tag_len <= 16 ->
  exists s, EVP_AEAD_CTX_init ctx (aead_aes_gcm Nk) key tag_len true = Ok (true, mkAeadCtx (Some (aead_aes_gcm Nk)) (Some s)) /\
    gcm_usable s /\ (forall x, block16 x -> g_block s x = AES Nk key x) /\ g_tag_len s = if tag_len =? 0 then 16 else tag_len.
Proof.
  intros K Ht. destruct (aes_ctr_set_key_ok Nk key K) as (block & ctr & E & Hb & _ & Hc). destruct (gcm_key_length _ _ K) as [_ Lk].
  set (t := if tag_len =? 0 then 16 else tag_len). assert (T : 0 < t <= 16) by (unfold t; destruct (Z.eqb_spec tag_len 0); lia).
  assert (Ei : aead_aes_gcm_init junk key tag_len true = Some (mkAesGcm block (CRYPTO_gcm128_init block 4) ctr t)).
  { unfold aead_aes_gcm_init, EVP_AEAD_AES_GCM_TAG_LEN. fold t. rewrite E, Z.gtb_ltb. destruct (Z.ltb_spec 16 t); [lia|].
    rewrite (wrapU_id 8 t) by (unfold is_u; lia). rewrite Lk. by destruct K as [[-> | ->] _]. }
  exists (mkAesGcm block (CRYPTO_gcm128_init block 4) ctr t). split; [|split; [|done]].
  - unfold EVP_AEAD_CTX_init, EVP_AEAD_CTX_init_with_direction, aead_aes_gcm.
    destruct K as [[-> | ->] _]; cbn [Nat.eqb init key_len aead_aes_128_gcm aead_aes_256_gcm]; rewrite Lk; cbn [mbind res_bind]; by rewrite Ei.
  - split; cbn [g_block g_gcm g_ctr g_tag_len]; [|done|done|done].
    intros x Hx. rewrite Hb by done. rewrite <- (proj2 (expanded_fips Nk key junk K junk_size)) by done. by apply block16_aes_block.
Qed.

(** C17: an [EVP_AEAD_CTX] for AES-GCM, with AES in C or in assembler that
    keeps its laws, with keys of 128 and 256 bits, nonces and tags of any
    length: sealing writes exactly the ciphertext of NIST SP 800-38D under the
    cipher of FIPS-197 and the first bytes of its tag; opening returns 1
    exactly for a text whose last bytes are the tag of the rest, with the
    plaintext in the output area, and otherwise leaves that area zero; so it
    gives back what was sealed. *)
Theorem aes_gcm_is_nist ctx Nk key tag_len stack c mem :
  gcm_key Nk key -> 0 <= tag_len <= 16 -> valid_call c mem -> check_alias (c_in c) (c_in_len c) (c_out c) = true ->
  let t := if tag_len =? 0 then 16 else tag_len in
  c_in_len c + t <= c_max_out_len c -> c_in_len c + 16 < 2 ^ 32 ->
  let text := gcm_sealed (AES Nk key) t (nonce_area c mem) (ad_area c mem) (in_area c mem) in
  exists e, EVP_AEAD_CTX_init ctx (aead_aes_gcm Nk) key tag_len true = Ok (true, e) /\
    EVP_AEAD_CTX_seal e stack c mem = Ok (true, c_in_len c + t, splice mem (c_out c) text) /\
    gcm_opened (AES Nk key) t (nonce_area c mem) (ad_area c mem) text = Some (in_area c mem) /\
    (forall stack' c' m, valid_call c' m ->
       EVP_AEAD_CTX_open e stack' c' m =
         if check_alias (c_in c') (c_in_len c') (c_out c') && (t <=? c_in_len c') && (c_in_len c' - t <=? c_max_out_len c') then
           match gcm_opened (AES Nk key) t (nonce_area c' m) (ad_area c' m) (in_area c' m) with
           | Some p => Ok (true, zlen p, splice m (c_out c') p)
           | None => refused c' m
           end
         else refused c' m).
Proof.
  intros K Ht V Ha t Hl Hw text. destruct (aes_gcm_init_ok ctx Nk key tag_len K Ht) as (s & E & U & Hb & Et). fold t in Et.
  exists (mkAeadCtx (Some (aead_aes_gcm Nk)) (Some s)). split; [done|].
  destruct (aes_gcm_law_fields Nk s) as (Fn & Fg & Ft & Fs & Fo).
  assert (G : forall st k, good_call (AeadLaws := aes_gcm_laws Nk) st k) by (intros; by rewrite Fg).
  assert (Bn : Forall is_byte (nonce_area c mem)) by (apply Forall_slice, V).
  pose proof (gu_block _ U) as Ub. split; [|split].
  - rewrite (evp_seal_spec (aead_aes_gcm Nk)) by done. unfold seal_accepts. rewrite Fn, Ft, Fs, Et, Ha.
    assert (overhead (aead_aes_gcm Nk) = 16) as -> by (unfold aead_aes_gcm; by destruct (_ =? _)%nat).
    rewrite (proj2 (Z.leb_le _ _) Hl), (proj2 (Z.ltb_lt _ _) Hw). cbn [andb]. unfold text.
    by rewrite (gcm_sealed_same (g_block s) (AES Nk key)).
  - unfold text. rewrite <- (gcm_sealed_same (g_block s)), <- (gcm_opened_same (g_block s)) by done.
    apply gcm_open_seal; [done|rewrite <- Et; apply (gu_tag _ U)|done].
  - intros stack' c' m V'. rewrite (evp_open_spec (aead_aes_gcm Nk)) by done. unfold open_accepts. rewrite Fn, Ft, Fo, Et, andb_true_r.
    by rewrite (gcm_opened_same (g_block s) (AES Nk key)) by (done || apply Forall_slice, V').
Qed.
End Aes.

(** A machine with NEON, where assembler does what the laws
    say. *)
Definition demo_asm : AsmAes := {|
  hwaes_capable := false;
  bsaes_capable := true;
  v8_key := AES_KEY;
  aes_v8_set_encrypt_key key bits := expanded blank_key key bits;
  aes_v8_encrypt := aes_block;
  aes_v8_ctr32_encrypt_blocks := aes_ctr32_blocks;
  bsaes_ctr32_encrypt_blocks := aes_ctr32_blocks;
|}.

Lemma demo_asm_laws : AsmLaws demo_asm.
Proof.
  split; cbn.
  - intros Nk key x K Hx. by apply (expanded_fips Nk key blank_key K).
  - apply length_aes_block.
  - intros. apply aes_bulk.
  - intros. apply aes_bulk.
Qed.

(** Ten bytes sealed in place with a nonce of eight bytes. *)
Definition gcm_mem : list Z := Z.of_nat <$> seq 1 60.
Definition gcm_call : Call := mkCall 20 26 0 8 20 10 8 4.

Lemma aes_gcm_is_nist_witness :
  exists (e : EVP_AEAD_CTX aead_aes_gcm_ctx) text, EVP_AEAD_CTX_seal e [] gcm_call gcm_mem = Ok (true, 22, splice gcm_mem 20 text) /\
    text = gcm_sealed (AES 8 (demo_key 32)) 12 (slice gcm_mem 0 8) (slice gcm_mem 8 4) (slice gcm_mem 20 10).
Proof.
  assert (V : valid_call gcm_call gcm_mem).
  { split; [by apply (bool_decide_unpack _); vm_compute|change (zlen gcm_mem) with 60; cbn; lia..]. }
  assert (K : gcm_key 8 (demo_key 32)).
  { split; [by right|]. split; [done|]. apply demo_key_bytes. lia. }
  destruct (@aes_gcm_is_nist demo_asm demo_asm_laws true blank_key eq_refl 0 (mkAeadCtx None None) 8 (demo_key 32) 12 [] gcm_call gcm_mem
              K ltac:(lia) V eq_refl ltac:(by vm_compute) ltac:(by vm_compute)) as (e & _ & E & _).
  exists e. eexists. split; [exact E|reflexivity].
Defined.
