(* ===== verification/KeyWrap.v ===== *)
(** * KeyWrap: AES key wrap

    Models [aead_aes_key_wrap_*] of
    [src/fastsocks/cpp/boringssl/crypto/cipher/e_aes.c] on the caller's
    memory, with [size_t] of 32 bits.  Of [key] of the context the bytes that
    [init] copied are kept, and of [A] the eight bytes that outlive a turn.
    [for (j = 5; j < 6; j--)] ends when [j] wraps around below 0.

    Shown: sealing is the wrapping of RFC 3394; opening accepts exactly the
    texts that sealing makes with the same nonce, and gives their plaintext.
    The nonce must not lie in the output area, which is written before the
    nonce is read. *)

From S2P Require Import Prelude.
From S2P Require Import Words.
From S2P Require Import Aes.
From S2P Require Import AesSpec.
From S2P Require Import AesInverse.
From S2P Require Import Modes.
From S2P Require Import CtrMode.
From S2P Require Import Aead.
From S2P Require Import Gcm.
From S2P Require Import GcmCorrect.
From S2P Require Import AesGcm.

(** ** The code *)

Record aead_aes_key_wrap_ctx : Type := mkKw { kw_key : list Z; kw_key_bits : Z }.

Definition aead_aes_key_wrap_init (key : list Z) (tag_len : Z) (memory : bool) : option aead_aes_key_wrap_ctx :=
  let key_bits := u32 (zlen key * 8) in
  if negb (key_bits =? 128) && negb (key_bits =? 256) then None
  else
    let tag_len := if tag_len =? 0 then 8 else tag_len in
    if negb (tag_len =? 8) then None
    else if negb memory then None
    else Some (mkKw key key_bits).

Definition kDefaultAESKeyWrapNonce : list Z := replicate 8 0xa6.

(** A [for] loop over the values of its variable. *)
Fixpoint for_each {I S} (body : I -> S -> res S) (l : list I) (s : S) : res S :=
  match l with
  | [] => Ok s
  | i :: l' => s ← body i s; for_each body l' s
  end.

(** [A[7] ^= t & 0xff;] up to [A[4] ^= (t >> 24) & 0xff;] *)
Definition xor_t (A : list Z) (t : Z) : list Z :=
  let A := <[7%nat := Z.lxor (nth 7 A 0) (Z.land t 0xff)]> A in
  let A := <[6%nat := Z.lxor (nth 6 A 0) (Z.land (Z.shiftr t 8) 0xff)]> A in
  let A := <[5%nat := Z.lxor (nth 5 A 0) (Z.land (Z.shiftr t 16) 0xff)]> A in
  <[4%nat := Z.lxor (nth 4 A 0) (Z.land (Z.shiftr t 24) 0xff)]> A.

(** The bodies of both inner loops, on memory and [A]. *)
Definition wrap_body (ks : AES_KEY) (out n j i : Z) (s : list Z * list Z) : res (list Z * list Z) :=
  let '(mem, A) := s in
  r ← read_at mem (out + 8 * i) 8;
  x ← AES_encrypt (A ++ r) ks;
  let t := u32 (n * j + i) in
  mem ← write_at mem (out + 8 * i) (drop 8 x);
  Ok (mem, xor_t (take 8 x) t).

Definition unwrap_body (ks : AES_KEY) (out n j i : Z) (s : list Z * list Z) : res (list Z * list Z) :=
  let '(mem, A) := s in
  let t := u32 (n * j + i) in
  let A := xor_t A t in
  r ← read_at mem (out + 8 * (i - 1)) 8;
  x ← AES_decrypt (A ++ r) ks;
  mem ← write_at mem (out + 8 * (i - 1)) (drop 8 x);
  Ok (mem, take 8 x).

(** [memmove] *)
Definition memmove (mem : list Z) (dst src n : Z) : res (list Z) :=
  data ← read_at mem src n;
  write_at mem dst data.

(** [nonce], which a length of zero replaces by the default. *)
Definition kw_nonce (c : Call) (mem : list Z) : res (list Z) :=
  if c_nonce_len c =? 0 then Ok kDefaultAESKeyWrapNonce else read_at mem (c_nonce c) 8.

(** The tests both functions begin with. *)
Definition kw_refuses (c : Call) : bool :=
  negb (c_ad_len c =? 0) || negb ((if c_nonce_len c =? 0 then 8 else c_nonce_len c) =? 8) || negb (c_in_len c mod 8 =? 0).

Section Code.
(** What the stack held in the place of the schedule. *)
Context (junk : AES_KEY).

Definition aead_aes_key_wrap_seal (ctx : aead_aes_key_wrap_ctx) (stack : list Z) (c : Call) (mem : list Z) : res (option Z * list Z) :=
  let in_len := c_in_len c in
  let n := in_len / 8 in
  if kw_refuses c then Ok (None, mem)
  else if in_len >? 0xfffffff0 then Ok (None, mem)
  else if n <? 2 then Ok (None, mem)
  else if u32 (in_len + 8) <? in_len then Ok (None, mem)
  else if c_max_out_len c <? u32 (in_len + 8) then Ok (None, mem)
  else
    '(ret, ks) ← AES_set_encrypt_key (kw_key ctx) (kw_key_bits ctx) junk;
    if ret <? 0 then Ok (None, mem)
    else
      mem ← memmove mem (c_out c + 8) (c_in c) in_len;
      A ← kw_nonce c mem;
      '(mem, A) ← for_each (fun j => for_each (wrap_body ks (c_out c) n j) (seqZ 1 n)) [0; 1; 2; 3; 4; 5] (mem, A);
      mem ← write_at mem (c_out c) A;
      Ok (Some (u32 (in_len + 8)), mem).

Definition aead_aes_key_wrap_open (ctx : aead_aes_key_wrap_ctx) (stack : list Z) (c : Call) (mem : list Z) : res (option Z * list Z) :=
  let in_len := c_in_len c in
  if kw_refuses c then Ok (None, mem)
  else if in_len >? 0xfffffff8 then Ok (None, mem)
  else if in_len <? 24 then Ok (None, mem)
  else
    let n := in_len / 8 - 1 in
    if c_max_out_len c <? in_len - 8 then Ok (None, mem)
    else
      '(ret, ks) ← AES_set_decrypt_key (kw_key ctx) (kw_key_bits ctx) junk;
      if ret <? 0 then Ok (None, mem)
      else
        A ← read_at mem (c_in c) 8;
        mem ← memmove mem (c_out c) (c_in c + 8) (in_len - 8);
        '(mem, A) ← for_each (fun j => for_each (unwrap_body ks (c_out c) n j) (reverse (seqZ 1 n))) [5; 4; 3; 2; 1; 0] (mem, A);
        nonce ← kw_nonce c mem;
        differ ← CRYPTO_memcmp A nonce 8;
        if negb (differ =? 0) then Ok (None, mem) else Ok (Some (in_len - 8), mem).

Definition aead_aes_128_key_wrap : EVP_AEAD aead_aes_key_wrap_ctx :=
  mkAead 16 8 8 8 (Some aead_aes_key_wrap_init) None aead_aes_key_wrap_seal aead_aes_key_wrap_open.
Definition aead_aes_256_key_wrap : EVP_AEAD aead_aes_key_wrap_ctx :=
  mkAead 32 8 8 8 (Some aead_aes_key_wrap_init) None aead_aes_key_wrap_seal aead_aes_key_wrap_open.
End Code.

(** ** RFC 3394 *)

Section Rfc.
Context (cipher inverse : list Z -> list Z).

(** Step [t] on register [i]: [A] and the registers [R], eight bytes each. *)
Definition wrap_turn (t i : Z) (s : list Z * list Z) : list Z * list Z :=
  let '(A, R) := s in
  let B := cipher (A ++ slice R (8 * (i - 1)) 8) in
  (xor_list (take 8 B) (be_bytes 8 t), splice R (8 * (i - 1)) (drop 8 B)).

Definition unwrap_turn (t i : Z) (s : list Z * list Z) : list Z * list Z :=
  let '(A, R) := s in
  let B := inverse (xor_list A (be_bytes 8 t) ++ slice R (8 * (i - 1)) 8) in
  (take 8 B, splice R (8 * (i - 1)) (drop 8 B)).

(** The steps of six passes over [n] registers. *)
Definition turns (n : Z) : list (Z * Z) := j ← [0; 1; 2; 3; 4; 5]; (fun i => (n * j + i, i)) <$> seqZ 1 n.

Definition wrapped (iv p : list Z) : list Z :=
  let '(A, R) := fold_left (fun s '(t, i) => wrap_turn t i s) (turns (zlen p / 8)) (iv, p) in A ++ R.

Definition unwrapped (c : list Z) : list Z * list Z :=
  fold_left (fun s '(t, i) => unwrap_turn t i s) (reverse (turns (zlen c / 8 - 1))) (take 8 c, drop 8 c).
End Rfc.

(** RFC 3394, section 4.1. *)
Example wrap_128 :
  wrapped (AES 4 (demo_key 16)) kDefaultAESKeyWrapNonce demo_block =
    [0x1F; 0xA6; 0x8B; 0x0A; 0x81; 0x12; 0xB4; 0x47; 0xAE; 0xF3; 0x4B; 0xD8; 0xFB; 0x5A; 0x7B; 0x82; 0x9D; 0x3E; 0x86; 0x23; 0x71; 0xD2; 0xCF; 0xE5].
Proof. by vm_compute. Qed.

(** ** Loops *)

Section Loops.
Context {I S T : Type}.

(** Steps that undo each other undo each other in the opposite order. *)
Lemma fold_undo (P : S -> Prop) (f g : S -> I -> S) (l : list I) s :
  (forall x s, x ∈ l -> P s -> P (f s x) /\ g (f s x) x = s) -> P s ->
  P (fold_left f l s) /\ fold_left g (reverse l) (fold_left f l s) = s.
Proof.
  revert s. induction l as [|x l IH]; intros s H Hs; [done|]. cbn [fold_left].
  destruct (H x s) as [H1 H2]; [by left|done|]. destruct (IH (f s x)) as [H3 H4]; [intros; apply H; [by right|done]|done|].
  split; [done|]. rewrite reverse_cons, fold_left_app, H4. done.
Qed.

(** A loop on memory follows one on values. *)
Lemma for_each_follows (R : S -> T -> Prop) (body : I -> S -> res S) (f : T -> I -> T) (l : list I) s t :
  (forall x s t, x ∈ l -> R s t -> exists s', body x s = Ok s' /\ R s' (f t x)) -> R s t ->
  exists s', for_each body l s = Ok s' /\ R s' (fold_left f l t).
Proof.
  revert s t. induction l as [|x l IH]; intros s t H Hr; [by exists s|]. cbn [for_each fold_left].
  destruct (H x s t) as (s1 & -> & H1); [by left|done|]. apply IH; [|done]. intros. apply H; [by right|done].
Qed.
End Loops.

Lemma fold_left_bind {I J S} (f : S -> J -> S) (g : I -> list J) l s :
  fold_left f (l ≫= g) s = fold_left (fun s i => fold_left f (g i) s) l s.
Proof. revert s. induction l as [|x l IH]; intros s; [done|]. rewrite bind_cons, fold_left_app. apply IH. Qed.

Lemma fold_left_map {I J S} (f : S -> J -> S) (g : I -> J) l s : fold_left f (g <$> l) s = fold_left (fun s i => f s (g i)) l s.
Proof. revert s. induction l as [|x l IH]; intros s; [done|]. apply IH. Qed.

Lemma reverse_turns n : reverse (turns n) = j ← [5; 4; 3; 2; 1; 0]; (fun i => (n * j + i, i)) <$> reverse (seqZ 1 n).
Proof. unfold turns. cbn [mbind list_bind]. rewrite !reverse_app, !fmap_reverse. by rewrite !app_nil_r, <- !app_assoc. Qed.

Lemma elem_of_turns n t i : 0 <= n -> (t, i) ∈ turns n -> 1 <= i <= n /\ 0 <= t <= 6 * n.
Proof.
  intros Hn (j & H & Hj)%list_elem_of_bind. apply list_elem_of_fmap in H as (i' & [= -> ->] & Hi%elem_of_seqZ).
  split; [lia|]. repeat (apply elem_of_cons in Hj as [->|Hj]; [nia|]). by apply elem_of_nil in Hj.
Qed.

(** ** Turns *)

Record turn_good (n : Z) (s : list Z * list Z) : Prop := {
  tg_A : length (fst s) = 8%nat /\ Forall is_byte (fst s);
  tg_R : zlen (snd s) = 8 * n /\ Forall is_byte (snd s);
}.

Lemma xor_list_twice a b : length a = length b -> xor_list (xor_list a b) b = a.
Proof.
  revert b. induction a as [|x a IH]; intros [|y b] H; simplify_eq/=; [done|]. unfold xor_list in *. cbn [zip_with]. rewrite IH by done.
  by rewrite Z.lxor_assoc, Z.lxor_nilpotent, Z.lxor_0_r.
Qed.

Lemma xor_list_bytes a b : Forall is_byte a -> Forall is_byte b -> Forall is_byte (xor_list a b).
Proof.
  intros Ha. revert b. induction Ha as [|x a Hx Ha IH]; intros [|y b] Hb; try done. apply Forall_cons in Hb as [Hy Hb].
  unfold xor_list in *. cbn [zip_with]. constructor; [by apply is_u_lxor|by apply IH].
Qed.

(** The four bytes of [t] are the low ones of eight. *)
Lemma xor_t_ok A t : length A = 8%nat -> 0 <= t < 2 ^ 32 -> xor_t A t = xor_list A (be_bytes 8 t).
Proof.
  intros HA Ht. destruct A as [|a0 [|a1 [|a2 [|a3 [|a4 [|a5 [|a6 [|a7 [|]]]]]]]]]; try done.
  assert (L : forall k, Z.land (Z.shiftr t k) 0xff = u8 (Z.shiftr t k)) by (intros k; unfold wrapU; by rewrite (Z.land_ones _ 8)).
  assert (H : forall k, 32 <= k -> u8 (Z.shiftr t k) = 0).
  { intros k Hk. rewrite Z.shiftr_div_pow2 by lia. rewrite Z.div_small; [done|]. pose proof (Z.pow_le_mono_r 2 32 k). lia. }
  unfold xor_t. cbn [nth]. rewrite !L. assert (Z.land t 0xff = u8 t) as -> by (rewrite <- (Z.shiftr_0_r t); apply L).
  unfold xor_list. cbn [be_bytes zip_with]. change (8 * Z.of_nat 7) with 56. change (8 * Z.of_nat 6) with 48. change (8 * Z.of_nat 5) with 40.
  change (8 * Z.of_nat 4) with 32. change (8 * Z.of_nat 3) with 24. change (8 * Z.of_nat 2) with 16. change (8 * Z.of_nat 1) with 8.
  change (8 * Z.of_nat 0) with 0. rewrite (H 56), (H 48), (H 40), (H 32), !Z.lxor_0_r, Z.shiftr_0_r by lia. done.
Qed.

Section Turns.
Context (cipher inverse : list Z -> list Z) (n : Z).
Context (cipher_block : forall x, block x -> block (cipher x)) (inverse_block : forall x, block x -> block (inverse x)).
Context (inverse_cipher : forall x, block x -> inverse (cipher x) = x) (cipher_inverse : forall x, block x -> cipher (inverse x) = x).

(** A turn as a change of sixteen bytes at register [i]. *)
Lemma turn_parts i s : turn_good n s -> 1 <= i <= n -> block (fst s ++ slice (snd s) (8 * (i - 1)) 8).
Proof.
  intros [[LA BA] [LR BR]] Hi. assert (L : zlen (slice (snd s) (8 * (i - 1)) 8) = 8) by (apply zlen_slice; lia). unfold zlen in L.
  split; [rewrite length_app; lia|]. apply Forall_app. split; [done|by apply Forall_slice].
Qed.

Lemma block_halves B : block B -> length (take 8 B) = 8%nat /\ Forall is_byte (take 8 B) /\ zlen (drop 8 B) = 8 /\ Forall is_byte (drop 8 B).
Proof.
  intros [L H]. unfold zlen. rewrite length_take, length_drop. split; [lia|]. split; [by apply Forall_take|]. split; [lia|by apply Forall_drop].
Qed.

Lemma good_pair A R x i :
  turn_good n (A, R) -> 1 <= i <= n -> zlen x = 8 -> Forall is_byte x ->
  zlen (splice R (8 * (i - 1)) x) = 8 * n /\ Forall is_byte (splice R (8 * (i - 1)) x) /\
  slice (splice R (8 * (i - 1)) x) (8 * (i - 1)) 8 = x /\ splice (splice R (8 * (i - 1)) x) (8 * (i - 1)) (slice R (8 * (i - 1)) 8) = R.
Proof.
  intros [_ [LR BR]] Hi Lx Bx. cbn [fst snd] in *. split; [rewrite zlen_splice; lia|]. split; [by apply Forall_splice|].
  split; [rewrite <- Lx; apply slice_splice_same; lia|].
  assert (L : zlen (slice R (8 * (i - 1)) 8) = 8) by (apply zlen_slice; lia).
  rewrite splice_over by lia. apply splice_slice; lia.
Qed.

Lemma wrap_turn_ok t i s : turn_good n s -> 1 <= i <= n ->
  turn_good n (wrap_turn cipher t i s) /\ unwrap_turn inverse t i (wrap_turn cipher t i s) = s.
Proof.
  intros Hg Hi. pose proof (turn_parts i s Hg Hi) as Hb. destruct s as [A R]. cbn [fst snd] in Hb. unfold wrap_turn, unwrap_turn.
  pose proof (inverse_cipher _ Hb) as E. set (B := cipher (A ++ slice R (8 * (i - 1)) 8)) in *.
  destruct (block_halves B (cipher_block _ Hb)) as (L1 & B1 & L2 & B2). destruct (good_pair A R (drop 8 B) i Hg Hi L2 B2) as (P1 & P2 & P3 & P4).
  assert (LT : length (be_bytes 8 t) = 8%nat) by apply length_be_bytes. split.
  - split; cbn [fst snd]; [|done]. split; [rewrite length_xor_list; lia|]. apply xor_list_bytes; [done|apply be_bytes_bytes].
  - rewrite P3, xor_list_twice, take_drop, E by lia. destruct Hg as [[LA _] _]. cbn [fst] in LA.
    rewrite take_app_length', drop_app_length' by done. by rewrite P4.
Qed.

Lemma unwrap_turn_ok t i s : turn_good n s -> 1 <= i <= n ->
  turn_good n (unwrap_turn inverse t i s) /\ wrap_turn cipher t i (unwrap_turn inverse t i s) = s.
Proof.
  intros Hg Hi. destruct s as [A R]. unfold wrap_turn, unwrap_turn. destruct (tg_A _ _ Hg) as [LA BA]. cbn [fst] in LA, BA.
  assert (LT : length (be_bytes 8 t) = 8%nat) by apply length_be_bytes.
  assert (LX : length (xor_list A (be_bytes 8 t)) = 8%nat) by (rewrite length_xor_list; lia).
  assert (Hg' : turn_good n (xor_list A (be_bytes 8 t), R)).
  { split; [split; [done|apply xor_list_bytes; [done|apply be_bytes_bytes]]|apply (tg_R _ _ Hg)]. }
  pose proof (turn_parts i _ Hg' Hi) as Hb. cbn [fst snd] in Hb. pose proof (cipher_inverse _ Hb) as E.
  set (B := inverse (xor_list A (be_bytes 8 t) ++ slice R (8 * (i - 1)) 8)) in *.
  destruct (block_halves B (inverse_block _ Hb)) as (L1 & B1 & L2 & B2). destruct (good_pair A R (drop 8 B) i Hg Hi L2 B2) as (P1 & P2 & P3 & P4).
  split; [by split|]. rewrite P3, take_drop, E, take_app_length', drop_app_length' by done. by rewrite P4, xor_list_twice by lia.
Qed.

Abbreviation wrap_all := (fold_left (fun s '(t, i) => wrap_turn cipher t i s)).
Abbreviation unwrap_all := (fold_left (fun s '(t, i) => unwrap_turn inverse t i s)).

Lemma wrap_all_ok s : 0 <= n -> turn_good n s ->
  turn_good n (wrap_all (turns n) s) /\ unwrap_all (reverse (turns n)) (wrap_all (turns n) s) = s.
Proof.
  intros Hn Hs. apply (fold_undo (turn_good n)); [|done]. intros [t i] s' Hin Hg. apply elem_of_turns in Hin as [Hi _]; [|done].
  by apply wrap_turn_ok.
Qed.

Lemma unwrap_all_ok s : 0 <= n -> turn_good n s ->
  turn_good n (unwrap_all (reverse (turns n)) s) /\ wrap_all (turns n) (unwrap_all (reverse (turns n)) s) = s.
Proof.
  intros Hn Hs. rewrite <- (reverse_involutive (turns n)) at 2. apply (fold_undo (turn_good n)); [|done].
  intros [t i] s' Hin Hg. apply elem_of_reverse, elem_of_turns in Hin as [Hi _]; [|done]. by apply unwrap_turn_ok.
Qed.
End Turns.

(** ** Whole texts *)

Section Texts.
Context (cipher inverse : list Z -> list Z).
Context (cipher_block : forall x, block x -> block (cipher x)) (inverse_block : forall x, block x -> block (inverse x)).
Context (inverse_cipher : forall x, block x -> inverse (cipher x) = x) (cipher_inverse : forall x, block x -> cipher (inverse x) = x).

Definition kw_iv (iv : list Z) : Prop := length iv = 8%nat /\ Forall is_byte iv.

Lemma wrapped_ok iv p n : kw_iv iv -> 0 <= n -> zlen p = 8 * n -> Forall is_byte p ->
  zlen (wrapped cipher iv p) = 8 * (n + 1) /\ Forall is_byte (wrapped cipher iv p) /\ unwrapped inverse (wrapped cipher iv p) = (iv, p).
Proof.
  intros Hi Hn Lp Bp. unfold wrapped, unwrapped. assert (zlen p / 8 = n) as -> by (rewrite Lp; zlia).
  destruct (wrap_all_ok cipher inverse n cipher_block inverse_cipher (iv, p)) as [Hg Hu]; [done|by split|].
  destruct (fold_left _ (turns n) (iv, p)) as [A R]. destruct Hg as [[LA BA] [LR BR]]. cbn [fst snd] in *.
  assert (L : zlen (A ++ R) = 8 * (n + 1)) by (rewrite zlen_app, LR; unfold zlen; lia).
  split; [done|]. split; [by apply Forall_app|]. assert (zlen (A ++ R) / 8 - 1 = n) as -> by (rewrite L; zlia).
  by rewrite take_app_length', drop_app_length'.
Qed.

Lemma unwrapped_ok c n : 0 <= n -> zlen c = 8 * (n + 1) -> Forall is_byte c ->
  let '(A, R) := unwrapped inverse c in
  kw_iv A /\ zlen R = 8 * n /\ Forall is_byte R /\ wrapped cipher A R = c.
Proof.
  intros Hn Lc Bc. unfold unwrapped, wrapped. assert (zlen c / 8 - 1 = n) as -> by (rewrite Lc; zlia).
  destruct (unwrap_all_ok cipher inverse n inverse_block cipher_inverse (take 8 c, drop 8 c)) as [Hg Hw]; [done| |].
  { unfold zlen in Lc. split; cbn [fst snd]; unfold zlen; rewrite ?length_take, ?length_drop; (split; [lia|]);
      [by apply Forall_take|by apply Forall_drop]. }
  destruct (fold_left _ (reverse (turns n)) _) as [A R]. destruct Hg as [[LA BA] [LR BR]]. cbn [fst snd] in *.
  split; [done|]. split; [done|]. split; [done|]. assert (zlen R / 8 = n) as -> by (rewrite LR; zlia). rewrite Hw. apply take_drop.
Qed.
End Texts.

(** ** The cipher is onto *)

(** All words of [k] bytes, in some order. *)
Fixpoint words (k : nat) : list (list Z) :=
  match k with
  | O => [[]]
  | S k' => b ← byte_values; (cons b) <$> words k'
  end.

Lemma elem_of_words k l : l ∈ words k <-> length l = k /\ Forall is_byte l.
Proof.
  revert l. induction k as [|k IH]; intros l; cbn [words].
  - rewrite list_elem_of_singleton. split; [intros ->; by split|]. intros [H _]. by apply nil_length_inv.
  - rewrite list_elem_of_bind. split.
    + intros (b & (l' & -> & [Hl Hb]%IH)%list_elem_of_fmap & (i & -> & Hi%elem_of_seq)%list_elem_of_fmap). split; [cbn [length]; lia|].
      constructor; [unfold is_u; lia|done].
    + destruct l as [|b l]; [by intros [? _]|]. intros [[= Hl] [Hb Hf]%Forall_cons]. exists b.
      split; [apply list_elem_of_fmap; exists l; split; [done|by apply IH]|]. apply list_elem_of_fmap. exists (Z.to_nat b).
      unfold is_u in Hb. split; [lia|apply elem_of_seq; lia].
Qed.

Lemma NoDup_words k : NoDup (words k).
Proof.
  induction k as [|k IH]; cbn [words]; [apply NoDup_singleton|]. apply NoDup_bind.
  - intros b1 b2 l _ _ (l1 & -> & _)%list_elem_of_fmap (l2 & [= -> _] & _)%list_elem_of_fmap. done.
  - intros b _. apply NoDup_fmap_2; [|done]. by intros l1 l2 [= ->].
  - unfold byte_values. apply NoDup_fmap_2; [|apply NoDup_seq]. intros i j H. lia.
Qed.

(** A map on words of a length that can be undone reaches all of them. *)
Lemma words_onto k (f g : list Z -> list Z) :
  (forall x, length x = k /\ Forall is_byte x -> (length (f x) = k /\ Forall is_byte (f x)) /\ g (f x) = x) ->
  forall y, length y = k /\ Forall is_byte y -> exists x, (length x = k /\ Forall is_byte x) /\ f x = y.
Proof.
  intros H y Hy.
  assert (P : f <$> words k ≡ₚ words k).
  { apply submseteq_length_Permutation; [|by rewrite length_fmap]. apply NoDup_submseteq.
    - apply NoDup_fmap_2_strong; [|apply NoDup_words]. intros x1 x2 H1%elem_of_words H2%elem_of_words E.
      rewrite <- (proj2 (H x1 H1)), <- (proj2 (H x2 H2)). by rewrite E.
    - intros z (x & -> & Hx%elem_of_words)%list_elem_of_fmap. apply elem_of_words. by apply H. }
  apply elem_of_words in Hy. rewrite <- P in Hy. apply list_elem_of_fmap in Hy as (x & -> & Hx%elem_of_words). by exists x.
Qed.

(** ** Keys *)

Section Keys.
Context (Nk : nat) (key : list Z) (K : gcm_key Nk key) (junk : AES_KEY) (junk_size : length (rd_key junk) = 60%nat).

(** The function of the schedule for decryption. *)
Definition kw_inverse (x : list Z) : list Z :=
  match AES_set_decrypt_key key (32 * Z.of_nat Nk) junk with
  | Ok (_, dk) => match AES_decrypt x dk with Ok y => y | Fault _ => x end
  | Fault _ => x
  end.

Lemma kw_encrypt_key : exists ek, AES_set_encrypt_key key (32 * Z.of_nat Nk) junk = Ok (0, ek) /\
  forall x, block x -> AES_encrypt x ek = Ok (AES Nk key x) /\ block (AES Nk key x).
Proof.
  destruct (expanded_fips Nk key junk K junk_size) as [E Hx]. eexists. split; [exact E|]. intros x Hb.
  destruct (gcm_key_length _ _ K) as [HN _]. destruct K as (_ & Lk & Bk).
  destruct (encrypt_spec Nk key x junk HN Lk Bk Hb junk_size) as (rd & E0 & E1). rewrite E in E0. injection E0 as E0. rewrite E0. split; [done|].
  rewrite <- (Hx x Hb). by apply block16_aes_block.
Qed.

Lemma kw_decrypt_key : exists dk, AES_set_decrypt_key key (32 * Z.of_nat Nk) junk = Ok (0, dk) /\
  (forall x, block x -> AES_decrypt x dk = Ok (kw_inverse x) /\ block (kw_inverse x)) /\
  (forall x, block x -> kw_inverse (AES Nk key x) = x) /\ (forall x, block x -> AES Nk key (kw_inverse x) = x).
Proof.
  destruct (gcm_key_length _ _ K) as [HN _]. pose proof K as (_ & Lk & Bk). destruct kw_encrypt_key as (ek & _ & He).
  destruct (decrypt_spec Nk key junk HN Lk Bk junk_size) as (rd & E & D1 & D2). unfold kw_inverse. rewrite E. eexists. split; [done|].
  assert (I : forall x, block x -> match AES_decrypt (AES Nk key x) (mkAES_KEY rd (Z.of_nat (Nk + 6))) with Ok y => y | Fault _ => AES Nk key x end = x).
  { intros x Hx. by rewrite D1. }
  split; [|split; [done|]].
  - intros x Hx. destruct (D2 x Hx) as (y & -> & By). done.
  - intros y Hy. destruct (words_onto 16 (AES Nk key) (fun x => match AES_decrypt x (mkAES_KEY rd (Z.of_nat (Nk + 6))) with Ok y => y | Fault _ => x end))
      with (y := y) as (x & Hx & <-); [|done|by rewrite I].
    intros x Hx. split; [by apply He|by apply I].
Qed.

(** ** The loops in memory *)

Context (mem0 : list Z) (base n : Z) (Hbase : 0 <= base) (Hn : 0 <= n < 2 ^ 29) (Hroom : base + 8 * n <= zlen mem0).

(** The registers are in memory from [base] on. *)
Definition kw_rel (s t : list Z * list Z) : Prop := s = (splice mem0 base (snd t), fst t) /\ turn_good n t.

Lemma kw_register t i : turn_good n t -> 1 <= i <= n ->
  read_at (splice mem0 base (snd t)) (base + 8 * (i - 1)) 8 = Ok (slice (snd t) (8 * (i - 1)) 8) /\
  forall x, zlen x = 8 ->
    write_at (splice mem0 base (snd t)) (base + 8 * (i - 1)) x = Ok (splice mem0 base (splice (snd t) (8 * (i - 1)) x)).
Proof.
  intros [_ [LR _]] Hi. split.
  - rewrite read_at_Ok by (rewrite ?zlen_splice; lia). by rewrite slice_inside by lia.
  - intros x Lx. rewrite write_at_Ok by (rewrite ?zlen_splice; lia). by rewrite splice_inside by lia.
Qed.

Lemma wrap_body_ok ek j i s t :
  (forall x, block x -> AES_encrypt x ek = Ok (AES Nk key x) /\ block (AES Nk key x)) ->
  0 <= j <= 5 -> 1 <= i <= n -> kw_rel s t ->
  exists s', wrap_body ek (base - 8) n j i s = Ok s' /\ kw_rel s' (wrap_turn (AES Nk key) (n * j + i) i t).
Proof.
  intros He Hj Hi [-> Hg]. destruct (kw_register t i Hg Hi) as [Hr Hw]. destruct t as [A R]. cbn [fst snd] in *.
  destruct (kw_decrypt_key) as (dk & _ & _ & Hinv & _).
  destruct (wrap_turn_ok (AES Nk key) kw_inverse n (fun x Hx => proj2 (He x Hx)) Hinv (n * j + i) i (A, R) Hg Hi) as [Hg' _].
  pose proof (turn_parts n i (A, R) Hg Hi) as Hb. cbn [fst snd] in Hb. destruct (He _ Hb) as [E Eb].
  destruct (block_halves _ Eb) as (L1 & _ & L2 & _). unfold wrap_body. replace (base - 8 + 8 * i) with (base + 8 * (i - 1)) by lia.
  rewrite Hr. cbn [mbind res_bind]. rewrite E. cbn [mbind res_bind]. rewrite Hw by done. cbn [mbind res_bind]. eexists. split; [done|].
  split; [|done]. unfold wrap_turn. cbn [fst snd]. rewrite wrapU_id by (unfold is_u; nia). by rewrite xor_t_ok by (done || nia).
Qed.

Lemma unwrap_body_ok dk j i s t :
  (forall x, block x -> AES_decrypt x dk = Ok (kw_inverse x) /\ block (kw_inverse x)) ->
  0 <= j <= 5 -> 1 <= i <= n -> kw_rel s t ->
  exists s', unwrap_body dk base n j i s = Ok s' /\ kw_rel s' (unwrap_turn kw_inverse (n * j + i) i t).
Proof.
  intros Hd Hj Hi [-> Hg]. destruct (kw_register t i Hg Hi) as [Hr Hw]. destruct t as [A R]. cbn [fst snd] in *.
  destruct kw_decrypt_key as (dk' & _ & _ & _ & Hinv).
  destruct (unwrap_turn_ok (AES Nk key) kw_inverse n (fun x Hx => proj2 (Hd x Hx)) Hinv (n * j + i) i (A, R) Hg Hi) as [Hg' _].
  pose proof Hg as [[LA BA] HR]. cbn [fst] in LA, BA. assert (LT : length (be_bytes 8 (n * j + i)) = 8%nat) by apply length_be_bytes.
  assert (Hgx : turn_good n (xor_list A (be_bytes 8 (n * j + i)), R)).
  { split; [split; cbn [fst]; [rewrite length_xor_list; lia|apply xor_list_bytes; [done|apply be_bytes_bytes]]|done]. }
  pose proof (turn_parts n i _ Hgx Hi) as Hb. cbn [fst snd] in Hb. destruct (Hd _ Hb) as [E Eb].
  destruct (block_halves _ Eb) as (L1 & _ & L2 & _). unfold unwrap_body. rewrite wrapU_id by (unfold is_u; nia).
  rewrite xor_t_ok by (done || nia). rewrite Hr. cbn [mbind res_bind]. rewrite E. cbn [mbind res_bind]. rewrite Hw by done. cbn [mbind res_bind].
  eexists. split; [done|]. split; [|done]. done.
Qed.

Lemma wrap_loops ek s t :
  (forall x, block x -> AES_encrypt x ek = Ok (AES Nk key x) /\ block (AES Nk key x)) -> kw_rel s t ->
  exists s', for_each (fun j => for_each (wrap_body ek (base - 8) n j) (seqZ 1 n)) [0; 1; 2; 3; 4; 5] s = Ok s' /\
    kw_rel s' (fold_left (fun s '(t, i) => wrap_turn (AES Nk key) t i s) (turns n) t).
Proof.
  intros He Hs. unfold turns. rewrite fold_left_bind. apply for_each_follows; [|done]. intros j s1 t1 Hj Hs1.
  rewrite fold_left_map. apply (for_each_follows kw_rel); [|done]. intros i s2 t2 Hi%elem_of_seqZ Hs2.
  apply wrap_body_ok; try done; [|lia]. repeat (apply elem_of_cons in Hj as [->|Hj]; [lia|]). by apply elem_of_nil in Hj.
Qed.

Lemma unwrap_loops dk s t :
  (forall x, block x -> AES_decrypt x dk = Ok (kw_inverse x) /\ block (kw_inverse x)) -> kw_rel s t ->
  exists s', for_each (fun j => for_each (unwrap_body dk base n j) (reverse (seqZ 1 n))) [5; 4; 3; 2; 1; 0] s = Ok s' /\
    kw_rel s' (fold_left (fun s '(t, i) => unwrap_turn kw_inverse t i s) (reverse (turns n)) t).
Proof.
  intros Hd Hs. rewrite reverse_turns, fold_left_bind. apply for_each_follows; [|done]. intros j s1 t1 Hj Hs1.
  rewrite fold_left_map. apply (for_each_follows kw_rel); [|done]. intros i s2 t2 Hi%elem_of_reverse%elem_of_seqZ Hs2.
  apply unwrap_body_ok; try done; [|lia]. repeat (apply elem_of_cons in Hj as [->|Hj]; [lia|]). by apply elem_of_nil in Hj.
Qed.
End Keys.

(** ** Sealing and opening *)

Definition kw_Nk (s : aead_aes_key_wrap_ctx) : nat := Z.to_nat (kw_key_bits s / 32).
Definition kw_usable (s : aead_aes_key_wrap_ctx) : Prop := gcm_key (kw_Nk s) (kw_key s) /\ kw_key_bits s = 32 * Z.of_nat (kw_Nk s).

Definition kw_iv_of (n : list Z) : list Z := match n with [] => kDefaultAESKeyWrapNonce | _ => n end.
Definition kw_fits (nl al pl : Z) : bool := ((nl =? 0) || (nl =? 8)) && (al =? 0) && (pl mod 8 =? 0) && (16 <=? pl).

(** The nonce is not where the output goes. *)
Definition kw_call (c : Call) : Prop :=
  c_nonce_len c = 0 \/ c_nonce c + c_nonce_len c <= c_out c \/ c_out c + c_max_out_len c <= c_nonce c.

Lemma kw_fits_lengths nl al pl :
  kw_fits nl al pl = true <-> (nl = 0 \/ nl = 8) /\ al = 0 /\ (exists n, pl = 8 * n) /\ 16 <= pl.
Proof.
  unfold kw_fits. rewrite !andb_true_iff, orb_true_iff, !Z.eqb_eq, Z.leb_le. split.
  - intros [[[H1 H2] H3] H4]. split; [done|]. split; [done|]. split; [exists (pl / 8); zlia|done].
  - intros (H1 & H2 & (n & ->) & H4). split; [|done]. split; [done|]. zlia.
Qed.

Lemma kw_iv_area c mem : valid_call c mem -> c_nonce_len c = 0 \/ c_nonce_len c = 8 -> kw_iv (kw_iv_of (nonce_area c mem)).
Proof.
  intros V H. destruct (vc_nonce _ _ V) as (? & ? & ?). assert (L : zlen (nonce_area c mem) = c_nonce_len c) by (apply zlen_slice; lia).
  assert (B : Forall is_byte (nonce_area c mem)) by (apply Forall_slice, V). unfold zlen in L.
  destruct (nonce_area c mem) as [|x l]; [by split; [|apply Forall_replicate]|]. cbn [kw_iv_of]. split; [cbn [length] in *; lia|done].
Qed.

(** The nonce as it is read after the output was written. *)
Lemma kw_nonce_ok c mem off x :
  valid_call c mem -> kw_call c -> c_nonce_len c = 0 \/ c_nonce_len c = 8 ->
  c_out c <= off -> off + zlen x <= c_out c + c_max_out_len c ->
  kw_nonce c (splice mem off x) = Ok (kw_iv_of (nonce_area c mem)).
Proof.
  intros V Hc Hl Ho Hx. destruct (vc_nonce _ _ V) as (? & ? & ?), (vc_out _ _ V) as (? & ? & ?). pose proof (zlen_nonneg x).
  assert (L : zlen (nonce_area c mem) = c_nonce_len c) by (apply zlen_slice; lia). unfold kw_nonce.
  destruct (Z.eqb_spec (c_nonce_len c) 0) as [E|E].
  - unfold nonce_area. rewrite E. done.
  - assert (E8 : c_nonce_len c = 8) by lia. rewrite read_at_Ok by (rewrite ?zlen_splice; lia). f_equal.
    assert (slice (splice mem off x) (c_nonce c) 8 = nonce_area c mem) as ->.
    { unfold nonce_area. rewrite E8. destruct Hc as [?|[?|?]]; [lia|apply slice_splice_before; lia|apply slice_splice_after; lia]. }
    unfold zlen in L. destruct (nonce_area c mem); [simpl in L; lia|done].
Qed.

Section Laws.
Context (junk : AES_KEY) (junk_size : length (rd_key junk) = 60%nat).

Definition kw_sealed (s : aead_aes_key_wrap_ctx) (n d p : list Z) : list Z := wrapped (AES (kw_Nk s) (kw_key s)) (kw_iv_of n) p.
Definition kw_opened (s : aead_aes_key_wrap_ctx) (n d t : list Z) : option (list Z) :=
  let '(A, R) := unwrapped (kw_inverse (kw_Nk s) (kw_key s) junk) t in if bool_decide (A = kw_iv_of n) then Some R else None.

Lemma kw_refuses_fits c pl :
  16 <= pl -> c_in_len c mod 8 = pl mod 8 -> kw_refuses c = negb (kw_fits (c_nonce_len c) (c_ad_len c) pl).
Proof.
  intros Hp Hm. unfold kw_refuses, kw_fits. rewrite Hm. destruct (Z.leb_spec 16 pl); [|lia]. rewrite andb_true_r.
  assert (((if c_nonce_len c =? 0 then 8 else c_nonce_len c) =? 8) = ((c_nonce_len c =? 0) || (c_nonce_len c =? 8))) as ->.
  { by destruct (Z.eqb_spec (c_nonce_len c) 0). }
  destruct ((c_nonce_len c =? 0) || (c_nonce_len c =? 8)), (c_ad_len c =? 0), (pl mod 8 =? 0); done.
Qed.

(** What the two functions begin with refuses the other lengths. *)
Lemma kw_too_short c pl :
  c_in_len c mod 8 = pl mod 8 -> kw_fits (c_nonce_len c) (c_ad_len c) pl = false -> kw_refuses c = true \/ pl < 16.
Proof. intros H Hf. destruct (decide (pl < 16)); [by right|left]. rewrite (kw_refuses_fits c pl) by (done || lia). by rewrite Hf. Qed.

Lemma kw_seal_ok s stack c mem :
  kw_usable s -> kw_call c -> valid_call c mem ->
  aead_aes_key_wrap_seal junk s stack c mem =
    Ok (if kw_fits (c_nonce_len c) (c_ad_len c) (c_in_len c) && (c_in_len c + 8 <=? c_max_out_len c)
        then (Some (c_in_len c + 8), splice mem (c_out c) (kw_sealed s (nonce_area c mem) (ad_area c mem) (in_area c mem)))
        else (None, mem)).
Proof.
  intros [K Kb] Hc V. destruct (vc_out _ _ V) as (O1 & O2 & O3), (vc_in _ _ V) as (I1 & I2 & I3). pose proof (vc_space _ _ V) as Hs.
  unfold aead_aes_key_wrap_seal. rewrite Z.gtb_ltb. destruct (kw_fits _ _ _) eqn:Hf; cbn [andb].
  2: { destruct (kw_too_short c _ eq_refl Hf) as [->|Hl]; [done|]. destruct (kw_refuses c); [done|]. destruct (_ <? c_in_len c); [done|].
       by destruct (Z.ltb_spec (c_in_len c / 8) 2); [|zlia]. }
  pose proof Hf as (Hnl & _ & (n & En) & Hp)%kw_fits_lengths. rewrite (kw_refuses_fits c (c_in_len c)), Hf by done. cbn [negb].
  assert (c_in_len c / 8 = n) as -> by (rewrite En; zlia). destruct (Z.ltb_spec n 2); [lia|].
  destruct (Z.ltb_spec 0xfffffff0 (c_in_len c)); [by destruct (Z.leb_spec (c_in_len c + 8) (c_max_out_len c)); [lia|]|].
  rewrite wrapU_id by (unfold is_u; lia). destruct (Z.ltb_spec (c_in_len c + 8) (c_in_len c)); [lia|].
  destruct (Z.ltb_spec (c_max_out_len c) (c_in_len c + 8)), (Z.leb_spec (c_in_len c + 8) (c_max_out_len c)); try lia; [done|].
  destruct (kw_encrypt_key (kw_Nk s) (kw_key s) K junk junk_size) as (ek & E & He). rewrite Kb, E. cbn [mbind res_bind Z.ltb Z.compare].
  unfold memmove. rewrite read_at_Ok by lia. cbn [mbind res_bind]. fold (in_area c mem).
  assert (Li : zlen (in_area c mem) = 8 * n) by (unfold in_area; rewrite zlen_slice; lia).
  assert (Bi : Forall is_byte (in_area c mem)) by (apply Forall_slice, V).
  rewrite write_at_Ok by lia. cbn [mbind res_bind]. rewrite kw_nonce_ok by (done || lia). cbn [mbind res_bind].
  pose proof (kw_iv_area c mem V Hnl) as Hi. set (iv := kw_iv_of (nonce_area c mem)) in *.
  destruct (wrap_loops (kw_Nk s) (kw_key s) K junk junk_size mem (c_out c + 8) n) with (ek := ek)
    (s := (splice mem (c_out c + 8) (in_area c mem), iv)) (t := (iv, in_area c mem)) as (s' & E1 & E2 & Hg); [lia..|done|by split|].
  replace (c_out c + 8 - 8) with (c_out c) in E1 by lia. rewrite E1. cbn [mbind res_bind]. rewrite E2. unfold kw_sealed, wrapped.
  rewrite Li. replace (8 * n / 8) with n by zlia. fold iv. destruct (fold_left _ (turns n) _) as [A R].
  destruct Hg as [[LA _] [LR _]]. cbn [fst snd] in *. assert (LA' : zlen A = 8) by (unfold zlen; lia).
  rewrite write_at_Ok by (rewrite ?zlen_splice; lia). cbn [mbind res_bind].
  replace (c_out c + 8) with (c_out c + zlen A) by lia. by rewrite splice_front by lia.
Qed.

Lemma kw_open_ok s stack c mem :
  kw_usable s -> kw_call c -> valid_call c mem ->
  exists rest, zlen rest = zlen mem /\ zeroed c rest = zeroed c mem /\
  aead_aes_key_wrap_open junk s stack c mem =
    Ok (if kw_fits (c_nonce_len c) (c_ad_len c) (c_in_len c - 8) && (8 <=? c_in_len c) && (c_in_len c - 8 <=? c_max_out_len c)
        then match kw_opened s (nonce_area c mem) (ad_area c mem) (in_area c mem) with
             | Some p => (Some (zlen p), splice mem (c_out c) p)
             | None => (None, rest)
             end
        else (None, mem)).
Proof.
  intros [K Kb] Hc V. destruct (vc_out _ _ V) as (O1 & O2 & O3), (vc_in _ _ V) as (I1 & I2 & I3). pose proof (vc_space _ _ V) as Hs.
  assert (Em : c_in_len c mod 8 = (c_in_len c - 8) mod 8) by zlia.
  unfold aead_aes_key_wrap_open. rewrite Z.gtb_ltb. destruct (kw_fits _ _ _) eqn:Hf; cbn [andb].
  2: { exists mem. split; [done|]. split; [done|]. destruct (kw_too_short c _ Em Hf) as [->|Hl]; [done|]. destruct (kw_refuses c); [done|].
       destruct (_ <? c_in_len c); [done|]. by destruct (Z.ltb_spec (c_in_len c) 24); [|lia]. }
  pose proof Hf as (Hnl & _ & (n & En) & Hp)%kw_fits_lengths. rewrite (kw_refuses_fits c (c_in_len c - 8)), Hf by done. cbn [negb].
  destruct (Z.ltb_spec 0xfffffff8 (c_in_len c)); [zlia|]. destruct (Z.ltb_spec (c_in_len c) 24); [lia|].
  destruct (Z.leb_spec 8 (c_in_len c)); [|lia]. assert (c_in_len c / 8 - 1 = n) as -> by zlia. cbn [andb].
  destruct (Z.ltb_spec (c_max_out_len c) (c_in_len c - 8)), (Z.leb_spec (c_in_len c - 8) (c_max_out_len c)); try lia; [by exists mem|].
  destruct (kw_decrypt_key (kw_Nk s) (kw_key s) K junk junk_size) as (dk & E & Hd & _ & _). rewrite Kb, E. cbn [mbind res_bind Z.ltb Z.compare].
  unfold memmove. rewrite !read_at_Ok by lia. cbn [mbind res_bind]. set (A0 := slice mem (c_in c) 8). set (R0 := slice mem (c_in c + 8) (c_in_len c - 8)).
  assert (LA0 : zlen A0 = 8) by (apply zlen_slice; lia). assert (LR0 : zlen R0 = 8 * n) by (unfold R0; rewrite zlen_slice; lia).
  assert (LA1 : length A0 = 8%nat) by (unfold zlen in LA0; lia).
  assert (Ei : in_area c mem = A0 ++ R0) by (unfold in_area; replace (c_in_len c) with (8 + (c_in_len c - 8)) by lia; apply slice_app; lia).
  rewrite write_at_Ok by lia. cbn [mbind res_bind].
  destruct (unwrap_loops (kw_Nk s) (kw_key s) K junk junk_size mem (c_out c) n) with (dk := dk)
    (s := (splice mem (c_out c) R0, A0)) (t := (A0, R0)) as (s' & E1 & E2 & Hg); [lia..|done| |].
  { split; [done|]. split; (split; [done|]); apply Forall_slice, V. }
  rewrite E1. cbn [mbind res_bind]. rewrite E2. unfold kw_opened, unwrapped. rewrite Ei, take_app_length', drop_app_length' by done.
  rewrite zlen_app, LA0, LR0. replace ((8 + 8 * n) / 8 - 1) with n by zlia. destruct (fold_left _ (reverse (turns n)) _) as [A R].
  destruct Hg as [[LA BA] [LR BR]]. cbn [fst snd] in *. rewrite kw_nonce_ok by (done || lia). cbn [mbind res_bind].
  destruct (kw_iv_area c mem V Hnl) as [Lv Bv]. set (iv := kw_iv_of (nonce_area c mem)) in *.
  destruct (CRYPTO_memcmp_spec A iv 8) as (y & -> & Ey); [done|done|unfold zlen; lia|unfold zlen; lia|]. cbn [mbind res_bind].
  unfold slice in Ey. change (Z.to_nat 0) with 0%nat in Ey. rewrite !drop_0, !take_ge in Ey by (change (Z.to_nat 8) with 8%nat; lia).
  exists (splice mem (c_out c) R). split; [apply zlen_splice; lia|]. split.
  { unfold zeroed. apply splice_over; [lia|..]; unfold zlen in *; rewrite length_replicate; lia. }
  rewrite Ey. case_bool_decide; cbn [negb]; [|done]. by rewrite LR, En.
Qed.

Lemma kw_iv_list n : zlen n = 0 \/ zlen n = 8 -> Forall is_byte n -> kw_iv (kw_iv_of n).
Proof.
  intros H B. unfold zlen in H. destruct n as [|x n]; [by split; [|apply Forall_replicate]|]. cbn [kw_iv_of]. split; [cbn [length] in *; lia|done].
Qed.

(** Opening undoes sealing, and accepts nothing else. *)
Lemma kw_sealed_opens s n d p :
  kw_usable s -> kw_fits (zlen n) (zlen d) (zlen p) = true -> Forall is_byte n -> Forall is_byte p ->
  zlen (kw_sealed s n d p) = zlen p + 8 /\ Forall is_byte (kw_sealed s n d p) /\ kw_opened s n d (kw_sealed s n d p) = Some p.
Proof.
  intros [K _] (Hnl & _ & (k & Ek) & Hl)%kw_fits_lengths Hn Hp.
  destruct (kw_encrypt_key (kw_Nk s) (kw_key s) K junk junk_size) as (ek & _ & He).
  destruct (kw_decrypt_key (kw_Nk s) (kw_key s) K junk junk_size) as (dk & _ & _ & Hi & _).
  destruct (wrapped_ok (AES (kw_Nk s) (kw_key s)) (kw_inverse (kw_Nk s) (kw_key s) junk) (fun x Hx => proj2 (He x Hx)) Hi (kw_iv_of n) p k)
    as (L & B & U); [by apply kw_iv_list|lia|lia|done|].
  unfold kw_opened, kw_sealed. rewrite U. split; [lia|]. split; [done|]. by rewrite bool_decide_eq_true_2.
Qed.

Lemma kw_opened_sealed s n d t p :
  kw_usable s -> kw_fits (zlen n) (zlen d) (zlen t - 8) = true -> Forall is_byte t -> kw_opened s n d t = Some p ->
  t = kw_sealed s n d p /\ zlen t = zlen p + 8 /\ Forall is_byte p.
Proof.
  intros [K _] (Hnl & _ & (k & Ek) & Hl)%kw_fits_lengths Ht.
  destruct (kw_decrypt_key (kw_Nk s) (kw_key s) K junk junk_size) as (dk & _ & Hd & _ & Hi).
  pose proof (unwrapped_ok (AES (kw_Nk s) (kw_key s)) (kw_inverse (kw_Nk s) (kw_key s) junk) (fun x Hx => proj2 (Hd x Hx)) Hi t k) as U.
  unfold kw_opened, kw_sealed. destruct (unwrapped _ t) as [A R]. destruct U as (_ & LR & BR & E); [lia|lia|done|].
  case_bool_decide as EA; [|done]. intros [= <-]. subst A. split; [done|]. split; [lia|done].
Qed.

Definition kw_laws (A : EVP_AEAD aead_aes_key_wrap_ctx)
    (Es : seal A = aead_aes_key_wrap_seal junk) (Eo : open A = aead_aes_key_wrap_open junk) (Ev : overhead A = 8) : AeadLaws A.
Proof.
  refine {| usable := kw_usable; call_fits := kw_fits; good_call _ c := kw_call c; tag_size _ := 8; sealed := kw_sealed; opened := kw_opened |}.
  - intros s _. lia.
  - intros s n d p U Hf Hn Hd Hp. by destruct (kw_sealed_opens s n d p U Hf Hn Hp) as (? & ? & _).
  - intros s n d p U Hf Hn Hd Hp. by apply kw_sealed_opens.
  - intros s stack c mem U G V _. rewrite Es. by apply kw_seal_ok.
  - intros s stack c mem U G V _. rewrite Eo. by apply kw_open_ok.
Defined.

(** A text of [p] in the input area opens to [p]. *)
Lemma kw_text_opens s c mem p :
  kw_usable s -> valid_call c mem -> Forall is_byte p -> kw_fits (c_nonce_len c) (c_ad_len c) (zlen p) = true ->
  in_area c mem = kw_sealed s (nonce_area c mem) (ad_area c mem) p ->
  c_in_len c - 8 = zlen p /\ kw_opened s (nonce_area c mem) (ad_area c mem) (in_area c mem) = Some p.
Proof.
  intros U V Bp Hf Ei. destruct (vc_in _ _ V) as (? & ? & ?), (vc_nonce _ _ V) as (? & ? & ?), (vc_ad _ _ V) as (? & ? & ?).
  assert (Li : zlen (in_area c mem) = c_in_len c) by (apply zlen_slice; lia).
  destruct (kw_sealed_opens s (nonce_area c mem) (ad_area c mem) p U) as (Lp & _ & Ep); [|apply Forall_slice, V|done|].
  { unfold nonce_area, ad_area. by rewrite !zlen_slice by lia. }
  rewrite <- Ei in Lp, Ep. split; [lia|done].
Qed.

(** The descriptor for a key of [Nk] words. *)
Definition aead_aes_key_wrap (Nk : nat) : EVP_AEAD aead_aes_key_wrap_ctx :=
  if (Nk =? 4)%nat then aead_aes_128_key_wrap junk else aead_aes_256_key_wrap junk.

#[local] Instance aes_key_wrap_laws Nk : AeadLaws (aead_aes_key_wrap Nk).
Proof. apply kw_laws; unfold aead_aes_key_wrap; by destruct (_ =? _)%nat. Defined.

Lemma kw_init_ok ctx Nk key tag_len :
  gcm_key Nk key -> tag_len = 0 \/ tag_len = 8 ->
  EVP_AEAD_CTX_init ctx (aead_aes_key_wrap Nk) key tag_len true =
    Ok (true, mkAeadCtx (Some (aead_aes_key_wrap Nk)) (Some (mkKw key (32 * Z.of_nat Nk)))) /\
  kw_usable (mkKw key (32 * Z.of_nat Nk)) /\ kw_Nk (mkKw key (32 * Z.of_nat Nk)) = Nk.
Proof.
  intros K Ht. destruct (gcm_key_length _ _ K) as [_ Lk].
  assert (EN : kw_Nk (mkKw key (32 * Z.of_nat Nk)) = Nk) by (unfold kw_Nk; cbn [kw_key_bits]; zlia).
  split; [|split; [split; by rewrite EN|done]].
  unfold EVP_AEAD_CTX_init, EVP_AEAD_CTX_init_with_direction, aead_aes_key_wrap.
  destruct K as [[-> | ->] _]; cbn [Nat.eqb init key_len aead_aes_128_key_wrap aead_aes_256_key_wrap]; rewrite Lk; cbn [mbind res_bind];
    unfold aead_aes_key_wrap_init; rewrite Lk; by destruct Ht as [-> | ->].
Qed.

(** C18: AES key wrap is RFC 3394.  For keys of 128 and 256 bits, a nonce
    of eight bytes or none outside of the output area, and a key of two or
    more words of eight bytes: sealing, in place or not, writes the wrapped
    key; and opening returns 1 exactly for the texts that wrapping makes with
    the same nonce, with the key it was made from in the output area, and
    otherwise leaves that area zero. *)
Theorem key_wrap_exact ctx Nk key tag_len stack c mem :
  gcm_key Nk key -> tag_len = 0 \/ tag_len = 8 -> valid_call c mem -> kw_call c ->
  exists e, EVP_AEAD_CTX_init ctx (aead_aes_key_wrap Nk) key tag_len true = Ok (true, e) /\
    (check_alias (c_in c) (c_in_len c) (c_out c) = true -> kw_fits (c_nonce_len c) (c_ad_len c) (c_in_len c) = true ->
     c_in_len c + 8 <= c_max_out_len c ->
     EVP_AEAD_CTX_seal e stack c mem =
       Ok (true, c_in_len c + 8, splice mem (c_out c) (wrapped (AES Nk key) (kw_iv_of (nonce_area c mem)) (in_area c mem)))) /\
    ((exists p, Forall is_byte p /\ kw_fits (c_nonce_len c) (c_ad_len c) (zlen p) = true /\ zlen p <= c_max_out_len c /\
        check_alias (c_in c) (c_in_len c) (c_out c) = true /\ in_area c mem = wrapped (AES Nk key) (kw_iv_of (nonce_area c mem)) p /\
        EVP_AEAD_CTX_open e stack c mem = Ok (true, zlen p, splice mem (c_out c) p)) \/
     ((forall p, Forall is_byte p -> kw_fits (c_nonce_len c) (c_ad_len c) (zlen p) = true -> zlen p <= c_max_out_len c ->
         check_alias (c_in c) (c_in_len c) (c_out c) = true -> in_area c mem <> wrapped (AES Nk key) (kw_iv_of (nonce_area c mem)) p) /\
      EVP_AEAD_CTX_open e stack c mem = refused c mem)).
Proof.
  intros K Ht V Hc. destruct (kw_init_ok ctx Nk key tag_len K Ht) as (E & U & EN). eexists. split; [exact E|]. clear E.
  set (s := mkKw key (32 * Z.of_nat Nk)) in *.
  assert (Hw : forall p, wrapped (AES Nk key) (kw_iv_of (nonce_area c mem)) p = kw_sealed s (nonce_area c mem) (ad_area c mem) p).
  { intros p. unfold kw_sealed. by rewrite EN. }
  destruct (vc_in _ _ V) as (? & ? & ?), (vc_nonce _ _ V) as (? & ? & ?), (vc_ad _ _ V) as (? & ? & ?), (vc_out _ _ V) as (? & ? & ?).
  pose proof (vc_space _ _ V) as Hs. assert (Li : zlen (in_area c mem) = c_in_len c) by (apply zlen_slice; lia).
  assert (Ln : zlen (nonce_area c mem) = c_nonce_len c) by (apply zlen_slice; lia).
  assert (Ld : zlen (ad_area c mem) = c_ad_len c) by (apply zlen_slice; lia).
  split.
  - intros Ha Hf Hl. rewrite (evp_seal_spec (aead_aes_key_wrap Nk)) by done. unfold seal_accepts.
    change (call_fits (AeadLaws := aes_key_wrap_laws Nk)) with kw_fits. change (tag_size (AeadLaws := aes_key_wrap_laws Nk) s) with 8.
    assert (overhead (aead_aes_key_wrap Nk) = 8) as -> by (unfold aead_aes_key_wrap; by destruct (_ =? _)%nat).
    rewrite Ha, Hf, (proj2 (Z.leb_le _ _) Hl), (proj2 (Z.ltb_lt _ _)) by lia. cbn [andb]. by rewrite Hw.
  - rewrite (evp_open_spec (aead_aes_key_wrap Nk)) by done. unfold open_accepts.
    change (call_fits (AeadLaws := aes_key_wrap_laws Nk)) with kw_fits. change (tag_size (AeadLaws := aes_key_wrap_laws Nk) s) with 8.
    change (opened (AeadLaws := aes_key_wrap_laws Nk)) with kw_opened.
    assert (Hno : forall p, Forall is_byte p -> kw_fits (c_nonce_len c) (c_ad_len c) (zlen p) = true ->
      in_area c mem = wrapped (AES Nk key) (kw_iv_of (nonce_area c mem)) p ->
      c_in_len c - 8 = zlen p /\ kw_opened s (nonce_area c mem) (ad_area c mem) (in_area c mem) = Some p).
    { intros p Bp Hf Ei. rewrite Hw in Ei. by apply kw_text_opens. }
    destruct (check_alias _ _ _) eqn:Ha; cbn [andb]; [|by right].
    destruct (kw_fits (c_nonce_len c) (c_ad_len c) (c_in_len c - 8)) eqn:Hf; cbn [andb].
    2: { right. split; [|done]. intros p Bp Hf' _ _ Ei. destruct (Hno p Bp Hf' Ei) as [Ep _]. congruence. }
    pose proof Hf as (_ & _ & _ & Hp)%kw_fits_lengths. destruct (Z.leb_spec 8 (c_in_len c)); [|lia]. cbn [andb].
    destruct (Z.leb_spec (c_in_len c - 8) (c_max_out_len c)) as [Hl|Hl].
    2: { right. split; [|done]. intros p Bp Hf' Lp _ Ei. destruct (Hno p Bp Hf' Ei) as [Ep _]. lia. }
    destruct (kw_opened _ _ _ _) as [p|] eqn:Eo.
    + left. destruct (kw_opened_sealed s _ _ _ _ U ltac:(by rewrite Ln, Ld, Li) ltac:(apply Forall_slice, V) Eo) as (Ep & Lp & Bp).
      rewrite Li in Lp. replace (c_in_len c - 8) with (zlen p) in * by lia. exists p. rewrite Hw. done.
    + right. split; [|done]. intros p Bp Hf' _ _ Ei. destruct (Hno p Bp Hf' Ei) as [_ Ep]. congruence.
Qed.
End Laws.

(** A key of sixteen bytes wrapped in place with the default nonce. *)
Definition kw_mem : list Z := Z.of_nat <$> seq 1 60.
Definition kw_demo : Call := mkCall 20 24 0 0 20 16 0 0.

Lemma key_wrap_exact_witness :
  exists e : EVP_AEAD_CTX aead_aes_key_wrap_ctx, EVP_AEAD_CTX_seal e [] kw_demo kw_mem =
    Ok (true, 24, splice kw_mem 20 (wrapped (AES 4 (demo_key 16)) kDefaultAESKeyWrapNonce (slice kw_mem 20 16))).
Proof.
  assert (V : valid_call kw_demo kw_mem).
  { split; [by apply (bool_decide_unpack _); vm_compute|change (zlen kw_mem) with 60; cbn; lia..]. }
  assert (K : gcm_key 4 (demo_key 16)).
  { split; [by left|]. split; [done|]. apply demo_key_bytes. lia. }
  destruct (key_wrap_exact blank_key eq_refl (mkAeadCtx None None) 4 (demo_key 16) 0 [] kw_demo kw_mem K (or_introl eq_refl) V (or_introl eq_refl))
    as (e & _ & E & _).
  exists e. apply E; [done|done|by vm_compute].
Defined.
