(* ===== verification/CtrHmac.v ===== *)
(** * CtrHmac: AES in counter mode with HMAC-SHA256

    Models [aead_aes_ctr_hmac_sha256_*] of
    [src/fastsocks/cpp/boringssl/crypto/cipher/e_aes.c] on top of the stream
    modes ([Modes.v]), SHA-256 ([Sha256.v]) and the key setup of [AesGcm.v],
    for the 32-bit ARM of the build.  As in [AesGcm.v] the cipher reads its
    input before it writes the output at the same offset.

    Shown: sealing writes the text in counter mode of FIPS-197 and the first
    bytes of the HMAC of RFC 2104 over lengths, nonce, additional data and
    ciphertext; opening inverts it and is all or nothing.  Nonce and
    additional data must not lie in the output area, which sealing writes
    before it hashes them. *)

From Stdlib Require Import ZifyNat.
From S2P Require Import Prelude.
From S2P Require Import Words.
From S2P Require Import Aes.
From S2P Require Import AesSpec.
From S2P Require Import AesInverse.
From S2P Require Import Modes.
From S2P Require Import CtrMode.
From S2P Require Import Md32.
From S2P Require Import Sha256.
From S2P Require Import Aead.
From S2P Require Import Gcm.
From S2P Require Import GcmMode.
From S2P Require Import GcmCorrect.
From S2P Require Import AesGcm.

(** ** The code *)

Definition EVP_AEAD_AES_CTR_HMAC_SHA256_TAG_LEN : Z := SHA256_DIGEST_LENGTH.
Definition EVP_AEAD_AES_CTR_HMAC_SHA256_NONCE_LEN : Z := 12.
Definition SHA256_CBLOCK : Z := 64.

Abbreviation SHA256_CTX := (@HASH_CTX Regs).

Record aead_aes_ctr_hmac_sha256_ctx : Type := mkCtrHmac {
  ch_block : list Z -> list Z;
  ch_ctr : option (list Z -> nat -> list Z -> list Z);
  ch_inner : SHA256_CTX;
  ch_outer : SHA256_CTX;
  ch_tag_len : Z;
}.

(** Both contexts; [block] is changed in place for the second. *)
Definition hmac_init (hmac_key : list Z) : res (SHA256_CTX * SHA256_CTX) :=
  let block := ((fun b => Z.lxor b 0x36) <$> take 32 hmac_key) ++ replicate 32 0x36 in
  inner ← SHA256_Update (fresh_ctx SHA256_Init) block;
  let block := ((fun b => Z.lxor b (Z.lxor 0x36 0x5c)) <$> take 32 block) ++ replicate 32 0x5c in
  outer ← SHA256_Update (fresh_ctx SHA256_Init) block;
  Ok (inner, outer).

(** [bytes[i] = value & 0xff; value >>= 8;] *)
Fixpoint uint64_bytes (n : nat) (value : Z) : list Z :=
  match n with
  | O => []
  | S n' => Z.land value 0xff :: uint64_bytes n' (Z.shiftr value 8)
  end.

Definition hmac_update_uint64 (sha256 : SHA256_CTX) (value : Z) : res SHA256_CTX :=
  SHA256_Update sha256 (uint64_bytes 8 value).

Definition num_padding (ad_len : Z) : Z := (SHA256_CBLOCK - u32 (8 * 2 + EVP_AEAD_AES_CTR_HMAC_SHA256_NONCE_LEN + ad_len) mod SHA256_CBLOCK) mod SHA256_CBLOCK.

Definition hmac_calculate (inner outer : SHA256_CTX) (ad nonce ciphertext : list Z) : res (list Z) :=
  sha256 ← hmac_update_uint64 inner (zlen ad);
  sha256 ← hmac_update_uint64 sha256 (zlen ciphertext);
  sha256 ← SHA256_Update sha256 nonce;
  sha256 ← SHA256_Update sha256 ad;
  sha256 ← SHA256_Update sha256 (replicate (Z.to_nat (num_padding (zlen ad))) 0);
  sha256 ← SHA256_Update sha256 ciphertext;
  '(inner_digest, _) ← SHA256_Final SHA256_DIGEST_LENGTH sha256;
  sha256 ← SHA256_Update outer inner_digest;
  '(out, _) ← SHA256_Final SHA256_DIGEST_LENGTH sha256;
  Ok out.

Section Code.
(** The assembler, what the block from [malloc] held, the address of the
    caller's memory, and whether [counter] is aligned on the stack. *)
Context {Asm : AsmAes} (junk : AES_KEY) (base : Z) (counter_aligned : bool).

(** [SHA256_Update] ends in every state it can get here. *)
Definition aead_aes_ctr_hmac_sha256_init (key : list Z) (tag_len : Z) (memory : bool) : option aead_aes_ctr_hmac_sha256_ctx :=
  let hmac_key_len := 32 in
  if zlen key <? hmac_key_len then None
  else
    let aes_key_len := zlen key - hmac_key_len in
    if negb (aes_key_len =? 16) && negb (aes_key_len =? 32) then None
    else
      let tag_len := if tag_len =? 0 then EVP_AEAD_AES_CTR_HMAC_SHA256_TAG_LEN else tag_len in
      if tag_len >? EVP_AEAD_AES_CTR_HMAC_SHA256_TAG_LEN then None
      else if negb memory then None
      else
        let '(block, _, ctr) := aes_ctr_set_key junk (take (Z.to_nat aes_key_len) key) aes_key_len in
        match hmac_init (drop (Z.to_nat aes_key_len) key) with
        | Ok (inner, outer) => Some (mkCtrHmac block ctr inner outer (u8 tag_len))
        | Fault _ => None
        end.

(** [STRICT_ALIGNMENT], with [ivec] on the stack. *)
Definition ctr_unaligned (c : Call) : bool := unaligned base c || negb counter_aligned.

Definition aead_aes_ctr_hmac_sha256_crypt (ctx : aead_aes_ctr_hmac_sha256_ctx) (c : Call) (inp nonce : list Z) : list Z :=
  let s := mkCtr (nonce ++ [0; 0; 0; 0]) (replicate 16 0) in
  let '(out, _, _) :=
    match ch_ctr ctx with
    | Some f => CRYPTO_ctr128_encrypt_ctr32 4 f s 0 inp
    | None => if ctr_unaligned c then ctr128_strict (ch_block ctx) s 0 inp else CRYPTO_ctr128_encrypt (ch_block ctx) 4 s 0 inp
    end in
  out.

Definition aead_aes_ctr_hmac_sha256_seal (ctx : aead_aes_ctr_hmac_sha256_ctx) (stack : list Z) (c : Call) (mem : list Z) :
    res (option Z * list Z) :=
  let in_len := c_in_len c in
  if (u32 (in_len + ch_tag_len ctx) <? in_len) || (in_len >=? 2 ^ 32 * 16) then Ok (None, mem)
  else if c_max_out_len c <? u32 (in_len + ch_tag_len ctx) then Ok (None, mem)
  else if negb (c_nonce_len c =? EVP_AEAD_AES_CTR_HMAC_SHA256_NONCE_LEN) then Ok (None, mem)
  else
    nonce ← read_at mem (c_nonce c) 12;
    inp ← read_at mem (c_in c) in_len;
    mem ← write_at mem (c_out c) (aead_aes_ctr_hmac_sha256_crypt ctx c inp nonce);
    ad ← read_at mem (c_ad c) (c_ad_len c);
    nonce ← read_at mem (c_nonce c) 12;
    ct ← read_at mem (c_out c) in_len;
    hmac_result ← hmac_calculate (ch_inner ctx) (ch_outer ctx) ad nonce ct;
    mem ← write_at mem (c_out c + in_len) (slice hmac_result 0 (ch_tag_len ctx));
    Ok (Some (u32 (in_len + ch_tag_len ctx)), mem).

Definition aead_aes_ctr_hmac_sha256_open (ctx : aead_aes_ctr_hmac_sha256_ctx) (stack : list Z) (c : Call) (mem : list Z) :
    res (option Z * list Z) :=
  let in_len := c_in_len c in
  if in_len <? ch_tag_len ctx then Ok (None, mem)
  else
    let plaintext_len := in_len - ch_tag_len ctx in
    if c_max_out_len c <? plaintext_len then Ok (None, mem)
    else if negb (c_nonce_len c =? EVP_AEAD_AES_CTR_HMAC_SHA256_NONCE_LEN) then Ok (None, mem)
    else
      ad ← read_at mem (c_ad c) (c_ad_len c);
      nonce ← read_at mem (c_nonce c) 12;
      ct ← read_at mem (c_in c) plaintext_len;
      hmac_result ← hmac_calculate (ch_inner ctx) (ch_outer ctx) ad nonce ct;
      given ← read_at mem (c_in c + plaintext_len) (ch_tag_len ctx);
      differ ← CRYPTO_memcmp hmac_result given (ch_tag_len ctx);
      if negb (differ =? 0) then Ok (None, mem)
      else
        mem ← write_at mem (c_out c) (aead_aes_ctr_hmac_sha256_crypt ctx c ct nonce);
        Ok (Some plaintext_len, mem).

Definition aead_aes_128_ctr_hmac_sha256 : EVP_AEAD aead_aes_ctr_hmac_sha256_ctx :=
  mkAead (16 + 32) 12 EVP_AEAD_AES_CTR_HMAC_SHA256_TAG_LEN EVP_AEAD_AES_CTR_HMAC_SHA256_TAG_LEN (Some aead_aes_ctr_hmac_sha256_init) None
    aead_aes_ctr_hmac_sha256_seal aead_aes_ctr_hmac_sha256_open.
Definition aead_aes_256_ctr_hmac_sha256 : EVP_AEAD aead_aes_ctr_hmac_sha256_ctx :=
  mkAead (32 + 32) 12 EVP_AEAD_AES_CTR_HMAC_SHA256_TAG_LEN EVP_AEAD_AES_CTR_HMAC_SHA256_TAG_LEN (Some aead_aes_ctr_hmac_sha256_init) None
    aead_aes_ctr_hmac_sha256_seal aead_aes_ctr_hmac_sha256_open.
End Code.

(** ** RFC 2104 *)

Definition hmac_sha256 (key m : list Z) : list Z :=
  let k := key ++ replicate (64 - length key) 0 in
  fips_sha256 (xor_list k (replicate 64 0x5c) ++ fips_sha256 (xor_list k (replicate 64 0x36) ++ m)).

(** The text under the authenticator. *)
Definition mac_input (ad nonce ct : list Z) : list Z :=
  le_bytes 8 (zlen ad) ++ le_bytes 8 (zlen ct) ++ nonce ++ ad ++ replicate (Z.to_nat (- (28 + zlen ad) mod 64)) 0 ++ ct.

(** Test case 2 of RFC 4231 with its key filled up to 32 bytes by zeros. *)
Example hmac_vector :
  be_value (hmac_sha256 ([74; 101; 102; 101] ++ replicate 28 0)
    [119; 104; 97; 116; 32; 100; 111; 32; 121; 97; 32; 119; 97; 110; 116; 32; 102; 111; 114; 32; 110; 111; 116; 104; 105; 110; 103; 63]) =
  0x5bdcc146bf60754e6a042426089575c75a003f089d2739839dec58b964ec3843.
Proof. by vm_compute. Qed.

(** ** The authenticator *)

Lemma uint64_bytes_le v : uint64_bytes 8 v = le_bytes 8 v.
Proof.
  assert (L : forall x, Z.land x 0xff = u8 x) by (intros x; change 0xff with (Z.ones 8); by rewrite Z.land_ones).
  unfold le_bytes. cbn [uint64_bytes be_bytes rev app]. rewrite !Z.shiftr_shiftr, !L by lia. cbn [Z.of_nat Z.mul Z.add Pos.add].
  by rewrite Z.shiftr_0_r.
Qed.

Lemma num_padding_ok n : 0 <= n -> num_padding n = - (28 + n) mod 64.
Proof. intros Hn. unfold num_padding, SHA256_CBLOCK, EVP_AEAD_AES_CTR_HMAC_SHA256_NONCE_LEN, wrapU. zlia. Qed.

Lemma fips_sha256_digest msg : length (fips_sha256 msg) = 32%nat /\ Forall is_byte (fips_sha256 msg).
Proof.
  unfold fips_sha256, fips_digest, standard_digest. generalize (foldl (fun h q => fips_block q h) fips_H256
    (chunks (msg ++ standard_padding be_bytes (zlen msg)))). intros [a b c d e f g h]. unfold reg_list.
  cbn [ra rb rc rd re rf rg rh fmap list_fmap mjoin list_join]. split.
  - rewrite length_take, !length_app, !length_be_bytes. done.
  - apply Forall_take. repeat (apply Forall_app; split; [apply be_bytes_bytes|]). done.
Qed.

Lemma hmac_digest key m : length (hmac_sha256 key m) = 32%nat /\ Forall is_byte (hmac_sha256 key m).
Proof. apply fips_sha256_digest. Qed.

Lemma xor_pad key p : length key = 32%nat ->
  xor_list (key ++ replicate (64 - length key) 0) (replicate 64 p) = ((fun b => Z.lxor b p) <$> key) ++ replicate 32 p.
Proof.
  intros Hk. rewrite Hk. change (64 - 32)%nat with 32%nat. change 64%nat with (32 + 32)%nat. rewrite replicate_add.
  rewrite xor_list_app by (by rewrite length_replicate). f_equal.
  rewrite <- Hk. clear. induction key as [|x key IH]; [done|]. unfold xor_list in *. cbn [length replicate zip_with fmap list_fmap]. by rewrite IH.
Qed.

(** The blocks of [hmac_init]. *)
Lemma hmac_init_blocks key : length key = 32%nat ->
  hmac_init key =
    (inner ← SHA256_Update (fresh_ctx SHA256_Init) (xor_list (key ++ replicate (64 - length key) 0) (replicate 64 0x36));
     outer ← SHA256_Update (fresh_ctx SHA256_Init) (xor_list (key ++ replicate (64 - length key) 0) (replicate 64 0x5c));
     Ok (inner, outer)).
Proof.
  intros Hk. unfold hmac_init. rewrite !xor_pad by done. rewrite (take_ge key) by lia.
  rewrite take_app_length' by (by rewrite length_fmap). rewrite <- list_fmap_compose.
  assert ((fun b => Z.lxor b (Z.lxor 54 92)) ∘ (fun b => Z.lxor b 54) <$> key = (fun b => Z.lxor b 92) <$> key) as ->; [|done].
  apply list_fmap_ext. intros i x _. simpl. by rewrite Z.lxor_assoc.
Qed.

Lemma hmac_ok key :
  length key = 32%nat ->
  exists inner outer, hmac_init key = Ok (inner, outer) /\
    forall ad nonce ct, hmac_calculate inner outer ad nonce ct = Ok (hmac_sha256 key (mac_input ad nonce ct)).
Proof.
  intros Hk. rewrite hmac_init_blocks by done. unfold hmac_sha256. set (k := key ++ replicate (64 - length key) 0).
  destruct (sha256_stream SHA256_Init 32 [xor_list k (replicate 64 0x36)]) as (inner & ? & Ei & _); [by right|].
  destruct (sha256_stream SHA256_Init 32 [xor_list k (replicate 64 0x5c)]) as (outer & ? & Eo & _); [by right|].
  cbn [update_all] in Ei, Eo. destruct (SHA256_Update _ (xor_list k (replicate 64 54))) as [c1|] eqn:E1; [|done].
  destruct (SHA256_Update _ (xor_list k (replicate 64 92))) as [c2|] eqn:E2; [|done]. exists c1, c2. split; [done|]. intros ad nonce ct.
  set (pad := replicate (Z.to_nat (num_padding (zlen ad))) 0).
  destruct (sha256_stream SHA256_Init 32 [xor_list k (replicate 64 0x36); uint64_bytes 8 (zlen ad); uint64_bytes 8 (zlen ct); nonce; ad; pad; ct])
    as (c3 & c4 & E3 & E4); [by right|]. cbn [update_all] in E3. rewrite E1 in E3. cbn [mbind res_bind] in E3.
  unfold hmac_calculate, hmac_update_uint64. fold pad.
  destruct (SHA256_Update c1 _) as [d1|]; [|done]. cbn [mbind res_bind] in *. destruct (SHA256_Update d1 _) as [d2|]; [|done]. cbn [mbind res_bind] in *.
  destruct (SHA256_Update d2 _) as [d3|]; [|done]. cbn [mbind res_bind] in *. destruct (SHA256_Update d3 _) as [d4|]; [|done]. cbn [mbind res_bind] in *.
  destruct (SHA256_Update d4 _) as [d5|]; [|done]. cbn [mbind res_bind] in *. destruct (SHA256_Update d5 _) as [d6|]; [|done]. cbn [mbind res_bind] in *.
  injection E3 as ->. unfold SHA256_DIGEST_LENGTH. rewrite E4. cbn [mbind res_bind].
  assert (mjoin [xor_list k (replicate 64 0x36); uint64_bytes 8 (zlen ad); uint64_bytes 8 (zlen ct); nonce; ad; pad; ct] =
    xor_list k (replicate 64 0x36) ++ mac_input ad nonce ct) as ->.
  { unfold mac_input. rewrite <- !uint64_bytes_le, <- num_padding_ok by apply zlen_nonneg. cbn [mjoin list_join]. by rewrite app_nil_r. }
  change (fips_digest SHA256_Init (Z.to_nat 32)) with (fips_digest SHA256_Init 32). rewrite SHA256_Init_fips.
  fold (fips_sha256 (xor_list k (replicate 64 54) ++ mac_input ad nonce ct)). set (d := fips_sha256 (xor_list k (replicate 64 54) ++ _)).
  destruct (sha256_stream SHA256_Init 32 [xor_list k (replicate 64 0x5c); d]) as (c5 & c6 & E5 & E6); [by right|].
  cbn [update_all] in E5. rewrite E2 in E5. cbn [mbind res_bind] in E5. destruct (SHA256_Update c2 d) as [d7|]; [|done]. cbn [mbind res_bind] in *.
  injection E5 as ->. rewrite E6. cbn [mbind res_bind mjoin list_join]. rewrite app_nil_r, SHA256_Init_fips. done.
Qed.

(** ** The stream *)

#[local] Arguments Nat.modulo : simpl never.
#[local] Arguments Nat.div : simpl never.

Section Stream.
Context (cipher : list Z -> list Z) (cipher_block : forall x, block16 x -> block16 (cipher x)).

(** The key stream counts in the last four bytes, which do not overflow. *)
Lemma stream_gctr iv p s inp :
  block16 iv -> ctr32_of iv = 0 -> Z.of_nat p + zlen inp <= 16 * 2 ^ 32 ->
  ivec s = Nat.iter ((p + 15) / 16) ctr128_inc iv -> (p mod 16 <> 0 -> ecount_buf s = cipher (add32 iv (p / 16)))%nat ->
  fst (fst (stream_bytes (ctr_refill cipher) ctr_byte s (p mod 16) inp)) = gctr_from cipher iv p inp.
Proof.
  intros Hb H0. revert p s. induction inp as [|x inp IH]; intros p s Hl Hv He; [done|]. rewrite zlen_cons in Hl. pose proof (zlen_nonneg inp).
  rewrite gctr_cons. cbn [stream_bytes]. unfold ks.
  set (s1 := if (p mod 16 =? 0)%nat then ctr_refill cipher s else s).
  assert (E1 : ivec s1 = Nat.iter ((S p + 15) / 16) ctr128_inc iv /\ ecount_buf s1 = cipher (add32 iv (p / 16))).
  { unfold s1. destruct (Nat.eqb_spec (p mod 16) 0) as [E|E].
    - unfold ctr_refill. cbn [ivec ecount_buf]. rewrite Hv. replace ((p + 15) / 16)%nat with (p / 16)%nat by lia.
      replace ((S p + 15) / 16)%nat with (S (p / 16)) by lia. rewrite add32_iter by (done || lia). done.
    - rewrite Hv, He by done. by replace ((S p + 15) / 16)%nat with ((p + 15) / 16)%nat by lia. }
  destruct E1 as [Ev Ee]. unfold ctr_byte at 1. rewrite Ee. replace ((p mod 16 + 1) mod 16)%nat with (S p mod 16)%nat by lia.
  specialize (IH (S p) s1). destruct (stream_bytes _ _ s1 _ inp) as [[o s2] m]. cbn [fst] in *. f_equal. apply IH; [lia|done|].
  intros Hm. rewrite Ee. by replace (S p / 16)%nat with (p / 16)%nat by lia.
Qed.
End Stream.

Definition ctr_text (cipher : list Z -> list Z) (nonce p : list Z) : list Z := gctr_from cipher (nonce ++ [0; 0; 0; 0]) 0 p.

(** A context that was set up for an HMAC key. *)
Record ch_usable (ctx : aead_aes_ctr_hmac_sha256_ctx) (key : list Z) : Prop := {
  cu_block : forall x, block16 x -> block16 (ch_block ctx x);
  cu_length : forall x, length x = 16%nat -> length (ch_block ctx x) = 16%nat;
  cu_ctr : forall f, ch_ctr ctx = Some f -> bulk_of (ch_block ctx) f;
  cu_mac : forall ad nonce ct, hmac_calculate (ch_inner ctx) (ch_outer ctx) ad nonce ct = Ok (hmac_sha256 key (mac_input ad nonce ct));
  cu_tag : 0 < ch_tag_len ctx <= 32;
}.

Lemma nonce_block n : length n = 12%nat -> Forall is_byte n -> block16 (n ++ [0; 0; 0; 0]) /\ ctr32_of (n ++ [0; 0; 0; 0]) = 0.
Proof.
  intros Hl Hb. split; [split; [rewrite length_app, Hl; done|apply Forall_app; split; [done|by repeat constructor]]|].
  destruct n as [|? [|? [|? [|? [|? [|? [|? [|? [|? [|? [|? [|? [|]]]]]]]]]]]]]; done.
Qed.

Section Laws.
Context {Asm : AsmAes} (junk : AES_KEY) (base : Z) (counter_aligned : bool).

Abbreviation crypt := (aead_aes_ctr_hmac_sha256_crypt base counter_aligned).

Lemma crypt_ok ctx key c inp nonce :
  ch_usable ctx key -> length nonce = 12%nat -> Forall is_byte nonce -> zlen inp < 2 ^ 32 ->
  crypt ctx c inp nonce = ctr_text (ch_block ctx) nonce inp.
Proof.
  intros U Ln Bn Li. destruct (nonce_block nonce Ln Bn) as [Hb H0]. unfold aead_aes_ctr_hmac_sha256_crypt, ctr_text.
  set (s := mkCtr (nonce ++ [0; 0; 0; 0]) (replicate 16 0)).
  assert (Hg : ctr_good s) by (split; [apply Hb|done]).
  rewrite <- (stream_gctr (ch_block ctx) (nonce ++ [0; 0; 0; 0]) 0 s inp) by (done || lia). change (0 mod 16)%nat with 0%nat.
  pose proof (stream_strict_bytes (ctr_refill (ch_block ctx)) ctr_byte (ctr_words 4) s 0 inp ltac:(lia)) as Hs.
  destruct (ch_ctr ctx) as [f|] eqn:Ef; [|destruct (ctr_unaligned _ _ _)].
  - pose proof (ctr32_is_ctr128 (ch_block ctx) 4 f (cu_length _ _ U) (cu_ctr _ _ U f Ef) s 0 inp Hg (proj2 Hb) ltac:(lia) ltac:(right; exact Li)) as E.
    unfold ctr128_strict in E. rewrite Hs in E. unfold ctr_same in E. destruct (CRYPTO_ctr128_encrypt_ctr32 _ _ _ _ _) as [[o1 s1] m1].
    destruct (stream_bytes _ _ _ _ _) as [[o2 s2] m2]. by destruct E as (-> & _).
  - unfold ctr128_strict. rewrite Hs. by destruct (stream_bytes _ _ _ _ _) as [[o2 s2] m2].
  - rewrite (ctr_fast (ch_block ctx) 4 (cu_length _ _ U) ltac:(by left) s 0 inp Hg) by lia. by destruct (stream_bytes _ _ _ _ _) as [[o2 s2] m2].
Qed.

Lemma zlen_ctr_text cipher n p : zlen (ctr_text cipher n p) = zlen p.
Proof. unfold zlen, ctr_text. by rewrite length_gctr. Qed.

Lemma ctr_text_bytes ctx key n p : ch_usable ctx key -> length n = 12%nat -> Forall is_byte n -> Forall is_byte p ->
  Forall is_byte (ctr_text (ch_block ctx) n p).
Proof. intros U Ln Bn Bp. apply gctr_bytes; [apply (cu_block _ _ U)|by apply nonce_block|done]. Qed.

(** What is computed, for the HMAC key of the context. *)
Definition ch_tag (key : list Z) (t : Z) (n ad ct : list Z) : list Z := slice (hmac_sha256 key (mac_input ad n ct)) 0 t.
Definition ch_sealed (cipher : list Z -> list Z) (key : list Z) (t : Z) (n ad p : list Z) : list Z :=
  let ct := ctr_text cipher n p in ct ++ ch_tag key t n ad ct.
Definition ch_opened (cipher : list Z -> list Z) (key : list Z) (t : Z) (n ad txt : list Z) : option (list Z) :=
  let len := zlen txt - t in
  let ct := slice txt 0 len in
  if len <? 0 then None
  else if bool_decide (slice txt len t = ch_tag key t n ad ct) then Some (ctr_text cipher n ct) else None.

Lemma zlen_ch_tag key t n ad ct : 0 < t <= 32 -> zlen (ch_tag key t n ad ct) = t /\ Forall is_byte (ch_tag key t n ad ct).
Proof.
  intros Ht. destruct (hmac_digest key (mac_input ad n ct)) as [L B]. split; [apply zlen_slice; unfold zlen; lia|by apply Forall_slice].
Qed.

Lemma ch_open_seal cipher key t n ad p : 0 < t <= 32 -> ch_opened cipher key t n ad (ch_sealed cipher key t n ad p) = Some p.
Proof.
  intros Ht. unfold ch_opened, ch_sealed. set (ct := ctr_text cipher n p). set (tag := ch_tag key t n ad ct).
  destruct (zlen_ch_tag key t n ad ct Ht) as (Lt & _). fold tag in Lt. pose proof (zlen_nonneg ct).
  rewrite zlen_app. replace (zlen ct + zlen tag - t) with (zlen ct) by lia. destruct (Z.ltb_spec (zlen ct) 0); [lia|].
  destruct (slice_parts ct tag) as [-> E2]. rewrite Lt in E2. rewrite E2.
  rewrite bool_decide_eq_true_2 by done. unfold ct, ctr_text. by rewrite gctr_twice.
Qed.

(** Nonce and additional data are not where the output goes. *)
Definition ch_call (c : Call) : Prop :=
  (c_nonce c + c_nonce_len c <= c_out c \/ c_out c + c_max_out_len c <= c_nonce c) /\
  (c_ad_len c = 0 \/ c_ad c + c_ad_len c <= c_out c \/ c_out c + c_max_out_len c <= c_ad c).

Lemma ch_seal_ok ctx key stack c mem :
  ch_usable ctx key -> ch_call c -> valid_call c mem -> check_alias (c_in c) (c_in_len c) (c_out c) = true ->
  aead_aes_ctr_hmac_sha256_seal base counter_aligned ctx stack c mem =
    Ok (if (c_nonce_len c =? 12) && (c_in_len c + ch_tag_len ctx <=? c_max_out_len c)
        then (Some (c_in_len c + ch_tag_len ctx),
              splice mem (c_out c) (ch_sealed (ch_block ctx) key (ch_tag_len ctx) (nonce_area c mem) (ad_area c mem) (in_area c mem)))
        else (None, mem)).
Proof.
  intros U [Cn Ca] V _. destruct V as [Hm Hs (O1 & O2 & O3) (I1 & I2 & I3) (A1 & A2 & A3) (N1 & N2 & N3)]. pose proof (cu_tag _ _ U) as Ut.
  unfold aead_aes_ctr_hmac_sha256_seal, EVP_AEAD_AES_CTR_HMAC_SHA256_NONCE_LEN. rewrite Z.geb_leb.
  destruct (Z.leb_spec (2 ^ 32 * 16) (c_in_len c)); [lia|]. rewrite orb_false_r.
  destruct (Z.leb_spec (c_in_len c + ch_tag_len ctx) (c_max_out_len c)) as [Hl|Hl].
  2: { rewrite andb_false_r. destruct (Z.ltb_spec (u32 (c_in_len c + ch_tag_len ctx)) (c_in_len c)) as [|H1]; [done|].
       rewrite wrapU_id in H1 |- * by (unfold is_u, wrapU in *; zlia).
       by destruct (Z.ltb_spec (c_max_out_len c) (c_in_len c + ch_tag_len ctx)); [|lia]. }
  rewrite andb_true_r, wrapU_id by (unfold is_u; lia). destruct (Z.ltb_spec (c_in_len c + ch_tag_len ctx) (c_in_len c)); [lia|].
  destruct (Z.ltb_spec (c_max_out_len c) (c_in_len c + ch_tag_len ctx)); [lia|].
  destruct (Z.eqb_spec (c_nonce_len c) 12) as [En|]; [|done]. cbn [negb]. unfold nonce_area. rewrite En in *.
  rewrite (read_at_Ok mem (c_nonce c)), (read_at_Ok mem (c_in c)) by lia. cbn [mbind res_bind]. fold (in_area c mem).
  set (n := slice mem (c_nonce c) 12). assert (Ln : length n = 12%nat) by (apply Nat2Z.inj; change (zlen n = 12); apply zlen_slice; lia).
  assert (Bn : Forall is_byte n) by (by apply Forall_slice). assert (Li : zlen (in_area c mem) = c_in_len c) by (apply zlen_slice; lia).
  rewrite (crypt_ok ctx key) by (done || lia). unfold ch_sealed. set (ct := ctr_text (ch_block ctx) n (in_area c mem)).
  assert (Lc : zlen ct = c_in_len c) by (unfold ct; by rewrite zlen_ctr_text).
  rewrite write_at_Ok by lia. cbn [mbind res_bind]. set (mem' := splice mem (c_out c) ct).
  assert (Lm : zlen mem' = zlen mem) by (apply zlen_splice; lia). rewrite !read_at_Ok by lia. cbn [mbind res_bind].
  assert (slice mem' (c_nonce c) 12 = n) as ->.
  { unfold mem', n. destruct Cn; [apply slice_splice_before; lia|apply slice_splice_after; lia]. }
  assert (slice mem' (c_ad c) (c_ad_len c) = ad_area c mem) as ->.
  { unfold mem', ad_area. destruct Ca as [->|[?|?]]; [done|apply slice_splice_before; lia|apply slice_splice_after; lia]. }
  assert (slice mem' (c_out c) (c_in_len c) = ct) as -> by (unfold mem'; rewrite <- Lc; apply slice_splice_same; lia).
  rewrite (cu_mac _ _ U). cbn [mbind res_bind]. fold (ch_tag key (ch_tag_len ctx) n (ad_area c mem) ct).
  destruct (zlen_ch_tag key (ch_tag_len ctx) n (ad_area c mem) ct Ut) as [Lt _]. rewrite write_at_Ok by lia. cbn [mbind res_bind].
  unfold mem'. replace (c_out c + c_in_len c) with (c_out c + zlen ct) by lia. by rewrite splice_splice by lia.
Qed.

Lemma ch_open_ok ctx key stack c mem :
  ch_usable ctx key -> valid_call c mem -> check_alias (c_in c) (c_in_len c) (c_out c) = true ->
  aead_aes_ctr_hmac_sha256_open base counter_aligned ctx stack c mem =
    Ok (if (c_nonce_len c =? 12) && (ch_tag_len ctx <=? c_in_len c) && (c_in_len c - ch_tag_len ctx <=? c_max_out_len c)
        then match ch_opened (ch_block ctx) key (ch_tag_len ctx) (nonce_area c mem) (ad_area c mem) (in_area c mem) with
             | Some p => (Some (zlen p), splice mem (c_out c) p)
             | None => (None, mem)
             end
        else (None, mem)).
Proof.
  intros U V _. destruct V as [Hm Hs (O1 & O2 & O3) (I1 & I2 & I3) (A1 & A2 & A3) (N1 & N2 & N3)]. pose proof (cu_tag _ _ U) as Ut.
  unfold aead_aes_ctr_hmac_sha256_open, EVP_AEAD_AES_CTR_HMAC_SHA256_NONCE_LEN.
  destruct (Z.ltb_spec (c_in_len c) (ch_tag_len ctx)), (Z.leb_spec (ch_tag_len ctx) (c_in_len c)); try lia; [by rewrite andb_false_r|].
  rewrite andb_true_r. set (len := c_in_len c - ch_tag_len ctx) in *.
  destruct (Z.ltb_spec (c_max_out_len c) len), (Z.leb_spec len (c_max_out_len c)); try lia; [by rewrite andb_false_r|].
  rewrite andb_true_r. destruct (Z.eqb_spec (c_nonce_len c) 12) as [En|]; [|done]. cbn [negb]. unfold nonce_area. rewrite En in *.
  destruct (text_parts mem (c_in c) len (ch_tag_len ctx)) as [S1 S2]; [lia..|].
  replace (len + ch_tag_len ctx) with (c_in_len c) in S1, S2 by lia. fold (in_area c mem) in S1, S2.
  unfold ch_opened. assert (zlen (in_area c mem) = c_in_len c) as -> by (apply zlen_slice; lia). fold len. rewrite S1, S2.
  destruct (Z.ltb_spec len 0); [lia|]. rewrite !read_at_Ok by lia. cbn [mbind res_bind]. fold (ad_area c mem).
  set (n := slice mem (c_nonce c) 12). assert (Ln : length n = 12%nat) by (apply Nat2Z.inj; change (zlen n = 12); apply zlen_slice; lia).
  set (ct := slice mem (c_in c) len). assert (Lc : zlen ct = len) by (apply zlen_slice; lia). rewrite (cu_mac _ _ U). cbn [mbind res_bind].
  set (given := slice mem (c_in c + len) (ch_tag_len ctx)). assert (Lg : zlen given = ch_tag_len ctx) by (apply zlen_slice; lia).
  destruct (hmac_digest key (mac_input (ad_area c mem) n ct)) as [Ld Bd].
  destruct (CRYPTO_memcmp_spec (hmac_sha256 key (mac_input (ad_area c mem) n ct)) given (ch_tag_len ctx)) as (y & -> & Ey);
    [done|by apply Forall_slice|unfold zlen; lia|lia|]. fold (ch_tag key (ch_tag_len ctx) n (ad_area c mem) ct) in Ey.
  assert (slice given 0 (ch_tag_len ctx) = given) as F2 by (rewrite <- Lg; apply slice_full). rewrite F2 in Ey. cbn [mbind res_bind].
  rewrite Ey, (bool_decide_ext (given = ch_tag key (ch_tag_len ctx) n (ad_area c mem) ct) (ch_tag key (ch_tag_len ctx) n (ad_area c mem) ct = given)) by done.
  case_bool_decide; cbn [negb]; [|done]. rewrite (crypt_ok ctx key) by (done || lia || by apply Forall_slice).
  rewrite write_at_Ok by (rewrite ?zlen_ctr_text; lia). cbn [mbind res_bind]. by rewrite zlen_ctr_text, Lc.
Qed.

(** The interface, for the HMAC key of the contexts. *)
Definition ch_laws (key : list Z) (A : EVP_AEAD aead_aes_ctr_hmac_sha256_ctx) (Es : seal A = aead_aes_ctr_hmac_sha256_seal base counter_aligned)
    (Eo : open A = aead_aes_ctr_hmac_sha256_open base counter_aligned) (Ev : overhead A = 32) : AeadLaws A.
Proof.
  refine {| usable s := ch_usable s key; call_fits n _ _ := n =? 12; good_call _ c := ch_call c; tag_size := ch_tag_len;
            sealed s := ch_sealed (ch_block s) key (ch_tag_len s); opened s := ch_opened (ch_block s) key (ch_tag_len s) |}.
  - intros s U. pose proof (cu_tag _ _ U). lia.
  - intros s n d p U Hn Bn _ Bp. apply Z.eqb_eq in Hn. unfold ch_sealed. rewrite zlen_app, zlen_ctr_text.
    destruct (zlen_ch_tag key (ch_tag_len s) n d (ctr_text (ch_block s) n p) (cu_tag _ _ U)) as [-> B]. split; [done|].
    apply Forall_app. split; [|done]. apply (ctr_text_bytes s key); try done. unfold zlen in Hn. lia.
  - intros s n d p U _ _ _ _. apply ch_open_seal, (cu_tag _ _ U).
  - intros s stack c mem U G V Ha. rewrite Es. by apply ch_seal_ok.
  - intros s stack c mem U G V Ha. exists mem. rewrite Eo. split; [done|]. split; [done|]. by apply ch_open_ok.
Defined.
End Laws.

(** ** Keys *)

Lemma ctr_text_same f g n p :
  (forall x, block16 x -> f x = g x) -> length n = 12%nat -> Forall is_byte n -> ctr_text f n p = ctr_text g n p.
Proof.
  intros H Ln Bn. unfold ctr_text, gctr_from. apply imap_ext. intros i x _. f_equal. unfold ks. rewrite H; [done|].
  apply counter_add32. by apply nonce_block.
Qed.

Section Aes.
Context {Asm : AsmAes} {L : AsmLaws Asm} (junk : AES_KEY) (junk_size : length (rd_key junk) = 60%nat) (base : Z) (counter_aligned : bool).

(** The descriptor for an AES key of [Nk] words. *)
Definition aead_aes_ctr_hmac_sha256 (Nk : nat) : EVP_AEAD aead_aes_ctr_hmac_sha256_ctx :=
  if (Nk =? 4)%nat then aead_aes_128_ctr_hmac_sha256 junk base counter_aligned else aead_aes_256_ctr_hmac_sha256 junk base counter_aligned.

Definition aes_ctr_hmac_laws (key : list Z) (Nk : nat) : AeadLaws (aead_aes_ctr_hmac_sha256 Nk).
Proof. apply (ch_laws base counter_aligned key); unfold aead_aes_ctr_hmac_sha256; by destruct (_ =? _)%nat. Defined.

Lemma ch_init_ok ctx Nk aes_key hmac_key tag_len :
  gcm_key Nk aes_key -> length hmac_key = 32%nat -> 0 <= tag_len <= 32 ->
  exists s, EVP_AEAD_CTX_init ctx (aead_aes_ctr_hmac_sha256 Nk) (aes_key ++ hmac_key) tag_len true =
      Ok (true, mkAeadCtx (Some (aead_aes_ctr_hmac_sha256 Nk)) (Some s)) /\
    ch_usable s hmac_key /\ (forall x, block16 x -> ch_block s x = AES Nk aes_key x) /\ ch_tag_len s = if tag_len =? 0 then 32 else tag_len.
Proof.
  intros K Lh Ht. destruct (aes_ctr_set_key_ok junk junk_size Nk aes_key K) as (block & ctr & E & Hb & Hl & Hc).
  destruct (gcm_key_length _ _ K) as [_ Lk]. destruct (hmac_ok hmac_key Lh) as (inner & outer & Eh & Hm).
  set (t := if tag_len =? 0 then 32 else tag_len). assert (T : 0 < t <= 32) by (unfold t; destruct (Z.eqb_spec tag_len 0); lia).
  assert (Lz : zlen (aes_key ++ hmac_key) = zlen aes_key + 32) by (rewrite zlen_app; unfold zlen at 2; lia).
  assert (Ei : aead_aes_ctr_hmac_sha256_init junk (aes_key ++ hmac_key) tag_len true = Some (mkCtrHmac block ctr inner outer t)).
  { unfold aead_aes_ctr_hmac_sha256_init, EVP_AEAD_AES_CTR_HMAC_SHA256_TAG_LEN, SHA256_DIGEST_LENGTH. fold t. rewrite Lz.
    pose proof (zlen_nonneg aes_key). destruct (Z.ltb_spec (zlen aes_key + 32) 32); [lia|].
    replace (zlen aes_key + 32 - 32) with (zlen aes_key) by lia. rewrite Z.gtb_ltb. destruct (Z.ltb_spec 32 t); [lia|].
    unfold zlen at 3 5. rewrite Nat2Z.id, take_app_length, drop_app_length, E, Eh, (wrapU_id 8 t) by (unfold is_u; lia).
    rewrite Lk. by destruct K as [[-> | ->] _]. }
  exists (mkCtrHmac block ctr inner outer t). split; [|split; [|done]].
  - unfold EVP_AEAD_CTX_init, EVP_AEAD_CTX_init_with_direction, aead_aes_ctr_hmac_sha256.
    destruct K as [[-> | ->] _]; cbn [Nat.eqb init key_len aead_aes_128_ctr_hmac_sha256 aead_aes_256_ctr_hmac_sha256];
      rewrite Lz, Lk; cbn [mbind res_bind]; by rewrite Ei.
  - split; cbn [ch_block ch_ctr ch_inner ch_outer ch_tag_len]; try done.
    intros x Hx. rewrite Hb by done. rewrite <- (proj2 (expanded_fips Nk aes_key junk K junk_size)) by done. by apply block16_aes_block.
Qed.

(** C19: an [EVP_AEAD_CTX] for AES in counter mode with HMAC-SHA256, with
    AES keys of 128 and 256 bits and tags of any length, composed of AES,
    counter mode, SHA-256 and the interface: sealing writes the text under the
    key stream of FIPS-197 and the first bytes of the HMAC of RFC 2104 over
    the lengths, the nonce, the additional data and the ciphertext; opening
    returns 1 exactly for a text whose last bytes are the tag of the rest,
    with the plaintext in the output area, and otherwise leaves that area
    zero; so it gives back what was sealed. *)
Theorem ctr_hmac_exact ctx Nk aes_key hmac_key tag_len stack c mem :
  gcm_key Nk aes_key -> length hmac_key = 32%nat -> 0 <= tag_len <= 32 ->
  valid_call c mem -> ch_call c -> check_alias (c_in c) (c_in_len c) (c_out c) = true -> c_nonce_len c = 12 ->
  let t := if tag_len =? 0 then 32 else tag_len in
  c_in_len c + t <= c_max_out_len c -> c_in_len c + 32 < 2 ^ 32 ->
  let text := ch_sealed (AES Nk aes_key) hmac_key t (nonce_area c mem) (ad_area c mem) (in_area c mem) in
  exists e, EVP_AEAD_CTX_init ctx (aead_aes_ctr_hmac_sha256 Nk) (aes_key ++ hmac_key) tag_len true = Ok (true, e) /\
    EVP_AEAD_CTX_seal e stack c mem = Ok (true, c_in_len c + t, splice mem (c_out c) text) /\
    ch_opened (AES Nk aes_key) hmac_key t (nonce_area c mem) (ad_area c mem) text = Some (in_area c mem) /\
    (forall stack' c' m, valid_call c' m -> ch_call c' ->
       EVP_AEAD_CTX_open e stack' c' m =
         if check_alias (c_in c') (c_in_len c') (c_out c') && (c_nonce_len c' =? 12) && (t <=? c_in_len c') &&
            (c_in_len c' - t <=? c_max_out_len c') then
           match ch_opened (AES Nk aes_key) hmac_key t (nonce_area c' m) (ad_area c' m) (in_area c' m) with
           | Some p => Ok (true, zlen p, splice m (c_out c') p)
           | None => refused c' m
           end
         else refused c' m).
Proof.
  intros K Lh Ht V Hc Ha En t Hl Hw text. destruct (ch_init_ok ctx Nk aes_key hmac_key tag_len K Lh Ht) as (s & E & U & Hb & Et). fold t in Et.
  exists (mkAeadCtx (Some (aead_aes_ctr_hmac_sha256 Nk)) (Some s)). split; [done|].
  assert (Ln : forall c' m, valid_call c' m -> c_nonce_len c' = 12 -> length (nonce_area c' m) = 12%nat /\ Forall is_byte (nonce_area c' m)).
  { intros c' m V' En'. destruct (vc_nonce _ _ V') as (? & ? & ?). split; [|apply Forall_slice, V'].
    apply Nat2Z.inj. change (zlen (nonce_area c' m) = 12). unfold nonce_area. rewrite zlen_slice; lia. }
  split; [|split].
  - rewrite (evp_seal_spec (aead_aes_ctr_hmac_sha256 Nk) (L := aes_ctr_hmac_laws hmac_key Nk)) by done. unfold seal_accepts.
    cbn [call_fits tag_size sealed aes_ctr_hmac_laws ch_laws]. rewrite Et, Ha, En.
    assert (overhead (aead_aes_ctr_hmac_sha256 Nk) = 32) as -> by (unfold aead_aes_ctr_hmac_sha256; by destruct (_ =? _)%nat).
    rewrite (proj2 (Z.leb_le _ _) Hl), (proj2 (Z.ltb_lt _ _) Hw). cbn [andb Z.eqb Pos.eqb]. unfold text, ch_sealed.
    destruct (Ln c mem V En) as [L1 B1]. by rewrite (ctr_text_same (ch_block s) (AES Nk aes_key)).
  - apply ch_open_seal. rewrite <- Et. apply (cu_tag _ _ U).
  - intros stack' c' m V' Hc'. rewrite (evp_open_spec (aead_aes_ctr_hmac_sha256 Nk) (L := aes_ctr_hmac_laws hmac_key Nk)) by done.
    unfold open_accepts. cbn [call_fits tag_size opened aes_ctr_hmac_laws ch_laws]. rewrite Et.
    destruct (Z.eqb_spec (c_nonce_len c') 12) as [En'|]; [|by rewrite andb_false_r]. destruct (Ln c' m V' En') as [L1 B1].
    unfold ch_opened. by rewrite (ctr_text_same (ch_block s) (AES Nk aes_key)).
Qed.
End Aes.

(** Ten bytes sealed in place. *)
Definition ch_mem : list Z := Z.of_nat <$> seq 1 80.
Definition ch_demo : Call := mkCall 20 40 0 12 20 10 12 4.

Lemma ctr_hmac_exact_witness :
  exists (e : EVP_AEAD_CTX aead_aes_ctr_hmac_sha256_ctx) text, EVP_AEAD_CTX_seal e [] ch_demo ch_mem = Ok (true, 26, splice ch_mem 20 text) /\
    text = ch_sealed (AES 4 (demo_key 16)) (demo_key 32) 16 (slice ch_mem 0 12) (slice ch_mem 12 4) (slice ch_mem 20 10).
Proof.
  assert (V : valid_call ch_demo ch_mem).
  { split; [by apply (bool_decide_unpack _); vm_compute|change (zlen ch_mem) with 80; cbn; lia..]. }
  assert (C : ch_call ch_demo) by (split; [left|right; left]; cbn; lia).
  assert (K : gcm_key 4 (demo_key 16)).
  { split; [by left|]. split; [done|]. apply demo_key_bytes. lia. }
  destruct (@ctr_hmac_exact demo_asm demo_asm_laws blank_key eq_refl 0 true (mkAeadCtx None None) 4 (demo_key 16) (demo_key 32) 16 [] ch_demo ch_mem
              K eq_refl ltac:(lia) V C eq_refl eq_refl ltac:(by vm_compute) ltac:(by vm_compute)) as (e & _ & E & _).
  exists e. eexists. split; [exact E|reflexivity].
Defined.
