(* ===== verification/LocalRefs.v ===== *)
(** * LocalRefs: Java strings and the local references they cost

    Models the conversions at the end of
    [src/fastsocks/cpp/common/android_jni.cpp] and the completion callback
    of [sendRequest] in [src/fastsocks/cpp/tcp/TcpNetWapper.cpp], with the
    live local references of the calling thread.  Every JNI function that
    returns an object adds a reference; [DeleteLocalRef] takes one away; a
    native method that returns to Java drops those of its frame.  The
    network thread is attached by [attachThread] and never returns to Java,
    so what a callback leaves stays.  Which reference the virtual machine
    gives out, [EnsureLocalCapacity] and whether the listener has the method
    are parameters; of the references the class [VmLaws] says what the JNI
    specification does, that a new one is neither null nor live already.  The
    virtual machine's answer to running out of memory is not modelled.

    Shown: a Java string holds the bytes of the C string, and each callback
    leaves two more live references. *)

From S2P Require Import Prelude.

(** ** References *)

Inductive jobject : Type :=
  | ClassObject (name : string)
  | ByteArrayObject (bytes : list Z)
  | StringObject (bytes : list Z).      (* the text, in the given encoding *)

(** The live local references of the thread. *)
Abbreviation LocalRefs := (gmap Z jobject).

(** The reference of an object, and nothing for [NULL]. *)
Definition NULL : Z := 0.

Class Vm : Type := {
  fresh : LocalRefs -> Z;                      (* the reference of the next new object *)
  EnsureLocalCapacity : LocalRefs -> bool;     (* whether there is room for 2 more *)
  has_method : bool                            (* GetMethodID finds the listener's method *)
}.

Class VmLaws (V : Vm) : Prop := {
  fresh_not_null : forall t, fresh t <> NULL;
  fresh_not_live : forall t, t !! fresh t = None
}.

Section Table.
Context {V : Vm}.

Definition new_ref (o : jobject) : SR LocalRefs Z := fun t => Ok (fresh t, <[fresh t := o]> t).

Definition DeleteLocalRef (r : Z) : SR LocalRefs unit := modify (delete r).

Definition FindClass (name : string) : SR LocalRefs Z := new_ref (ClassObject name).

(** A negative size throws and returns [NULL]. *)
Definition NewByteArray (n : Z) : SR LocalRefs Z :=
  if n <? 0 then mret NULL else new_ref (ByteArrayObject (replicate (Z.to_nat n) 0)).

Definition NewStringUTF (s : list Z) : SR LocalRefs Z := new_ref (StringObject s).

(** The object behind a reference; [NULL] and what was deleted have none. *)
Definition deref (r : Z) : SR LocalRefs jobject := fun t =>
  match t !! r with Some o => Ok (o, t) | None => Fault NullDereference end.

(** [SetByteArrayRegion(bytes, 0, len, buf)] *)
Definition SetByteArrayRegion (r len : Z) (buf : list Z) : SR LocalRefs unit :=
  o ← deref r;
  match o with
  | ByteArrayObject l =>
      data ← lift_res (read_at buf 0 len);
      l' ← lift_res (write_at l 0 data);
      modify (<[r := ByteArrayObject l']>)
  | _ => fault_with InvalidIterator
  end.

(** [NewObject(str_class, ctorID, bytes, encoding)] for
    [String(byte[], String)]. *)
Definition NewString (cls bytes encoding : Z) : SR LocalRefs Z :=
  _ ← deref cls;
  _ ← deref encoding;
  o ← deref bytes;
  match o with
  | ByteArrayObject l => new_ref (StringObject l)
  | _ => fault_with InvalidIterator
  end.

(** ** The conversions *)

(** A C string is a block of memory with a zero in it. *)
Fixpoint strlen (mem : list Z) : res Z :=
  match mem with
  | [] => Fault OutOfBounds
  | b :: mem' => if b =? 0 then Ok 0 else n ← strlen mem'; Ok (1 + n)
  end.

Definition utf8_name : list Z := [117; 116; 102; 45; 56].      (* "utf-8" *)

Definition JNI_Chars2Jstring (pat : option (list Z)) : SR LocalRefs Z :=
  str_class ← FindClass "java/lang/String";
  bytes ← (match pat with
           | Some p =>
               len ← lift_res (strlen p);
               bytes ← NewByteArray (wrapS 32 len);
               SetByteArrayRegion bytes (wrapS 32 len) p;;
               mret bytes
           | None =>
               bytes ← NewByteArray 1;
               SetByteArrayRegion bytes 1 [0];;
               mret bytes
           end);
  encoding ← NewStringUTF utf8_name;
  jstr ← NewString str_class bytes encoding;
  DeleteLocalRef bytes;;
  DeleteLocalRef encoding;;
  mret jstr.

Definition JNI_Buffer2JbyteArray (buffer : list Z) (length : Z) : SR LocalRefs Z :=
  let len := u32 length in
  if len =? 0 then mret NULL
  else
    bytes ← NewByteArray (wrapS 32 len);
    SetByteArrayRegion bytes (wrapS 32 len) buffer;;
    mret bytes.

Definition JNI_FreeJbyteArray (r : Z) : SR LocalRefs unit := DeleteLocalRef r.
Definition JNI_FreeJstring (r : Z) : SR LocalRefs unit := DeleteLocalRef r.

(** ** The callback *)

(** [__JNI_CallMethodByName] for a void method, as far as references go; the
    result is what the method sees as its last argument, when it is called. *)
Definition CallVoidMethodByName (cls : string) (arg : Z) : SR LocalRefs (option jobject) :=
  room ← gets EnsureLocalCapacity;
  if (room : bool) then
    clazz ← new_ref (ClassObject cls);
    seen ← (if has_method then o ← deref arg; mret (Some o) else mret None);
    DeleteLocalRef clazz;;
    mret seen
  else mret None.

(** The lambda of [sendRequest]; [listener] says whether [onSendFunc] is
    there, [desc] is [desc.c_str()]. *)
Definition send_complete (listener : bool) (desc : list Z) : SR LocalRefs (option jobject) :=
  if listener then
    s ← JNI_Chars2Jstring (Some desc);
    CallVoidMethodByName "onNativeSendListener" s
  else mret None.

(** The network thread: one callback after the other, in one frame. *)
Fixpoint callbacks (descs : list (list Z)) : SR LocalRefs (list (option jobject)) :=
  match descs with
  | [] => mret []
  | d :: descs' => o ← send_complete true d; os ← callbacks descs'; mret (o :: os)
  end.
End Table.

(** ** What a conversion leaves *)

Definition c_string (text : list Z) : Prop := Forall (fun b => b <> 0) text /\ zlen text < 2 ^ 31.

Lemma strlen_text text rest : Forall (fun b => b <> 0) text -> strlen (text ++ 0 :: rest) = Ok (zlen text).
Proof.
  induction 1 as [|b text Hb Ht IH]; [done|]. simpl. destruct (Z.eqb_spec b 0); [done|]. rewrite IH. simpl. f_equal.
  unfold zlen. simpl length. lia.
Qed.

Section Costs.
Context {V : Vm} {L : VmLaws V}.

(** The references after one more object. *)
Definition push (o : jobject) (t : LocalRefs) : LocalRefs := <[fresh t := o]> t.

Lemma push_top o t : push o t !! fresh t = Some o.
Proof. apply lookup_insert_eq. Qed.

Lemma live_not_fresh t r o : t !! r = Some o -> r <> fresh t.
Proof. intros H ->. by rewrite fresh_not_live in H. Qed.

Lemma push_below o t r x : t !! r = Some x -> push o t !! r = Some x.
Proof. intros H. unfold push. rewrite lookup_insert_ne; [done|]. apply not_eq_sym. by eapply live_not_fresh. Qed.

Lemma size_push o t : size (push o t) = S (size t).
Proof. apply map_size_insert_None, fresh_not_live. Qed.

Lemma pop_push o t : delete (fresh t) (push o t) = t.
Proof. apply delete_insert_id, fresh_not_live. Qed.

(** An array that is made and filled. *)
Lemma fill_array text n buf t :
  zlen text < 2 ^ 31 -> n = zlen text -> slice buf 0 n = text -> n <= zlen buf ->
  (r ← NewByteArray (wrapS 32 n); SetByteArrayRegion r (wrapS 32 n) buf;; mret r) t =
    Ok (fresh t, push (ByteArrayObject text) t).
Proof.
  intros Ht -> Hs Hb. pose proof (zlen_nonneg text) as H0. rewrite wrapS_id by (unfold is_s; lia).
  assert (Er : read_at buf 0 (zlen text) = Ok text) by (rewrite read_at_Ok by lia; by rewrite Hs).
  assert (Ew : write_at (replicate (Z.to_nat (zlen text)) 0) 0 text = Ok text).
  { unfold write_at, in_block, splice. unfold zlen at 3. rewrite length_replicate.
    destruct (Z.leb_spec 0 (zlen text)); [|lia]. destruct (Z.leb_spec (0 + zlen text) (Z.of_nat (Z.to_nat (zlen text)))); [|lia].
    cbn. rewrite drop_ge by (rewrite length_replicate; lia). by rewrite app_nil_r. }
  unfold NewByteArray, new_ref, mbind, SR_bind. destruct (Z.ltb_spec (zlen text) 0); [lia|].
  unfold SetByteArrayRegion, deref, mbind, SR_bind.
  rewrite lookup_insert_eq. cbv beta iota. rewrite Er. cbn [lift_res]. rewrite Ew. cbn [lift_res].
  unfold modify, mret, SR_ret, push. by rewrite insert_insert_eq.
Qed.

(** What stays of a conversion: the string and its class. *)
Record converted (text : list Z) (t : LocalRefs) (r : Z) (t' : LocalRefs) : Prop := {
  cv_string : t' !! r = Some (StringObject text);
  cv_size : size t' = (size t + 2)%nat;
  cv_sub : t ⊆ t'
}.

Lemma chars_run text rest t :
  c_string text ->
  exists r t', JNI_Chars2Jstring (Some (text ++ 0 :: rest)) t = Ok (r, t') /\ converted text t r t'.
Proof.
  intros [Ht Hl]. unfold JNI_Chars2Jstring, FindClass, NewStringUTF. unfold mbind at 1, SR_bind at 1, new_ref at 1.
  set (t1 := <[fresh t := _]> t). unfold mbind at 1, SR_bind at 1. unfold mbind at 1, SR_bind at 1. rewrite strlen_text by done. cbn [lift_res].
  rewrite (fill_array text (zlen text) (text ++ 0 :: rest)); [|done|done| |rewrite zlen_app; pose proof (zlen_nonneg (0 :: rest)); lia].
  2: { unfold slice, zlen. change (Z.to_nat 0) with 0%nat. rewrite drop_0, Nat2Z.id. apply take_app_length. }
  set (t2 := push _ t1). unfold mbind at 1, SR_bind at 1, new_ref at 1. set (t3 := <[fresh t2 := _]> t2).
  assert (D0 : t1 !! fresh t = Some (ClassObject "java/lang/String")) by apply lookup_insert_eq.
  assert (D1 : t2 !! fresh t1 = Some (ByteArrayObject text)) by apply push_top.
  assert (D2 : t3 !! fresh t2 = Some (StringObject utf8_name)) by apply lookup_insert_eq.
  assert (B0 : t3 !! fresh t = Some (ClassObject "java/lang/String")) by (by do 2 apply push_below).
  assert (B1 : t3 !! fresh t1 = Some (ByteArrayObject text)) by (by apply push_below).
  unfold NewString, deref, new_ref, DeleteLocalRef, modify, mret, SR_ret, mbind, SR_bind.
  rewrite B0. cbv beta iota. rewrite D2. cbv beta iota. rewrite B1. cbv beta iota.
  eexists (fresh t3), _. split; [reflexivity|].
  assert (N1 : fresh t1 <> fresh t3) by (by eapply live_not_fresh). assert (N2 : fresh t2 <> fresh t3) by (by eapply live_not_fresh).
  assert (N12 : fresh t1 <> fresh t2) by (by eapply live_not_fresh).
  assert (E : delete (fresh t2) (delete (fresh t1) (<[fresh t3 := StringObject text]> t3)) = <[fresh t3 := StringObject text]> t1).
  { rewrite !delete_insert_ne by done. f_equal. rewrite delete_delete. fold (push (StringObject utf8_name) t2) in t3.
    unfold t3. rewrite pop_push. apply pop_push. }
  rewrite E. assert (F3 : t1 !! fresh t3 = None).
  { destruct (t1 !! fresh t3) as [x|] eqn:Ef; [|done]. assert (H3 : t3 !! fresh t3 = Some x) by (by do 2 apply push_below).
    by rewrite fresh_not_live in H3. }
  constructor; [apply lookup_insert_eq| |].
  - rewrite map_size_insert_None by done. change t1 with (push (ClassObject "java/lang/String") t). rewrite size_push. lia.
  - etrans; [apply insert_subseteq, fresh_not_live|]. by apply insert_subseteq.
Qed.

(** The call adds a reference and takes it away. *)
Lemma call_run cls arg o t :
  t !! arg = Some o ->
  CallVoidMethodByName cls arg t = Ok (if EnsureLocalCapacity t && has_method then Some o else None, t).
Proof.
  intros Ha. unfold CallVoidMethodByName, gets, mbind, SR_bind.
  destruct (EnsureLocalCapacity t); [|done]. unfold new_ref. fold (push (ClassObject cls) t).
  pose proof (push_below (ClassObject cls) t arg o Ha) as D.
  destruct has_method; unfold DeleteLocalRef, deref, modify, mret, SR_ret; rewrite ?D; by rewrite pop_push.
Qed.

Lemma complete_run text rest t :
  c_string text ->
  exists o r t', send_complete true (text ++ 0 :: rest) t = Ok (o, t') /\ converted text t r t' /\
    (has_method = true -> (forall t, EnsureLocalCapacity t = true) -> o = Some (StringObject text)).
Proof.
  intros Ht. unfold send_complete, mbind, SR_bind. destruct (chars_run text rest t Ht) as (r & t' & -> & C).
  rewrite (call_run _ r (StringObject text)) by apply C. eexists _, r, t'. split; [done|]. split; [done|]. by intros -> ->.
Qed.

(** A buffer becomes an array of its bytes; the length is cut to 32 bits, and
    a length of 2^31 or more makes no array, which is not noticed. *)
Lemma buffer_array buf n t :
  t !! NULL = None -> 0 <= n <= zlen buf ->
  JNI_Buffer2JbyteArray buf n t =
    if u32 n =? 0 then Ok (NULL, t)
    else if u32 n <? 2 ^ 31 then Ok (fresh t, push (ByteArrayObject (slice buf 0 (u32 n))) t)
    else Fault NullDereference.
Proof.
  intros H0 Hn. unfold JNI_Buffer2JbyteArray. destruct (Z.eqb_spec (u32 n) 0) as [|N0]; [done|].
  assert (Hu : 0 <= u32 n < 2 ^ 32) by (apply (wrapU_range 32); lia).
  assert (Hle : u32 n <= n) by (unfold wrapU; apply Z.mod_le; lia).
  assert (Lz : zlen (slice buf 0 (u32 n)) = u32 n) by (apply zlen_slice; lia).
  destruct (Z.ltb_spec (u32 n) (2 ^ 31)) as [Lt|Lt].
  - by rewrite (fill_array (slice buf 0 (u32 n))); [|lia|done|done|lia].
  - unfold NewByteArray. assert (Ew : wrapS 32 (u32 n) = u32 n - 2 ^ 32).
    { unfold wrapS. change (2 ^ (32 - 1)) with (2 ^ 31). rewrite <- (Z.mod_add _ (-1)) by lia. rewrite Z.mod_small; lia. }
    rewrite Ew. destruct (Z.ltb_spec (u32 n - 2 ^ 32) 0); [|lia].
    unfold mbind, SR_bind, mret, SR_ret, SetByteArrayRegion, deref, mbind, SR_bind. by rewrite H0.
Qed.

(** C35: the completion callback hands Java a string with the bytes of the
    description (when the listener has the method and there is room for the
    call), but every call leaves two live local references on the network
    thread, the string and its class, which nothing releases: after [n]
    callbacks with non-null descriptions there are exactly [2 * n] more, and
    all earlier ones are still live, whichever references the virtual machine
    gives out, as long as it has memory for the objects. *)
Theorem callbacks_leak t (texts : list (list Z)) :
  Forall c_string texts ->
  exists os t', callbacks ((fun x => x ++ [0]) <$> texts) t = Ok (os, t') /\
    size t' = (size t + 2 * length texts)%nat /\ t ⊆ t' /\
    (has_method = true -> (forall t, EnsureLocalCapacity t = true) -> os = (fun x => Some (StringObject x)) <$> texts).
Proof.
  intros Ht. revert t. induction Ht as [|x texts Hx Ht IH]; intros t.
  - exists [], t. split; [done|]. split; [simpl; lia|done].
  - cbn [fmap list_fmap callbacks length]. unfold mbind, SR_bind.
    destruct (complete_run x [] t Hx) as (o & r & t1 & -> & [_ S1 Sub1] & O1).
    destruct (IH t1) as (os & t2 & E & S2 & Sub2 & O2). fold ((fmap (M := list) (fun x : list Z => x ++ [0])) texts).
    rewrite E. eexists _, t2. split; [done|]. split; [lia|]. split; [by etrans|]. intros Hm He. by rewrite O1, O2.
Qed.
End Costs.

(** ** A virtual machine for the examples *)

(** It counts its references. *)
Definition counting (t : LocalRefs) : Z := map_fold (fun r _ m => Z.max (r + 1) m) 1 t.

Lemma counting_above t : 0 < counting t /\ forall r, is_Some (t !! r) -> r < counting t.
Proof.
  unfold counting. apply (map_fold_weak_ind (fun m t => 0 < m /\ forall r, is_Some (t !! r) -> r < m)).
  - split; [lia|]. intros r [? H]. by rewrite lookup_empty in H.
  - intros i x m b Hi [Hb IH]. split; [lia|]. intros r. destruct (decide (i = r)) as [<-|Hne]; [lia|].
    rewrite lookup_insert_ne by done. intros Hr. specialize (IH r Hr). lia.
Qed.

#[export] Instance counting_vm : Vm := {| fresh := counting; EnsureLocalCapacity := fun _ => true; has_method := true |}.

#[export] Instance counting_laws : VmLaws counting_vm.
Proof.
  split; intros t; destruct (counting_above t) as [H0 H]; simpl; [unfold NULL; lia|].
  destruct (t !! counting t) eqn:E; [|done]. specialize (H (counting t)). rewrite E in H. specialize (H ltac:(eauto)). lia.
Qed.

(** A null pointer becomes a string of one zero byte. *)
Example null_pattern :
  JNI_Chars2Jstring None ∅ = Ok (4, <[4 := StringObject [0]]> {[1 := ClassObject "java/lang/String"]}).
Proof. reflexivity. Qed.

(** Three callbacks with the description "ok". *)
Lemma callbacks_leak_witness :
  exists os t', callbacks ((fun x => x ++ [0]) <$> replicate 3 [111; 107]) ∅ = Ok (os, t') /\
    size t' = (size (∅ : LocalRefs) + 2 * 3)%nat /\ ∅ ⊆ t' /\
    (has_method = true -> (forall t, EnsureLocalCapacity t = true) -> os = (fun x => Some (StringObject x)) <$> replicate 3 [111; 107]).
Proof.
  apply (callbacks_leak ∅ (replicate 3 [111; 107])). apply Forall_replicate. split; [by repeat constructor|done].
Defined.
