(* ===== verification/ByteArray.v ===== *)
(** * ByteArray: an owning block of bytes

    Models [src/fastsocks/cpp/tcp/ByteArray.cpp].  The heap is the list of
    the blocks ever made, a freed one being [None]; [delete_kind] says how
    the implementation treats [delete] on a block from [new[]]: the standard
    leaves it undefined, the allocators of the targets free the block.
    [new] throws and does not return a null pointer, so the branches that end
    the process are never taken; the bytes of a new block are arbitrary
    ([junk]).

    Shown: under an allocator that frees, every life of an array frees each
    of its blocks once and no other, and a copy shares nothing with its
    original; by the standard, the destructor of every array with a block is
    undefined. *)

From S2P Require Import Prelude.

Abbreviation heap := (list (option (list Z))).

Inductive delete_kind : Type := Undefined | FreesArrays.

Record ByteArray : Type := mkArray { length_of : Z; buffer : option nat }.

Section Operations.
Context (on_delete : delete_kind) (junk : Z -> list Z).

(** [new uint8_t[len]] *)
Definition new_array (len : Z) : SR heap nat := fun h => Ok (length h, h ++ [Some (take (Z.to_nat len) (junk len))]).

(** [delete buffer] *)
Definition delete_block (b : nat) : SR heap unit := fun h =>
  match on_delete with
  | Undefined => Fault InvalidIterator
  | FreesArrays => match h !! b with Some (Some _) => Ok (tt, <[b := None]> h) | _ => Fault UseAfterFree end
  end.

(** [memcpy(buffer, src, len)] from another block. *)
Definition memcpy_in (b : nat) (src : list Z) (len : Z) : SR heap unit := fun h =>
  match h !! b with
  | Some (Some l) =>
      data ← read_at src 0 len;
      l' ← write_at l 0 data;
      Ok (tt, <[b := Some l']> h)
  | _ => Fault UseAfterFree
  end.

(** The bytes behind a pointer; of a null pointer nothing may be read. *)
Definition bytes_of (b : option nat) : SR heap (list Z) := fun h =>
  match b with
  | None => Ok ([], h)
  | Some b => match h !! b with Some (Some l) => Ok (l, h) | _ => Fault UseAfterFree end
  end.

Definition ByteArray_empty : ByteArray := mkArray 0 None.

Definition ByteArray_len (len : Z) : SR heap ByteArray :=
  b ← new_array len; mret (mkArray len (Some b)).

Definition ByteArray_copy (array : ByteArray) : SR heap ByteArray :=
  b ← new_array (length_of array);
  src ← bytes_of (buffer array);
  memcpy_in b src (length_of array);;
  mret (mkArray (length_of array) (Some b)).

Definition ByteArray_from (srcBuffer : list Z) (len : Z) : SR heap ByteArray :=
  b ← new_array len;
  memcpy_in b srcBuffer len;;
  mret (mkArray len (Some b)).

(** [if (buffer != nullptr) { delete buffer; buffer = nullptr; }] *)
Definition drop_buffer (a : ByteArray) : SR heap ByteArray :=
  match buffer a with
  | Some b => delete_block b;; mret (mkArray (length_of a) None)
  | None => mret a
  end.

Definition alloc (len : Z) (a : ByteArray) : SR heap ByteArray :=
  _ ← drop_buffer a;
  b ← new_array len;
  mret (mkArray len (Some b)).

Definition destroy (a : ByteArray) : SR heap ByteArray :=
  a ← drop_buffer a;
  mret (mkArray 0 (buffer a)).
End Operations.

(** ** The life of an array *)

(** An array owns a live block of its length. *)
Definition owns (h : heap) (a : ByteArray) : Prop :=
  match buffer a with
  | None => length_of a = 0
  | Some b => exists l, h !! b = Some (Some l) /\ zlen l = length_of a
  end.

Definition fills (junk : Z -> list Z) : Prop := forall len, 0 <= len -> len <= zlen (junk len).

(** The live blocks of a heap. *)
Definition live (h : heap) : gset nat := list_to_set (filter (fun i => is_Some (mjoin (h !! i))) (seq 0 (length h))).

Lemma elem_of_live h i : i ∈ live h <-> exists l, h !! i = Some (Some l).
Proof.
  unfold live. rewrite elem_of_list_to_set, list_elem_of_filter, elem_of_seq. split.
  - intros [[l Hl] _]. destruct (h !! i) as [[x|]|] eqn:E; [by exists x|done..].
  - intros [l Hl]. rewrite Hl. split; [by eexists|]. apply lookup_lt_Some in Hl. lia.
Qed.

Definition own (a : ByteArray) : gset nat := match buffer a with Some b => {[b]} | None => ∅ end.

(** The other blocks stay as they are. *)
Definition others_same (h h' : heap) (S : gset nat) : Prop := forall i l, i ∉ S -> h !! i = Some l -> h' !! i = Some l.

Section Life.
Context (junk : Z -> list Z) (junk_fills : fills junk).

Lemma new_array_ok len h :
  0 <= len -> exists l, zlen l = len /\ new_array junk len h = Ok (length h, h ++ [Some l]).
Proof.
  intros Hl. exists (take (Z.to_nat len) (junk len)). split; [|done]. specialize (junk_fills len Hl). unfold zlen in *.
  rewrite length_take. lia.
Qed.

Lemma live_snoc h l : live (h ++ [Some l]) = live h ∪ {[length h]}.
Proof.
  apply set_eq. intros i. rewrite elem_of_union, elem_of_singleton, !elem_of_live. split.
  - intros [x Hx]. destruct (decide (i < length h)%nat) as [Hi|Hi]; [rewrite lookup_app_l in Hx by done; left; by exists x|right].
    apply lookup_lt_Some in Hx. rewrite length_app in Hx. simpl in Hx. lia.
  - intros [[x Hx]| ->]; [exists x; by apply lookup_app_l_Some|exists l]. rewrite lookup_app_r, Nat.sub_diag by lia. done.
Qed.

Lemma live_insert h b : live (<[b := None]> h) = live h ∖ {[b]}.
Proof.
  apply set_eq. intros i. rewrite elem_of_difference, elem_of_singleton, !elem_of_live. destruct (decide (i = b)) as [->|Hi].
  - split; [|tauto]. intros [l Hl]. destruct (decide (b < length h)%nat).
    + by rewrite list_lookup_insert_eq in Hl.
    + apply lookup_lt_Some in Hl. rewrite length_insert in Hl. lia.
  - rewrite list_lookup_insert_ne by done. tauto.
Qed.

Lemma drop_ok a h :
  owns h a -> exists h', drop_buffer FreesArrays a h = Ok (mkArray (length_of a) None, h') /\ live h' = live h ∖ own a /\
    length h' = length h /\ others_same h h' (own a).
Proof.
  unfold owns, drop_buffer, own, others_same. destruct a as [n [b|]]; cbn [buffer length_of].
  - intros (l & Hb & _). exists (<[b := None]> h). unfold delete_block, mbind, SR_bind. rewrite Hb. split; [done|].
    split; [apply live_insert|]. split; [apply length_insert|]. intros i x Hi Hx. rewrite list_lookup_insert_ne; [done|set_solver].
  - intros ->. exists h. split; [done|]. split; [set_solver|]. done.
Qed.

(** [alloc] gives the array a new block, frees the old one and leaves all
    others alone. *)
Lemma alloc_ok len a h :
  owns h a -> 0 <= len ->
  exists a' h', alloc FreesArrays junk len a h = Ok (a', h') /\ owns h' a' /\ length_of a' = len /\
    live h' = live h ∖ own a ∪ own a' /\ own a' ## live h /\ others_same h h' (own a).
Proof.
  intros Ho Hl. destruct (drop_ok a h Ho) as (h1 & E1 & L1 & N1 & O1). destruct (new_array_ok len h1 Hl) as (l & Zl & E2).
  exists (mkArray len (Some (length h1))), (h1 ++ [Some l]). unfold alloc, mbind, SR_bind. rewrite E1, E2. split; [done|].
  split; [|split; [done|]].
  - exists l. split; [|done]. rewrite lookup_app_r, Nat.sub_diag by lia. done.
  - split; [by rewrite live_snoc, L1|]. split.
    + unfold own. cbn [buffer]. intros i Hi%elem_of_singleton Hj%elem_of_live. destruct Hj as [x Hx%lookup_lt_Some]. lia.
    + intros i x Hi Hx. apply lookup_app_l_Some. by apply O1.
Qed.

Lemma destroy_ok a h :
  owns h a -> exists h', destroy FreesArrays a h = Ok (ByteArray_empty, h') /\ live h' = live h ∖ own a /\ others_same h h' (own a).
Proof.
  intros Ho. destruct (drop_ok a h Ho) as (h1 & E1 & L1 & N1 & O1). exists h1. unfold destroy, mbind, SR_bind. by rewrite E1.
Qed.

(** A copy has the bytes of its original in a block of its own. *)
Lemma copy_ok a h l :
  owns h a -> (buffer a ≫= fun b => mjoin (h !! b)) = Some l ->
  exists a' h', ByteArray_copy junk a h = Ok (a', h') /\ length_of a' = length_of a /\ own a' ## own a /\ own a' ## live h /\
    (buffer a' ≫= fun b => mjoin (h' !! b)) = Some l /\ live h' = live h ∪ own a' /\ others_same h h' ∅.
Proof.
  destruct a as [n [b|]]; [|done]. unfold owns. cbn [buffer length_of mbind option_bind]. intros (l' & Hb & Hz) Hl.
  rewrite Hb in Hl. injection Hl as ->. pose proof (zlen_nonneg l) as H0. destruct (new_array_ok n h ltac:(lia)) as (j & Zj & Ej).
  exists (mkArray n (Some (length h))), (h ++ [Some l]). unfold ByteArray_copy, mbind, SR_bind. cbn [length_of buffer]. rewrite Ej.
  assert (D1 : (h ++ [Some j]) !! b = Some (Some l)) by (by apply lookup_app_l_Some).
  assert (D2 : (h ++ [Some j]) !! length h = Some (Some j)) by (by rewrite lookup_app_r, Nat.sub_diag by lia).
  unfold bytes_of. rewrite D1. unfold memcpy_in. rewrite D2.
  assert (Er : read_at l 0 n = Ok l).
  { unfold read_at, in_block, slice. destruct (Z.leb_spec 0 n); [|lia]. destruct (Z.leb_spec (0 + n) (zlen l)); [|lia]. cbn [andb Z.leb Z.compare].
    change (Z.to_nat 0) with 0%nat. rewrite drop_0, take_ge; [done|]. unfold zlen in *. lia. }
  assert (Ew : write_at j 0 l = Ok l).
  { unfold write_at, in_block, splice. destruct (Z.leb_spec 0 (zlen l)); [|lia]. destruct (Z.leb_spec (0 + zlen l) (zlen j)); [|lia]. cbn.
    rewrite drop_ge by (unfold zlen in *; lia). by rewrite app_nil_r. }
  unfold mbind, res_bind. rewrite Er, Ew. split.
  { unfold mret, SR_ret. by rewrite insert_app_r_alt, Nat.sub_diag by lia. }
  pose proof (lookup_lt_Some _ _ _ Hb) as Hlt. split; [done|]. unfold own. cbn [buffer]. split; [|split; [|split; [|split]]].
  - set_unfold. lia.
  - intros i Hi%elem_of_singleton Hj%elem_of_live. destruct Hj as [x Hx%lookup_lt_Some]. lia.
  - cbn. rewrite lookup_app_r, Nat.sub_diag by lia. done.
  - apply live_snoc.
  - intros i x _ Hx. by apply lookup_app_l_Some.
Qed.
End Life.

(** By the standard no array with a block can be destroyed. *)
Lemma destroy_undefined a b h : buffer a = Some b -> destroy Undefined a h = Fault InvalidIterator.
Proof. intros E. unfold destroy, drop_buffer, mbind, SR_bind. by rewrite E. Qed.
