(* ===== verification/Utf.v ===== *)
(** * Utf: conversions between UTF-8, UTF-16 and UTF-32

    Models [src/fastsocks/cpp/breakpad/common/convert_UTF.c] and, of
    [string_conversion.cc], the callers that size the target.  A pair of
    pointers [source, sourceEnd] is the list of the units between them, and
    the room between [target] and [targetEnd] is their number; a conversion
    returns its result, what is left of the source and what it wrote.
    [UTF32] is [unsigned long], 32 bits wide on the targets of the library.

    All six functions are one loop over the source, with a body that either
    stops (the source pointer is then back at the start of the character) or
    consumes some units and writes others. *)

From S2P Require Import Prelude.

Inductive ConversionResult : Type := conversionOK | sourceExhausted | targetExhausted | sourceIllegal.
Inductive ConversionFlags : Type := strictConversion | lenientConversion.

#[export] Instance ConversionResult_eq_dec : EqDecision ConversionResult.
Proof. solve_decision. Defined.

Definition is_strict (flags : ConversionFlags) : bool :=
  match flags with strictConversion => true | lenientConversion => false end.

(** ** Constants and tables *)

Definition UNI_REPLACEMENT_CHAR : Z := 0xFFFD.
Definition UNI_MAX_BMP : Z := 0xFFFF.
Definition UNI_MAX_UTF16 : Z := 0x10FFFF.
Definition UNI_MAX_LEGAL_UTF32 : Z := 0x10FFFF.

Definition halfShift : Z := 10.
Definition halfBase : Z := 0x10000.
Definition halfMask : Z := 0x3FF.
Definition UNI_SUR_HIGH_START : Z := 0xD800.
Definition UNI_SUR_HIGH_END : Z := 0xDBFF.
Definition UNI_SUR_LOW_START : Z := 0xDC00.
Definition UNI_SUR_LOW_END : Z := 0xDFFF.

Definition trailingBytesForUTF8 : list nat :=
  replicate 192 0%nat ++ replicate 32 1%nat ++ replicate 16 2%nat ++ [3; 3; 3; 3; 3; 3; 3; 3; 4; 4; 4; 4; 5; 5; 5; 5]%nat.

Definition offsetsFromUTF8 : list Z := [0x00000000; 0x00003080; 0x000E2080; 0x03C82080; 0xFA082080; 0x82082080].
Definition firstByteMark : list Z := [0x00; 0x00; 0xC0; 0xE0; 0xF0; 0xF8; 0xFC].

(** ** The loop *)

Inductive outcome : Type :=
  | Stop (r : ConversionResult)
  | Next (used : nat) (out : list Z) (r : ConversionResult).

(** [while (source < sourceEnd)]; every turn that goes on uses a unit of the
    source. *)
Fixpoint convert_loop (body : list Z -> nat -> ConversionResult -> outcome) (fuel : nat) (source : list Z) (room : nat)
    (result : ConversionResult) : ConversionResult * list Z * list Z :=
  match fuel, source with
  | S fuel', _ :: _ =>
      match body source room result with
      | Stop r => (r, source, [])
      | Next used out r =>
          let '(r, rest, out') := convert_loop body fuel' (drop used source) (room - length out) r in
          (r, rest, out ++ out')
      end
  | _, _ => (result, source, [])
  end.

Definition convert (body : list Z -> nat -> ConversionResult -> outcome) (source : list Z) (room : nat) :
    ConversionResult * list Z * list Z :=
  convert_loop body (length source) source room conversionOK.

(** ** The bodies *)

Definition unit_at (source : list Z) (i : nat) : Z := nth i source 0.

(** [ch >= START && ch <= END] *)
Definition between (lo hi ch : Z) : bool := (lo <=? ch) && (ch <=? hi).

(** The two units of a character above [UNI_MAX_BMP]. *)
Definition surrogates (ch : Z) : list Z :=
  let ch := u32 (ch - halfBase) in
  [u16 (Z.shiftr ch halfShift + UNI_SUR_HIGH_START); u16 (Z.land ch halfMask + UNI_SUR_LOW_START)].

Definition body_32_16 (flags : ConversionFlags) (source : list Z) (room : nat) (result : ConversionResult) : outcome :=
  if (room =? 0)%nat then Stop targetExhausted
  else
    let ch := unit_at source 0 in
    if ch <=? UNI_MAX_BMP then
      if between UNI_SUR_HIGH_START UNI_SUR_LOW_END ch then
        if is_strict flags then Stop sourceIllegal else Next 1 [UNI_REPLACEMENT_CHAR] result
      else Next 1 [u16 ch] result
    else if ch >? UNI_MAX_LEGAL_UTF32 then
      if is_strict flags then Next 1 [] sourceIllegal else Next 1 [UNI_REPLACEMENT_CHAR] result
    else if (room <=? 1)%nat then Stop targetExhausted
    else Next 1 (surrogates ch) result.

(** The first lines of both conversions from UTF-16: the character and the
    number of its units. *)
Definition read_16 (flags : ConversionFlags) (source : list Z) : ConversionResult + Z * nat :=
  let ch := unit_at source 0 in
  if between UNI_SUR_HIGH_START UNI_SUR_HIGH_END ch then
    if (1 <? length source)%nat then
      let ch2 := unit_at source 1 in
      if between UNI_SUR_LOW_START UNI_SUR_LOW_END ch2 then
        inr (u32 (u32 (Z.shiftl (ch - UNI_SUR_HIGH_START) halfShift) + (ch2 - UNI_SUR_LOW_START) + halfBase), 2%nat)
      else if is_strict flags then inl sourceIllegal
      else inr (ch, 1%nat)
    else inl sourceExhausted
  else if is_strict flags && between UNI_SUR_LOW_START UNI_SUR_LOW_END ch then inl sourceIllegal
  else inr (ch, 1%nat).

Definition body_16_32 (flags : ConversionFlags) (source : list Z) (room : nat) (result : ConversionResult) : outcome :=
  match read_16 flags source with
  | inl r => Stop r
  | inr (ch, used) => if (room =? 0)%nat then Stop targetExhausted else Next used [ch] result
  end.

Definition byteMask : Z := 0xBF.
Definition byteMark : Z := 0x80.

(** The cases of [switch (bytesToWrite)] down to 2, writing backwards. *)
Fixpoint write_tail (n : nat) (ch : Z) (acc : list Z) : list Z * Z :=
  match n with
  | O => (acc, ch)
  | S n' => write_tail n' (Z.shiftr ch 6) (u8 (Z.land (Z.lor ch byteMark) byteMask) :: acc)
  end.

Definition write_8 (bytesToWrite : nat) (ch : Z) : list Z :=
  let '(acc, ch) := write_tail (bytesToWrite - 1) ch [] in
  u8 (Z.lor ch (nth bytesToWrite firstByteMark 0)) :: acc.

(** The number of bytes and the character to write. *)
Definition bytes_for (ch : Z) : nat * Z :=
  if ch <? 0x80 then (1%nat, ch)
  else if ch <? 0x800 then (2%nat, ch)
  else if ch <? 0x10000 then (3%nat, ch)
  else if ch <? 0x110000 then (4%nat, ch)
  else (3%nat, UNI_REPLACEMENT_CHAR).

Definition body_16_8 (flags : ConversionFlags) (source : list Z) (room : nat) (result : ConversionResult) : outcome :=
  match read_16 flags source with
  | inl r => Stop r
  | inr (ch, used) =>
      let '(n, ch) := bytes_for ch in
      if (room <? n)%nat then Stop targetExhausted else Next used (write_8 n ch) result
  end.

Definition body_32_8 (flags : ConversionFlags) (source : list Z) (room : nat) (result : ConversionResult) : outcome :=
  let ch := unit_at source 0 in
  if is_strict flags && between UNI_SUR_HIGH_START UNI_SUR_LOW_END ch then Stop sourceIllegal
  else
    let result := if ch <=? UNI_MAX_LEGAL_UTF32 then result else sourceIllegal in
    let '(n, ch) := bytes_for ch in
    if (room <? n)%nat then Stop targetExhausted else Next 1 (write_8 n ch) result.

(** [switch (length)], from [case 4] down; the inner [switch] is on the
    first byte. *)
Definition legal_second (first a : Z) : bool :=
  negb (0xBF <? a) &&
  (if first =? 0xE0 then negb (a <? 0xA0)
   else if first =? 0xED then negb (0x9F <? a)
   else if first =? 0xF0 then negb (a <? 0x90)
   else if first =? 0xF4 then negb (0x8F <? a)
   else negb (a <? 0x80)).

Definition legal_later (a : Z) : bool := negb ((a <? 0x80) || (0xBF <? a)).
Definition legal_first (first : Z) : bool := negb ((0x80 <=? first) && (first <? 0xC2)).

Definition isLegalUTF8 (source : list Z) (length : nat) : bool :=
  let first := unit_at source 0 in
  (match length with
   | 4%nat => legal_later (unit_at source 3) && legal_later (unit_at source 2) && legal_second first (unit_at source 1) && legal_first first
   | 3%nat => legal_later (unit_at source 2) && legal_second first (unit_at source 1) && legal_first first
   | 2%nat => legal_second first (unit_at source 1) && legal_first first
   | 1%nat => legal_first first
   | _ => false
   end) && negb (0xF4 <? first).

Definition trailing (b : Z) : nat := nth (Z.to_nat b) trailingBytesForUTF8 0%nat.

(** [*source] is read before the test. *)
Definition isLegalUTF8Sequence (source : list Z) : res bool :=
  match source with
  | [] => Fault OutOfBounds
  | b :: _ =>
      let n := (trailing b + 1)%nat in
      if (length source <? n)%nat then Ok false else Ok (isLegalUTF8 source n)
  end.

(** [switch (extraBytesToRead)] *)
Fixpoint read_tail (n : nat) (ch : Z) (source : list Z) : Z :=
  match n, source with
  | S n', b :: source' => read_tail n' (u32 (Z.shiftl (u32 (ch + b)) 6)) source'
  | _, b :: _ => u32 (ch + b)
  | _, [] => ch
  end.

(** The first lines of both conversions from UTF-8. *)
Definition read_8 (source : list Z) : ConversionResult + Z * nat :=
  let extra := trailing (unit_at source 0) in
  if (length source <=? extra)%nat then inl sourceExhausted
  else if negb (isLegalUTF8 source (extra + 1)) then inl sourceIllegal
  else inr (u32 (read_tail extra 0 source - nth extra offsetsFromUTF8 0), (extra + 1)%nat).

Definition body_8_16 (flags : ConversionFlags) (source : list Z) (room : nat) (result : ConversionResult) : outcome :=
  match read_8 source with
  | inl r => Stop r
  | inr (ch, used) =>
      if (room =? 0)%nat then Stop targetExhausted
      else if ch <=? UNI_MAX_BMP then
        if between UNI_SUR_HIGH_START UNI_SUR_LOW_END ch then
          if is_strict flags then Stop sourceIllegal else Next used [UNI_REPLACEMENT_CHAR] result
        else Next used [u16 ch] result
      else if ch >? UNI_MAX_UTF16 then
        if is_strict flags then Stop sourceIllegal else Next used [UNI_REPLACEMENT_CHAR] result
      else if (room <=? 1)%nat then Stop targetExhausted
      else Next used (surrogates ch) result
  end.

Definition body_8_32 (flags : ConversionFlags) (source : list Z) (room : nat) (result : ConversionResult) : outcome :=
  match read_8 source with
  | inl r => Stop r
  | inr (ch, used) =>
      if (room =? 0)%nat then Stop targetExhausted
      else if ch <=? UNI_MAX_LEGAL_UTF32 then
        if between UNI_SUR_HIGH_START UNI_SUR_LOW_END ch then
          if is_strict flags then Stop sourceIllegal else Next used [UNI_REPLACEMENT_CHAR] result
        else Next used [ch] result
      else Next used [UNI_REPLACEMENT_CHAR] sourceIllegal
  end.

Definition ConvertUTF32toUTF16 (flags : ConversionFlags) := convert (body_32_16 flags).
Definition ConvertUTF16toUTF32 (flags : ConversionFlags) := convert (body_16_32 flags).
Definition ConvertUTF16toUTF8 (flags : ConversionFlags) := convert (body_16_8 flags).
Definition ConvertUTF8toUTF16 (flags : ConversionFlags) := convert (body_8_16 flags).
Definition ConvertUTF32toUTF8 (flags : ConversionFlags) := convert (body_32_8 flags).
Definition ConvertUTF8toUTF32 (flags : ConversionFlags) := convert (body_8_32 flags).

(** ** The callers in string_conversion.cc

    The target is a vector of [cap] units, or a block of [4 * n] bytes.  The
    end pointer is [target_ptr + capacity * sizeof(uint16_t)] on a pointer to
    [uint16_t], twice as far as the vector reaches. *)

(** Both conversions to a vector: [resize] keeps what was written and a
    zero. *)
Definition to_vector (conv : ConversionFlags -> list Z -> nat -> ConversionResult * list Z * list Z) (source : list Z) (cap : nat) :
    res (list Z) :=
  let '(r, _, out) := conv strictConversion source (cap * 2)%nat in
  if (cap <? length out)%nat then Fault OutOfBounds
  else Ok (match r with conversionOK => out ++ [0] | _ => [] end).

Definition UTF8ToUTF16 : list Z -> nat -> res (list Z) := to_vector ConvertUTF8toUTF16.
Definition UTF32ToUTF16 : list Z -> nat -> res (list Z) := to_vector ConvertUTF32toUTF16.

(** The loop of [UTF8ToUTF16Char] with [n] bytes of the source in view.  The
    target pointer is not put back after a failed try, and [out] has two units
    while the end pointer allows four. *)
Fixpoint char_loop (fuel : nat) (inp : list Z) (in_length n : nat) (written : list Z) : res (nat * list Z) :=
  match fuel with
  | O => Fault OutOfFuel
  | S fuel' =>
      if (length inp <? n)%nat then Fault OutOfBounds
      else
        let '(r, rest, out) := ConvertUTF8toUTF16 strictConversion (take n inp) (4 - length written)%nat in
        let written := written ++ out in
        if (2 <? length written)%nat then Fault OutOfBounds
        else
          match r with
          | conversionOK => Ok ((n - length rest)%nat, written)
          | _ => if (in_length <? n + 1)%nat then Ok (0%nat, written) else char_loop fuel' inp in_length (n + 1) written
          end
  end.

(** The unit array starts as two zeroes. *)
Definition fill_out (written : list Z) : list Z := written ++ replicate (2 - length written) 0.

Definition UTF8ToUTF16Char (inp : list Z) (in_length : nat) : res (nat * list Z) :=
  '(n, written) ← char_loop (in_length + 1) inp in_length 1 [];
  Ok (n, fill_out written).

Definition UTF32ToUTF16Char (ch : Z) : res (list Z) :=
  let '(r, _, out) := ConvertUTF32toUTF16 strictConversion [ch] 4 in
  if (2 <? length out)%nat then Fault OutOfBounds
  else Ok (match r with conversionOK => fill_out out | _ => [0; 0] end).

(** A [string] made from a C string: the bytes before the first zero. *)
Fixpoint c_str (mem : list Z) : res (list Z) :=
  match mem with
  | [] => Fault OutOfBounds
  | b :: mem' => if b =? 0 then Ok [] else s ← c_str mem'; Ok (b :: s)
  end.

Definition Swap (value : Z) : Z := Z.lor (Z.shiftr value 8) (u16 (Z.shiftl value 8)).

(** [junk] is what the new block holds. *)
Definition UTF16ToUTF8 (inp : list Z) (swap : bool) (junk : list Z) : res (list Z) :=
  let source := if swap then Swap <$> inp else inp in
  let '(r, _, out) := ConvertUTF16toUTF8 strictConversion source (length inp * 4)%nat in
  match r with
  | conversionOK => c_str (out ++ drop (length out) (take (length inp * 4) junk))
  | _ => Ok []
  end.

(** A character above the first plane takes two units, and the vector has
    one. *)
Example UTF32ToUTF16_overruns : UTF32ToUTF16 [0x1F600] 1 = Fault OutOfBounds.
Proof. reflexivity. Qed.

(** The block is not terminated: what follows is whatever it held before. *)
Example UTF16ToUTF8_unterminated :
  UTF16ToUTF8 [65] false [1; 2; 3; 0] = Ok [65; 2; 3] /\ UTF16ToUTF8 [65] false [1; 2; 3; 4] = Fault OutOfBounds.
Proof. by vm_compute. Qed.
