(* ===== verification/UtfCorrect.v ===== *)
(** * UtfCorrect: the conversions are the Unicode encoding forms

    The proofs about [Utf.v], against the encoding forms of the Unicode
    standard (section 3.9): UTF-32, UTF-16 and UTF-8 of a sequence of scalar
    values.

    Shown: between the encodings of a text every conversion gives exactly
    the other encoding; a strict conversion that reports success had an
    encoding before it, but for the bytes [isLegalUTF8] misses; the target is
    never overrun, what was read is what was written, and a conversion that
    ran out of room can go on where it stopped. *)

From Stdlib Require Import ZifyNat.
From S2P Require Import Prelude.
From S2P Require Import Utf.

(** ** The encoding forms *)

Definition scalar (c : Z) : Prop := 0 <= c < 0x110000 /\ ~ (0xD800 <= c <= 0xDFFF).

Definition enc32 (c : Z) : list Z := [c].

Definition enc16 (c : Z) : list Z :=
  if c <? 0x10000 then [c]
  else [0xD800 + (c - 0x10000) / 1024; 0xDC00 + (c - 0x10000) mod 1024].

Definition enc8 (c : Z) : list Z :=
  if c <? 0x80 then [c]
  else if c <? 0x800 then [0xC0 + c / 64; 0x80 + c mod 64]
  else if c <? 0x10000 then [0xE0 + c / 4096; 0x80 + c / 64 mod 64; 0x80 + c mod 64]
  else [0xF0 + c / 262144; 0x80 + c / 4096 mod 64; 0x80 + c / 64 mod 64; 0x80 + c mod 64].

Definition encode (enc : Z -> list Z) (cs : list Z) : list Z := mjoin (enc <$> cs).

Example euro_and_clef : encode enc8 [0x20AC; 0x1D11E] = [0xE2; 0x82; 0xAC; 0xF0; 0x9D; 0x84; 0x9E] /\
  encode enc16 [0x20AC; 0x1D11E] = [0x20AC; 0xD834; 0xDD1E].
Proof. by vm_compute. Qed.

(** ** Writing *)

(** What holds of all bytes can be checked. *)
Lemma every_byte (P : Z -> bool) : forallb (fun n => P (Z.of_nat n)) (seq 0 256) = true -> forall b, 0 <= b < 256 -> P b = true.
Proof.
  intros H b Hb. rewrite forallb_forall in H. specialize (H (Z.to_nat b)). rewrite Z2Nat.id in H by lia. apply H.
  apply in_seq. lia.
Qed.

Lemma high_bit m n : 0 <= m < 256 -> 8 <= n -> Z.testbit m n = false.
Proof.
  intros Hm Hn. apply Z.testbit_false; [lia|]. rewrite Z.div_small; [done|]. pose proof (Z.pow_le_mono_r 2 8 n). lia.
Qed.

Lemma mask_low ch a m : 0 <= m < 256 -> Z.land (Z.lor ch a) m = Z.land (Z.lor (ch mod 256) a) m.
Proof.
  intros Hm. apply Z.bits_inj'. intros n Hn. rewrite !Z.land_spec, !Z.lor_spec. change 256 with (2 ^ 8).
  destruct (Z.ltb_spec n 8); [by rewrite Z.mod_pow2_bits_low by lia|]. by rewrite (high_bit m n), !andb_false_r by lia.
Qed.

(** A trailing byte. *)
Lemma tail_byte ch : 0 <= ch -> u8 (Z.land (Z.lor ch byteMark) byteMask) = 0x80 + ch mod 64.
Proof.
  intros Hc. rewrite mask_low by (unfold byteMask; lia).
  assert (E : (u8 (Z.land (Z.lor (ch mod 256) byteMark) byteMask) =? 0x80 + (ch mod 256) mod 64) = true).
  { apply (every_byte (fun b => u8 (Z.land (Z.lor b byteMark) byteMask) =? 0x80 + b mod 64)); [by vm_compute|].
    apply Z.mod_pos_bound. lia. }
  apply Z.eqb_eq in E. rewrite E. zlia.
Qed.

(** A first byte: the mark and the bits do not meet. *)
Lemma first_byte k ch m :
  0 <= ch < 2 ^ k -> 0 <= k <= 8 -> m mod 2 ^ k = 0 -> 0 <= m -> m + ch < 256 -> u8 (Z.lor ch m) = m + ch.
Proof.
  intros Hc Hk Hm H0 Hs. pose proof (Z.div_mod m (2 ^ k) ltac:(pose proof (pow2_pos k ltac:(lia)); lia)) as E.
  rewrite Hm, Z.add_0_r in E. rewrite E, Z.lor_comm, Z.mul_comm, <- Z.shiftl_mul_pow2 by lia.
  rewrite lor_shiftl_add by lia. rewrite Z.shiftl_mul_pow2 by lia. apply wrapU_id. unfold is_u. lia.
Qed.

Lemma write_8_ok c n :
  0 <= c < 0x110000 -> n = length (enc8 c) -> write_8 n c = enc8 c.
Proof.
  intros Hc ->. unfold enc8, write_8. repeat match goal with |- context [if ?x <? ?y then _ else _] => destruct (Z.ltb_spec x y) end;
    cbn [length Nat.sub write_tail nth firstByteMark]; rewrite ?Z.shiftr_div_pow2 by lia; change (2 ^ 6) with 64.
  - rewrite Z.lor_0_r, wrapU_id; [done|]. unfold is_u. lia.
  - rewrite tail_byte by lia. rewrite (first_byte 5 (c / 64) 0xC0) by (done || zlia). done.
  - rewrite !tail_byte by zlia. rewrite (first_byte 4 (c / 64 / 64) 0xE0) by (done || zlia). f_equal. zlia.
  - rewrite !tail_byte by zlia. rewrite (first_byte 3 (c / 64 / 64 / 64) 0xF0) by (done || zlia). f_equal; [zlia|]. f_equal. zlia.
Qed.

Lemma bytes_for_ok c : 0 <= c < 0x110000 -> bytes_for c = (length (enc8 c), c).
Proof.
  intros Hc. unfold bytes_for, enc8. repeat match goal with |- context [if ?x <? ?y then _ else _] => destruct (Z.ltb_spec x y) end; done || lia.
Qed.

Lemma surrogates_ok c : 0x10000 <= c < 0x110000 -> surrogates c = enc16 c.
Proof.
  intros Hc. unfold surrogates, enc16, halfBase, halfShift, halfMask, UNI_SUR_HIGH_START, UNI_SUR_LOW_START.
  destruct (Z.ltb_spec c 0x10000); [lia|]. rewrite (wrapU_id 32) by (unfold is_u; lia).
  rewrite Z.shiftr_div_pow2 by lia. change 0x3FF with (Z.ones 10). rewrite Z.land_ones by lia. change (2 ^ 10) with 1024.
  rewrite !wrapU_id by (unfold is_u; zlia). f_equal; [lia|]. f_equal. lia.
Qed.

(** ** Reading UTF-16 *)

Ltac split_ifs := repeat match goal with
  | |- context [?x <? ?y] => destruct (Z.ltb_spec x y)
  | |- context [?x <=? ?y] => destruct (Z.leb_spec x y)
  | |- context [?x =? ?y] => destruct (Z.eqb_spec x y)
  end.

Lemma read_16_ok flags c rest : scalar c -> read_16 flags (enc16 c ++ rest) = inr (c, length (enc16 c)).
Proof.
  intros [Hc Hs]. unfold enc16, read_16, between, UNI_SUR_HIGH_START, UNI_SUR_HIGH_END, UNI_SUR_LOW_START, UNI_SUR_LOW_END, halfBase, halfShift.
  destruct (Z.ltb_spec c 0x10000).
  - cbn [app unit_at nth length]. destruct (Z.leb_spec 0xD800 c), (Z.leb_spec c 0xDBFF); cbn [andb]; try lia;
      destruct (is_strict flags), (Z.leb_spec 0xDC00 c), (Z.leb_spec c 0xDFFF); cbn [andb]; done || lia.
  - cbn [app unit_at nth length]. set (a := (c - 0x10000) / 1024). set (b := (c - 0x10000) mod 1024).
    assert (E : c - 0x10000 = 1024 * a + b) by (apply Z.div_mod; lia). assert (Hb : 0 <= b < 1024) by (apply Z.mod_pos_bound; lia).
    assert (Ha : 0 <= a < 1024) by lia. clearbody a b.
    destruct (Z.leb_spec 0xD800 (0xD800 + a)), (Z.leb_spec (0xD800 + a) 0xDBFF); try lia. cbn [andb Nat.ltb Nat.leb].
    destruct (Z.leb_spec 0xDC00 (0xDC00 + b)), (Z.leb_spec (0xDC00 + b) 0xDFFF); try lia. cbn [andb].
    rewrite Z.shiftl_mul_pow2 by lia. change (2 ^ 10) with 1024. rewrite (wrapU_id 32 (_ * 1024)) by (unfold is_u; lia).
    rewrite wrapU_id by (unfold is_u; lia). do 2 f_equal. lia.
Qed.

Lemma read_16_sound source c n :
  Forall (is_u 16) source -> source <> [] -> read_16 strictConversion source = inr (c, n) ->
  scalar c /\ n = length (enc16 c) /\ source = enc16 c ++ drop n source.
Proof.
  intros Hu Hn. destruct source as [|x source]; [done|]. apply Forall_cons in Hu as [Hx Hu]. unfold is_u in Hx.
  unfold read_16, between, UNI_SUR_HIGH_START, UNI_SUR_HIGH_END, UNI_SUR_LOW_START, UNI_SUR_LOW_END, halfBase, halfShift.
  cbn [unit_at nth is_strict andb]. destruct (Z.leb_spec 0xD800 x), (Z.leb_spec x 0xDBFF); cbn [andb].
  - destruct source as [|y source]; [done|]. cbn [length Nat.ltb Nat.leb nth].
    apply Forall_cons in Hu as [Hy Hu]. unfold is_u in Hy.
    destruct (Z.leb_spec 0xDC00 y), (Z.leb_spec y 0xDFFF); cbn [andb]; try done. intros [= <- <-].
    rewrite Z.shiftl_mul_pow2 by lia. change (2 ^ 10) with 1024. rewrite (wrapU_id 32 (_ * 1024)) by (unfold is_u; lia).
    rewrite wrapU_id by (unfold is_u; lia). set (c := (x - 0xD800) * 1024 + (y - 0xDC00) + 0x10000).
    assert (Hc : 0x10000 <= c < 0x110000) by lia. split; [split; [lia|lia]|]. unfold enc16.
    destruct (Z.ltb_spec c 0x10000); [lia|]. split; [done|]. cbn [app drop]. f_equal; [unfold c; zlia|]. f_equal. unfold c; zlia.
  - destruct (Z.leb_spec 0xDC00 x), (Z.leb_spec x 0xDFFF); cbn [andb]; try done; intros [= <- <-]; (split; [split; lia|]);
      unfold enc16; (destruct (Z.ltb_spec x 0x10000); [|lia]); done.
  - destruct (Z.leb_spec 0xDC00 x), (Z.leb_spec x 0xDFFF); cbn [andb]; try done; intros [= <- <-]; (split; [split; lia|]);
      unfold enc16; (destruct (Z.ltb_spec x 0x10000); [|lia]); done.
  - lia.
Qed.

(** ** Reading UTF-8 *)

Definition trailing_spec (b : Z) : nat :=
  if b <? 0xC0 then 0%nat else if b <? 0xE0 then 1%nat else if b <? 0xF0 then 2%nat else if b <? 0xF8 then 3%nat
  else if b <? 0xFC then 4%nat else 5%nat.

Lemma trailing_ok b : 0 <= b < 256 -> trailing b = trailing_spec b.
Proof.
  intros Hb. apply Nat.eqb_eq. apply (every_byte (fun b => trailing b =? trailing_spec b)%nat); [by vm_compute|done].
Qed.

(** The tests of [isLegalUTF8] as propositions.  A second byte after 0xED or
    0xF4 has no lower bound. *)
Lemma legal_later_iff a : legal_later a = true <-> 0x80 <= a <= 0xBF.
Proof. unfold legal_later. destruct (Z.ltb_spec a 0x80), (Z.ltb_spec 0xBF a); cbn; split; done || lia. Qed.

Lemma legal_first_iff f : legal_first f = true <-> f < 0x80 \/ 0xC2 <= f.
Proof. unfold legal_first. destruct (Z.leb_spec 0x80 f), (Z.ltb_spec f 0xC2); cbn; split; done || lia. Qed.

Lemma legal_second_iff f a :
  legal_second f a = true <-> a <= 0xBF /\ (f = 0xE0 -> 0xA0 <= a) /\ (f = 0xED -> a <= 0x9F) /\ (f = 0xF0 -> 0x90 <= a) /\
    (f = 0xF4 -> a <= 0x8F) /\ (f <> 0xED -> f <> 0xF4 -> 0x80 <= a).
Proof.
  unfold legal_second. rewrite andb_true_iff, negb_true_iff, Z.ltb_ge.
  destruct (Z.eqb_spec f 0xE0); [rewrite negb_true_iff, Z.ltb_ge; lia|].
  destruct (Z.eqb_spec f 0xED); [rewrite negb_true_iff, Z.ltb_ge; lia|].
  destruct (Z.eqb_spec f 0xF0); [rewrite negb_true_iff, Z.ltb_ge; lia|].
  destruct (Z.eqb_spec f 0xF4); rewrite negb_true_iff, Z.ltb_ge; lia.
Qed.

Ltac legal := rewrite ?andb_true_iff, ?legal_later_iff, ?legal_second_iff, ?legal_first_iff, ?negb_true_iff, ?Z.ltb_ge.

(** The bytes of a scalar value as its digits. *)
Lemma digits c : c = (c / 262144) * 262144 + (c / 4096 mod 64) * 4096 + (c / 64 mod 64) * 64 + c mod 64.
Proof. zlia. Qed.

Lemma legal_enc8 c rest : scalar c -> isLegalUTF8 (enc8 c ++ rest) (length (enc8 c)) = true.
Proof.
  intros [Hc Hs]. unfold enc8. destruct (Z.ltb_spec c 0x80); [|destruct (Z.ltb_spec c 0x800); [|destruct (Z.ltb_spec c 0x10000)]];
    unfold isLegalUTF8, unit_at; cbn [length app nth]; legal.
  - lia.
  - assert (0xC2 <= 0xC0 + c / 64 < 0xE0) by zlia. assert (0 <= c mod 64 < 64) by zlia. lia.
  - assert (E : c = (c / 4096) * 4096 + (c / 64 mod 64) * 64 + c mod 64) by zlia.
    assert (0 <= c / 64 mod 64 < 64) by zlia. assert (0 <= c mod 64 < 64) by zlia. assert (0 <= c / 4096 < 16) by zlia.
    generalize dependent (c / 4096). generalize dependent (c / 64 mod 64). generalize dependent (c mod 64). intros. lia.
  - pose proof (digits c) as E.
    assert (0 <= c / 4096 mod 64 < 64) by zlia. assert (0 <= c / 64 mod 64 < 64) by zlia. assert (0 <= c mod 64 < 64) by zlia.
    assert (0 <= c / 262144 < 5) by zlia.
    generalize dependent (c / 262144). generalize dependent (c / 4096 mod 64). generalize dependent (c / 64 mod 64).
    generalize dependent (c mod 64). intros. lia.
Qed.

(** The first byte tells the length. *)
Lemma trailing_enc8 c rest : scalar c -> (trailing (unit_at (enc8 c ++ rest) 0) + 1)%nat = length (enc8 c).
Proof.
  intros [Hc Hs]. unfold enc8, unit_at. destruct (Z.ltb_spec c 0x80); [|destruct (Z.ltb_spec c 0x800); [|destruct (Z.ltb_spec c 0x10000)]];
    cbn [length app nth]; rewrite trailing_ok by zlia; unfold trailing_spec.
  - by destruct (Z.ltb_spec c 0xC0); [|lia].
  - destruct (Z.ltb_spec (0xC0 + c / 64) 0xC0); [zlia|]. by destruct (Z.ltb_spec (0xC0 + c / 64) 0xE0); [|zlia].
  - destruct (Z.ltb_spec (0xE0 + c / 4096) 0xC0); [zlia|]. destruct (Z.ltb_spec (0xE0 + c / 4096) 0xE0); [zlia|].
    by destruct (Z.ltb_spec (0xE0 + c / 4096) 0xF0); [|zlia].
  - destruct (Z.ltb_spec (0xF0 + c / 262144) 0xC0); [zlia|]. destruct (Z.ltb_spec (0xF0 + c / 262144) 0xE0); [zlia|].
    destruct (Z.ltb_spec (0xF0 + c / 262144) 0xF0); [zlia|]. by destruct (Z.ltb_spec (0xF0 + c / 262144) 0xF8); [|zlia].
Qed.

(** The sum of the code, without wrap-around. *)
Fixpoint plain_sum (n : nat) (ch : Z) (source : list Z) : Z :=
  match n, source with
  | S n', b :: source' => plain_sum n' ((ch + b) * 64) source'
  | _, b :: _ => ch + b
  | _, [] => ch
  end.

Lemma read_tail_plain n ch source :
  Forall is_byte source -> 0 <= ch -> (ch + 260) * 64 ^ Z.of_nat n < 2 ^ 32 -> read_tail n ch source = plain_sum n ch source.
Proof.
  revert ch source. induction n as [|n IH]; intros ch source Hb Hc Hm; destruct source as [|b source]; try done;
    apply Forall_cons in Hb as [Hb Hs]; unfold is_u in Hb.
  - cbn [read_tail plain_sum]. apply wrapU_id. unfold is_u. cbn in Hm. lia.
  - cbn [read_tail plain_sum]. rewrite Nat2Z.inj_succ, Z.pow_succ_r in Hm by lia.
    assert (P : 1 <= 64 ^ Z.of_nat n) by (pose proof (Z.pow_pos_nonneg 64 (Z.of_nat n)); lia).
    rewrite (wrapU_id 32 (ch + b)) by (unfold is_u; nia). rewrite Z.shiftl_mul_pow2 by lia. change (2 ^ 6) with 64.
    rewrite wrapU_id by (unfold is_u; nia). apply IH; [done|lia|]. nia.
Qed.

Lemma enc8_bytes c : scalar c -> Forall is_byte (enc8 c).
Proof.
  intros [Hc _]. unfold enc8. repeat match goal with |- context [if ?x <? ?y then _ else _] => destruct (Z.ltb_spec x y) end;
    repeat constructor; unfold is_u; zlia.
Qed.

Lemma read_8_ok c rest : scalar c -> Forall is_byte rest -> read_8 (enc8 c ++ rest) = inr (c, length (enc8 c)).
Proof.
  intros Hs Hr. unfold read_8. pose proof (trailing_enc8 c rest Hs) as Et. pose proof (legal_enc8 c rest Hs) as El.
  assert (Hb : Forall is_byte (enc8 c ++ rest)) by (apply Forall_app; split; [by apply enc8_bytes|done]).
  set (n := trailing (unit_at (enc8 c ++ rest) 0)) in *. rewrite Et, El. cbn [negb].
  destruct (Nat.leb_spec (length (enc8 c ++ rest)) n) as [H|H]; [rewrite length_app in H; lia|].
  do 2 f_equal. clearbody n. destruct Hs as [Hc _].
  assert (Hn : (n < 4)%nat).
  { revert Et. unfold enc8. repeat match goal with |- context [if ?x <? ?y then _ else _] => destruct (Z.ltb_spec x y) end; cbn [length]; lia. }
  rewrite read_tail_plain; [|done|lia|].
  2: { do 4 (destruct n as [|n]; [done|]). lia. }
  revert Et. unfold enc8. destruct (Z.ltb_spec c 0x80); [|destruct (Z.ltb_spec c 0x800); [|destruct (Z.ltb_spec c 0x10000)]];
    cbn [length]; intros Et; first [replace n with 0%nat by lia | replace n with 1%nat by lia | replace n with 2%nat by lia | replace n with 3%nat by lia];
    cbn [app plain_sum nth offsetsFromUTF8]; rewrite wrapU_id by (unfold is_u; zlia); zlia.
Qed.

(** A second byte that the test misses. *)
Definition clean8 (source : list Z) : Prop :=
  match source with a :: b :: _ => (a = 0xED \/ a = 0xF4) -> 0x80 <= b | _ => True end.

Lemma enc8_2 a d : 0 <= a < 32 -> 0 <= d < 64 -> 0x80 <= a * 64 + d -> enc8 (a * 64 + d) = [0xC0 + a; 0x80 + d].
Proof.
  intros Ha Hd Hc. unfold enc8. destruct (Z.ltb_spec (a * 64 + d) 0x80); [lia|]. destruct (Z.ltb_spec (a * 64 + d) 0x800); [|lia].
  f_equal; [zlia|]. f_equal. zlia.
Qed.

Lemma enc8_3 a b d : 0 <= a < 16 -> 0 <= b < 64 -> 0 <= d < 64 -> 0x800 <= a * 4096 + b * 64 + d ->
  enc8 (a * 4096 + b * 64 + d) = [0xE0 + a; 0x80 + b; 0x80 + d].
Proof.
  intros Ha Hb Hd Hc. unfold enc8. set (c := a * 4096 + b * 64 + d) in *.
  destruct (Z.ltb_spec c 0x80); [lia|]. destruct (Z.ltb_spec c 0x800); [lia|]. destruct (Z.ltb_spec c 0x10000); [|lia].
  f_equal; [zlia|]. f_equal; [zlia|]. f_equal. zlia.
Qed.

Lemma enc8_4 a b d e : 0 <= a < 8 -> 0 <= b < 64 -> 0 <= d < 64 -> 0 <= e < 64 -> 0x10000 <= a * 262144 + b * 4096 + d * 64 + e ->
  enc8 (a * 262144 + b * 4096 + d * 64 + e) = [0xF0 + a; 0x80 + b; 0x80 + d; 0x80 + e].
Proof.
  intros Ha Hb Hd He Hc. unfold enc8. set (c := a * 262144 + b * 4096 + d * 64 + e) in *.
  destruct (Z.ltb_spec c 0x80); [lia|]. destruct (Z.ltb_spec c 0x800); [lia|]. destruct (Z.ltb_spec c 0x10000); [lia|].
  f_equal; [zlia|]. f_equal; [zlia|]. f_equal; [zlia|]. f_equal. zlia.
Qed.

Lemma read_8_sound source c n :
  Forall is_byte source -> source <> [] -> clean8 source -> read_8 source = inr (c, n) ->
  scalar c /\ n = length (enc8 c) /\ source = enc8 c ++ drop n source.
Proof.
  intros Hb Hne Hcl. unfold read_8. destruct source as [|x source]; [done|]. change (unit_at (x :: source) 0) with x.
  pose proof Hb as Hb'. apply Forall_cons in Hb' as [Hx Hs]. unfold is_u in Hx. rewrite trailing_ok by done. unfold trailing_spec.
  destruct (Z.ltb_spec x 0xC0); [|destruct (Z.ltb_spec x 0xE0); [|destruct (Z.ltb_spec x 0xF0); [|destruct (Z.ltb_spec x 0xF8)]]].
  - destruct (Nat.leb_spec (length (x :: source)) 0); [done|]. destruct (isLegalUTF8 (x :: source) (0 + 1)) eqn:El; [|discriminate].
    revert El. unfold isLegalUTF8, unit_at. cbn [Nat.add nth]. legal. intros El [= <- <-]. cbn [read_tail nth offsetsFromUTF8].
    rewrite (wrapU_id 32 (0 + x)), wrapU_id by (unfold is_u; lia). replace (0 + x - 0) with x by lia.
    split; [split; lia|]. unfold enc8. by destruct (Z.ltb_spec x 0x80); [|lia].
  - destruct source as [|y source]; [done|]. destruct (Nat.leb_spec (length (x :: y :: source)) 1); [done|].
    destruct (isLegalUTF8 (x :: y :: source) (1 + 1)) eqn:El; [|discriminate]. revert El. unfold isLegalUTF8, unit_at. cbn [Nat.add nth]. legal.
    rewrite read_tail_plain by (done || lia). cbn [plain_sum nth offsetsFromUTF8 negb]. intros El [= <- <-].
    rewrite wrapU_id by (unfold is_u; lia). replace ((0 + x) * 64 + y - 0x3080) with ((x - 0xC0) * 64 + (y - 0x80)) by lia.
    rewrite enc8_2 by lia. split; [split; lia|]. split; [done|]. cbn [app drop]. f_equal; [lia|]. f_equal. lia.
  - destruct source as [|y [|z source]]; [done|by destruct (Nat.leb_spec (length [x; y]) 2); [|simpl in *; lia]|].
    destruct (Nat.leb_spec (length (x :: y :: z :: source)) 2); [done|].
    destruct (isLegalUTF8 (x :: y :: z :: source) (2 + 1)) eqn:El; [|discriminate]. revert El. unfold isLegalUTF8, unit_at. cbn [Nat.add nth]. legal.
    unfold clean8 in Hcl. rewrite read_tail_plain by (done || lia). cbn [plain_sum nth offsetsFromUTF8 negb]. intros El [= <- <-].
    rewrite wrapU_id by (unfold is_u; lia).
    replace (((0 + x) * 64 + y) * 64 + z - 0xE2080) with ((x - 0xE0) * 4096 + (y - 0x80) * 64 + (z - 0x80)) by lia.
    rewrite enc8_3 by lia. split; [split; lia|]. split; [done|]. cbn [app drop]. f_equal; [lia|]. f_equal; [lia|]. f_equal. lia.
  - destruct source as [|y [|z [|w source]]]; [done|done|done|].
    destruct (Nat.leb_spec (length (x :: y :: z :: w :: source)) 3); [done|].
    destruct (isLegalUTF8 (x :: y :: z :: w :: source) (3 + 1)) eqn:El; [|discriminate]. revert El. unfold isLegalUTF8, unit_at. cbn [Nat.add nth]. legal.
    unfold clean8 in Hcl. rewrite read_tail_plain by (done || lia). cbn [plain_sum nth offsetsFromUTF8 negb]. intros El [= <- <-].
    rewrite wrapU_id by (unfold is_u; lia).
    replace ((((0 + x) * 64 + y) * 64 + z) * 64 + w - 0x3C82080) with
      ((x - 0xF0) * 262144 + (y - 0x80) * 4096 + (z - 0x80) * 64 + (w - 0x80)) by lia.
    rewrite enc8_4 by lia. split; [split; lia|]. split; [done|]. cbn [app drop]. f_equal; [lia|]. f_equal; [lia|]. f_equal; [lia|]. f_equal. lia.
  - assert (L : forall k, (4 <= k)%nat -> isLegalUTF8 (x :: source) (k + 1) = false) by (intros k Hk; do 4 (destruct k as [|k]; [lia|]); by rewrite Nat.add_1_r).
    destruct (x <? 0xFC); rewrite L by lia; by destruct (length (x :: source) <=? _)%nat.
Qed.

(** ** What every body does *)

Section Laws.
Context (body : ConversionFlags -> list Z -> nat -> ConversionResult -> outcome) (enc_from enc_to : Z -> list Z) (units gap : list Z -> Prop).

(** [units] are the sources of units in range, [gap] those on which the test
    for legal units misses something. *)
Class Converter : Prop := {
  conv_step : forall flags c rest room r, scalar c -> units (enc_from c ++ rest) ->
    body flags (enc_from c ++ rest) room r =
      if (room <? length (enc_to c))%nat then Stop targetExhausted else Next (length (enc_from c)) (enc_to c) r;
  conv_sound : forall source room r used out r', units source -> ~ gap source -> source <> [] ->
    body strictConversion source room r = Next used out r' ->
    (r' = sourceIllegal /\ 0x10FFFF < unit_at source 0) \/
    (r' = r /\ exists c, scalar c /\ used = length (enc_from c) /\ out = enc_to c /\ source = enc_from c ++ drop used source);
  conv_bound : forall flags source room r used out r', source <> [] -> body flags source room r = Next used out r' ->
    (1 <= used <= length source)%nat /\ (length out <= room)%nat /\ (r' = r \/ r' = sourceIllegal);
  conv_stop : forall flags source room r r', body flags source room r = Stop r' -> r' <> conversionOK;
  conv_more : forall flags source room room' r used out r' q, units source -> source <> [] ->
    body flags source room r = Next used out r' -> (room <= room')%nat ->
    (r' = r /\ body flags source room' q = Next used out q) \/
    (r' = sourceIllegal /\ 0x10FFFF < unit_at source 0 /\ body flags source room' q = Next used out sourceIllegal);
  conv_same : forall flags source room room' r r' q, body flags source room r = Stop r' -> r' <> targetExhausted -> (room <= room')%nat ->
    body flags source room' q = Stop r';
  conv_units : forall source n, units source -> units (drop n source);
  conv_gap : forall source n, gap (drop n source) -> gap source;
  conv_gap_dec : forall source, gap source \/ ~ gap source;
  conv_nonempty : forall c, enc_from c <> [];
}.
End Laws.

Lemma length_write_8 n ch : (1 <= n)%nat -> length (write_8 n ch) = n.
Proof.
  intros Hn. unfold write_8. assert (L : forall k ch acc, length (fst (write_tail k ch acc)) = (k + length acc)%nat).
  { induction k as [|k IH]; intros; [done|]. cbn [write_tail]. rewrite IH. simpl. lia. }
  specialize (L (n - 1)%nat ch []). destruct (write_tail (n - 1) ch []) as [acc x]. simpl in *. lia.
Qed.

Lemma bytes_for_range ch : (1 <= fst (bytes_for ch) <= 4)%nat.
Proof. unfold bytes_for. repeat match goal with |- context [if ?x then _ else _] => destruct x end; simpl; lia. Qed.

Lemma read_16_used flags source ch used : source <> [] -> read_16 flags source = inr (ch, used) -> (1 <= used <= length source)%nat.
Proof.
  intros Hne. assert (L : (1 <= length source)%nat) by (destruct source; [done|simpl; lia]). unfold read_16.
  destruct (between _ _ _); [|destruct (_ && _); [done|intros [= _ <-]; lia]].
  destruct (Nat.ltb_spec 1 (length source)); [|done]. destruct (between _ _ _); [intros [= _ <-]; lia|].
  destruct (is_strict flags); [done|]. intros [= _ <-]. lia.
Qed.

Lemma read_8_used source ch used : read_8 source = inr (ch, used) -> (1 <= used <= length source)%nat.
Proof.
  unfold read_8. destruct (Nat.leb_spec (length source) (trailing (unit_at source 0))); [done|]. destruct (negb _); [done|].
  intros [= _ <-]. lia.
Qed.

(** Sources. *)
Definition units32 (source : list Z) : Prop := Forall (is_u 32) source.
Definition units16 (source : list Z) : Prop := Forall (is_u 16) source.

Definition units8 (source : list Z) : Prop := Forall is_byte source.

Definition no_gap (source : list Z) : Prop := False.

(** The second bytes that [isLegalUTF8] misses. *)
Definition gap8 (source : list Z) : Prop :=
  exists i a b, source !! i = Some a /\ source !! S i = Some b /\ (a = 0xED \/ a = 0xF4) /\ b < 0x80.

Lemma gap8_drop source n : gap8 (drop n source) -> gap8 source.
Proof.
  intros (i & a & b & Ha & Hb & H). rewrite lookup_drop in Ha, Hb. exists (n + i)%nat, a, b. split; [done|]. split; [|done].
  by replace (S (n + i)) with (n + S i)%nat by lia.
Qed.

Lemma gap8_dec source : gap8 source \/ ~ gap8 source.
Proof.
  induction source as [|a source IH]; [right; by intros (i & a & b & Ha & _)|].
  destruct IH as [G|G]; [left; by apply (gap8_drop (a :: source) 1)|].
  assert (Tail : (forall b, source !! 0%nat = Some b -> (a = 0xED \/ a = 0xF4) -> 0x80 <= b) -> ~ gap8 (a :: source)).
  { intros Hh ([|i] & x & y & Hx & Hy & Hxy & Hlt); [injection Hx as ->; pose proof (Hh y Hy Hxy); lia|].
    apply G. exists i, x, y. done. }
  destruct source as [|b source]; [right; by apply Tail|].
  destruct (decide ((a = 0xED \/ a = 0xF4) /\ b < 0x80)) as [Hd|Hd]; [left; by exists 0%nat, a, b|].
  right. apply Tail. intros b' [= <-] Hab. lia.
Qed.

Lemma gap8_clean source : ~ gap8 source -> clean8 source.
Proof.
  intros Hc. destruct source as [|a [|b source]]; [done|done|]. simpl. intros Hab. destruct (decide (0x80 <= b)); [done|].
  destruct Hc. exists 0%nat, a, b. split; [done|]. split; [done|]. split; [done|lia].
Qed.

(** Whatever the second byte, no character is above the last plane. *)
Lemma read_8_bound source c n : units8 source -> read_8 source = inr (c, n) -> 0 <= c <= 0x10FFFF.
Proof.
  intros Hb. unfold read_8. destruct source as [|x source]; [done|]. change (unit_at (x :: source) 0) with x.
  pose proof Hb as Hb'. apply Forall_cons in Hb' as [Hx Hs]. unfold is_u in Hx. rewrite trailing_ok by done. unfold trailing_spec.
  destruct (Z.ltb_spec x 0xC0); [|destruct (Z.ltb_spec x 0xE0); [|destruct (Z.ltb_spec x 0xF0); [|destruct (Z.ltb_spec x 0xF8)]]].
  - destruct (_ <=? _)%nat; [done|]. destruct (negb _); [done|]. intros [= <- <-]. cbn [read_tail nth offsetsFromUTF8].
    rewrite (wrapU_id 32 (0 + x)), wrapU_id by (unfold is_u; lia). lia.
  - destruct source as [|y source]; [done|]. apply Forall_cons in Hs as [Hy _]. unfold is_u in Hy.
    destruct (_ <=? _)%nat; [done|]. destruct (isLegalUTF8 (x :: y :: source) (1 + 1)) eqn:El; [|discriminate].
    revert El. unfold isLegalUTF8, unit_at. cbn [Nat.add nth]. legal.
    rewrite read_tail_plain by (done || lia). cbn [plain_sum nth offsetsFromUTF8 negb]. intros El [= <- <-].
    rewrite wrapU_id by (unfold is_u; lia). lia.
  - destruct source as [|y [|z source]]; [done|done|]. apply Forall_cons in Hs as [Hy Hs]. apply Forall_cons in Hs as [Hz _].
    unfold is_u in Hy, Hz.
    destruct (_ <=? _)%nat; [done|]. destruct (isLegalUTF8 (x :: y :: z :: source) (2 + 1)) eqn:El; [|discriminate].
    revert El. unfold isLegalUTF8, unit_at. cbn [Nat.add nth]. legal.
    rewrite read_tail_plain by (done || lia). cbn [plain_sum nth offsetsFromUTF8 negb]. intros El [= <- <-].
    rewrite wrapU_id by (unfold is_u; lia). lia.
  - destruct source as [|y [|z [|w source]]]; [done|done|done|]. apply Forall_cons in Hs as [Hy Hs]. apply Forall_cons in Hs as [Hz Hs].
    apply Forall_cons in Hs as [Hw _]. unfold is_u in Hy, Hz, Hw.
    destruct (_ <=? _)%nat; [done|]. destruct (isLegalUTF8 (x :: y :: z :: w :: source) (3 + 1)) eqn:El; [|discriminate].
    revert El. unfold isLegalUTF8, unit_at. cbn [Nat.add nth]. legal.
    rewrite read_tail_plain by (done || lia). cbn [plain_sum nth offsetsFromUTF8 negb]. intros El [= <- <-].
    rewrite wrapU_id by (unfold is_u; lia). lia.
  - assert (Lg : forall k, (4 <= k)%nat -> isLegalUTF8 (x :: source) (k + 1) = false) by (intros k Hk; do 4 (destruct k as [|k]; [lia|]); by rewrite Nat.add_1_r).
    destruct (x <? 0xFC); rewrite Lg by lia; by destruct (length (x :: source) <=? _)%nat.
Qed.

Lemma enc16_nonempty c : enc16 c <> [].
Proof. unfold enc16. by destruct (c <? 0x10000). Qed.
Lemma enc8_nonempty c : enc8 c <> [].
Proof. unfold enc8. by destruct (c <? 0x80), (c <? 0x800), (c <? 0x10000). Qed.

Lemma surrogate_test c : scalar c -> between UNI_SUR_HIGH_START UNI_SUR_LOW_END c = false.
Proof. intros [Hc Hs]. unfold between, UNI_SUR_HIGH_START, UNI_SUR_LOW_END. destruct (Z.leb_spec 0xD800 c), (Z.leb_spec c 0xDFFF); done || lia. Qed.

Lemma between_iff lo hi c : between lo hi c = true <-> lo <= c <= hi.
Proof. unfold between. by rewrite andb_true_iff, !Z.leb_le. Qed.

(** Writing UTF-16 from a scalar value, in both bodies that do. *)
Definition put_16 (flags : ConversionFlags) (ch : Z) (used room : nat) (over : outcome) (result : ConversionResult) : outcome :=
  if (room =? 0)%nat then Stop targetExhausted
  else if ch <=? UNI_MAX_BMP then
    if between UNI_SUR_HIGH_START UNI_SUR_LOW_END ch then
      if is_strict flags then Stop sourceIllegal else Next used [UNI_REPLACEMENT_CHAR] result
    else Next used [u16 ch] result
  else if ch >? UNI_MAX_UTF16 then
    if is_strict flags then over else Next used [UNI_REPLACEMENT_CHAR] result
  else if (room <=? 1)%nat then Stop targetExhausted
  else Next used (surrogates ch) result.

Lemma put_16_ok flags c used room over r :
  scalar c ->
  put_16 flags c used room over r = if (room <? length (enc16 c))%nat then Stop targetExhausted else Next used (enc16 c) r.
Proof.
  intros Hs. pose proof (surrogate_test c Hs) as Ht. destruct Hs as [Hc _]. unfold put_16, UNI_MAX_BMP, UNI_MAX_UTF16 in *. rewrite Z.gtb_ltb.
  destruct (Z.leb_spec c 0xFFFF) as [L|L].
  - rewrite Ht, wrapU_id by (unfold is_u; lia). unfold enc16. destruct (Z.ltb_spec c 0x10000); [|lia]. by destruct room.
  - destruct (Z.ltb_spec 0x10FFFF c); [lia|]. rewrite surrogates_ok by lia. unfold enc16. destruct (Z.ltb_spec c 0x10000); [lia|].
    by destruct room as [|[|room]].
Qed.

(** What else it can do; [over] is the outcome above the last plane. *)
Lemma put_16_next flags ch used room over r n out r' :
  put_16 flags ch used room over r = Next n out r' -> (forall m o q, over = Next m o q -> (m = used /\ o = [] /\ q = sourceIllegal)%nat) ->
  n = used /\ (length out <= room)%nat /\ (r' = r \/ r' = sourceIllegal) /\
  (0 <= ch -> is_strict flags = true -> (r' = sourceIllegal /\ 0x10FFFF < ch) \/ (r' = r /\ scalar ch /\ out = enc16 ch)).
Proof.
  intros E Ho. unfold put_16 in E. destruct (Nat.eqb_spec room 0); [done|]. rewrite Z.gtb_ltb in E.
  unfold UNI_MAX_BMP, UNI_MAX_UTF16 in E. destruct (Z.leb_spec ch 0xFFFF) as [L|L].
  - destruct (between _ _ ch) eqn:B.
    + destruct (is_strict flags) eqn:F; [done|]. injection E as <- <- <-. simpl. split; [done|]. split; [lia|]. split; [by left|done].
    + injection E as <- <- <-. split; [done|]. split; [simpl; lia|]. split; [by left|]. intros H0 _. right. split; [done|].
      assert (Hs : scalar ch).
      { split; [lia|]. intros Hn. apply between_iff in Hn. unfold UNI_SUR_HIGH_START, UNI_SUR_LOW_END in B. congruence. }
      split; [done|]. unfold enc16. destruct (Z.ltb_spec ch 0x10000); [|lia]. f_equal. apply wrapU_id. unfold is_u. lia.
  - destruct (Z.ltb_spec 0x10FFFF ch).
    + destruct (is_strict flags) eqn:F.
      * apply Ho in E as (-> & -> & ->). simpl. split; [done|]. split; [lia|]. split; [by right|]. intros _ _. left. split; [done|lia].
      * injection E as <- <- <-. simpl. split; [done|]. split; [lia|]. split; [by left|done].
    + destruct (Nat.leb_spec room 1); [done|]. injection E as <- <- <-. split; [done|]. split; [simpl; lia|]. split; [by left|].
      intros Hpos _. right. split; [done|]. split; [split; lia|]. apply surrogates_ok. lia.
Qed.

Lemma put_16_stop flags ch used room over r r' :
  put_16 flags ch used room over r = Stop r' -> (forall q, over = Stop q -> q = sourceIllegal) -> r' = targetExhausted \/ r' = sourceIllegal.
Proof.
  unfold put_16. intros E Ho. repeat match type of E with (if ?x then _ else _) = _ => destruct x end; try discriminate E;
    try (injection E as <-; auto). right. by apply Ho.
Qed.

(** More room changes nothing but [targetExhausted]. *)
Lemma put_16_more flags ch used room room' over r q n out r' :
  put_16 flags ch used room over r = Next n out r' -> (room <= room')%nat ->
  (r' = r /\ put_16 flags ch used room' over q = Next n out q) \/
  (over = Next n out r' /\ 0x10FFFF < ch /\ put_16 flags ch used room' over q = over).
Proof.
  unfold put_16, UNI_MAX_UTF16. intros E Hr. destruct (Nat.eqb_spec room 0); [done|]. destruct (Nat.eqb_spec room' 0); [lia|].
  destruct (ch <=? UNI_MAX_BMP).
  - destruct (between _ _ ch); [|left; by injection E as <- <- <-]. destruct (is_strict flags); [done|left; by injection E as <- <- <-].
  - rewrite Z.gtb_ltb in *. destruct (Z.ltb_spec 0x10FFFF ch).
    + destruct (is_strict flags); [by right|left; by injection E as <- <- <-].
    + destruct (Nat.leb_spec room 1); [done|]. destruct (Nat.leb_spec room' 1); [lia|]. left. by injection E as <- <- <-.
Qed.

Lemma put_16_same flags ch used room room' over r q r' :
  put_16 flags ch used room over r = Stop r' -> r' <> targetExhausted -> (room <= room')%nat ->
  put_16 flags ch used room' over q = Stop r'.
Proof.
  unfold put_16. intros E Hne Hr. destruct (Nat.eqb_spec room 0); [by injection E as <-|]. destruct (Nat.eqb_spec room' 0); [lia|].
  destruct (ch <=? UNI_MAX_BMP).
  - destruct (between _ _ ch); [|done]. by destruct (is_strict flags).
  - destruct (ch >? UNI_MAX_UTF16); [by destruct (is_strict flags)|].
    destruct (Nat.leb_spec room 1); [by injection E as <-|done].
Qed.

Lemma body_32_16_put flags source room r :
  body_32_16 flags source room r = put_16 flags (unit_at source 0) 1 room (Next 1 [] sourceIllegal) r.
Proof. done. Qed.

Lemma body_8_16_put flags source room r :
  body_8_16 flags source room r =
    match read_8 source with inl e => Stop e | inr (ch, used) => put_16 flags ch used room (Stop sourceIllegal) r end.
Proof. done. Qed.

Lemma unit_enc32 c rest : unit_at (enc32 c ++ rest) 0 = c.
Proof. done. Qed.

Lemma head_units (P : Z -> Prop) source : Forall P source -> source <> [] -> P (unit_at source 0) /\ source = unit_at source 0 :: drop 1 source.
Proof. intros HF Hne. destruct source as [|x source]; [done|]. apply Forall_cons in HF as [Hx _]. done. Qed.

Lemma read_8_err source r : read_8 source = inl r -> r <> conversionOK.
Proof. unfold read_8. destruct (_ <=? _)%nat; [by intros [= <-]|]. destruct (negb _); [by intros [= <-]|done]. Qed.

Lemma read_16_err flags source r : read_16 flags source = inl r -> r <> conversionOK.
Proof.
  unfold read_16. intros E. repeat match type of E with (if ?x then _ else _) = _ => destruct x end; try discriminate E; by injection E as <-.
Qed.

#[export] Instance conv_32_16 : Converter body_32_16 enc32 enc16 units32 no_gap.
Proof.
  constructor.
  - intros flags c rest room r Hs _. rewrite body_32_16_put, unit_enc32. by apply put_16_ok.
  - intros source room r used out r' Hu _ Hne E. rewrite body_32_16_put in E. destruct (head_units _ _ Hu Hne) as [Hx Hd]. unfold is_u in Hx.
    destruct (put_16_next _ _ _ _ _ _ _ _ _ E) as (-> & _ & _ & Hz); [by intros m o q [= <- <- <-]|].
    destruct (Hz ltac:(lia) eq_refl) as [?|(-> & Hs & ->)]; [by left|right]. split; [done|]. by exists (unit_at source 0).
  - intros flags source room r used out r' Hne E. rewrite body_32_16_put in E.
    destruct (put_16_next _ _ _ _ _ _ _ _ _ E) as (-> & Hl & Hr & _); [by intros m o q [= <- <- <-]|].
    split; [|done]. destruct source; [done|]. simpl. lia.
  - intros flags source room r r' E. rewrite body_32_16_put in E. by destruct (put_16_stop _ _ _ _ _ _ _ E) as [-> | ->].
  - intros flags source room room' r used out r' q _ _ E Hr. rewrite body_32_16_put in *.
    destruct (put_16_more _ _ _ _ room' _ _ q _ _ _ E Hr) as [?|([= <- <- <-] & Hx & ->)]; [by left|by right].
  - intros flags source room room' r r' q E Hne Hr. rewrite body_32_16_put in *. by apply (put_16_same _ _ _ room room' _ r).
  - intros source n. apply Forall_drop.
  - by intros source n [].
  - intros source. right. by intros [].
  - done.
Qed.

#[export] Instance conv_8_16 : Converter body_8_16 enc8 enc16 units8 gap8.
Proof.
  constructor.
  - intros flags c rest room r Hs Hu. apply Forall_app in Hu as [_ Hu]. rewrite body_8_16_put, read_8_ok by done. by apply put_16_ok.
  - intros source room r used out r' Hu Hg Hne E. rewrite body_8_16_put in E. destruct (read_8 source) as [e|[ch n]] eqn:Er; [done|].
    destruct (read_8_sound source ch n Hu Hne (gap8_clean _ Hg) Er) as (Hs & -> & Hd).
    rewrite put_16_ok in E by done. destruct (_ <? _)%nat; [done|]. injection E as <- <- <-. right. split; [done|]. by exists ch.
  - intros flags source room r used out r' Hne E. rewrite body_8_16_put in E. destruct (read_8 source) as [e|[ch n]] eqn:Er; [done|].
    destruct (put_16_next _ _ _ _ _ _ _ _ _ E) as (-> & Hl & Hr & _); [done|]. split; [by eapply read_8_used|done].
  - intros flags source room r r' E. rewrite body_8_16_put in E. destruct (read_8 source) as [e|[ch n]] eqn:Er.
    + injection E as <-. by eapply read_8_err.
    + destruct (put_16_stop _ _ _ _ _ _ _ E) as [-> | ->]; [by intros q [= <-]|done|done].
  - intros flags source room room' r used out r' q _ _ E Hr. rewrite body_8_16_put in *. destruct (read_8 source) as [e|[ch n]]; [done|].
    destruct (put_16_more _ _ _ _ room' _ _ q _ _ _ E Hr) as [?|(? & _)]; [by left|done].
  - intros flags source room room' r r' q E Hne Hr. rewrite body_8_16_put in *. destruct (read_8 source) as [e|[ch n]]; [done|].
    by apply (put_16_same _ _ _ room room' _ r).
  - intros source n. apply Forall_drop.
  - intros source n. apply gap8_drop.
  - apply gap8_dec.
  - apply enc8_nonempty.
Qed.

#[export] Instance conv_16_32 : Converter body_16_32 enc16 enc32 units16 no_gap.
Proof.
  constructor.
  - intros flags c rest room r Hs _. unfold body_16_32. rewrite read_16_ok by done. by destruct room.
  - intros source room r used out r' Hu Hg Hne E. unfold body_16_32 in E. destruct (read_16 _ source) as [e|[ch n]] eqn:Er; [done|].
    destruct (read_16_sound source ch n Hu Hne Er) as (Hs & -> & Hd). destruct (room =? 0)%nat; [done|]. injection E as <- <- <-.
    right. split; [done|]. by exists ch.
  - intros flags source room r used out r' Hne E. unfold body_16_32 in E. destruct (read_16 _ source) as [e|[ch n]] eqn:Er; [done|].
    destruct (Nat.eqb_spec room 0); [done|]. injection E as <- <- <-. split; [by eapply read_16_used|]. split; [simpl; lia|by left].
  - intros flags source room r r' E. unfold body_16_32 in E. destruct (read_16 _ source) as [e|[ch n]] eqn:Er.
    + injection E as <-. by eapply read_16_err.
    + destruct (room =? 0)%nat; [by injection E as <-|done].
  - intros flags source room room' r used out r' q Hu Hne E Hr. unfold body_16_32 in *. destruct (read_16 _ source) as [e|[ch n]]; [done|].
    destruct (Nat.eqb_spec room 0); [done|]. destruct (Nat.eqb_spec room' 0); [lia|]. injection E as <- <- <-. by left.
  - intros flags source room room' r r' q E Hne Hr. unfold body_16_32 in *. destruct (read_16 _ source) as [e|[ch n]]; [done|].
    destruct (Nat.eqb_spec room 0); [by injection E as <-|done].
  - intros source n. apply Forall_drop.
  - by intros source n [].
  - intros source. right. by intros [].
  - apply enc16_nonempty.
Qed.

#[export] Instance conv_8_32 : Converter body_8_32 enc8 enc32 units8 gap8.
Proof.
  constructor.
  - intros flags c rest room r Hs Hu. apply Forall_app in Hu as [_ Hu]. unfold body_8_32. rewrite read_8_ok, surrogate_test by done.
    destruct Hs as [Hc _]. unfold UNI_MAX_LEGAL_UTF32. destruct (Z.leb_spec c 0x10FFFF); [|lia]. by destruct room.
  - intros source room r used out r' Hu Hg Hne E. unfold body_8_32 in E. destruct (read_8 source) as [e|[ch n]] eqn:Er; [done|].
    destruct (read_8_sound source ch n Hu Hne (gap8_clean _ Hg) Er) as (Hs & -> & Hd). rewrite surrogate_test in E by done.
    destruct (room =? 0)%nat; [done|]. destruct (Z.leb_spec ch UNI_MAX_LEGAL_UTF32); injection E as <- <- <-; [right|destruct Hs; unfold UNI_MAX_LEGAL_UTF32 in *; lia].
    split; [done|]. by exists ch.
  - intros flags source room r used out r' Hne E. unfold body_8_32 in E. destruct (read_8 source) as [e|[ch n]] eqn:Er; [done|].
    apply read_8_used in Er. destruct (Nat.eqb_spec room 0); [done|].
    repeat match type of E with (if ?x then _ else _) = _ => destruct x end; try discriminate E; injection E as <- <- <-; simpl; auto with lia.
  - intros flags source room r r' E. unfold body_8_32 in E. destruct (read_8 source) as [e|[ch n]] eqn:Er; [injection E as <-; by eapply read_8_err|].
    repeat match type of E with (if ?x then _ else _) = _ => destruct x end; try discriminate E; by injection E as <-.
  - intros flags source room room' r used out r' q Hu Hne E Hr. unfold body_8_32 in *. destruct (read_8 source) as [e|[ch n]] eqn:Er; [done|].
    destruct (read_8_bound _ _ _ Hu Er) as [_ Hb]. apply Z.leb_le in Hb. unfold UNI_MAX_LEGAL_UTF32 in *. rewrite Hb in *.
    destruct (Nat.eqb_spec room 0); [done|]. destruct (Nat.eqb_spec room' 0); [lia|]. left.
    destruct (between _ _ _); [destruct (is_strict flags); [done|]|]; by injection E as <- <- <-.
  - intros flags source room room' r r' q E Hne Hr. unfold body_8_32 in *. destruct (read_8 source) as [e|[ch n]]; [done|].
    destruct (Nat.eqb_spec room 0); [by injection E as <-|]. destruct (Nat.eqb_spec room' 0); [lia|].
    repeat match type of E with (if ?x then _ else _) = _ => destruct x end; done.
  - intros source n. apply Forall_drop.
  - intros source n. apply gap8_drop.
  - apply gap8_dec.
  - apply enc8_nonempty.
Qed.

(** Writing UTF-8, in both bodies that do. *)
Definition put_8 (ch : Z) (used room : nat) (result : ConversionResult) : outcome :=
  let '(n, ch) := bytes_for ch in if (room <? n)%nat then Stop targetExhausted else Next used (write_8 n ch) result.

Lemma put_8_ok c used room r :
  scalar c -> put_8 c used room r = if (room <? length (enc8 c))%nat then Stop targetExhausted else Next used (enc8 c) r.
Proof. intros [Hc _]. unfold put_8. rewrite bytes_for_ok by done. cbn [fst snd]. by rewrite write_8_ok. Qed.

Lemma put_8_next ch used room r n out r' :
  put_8 ch used room r = Next n out r' -> n = used /\ (length out <= room)%nat /\ r' = r /\
  forall room' q, (room <= room')%nat -> put_8 ch used room' q = Next n out q.
Proof.
  unfold put_8. pose proof (bytes_for_range ch) as Hr. destruct (bytes_for ch) as [k x]. cbn [fst] in Hr.
  destruct (Nat.ltb_spec room k); [done|]. intros [= <- <- <-]. rewrite length_write_8 by lia. split; [done|]. split; [lia|]. split; [done|].
  intros room' q Hr'. by destruct (Nat.ltb_spec room' k); [lia|].
Qed.

Lemma put_8_stop ch used room r r' : put_8 ch used room r = Stop r' -> r' = targetExhausted.
Proof. unfold put_8. destruct (bytes_for ch) as [k x]. by destruct (room <? k)%nat; intros [= <-]. Qed.

#[export] Instance conv_16_8 : Converter body_16_8 enc16 enc8 units16 no_gap.
Proof.
  assert (P : forall flags source room r, body_16_8 flags source room r =
    match read_16 flags source with inl e => Stop e | inr (ch, used) => put_8 ch used room r end) by done.
  constructor.
  - intros flags c rest room r Hs _. rewrite P, read_16_ok by done. by apply put_8_ok.
  - intros source room r used out r' Hu Hg Hne E. rewrite P in E. destruct (read_16 _ source) as [e|[ch n]] eqn:Er; [done|].
    destruct (read_16_sound source ch n Hu Hne Er) as (Hs & -> & Hd). rewrite put_8_ok in E by done. destruct (_ <? _)%nat; [done|].
    injection E as <- <- <-. right. split; [done|]. by exists ch.
  - intros flags source room r used out r' Hne E. rewrite P in E. destruct (read_16 _ source) as [e|[ch n]] eqn:Er; [done|].
    destruct (put_8_next _ _ _ _ _ _ _ E) as (-> & Hl & -> & _). split; [by eapply read_16_used|]. split; [done|by left].
  - intros flags source room r r' E. rewrite P in E. destruct (read_16 _ source) as [e|[ch n]] eqn:Er.
    + injection E as <-. by eapply read_16_err.
    + by rewrite (put_8_stop _ _ _ _ _ E).
  - intros flags source room room' r used out r' q Hu Hne E Hr. rewrite P in *. destruct (read_16 _ source) as [e|[ch n]]; [done|].
    destruct (put_8_next _ _ _ _ _ _ _ E) as (_ & _ & -> & Hm). left. auto.
  - intros flags source room room' r r' q E Hne Hr. rewrite P in *. destruct (read_16 _ source) as [e|[ch n]]; [done|].
    by rewrite (put_8_stop _ _ _ _ _ E) in Hne.
  - intros source n. apply Forall_drop.
  - by intros source n [].
  - intros source. right. by intros [].
  - apply enc16_nonempty.
Qed.

#[export] Instance conv_32_8 : Converter body_32_8 enc32 enc8 units32 no_gap.
Proof.
  assert (P : forall flags source room r, body_32_8 flags source room r =
    if is_strict flags && between UNI_SUR_HIGH_START UNI_SUR_LOW_END (unit_at source 0) then Stop sourceIllegal
    else put_8 (unit_at source 0) 1 room (if unit_at source 0 <=? UNI_MAX_LEGAL_UTF32 then r else sourceIllegal)) by done.
  constructor.
  - intros flags c rest room r Hs _. rewrite P, unit_enc32, surrogate_test, andb_false_r by done. rewrite put_8_ok by done.
    destruct Hs as [Hc _]. unfold UNI_MAX_LEGAL_UTF32. by destruct (Z.leb_spec c 0x10FFFF); [|lia].
  - intros source room r used out r' Hu Hg Hne E. rewrite P in E. destruct (head_units _ _ Hu Hne) as [Hx Hd]. unfold is_u in Hx.
    cbn [is_strict andb] in E. destruct (between _ _ _) eqn:B; [done|].
    unfold UNI_MAX_LEGAL_UTF32 in E. destruct (Z.leb_spec (unit_at source 0) 0x10FFFF).
    + assert (Hs : scalar (unit_at source 0)).
      { split; [lia|]. intros Hn. apply between_iff in Hn. unfold UNI_SUR_HIGH_START, UNI_SUR_LOW_END in B. congruence. }
      rewrite put_8_ok in E by done. destruct (_ <? _)%nat; [done|]. injection E as <- <- <-. right. split; [done|]. by exists (unit_at source 0).
    + left. by destruct (put_8_next _ _ _ _ _ _ _ E) as (_ & _ & -> & _).
  - intros flags source room r used out r' Hne E. rewrite P in E. destruct (_ && _); [done|].
    destruct (put_8_next _ _ _ _ _ _ _ E) as (-> & Hl & -> & _). split; [destruct source; [done|simpl; lia]|]. split; [done|].
    destruct (_ <=? _); auto.
  - intros flags source room r r' E. rewrite P in E. destruct (_ && _); [by injection E as <-|]. by rewrite (put_8_stop _ _ _ _ _ E).
  - intros flags source room room' r used out r' q Hu Hne E Hr. rewrite P in *. destruct (_ && _); [done|].
    destruct (put_8_next _ _ _ _ _ _ _ E) as (_ & _ & -> & Hm).
    unfold UNI_MAX_LEGAL_UTF32 in *. destruct (Z.leb_spec (unit_at source 0) 0x10FFFF); [left|right]; auto.
  - intros flags source room room' r r' q E Hne Hr. rewrite P in *. destruct (_ && _); [done|].
    by rewrite (put_8_stop _ _ _ _ _ E) in Hne.
  - intros source n. apply Forall_drop.
  - by intros source n [].
  - intros source. right. by intros [].
  - done.
Qed.

(** ** The loop *)

Section Loop.
Context {body : ConversionFlags -> list Z -> nat -> ConversionResult -> outcome} {enc_from enc_to : Z -> list Z} {units gap : list Z -> Prop}.
Context {C : Converter body enc_from enc_to units gap}.

Lemma from_nonempty c : enc_from c <> [].
Proof. apply (@conv_nonempty _ _ _ _ _ C). Qed.

Lemma encode_cons enc c cs : encode enc (c :: cs) = enc c ++ encode enc cs.
Proof. done. Qed.

(** One turn of the loop. *)
Lemma loop_turn flags fuel source room r :
  source <> [] -> (length source <= fuel)%nat ->
  convert_loop (body flags) fuel source room r =
    match body flags source room r with
    | Stop r' => (r', source, [])
    | Next used out r' =>
        let '(r', rest, out') := convert_loop (body flags) (fuel - 1) (drop used source) (room - length out) r' in
        (r', rest, out ++ out')
    end.
Proof. intros Hne Hf. destruct source as [|x source]; [done|]. destruct fuel as [|fuel]; [simpl in Hf; lia|]. simpl. by rewrite Nat.sub_0_r. Qed.

Lemma loop_ok flags fuel cs room r :
  Forall scalar cs -> units (encode enc_from cs) -> (length (encode enc_to cs) <= room)%nat -> (length (encode enc_from cs) <= fuel)%nat ->
  convert_loop (body flags) fuel (encode enc_from cs) room r = (r, [], encode enc_to cs).
Proof.
  intros Hs. revert fuel room. induction Hs as [|c cs Hc Hs IH]; intros fuel room Hu Hr Hf; [by destruct fuel|].
  rewrite encode_cons in *. rewrite length_app in *.
  assert (Hne : enc_from c ++ encode enc_from cs <> []) by (intros E; by apply app_eq_nil in E as [E%from_nonempty _]).
  assert (L1 : (1 <= length (enc_from c))%nat) by (destruct (enc_from c) eqn:E; [by apply from_nonempty in E|simpl; lia]).
  rewrite loop_turn by (done || rewrite length_app; lia). rewrite (@conv_step _ _ _ _ _ C) by done.
  destruct (Nat.ltb_spec room (length (enc_to c))); [lia|]. rewrite drop_app_length.
  rewrite IH; [done| |lia|lia]. pose proof (@conv_units _ _ _ _ _ C _ (length (enc_from c)) Hu) as Hd. by rewrite drop_app_length in Hd.
Qed.

(** A strict conversion reads characters and writes their other encoding, and
    stops in front of what it cannot read; a unit above the last plane may be
    passed over instead. *)
Lemma loop_sound fuel source room r r' rest out :
  units source -> ~ gap source -> (length source <= fuel)%nat ->
  convert_loop (body strictConversion) fuel source room r = (r', rest, out) ->
  (r' = conversionOK -> rest = [] /\ r = conversionOK) /\
  (r' = conversionOK \/ Forall (fun u => u <= 0x10FFFF) source ->
   exists cs, Forall scalar cs /\ source = encode enc_from cs ++ rest /\ out = encode enc_to cs).
Proof.
  revert source room r r' rest out. induction fuel as [|fuel IH]; intros source room r r' rest out Hu Hg Hf E;
    (destruct (decide (source = [])) as [->|Hne]; [injection E as <- <- <-; split; [done|]; intros _; by exists []|]).
  - destruct source; [done|simpl in Hf; lia].
  - rewrite loop_turn in E by done. destruct (body strictConversion source room r) as [r1|used o r1] eqn:Eb.
    { injection E as <- <- <-. split; [by intros ->; apply (@conv_stop _ _ _ _ _ C) in Eb|]. intros _. by exists []. }
    destruct (convert_loop _ (S fuel - 1) (drop used source) (room - length o) r1) as [[r2 rest2] o2] eqn:El. injection E as -> -> <-.
    destruct (@conv_bound _ _ _ _ _ C _ _ _ _ _ _ _ Hne Eb) as (Hu1 & Ho & _). rewrite Nat.sub_succ, Nat.sub_0_r in El.
    assert (Hg' : ~ gap (drop used source)) by (by intros ?%(@conv_gap _ _ _ _ _ C)).
    destruct (IH _ _ _ _ _ _ (@conv_units _ _ _ _ _ C _ used Hu) Hg' ltac:(rewrite length_drop; lia) El) as [I1 I2].
    destruct (@conv_sound _ _ _ _ _ C _ _ _ _ _ _ Hu Hg Hne Eb) as [[-> Hbig]|(-> & c & Hc & -> & -> & Ed)].
    + split; [by intros Hr; destruct (I1 Hr) as [_ ?]|]. intros [Hr|Hs]; [by destruct (I1 Hr)|].
      destruct (head_units _ _ Hs Hne) as [? _]. lia.
    + split; [done|]. intros Hs. destruct I2 as (cs & Hcs & Es & ->); [destruct Hs; [by left|right; by apply Forall_drop]|].
      exists (c :: cs). split; [by constructor|]. rewrite !encode_cons. split; [|done]. by rewrite <- app_assoc, <- Es.
Qed.

Lemma loop_bound flags fuel source room r r' rest out :
  (length source <= fuel)%nat -> convert_loop (body flags) fuel source room r = (r', rest, out) ->
  (length out <= room)%nat /\ (r' = conversionOK -> rest = []).
Proof.
  revert source room r r' rest out. induction fuel as [|fuel IH]; intros source room r r' rest out Hf E;
    (destruct (decide (source = [])) as [->|Hne]; [injection E as <- <- <-; simpl; split; [lia|done]|]).
  - destruct source; [done|simpl in Hf; lia].
  - rewrite loop_turn in E by done. destruct (body flags source room r) as [r1|used o r1] eqn:Eb.
    { injection E as <- <- <-. simpl. split; [lia|]. intros ->. by apply (@conv_stop _ _ _ _ _ C) in Eb. }
    destruct (convert_loop _ (S fuel - 1) (drop used source) (room - length o) r1) as [[r2 rest2] o2] eqn:El. injection E as <- <- <-.
    destruct (@conv_bound _ _ _ _ _ C _ _ _ _ _ _ _ Hne Eb) as (Hu1 & Ho & _). rewrite Nat.sub_succ, Nat.sub_0_r in El.
    destruct (IH (drop used source) _ _ _ _ _ ltac:(rewrite length_drop; lia) El) as [Hl Hr]. rewrite length_app. split; [lia|done].
Qed.

(** With more room a conversion that did not run out does the same; the
    result is the same too, unless it is the one the conversion began with. *)
Lemma loop_more flags fuel fuel' source room room' r q r1 rest out :
  units source -> (length source <= fuel)%nat -> (length source <= fuel')%nat -> (room <= room')%nat ->
  convert_loop (body flags) fuel source room r = (r1, rest, out) -> r1 <> targetExhausted ->
  exists r2, convert_loop (body flags) fuel' source room' q = (r2, rest, out) /\ (r2 = r1 \/ r1 = r /\ r2 = q).
Proof.
  revert fuel' source room room' r q r1 rest out. induction fuel as [|fuel IH]; intros fuel' source room room' r q r1 rest out Hu Hf Hf' Hr E Hn;
    (destruct (decide (source = [])) as [->|Hne]; [injection E as <- <- <-; exists q; split; [by destruct fuel'|by right]|]).
  - destruct source; [done|simpl in Hf; lia].
  - rewrite loop_turn in E by done. rewrite loop_turn by done. destruct (body flags source room r) as [r'|used o r'] eqn:Eb.
    { injection E as -> <- <-. rewrite (@conv_same _ _ _ _ _ C _ _ _ _ _ _ q Eb Hn Hr). exists r1. by split; [|left]. }
    destruct (convert_loop _ (S fuel - 1) (drop used source) (room - length o) r') as [[r2 rest2] o2] eqn:El. injection E as -> -> <-.
    destruct (@conv_bound _ _ _ _ _ C _ _ _ _ _ _ _ Hne Eb) as (Hu1 & Ho & _). rewrite Nat.sub_succ, Nat.sub_0_r in El.
    assert (Next' : forall q', exists r3, convert_loop (body flags) (fuel' - 1) (drop used source) (room' - length o) q' = (r3, rest, o2) /\
      (r3 = r1 \/ r1 = r' /\ r3 = q')).
    { intros q'. apply (IH (fuel' - 1)%nat (drop used source) (room - length o)%nat (room' - length o)%nat r' q' r1 rest o2);
        [by apply (@conv_units _ _ _ _ _ C)|rewrite length_drop; lia|rewrite length_drop; lia|lia|done|done]. }
    destruct (@conv_more _ _ _ _ _ C _ _ _ room' _ _ _ _ q Hu Hne Eb Hr) as [[-> Eq]|(-> & Hx & Eq)]; rewrite Eq.
    + destruct (Next' q) as (r3 & E3 & Hr3). exists r3. by rewrite E3.
    + destruct (Next' sourceIllegal) as (r3 & E3 & Hr3). exists r3. rewrite E3. split; [done|]. left. destruct Hr3 as [?|[? ?]]; congruence.
Qed.

(** A conversion that ran out goes on where it stopped. *)
Lemma loop_resume flags fuel fuel1 fuel2 source room1 room2 room r q p rest out1 r2 rest2 out2 :
  units source -> (length source <= fuel)%nat -> (length source <= fuel1)%nat -> (length rest <= fuel2)%nat ->
  convert_loop (body flags) fuel1 source room1 r = (targetExhausted, rest, out1) -> r <> targetExhausted ->
  convert_loop (body flags) fuel2 rest room2 q = (r2, rest2, out2) -> r2 <> targetExhausted ->
  (room1 + room2 <= room)%nat ->
  exists r', convert_loop (body flags) fuel source room p = (r', rest2, out1 ++ out2) /\
    (r' = r2 \/ r2 = q /\ (r' = p \/ r' = sourceIllegal /\ exists u, u ∈ source /\ 0x10FFFF < u)).
Proof.
  revert fuel source room1 room r p out1. induction fuel1 as [|fuel1 IH]; intros fuel source room1 room r p out1 Hu Hf Hf1 Hf2 E1 Hr E2 Hr2 Hroom;
    (destruct (decide (source = [])) as [->|Hne]; [by injection E1 as -> _ _|]).
  - destruct source; [done|simpl in Hf1; lia].
  - rewrite loop_turn in E1 by done. destruct (body flags source room1 r) as [r'|used o r'] eqn:Eb.
    { injection E1 as _ <- <-. destruct (loop_more flags fuel2 fuel source room2 room q p r2 rest2 out2) as (r3 & E3 & Hr3); [done..|lia|done|done|].
      exists r3. split; [done|]. destruct Hr3 as [?|[? ?]]; auto. }
    destruct (convert_loop _ (S fuel1 - 1) (drop used source) (room1 - length o) r') as [[r3 rest3] o3] eqn:El. injection E1 as -> -> <-.
    destruct (@conv_bound _ _ _ _ _ C _ _ _ _ _ _ _ Hne Eb) as (Hu1 & Ho & Hrr). rewrite Nat.sub_succ, Nat.sub_0_r in El.
    assert (Next' : forall q', exists r4, convert_loop (body flags) (fuel - 1) (drop used source) (room - length o) q' = (r4, rest2, o3 ++ out2) /\
      (r4 = r2 \/ r2 = q /\ (r4 = q' \/ r4 = sourceIllegal /\ exists u, u ∈ source /\ 0x10FFFF < u))).
    { intros q'. destruct (IH (fuel - 1)%nat (drop used source) (room1 - length o)%nat (room - length o)%nat r' q' o3) as (r4 & E4 & H4);
        [by apply (@conv_units _ _ _ _ _ C)|rewrite length_drop; lia|rewrite length_drop; lia|done|done|by destruct Hrr as [-> | ->]|done|done|lia|].
      exists r4. split; [done|]. destruct H4 as [?|(? & [?|(? & u & Hin & Hb)])]; [auto|auto|]. right. split; [done|]. right. split; [done|].
      exists u. split; [|done]. by apply (subseteq_drop used source). }
    rewrite loop_turn by done.
    destruct (@conv_more _ _ _ _ _ C _ _ _ room _ _ _ _ p Hu Hne Eb ltac:(lia)) as [[-> Eq]|(-> & Hx & Eq)]; rewrite Eq.
    + destruct (Next' p) as (r4 & E4 & Hr4). exists r4. by rewrite E4, <- app_assoc.
    + destruct (Next' sourceIllegal) as (r4 & E4 & Hr4). exists r4. rewrite E4, <- app_assoc. split; [done|].
      assert (B : exists u, u ∈ source /\ 0x10FFFF < u).
      { destruct source as [|x source]; [done|]. exists x. split; [left|done]. }
      destruct Hr4 as [?|(? & [?|?])]; auto.
Qed.
End Loop.

(** ** The six functions *)

Inductive utf_pair : (ConversionFlags -> list Z -> nat -> ConversionResult * list Z * list Z) -> (Z -> list Z) -> (Z -> list Z) ->
    (list Z -> Prop) -> (list Z -> Prop) -> Prop :=
  | pair_32_16 : utf_pair ConvertUTF32toUTF16 enc32 enc16 units32 no_gap
  | pair_16_32 : utf_pair ConvertUTF16toUTF32 enc16 enc32 units16 no_gap
  | pair_16_8 : utf_pair ConvertUTF16toUTF8 enc16 enc8 units16 no_gap
  | pair_8_16 : utf_pair ConvertUTF8toUTF16 enc8 enc16 units8 gap8
  | pair_32_8 : utf_pair ConvertUTF32toUTF8 enc32 enc8 units32 no_gap
  | pair_8_32 : utf_pair ConvertUTF8toUTF32 enc8 enc32 units8 gap8.

Lemma pair_converter conv enc_from enc_to units gap :
  utf_pair conv enc_from enc_to units gap ->
  exists body, Converter body enc_from enc_to units gap /\ forall flags, conv flags = convert (body flags).
Proof. intros []; eexists; (split; [apply _|done]). Qed.

(** C24: for every source of units in range, each of the six conversions turns
    the encoding of a text into the other encoding of the same text, strict or
    lenient, given the room; and a strict conversion that reports success
    used up its source, and either the source encoded a text whose other
    encoding was written, or it is a UTF-8 source with a gap of
    [isLegalUTF8]: a 0xED or 0xF4 followed by a byte below 0x80. *)
Theorem strict_exact conv enc_from enc_to units gap source room :
  utf_pair conv enc_from enc_to units gap -> units source ->
  (forall flags cs, Forall scalar cs -> source = encode enc_from cs -> (length (encode enc_to cs) <= room)%nat ->
     conv flags source room = (conversionOK, [], encode enc_to cs)) /\
  (forall rest out, conv strictConversion source room = (conversionOK, rest, out) ->
     rest = [] /\ ((exists cs, Forall scalar cs /\ source = encode enc_from cs /\ out = encode enc_to cs) \/ gap source)).
Proof.
  intros (body & C & E)%pair_converter Hu. split.
  - intros flags cs Hs -> Hr. rewrite E. by apply loop_ok.
  - intros rest out Er. rewrite E in Er. destruct (loop_bound _ _ _ _ _ _ _ _ (le_n _) Er) as [_ Hrest]. rewrite Hrest in Er |- * by done.
    split; [done|]. destruct (@conv_gap_dec _ _ _ _ _ C source) as [?|Hg]; [by right|left].
    destruct (loop_sound _ _ _ _ _ _ _ Hu Hg (le_n _) Er) as [_ S]. destruct S as (cs & Hs & Es & Eo); [by left|].
    exists cs. split; [done|]. split; [|done]. by rewrite app_nil_r in Es.
Qed.

(** Euro sign and clef are converted; the bytes 0xED 0x20 0x80 are accepted,
    though no text is encoded so. *)
Lemma strict_exact_witness :
  ConvertUTF8toUTF16 strictConversion [0xE2; 0x82; 0xAC; 0xF0; 0x9D; 0x84; 0x9E] 3 = (conversionOK, [], [0x20AC; 0xD834; 0xDD1E]) /\
  ConvertUTF8toUTF16 strictConversion [0xED; 0x20; 0x80] 1 = (conversionOK, [], [0xB800]) /\
  ((exists cs, Forall scalar cs /\ [0xED; 0x20; 0x80] = encode enc8 cs /\ [0xB800] = encode enc16 cs) \/ gap8 [0xED; 0x20; 0x80]).
Proof.
  assert (U : units8 [0xE2; 0x82; 0xAC; 0xF0; 0x9D; 0x84; 0x9E]) by (by repeat constructor).
  assert (V : units8 [0xED; 0x20; 0x80]) by (by repeat constructor).
  split; [|split; [reflexivity|]].
  - apply (proj1 (strict_exact ConvertUTF8toUTF16 enc8 enc16 units8 gap8 _ 3 pair_8_16 U) strictConversion [0x20AC; 0x1D11E]).
    + repeat constructor; lia.
    + reflexivity.
    + simpl. lia.
  - apply (proj2 (strict_exact ConvertUTF8toUTF16 enc8 enc16 units8 gap8 _ 1 pair_8_16 V) [] [0xB800]). reflexivity.
Defined.

(** C25: for every source of units in range: no conversion writes past the
    end of the target; success means that the source was used up; a strict
    conversion, whatever its result, has read the encoding of a text up to
    the source pointer it leaves and written the other encoding of that
    text, if no unit is above 0x10FFFF and a UTF-8 source has no 0xED or 0xF4
    followed by a byte below 0x80 (a strict [ConvertUTF32toUTF16] drops units above
    0x10FFFF and goes on); and a conversion that ran out of room can be taken
    up again there: the two outputs together are those of one conversion into
    enough room, which leaves the same pointer and reports the same, or
    [sourceIllegal] for a unit above 0x10FFFF where the second one
    reports success. *)
Theorem conversion_bounds conv enc_from enc_to units gap flags source room r rest out :
  utf_pair conv enc_from enc_to units gap -> units source -> conv flags source room = (r, rest, out) ->
  (length out <= room)%nat /\ (r = conversionOK -> rest = []) /\
  (flags = strictConversion -> Forall (fun u => u <= 0x10FFFF) source -> ~ gap source ->
     exists cs, Forall scalar cs /\ source = encode enc_from cs ++ rest /\ out = encode enc_to cs) /\
  (r = targetExhausted -> forall room2 r2 rest2 out2, conv flags rest room2 = (r2, rest2, out2) -> r2 <> targetExhausted ->
     forall big, (room + room2 <= big)%nat -> exists r', conv flags source big = (r', rest2, out ++ out2) /\
       (r' = r2 \/ r2 = conversionOK /\ r' = sourceIllegal /\ exists u, u ∈ source /\ 0x10FFFF < u)).
Proof.
  intros (body & C & E)%pair_converter Hu E1. rewrite E in *. destruct (loop_bound _ _ _ _ _ _ _ _ (le_n _) E1) as [H1 H2].
  split; [done|]. split; [done|]. split.
  - intros -> Hs Hg. destruct (loop_sound _ _ _ _ _ _ _ Hu Hg (le_n _) E1) as [_ S]. apply S. by right.
  - intros -> room2 r2 rest2 out2 E2 Hr2 big Hb.
    destruct (loop_resume flags (length source) (length source) (length rest) source room room2 big conversionOK conversionOK conversionOK
      rest out r2 rest2 out2) as (r' & Er & Hr'); [done..|]. exists r'. split; [done|]. destruct Hr' as [?|(-> & [->|?])]; auto.
Qed.

Lemma conversion_bounds_witness :
  ConvertUTF32toUTF8 strictConversion [0x41; 0x20AC] 2 = (targetExhausted, [0x20AC], [0x41]) /\
  (exists cs, Forall scalar cs /\ [0x41; 0x20AC] = encode enc32 cs ++ [0x20AC] /\ [0x41] = encode enc8 cs) /\
  exists r', ConvertUTF32toUTF8 strictConversion [0x41; 0x20AC] 9 = (r', [], [0x41] ++ [0xE2; 0x82; 0xAC]) /\
    (r' = conversionOK \/ conversionOK = conversionOK /\ r' = sourceIllegal /\ exists u, u ∈ [0x41; 0x20AC] /\ 0x10FFFF < u).
Proof.
  assert (E : ConvertUTF32toUTF8 strictConversion [0x41; 0x20AC] 2 = (targetExhausted, [0x20AC], [0x41])) by reflexivity.
  assert (U : units32 [0x41; 0x20AC]) by (by repeat constructor).
  destruct (conversion_bounds ConvertUTF32toUTF8 enc32 enc8 units32 no_gap _ _ _ _ _ _ pair_32_8 U E) as (_ & _ & H3 & H4).
  split; [exact E|]. split.
  - apply H3; [reflexivity|repeat constructor; lia|intros []].
  - apply (H4 eq_refl 3%nat conversionOK [] [0xE2; 0x82; 0xAC]); [reflexivity|discriminate|lia].
Defined.

(** A strict [ConvertUTF32toUTF16] does not stop at a unit above 0x10FFFF: it
    drops the unit, converts the rest and leaves the source pointer at the
    end. *)
Lemma utf32_illegal_dropped u cs room :
  0x10FFFF < u < 2 ^ 32 -> Forall scalar cs -> (length (encode enc16 cs) <= room)%nat -> (1 <= room)%nat ->
  ConvertUTF32toUTF16 strictConversion (u :: encode enc32 cs) room = (sourceIllegal, [], encode enc16 cs).
Proof.
  intros Hu Hs Hr H1. unfold ConvertUTF32toUTF16, convert. rewrite loop_turn by done.
  assert (Eb : body_32_16 strictConversion (u :: encode enc32 cs) room conversionOK = Next 1 [] sourceIllegal).
  { rewrite body_32_16_put. unfold put_16, UNI_MAX_BMP, UNI_MAX_UTF16. change (unit_at (u :: encode enc32 cs) 0) with u.
    destruct (Nat.eqb_spec room 0); [lia|]. destruct (Z.leb_spec u 0xFFFF); [lia|]. rewrite Z.gtb_ltb.
    by destruct (Z.ltb_spec 0x10FFFF u); [|lia]. }
  rewrite Eb. change (drop 1 (u :: encode enc32 cs)) with (encode enc32 cs). cbn [length app]. rewrite Nat.sub_0_r, Nat.sub_succ, Nat.sub_0_r.
  rewrite (loop_ok (body := body_32_16) (enc_from := enc32) strictConversion); [done|done| |done|done].
  unfold units32, encode. clear -Hs. induction Hs as [|c cs [Hc _] _ IH]; [constructor|]. constructor; [unfold is_u; lia|done].
Qed.

(** ** Ill-formed UTF-8 *)

(** A byte of three-byte length in front of a byte below 0x80 starts no
    encoding. *)
Lemma no_text b t cs : 0 <= b < 0x80 -> Forall scalar cs -> encode enc8 cs <> [0xED; b; t].
Proof.
  intros Hb Hs E. destruct Hs as [|c cs Hc Hs]; [done|]. rewrite encode_cons in E. destruct Hc as [Hc _].
  unfold enc8 in E. revert E. destruct (Z.ltb_spec c 0x80); [|destruct (Z.ltb_spec c 0x800); [|destruct (Z.ltb_spec c 0x10000)]]; cbn [app]; intros [=]; zlia.
Qed.

(** [isLegalUTF8] has no lower bound for the byte after 0xED, so a
    strict conversion reports success on byte sequences that are no UTF-8,
    and writes a character whose encoding is another one. *)
Lemma utf8_ill_formed_accepted b t :
  0 <= b < 0x80 -> 0x80 <= t <= 0xBF ->
  let c := 0xB000 + b * 64 + t - 0x80 in
  isLegalUTF8Sequence [0xED; b; t] = Ok true /\
  ConvertUTF8toUTF16 strictConversion [0xED; b; t] 1 = (conversionOK, [], [c]) /\
  ConvertUTF8toUTF32 strictConversion [0xED; b; t] 1 = (conversionOK, [], [c]) /\
  (forall cs, Forall scalar cs -> encode enc8 cs <> [0xED; b; t]).
Proof.
  intros Hb Ht c.
  assert (El : isLegalUTF8 [0xED; b; t] 3 = true).
  { unfold isLegalUTF8, unit_at. cbn [nth]. legal. lia. }
  assert (Er : read_8 [0xED; b; t] = inr (c, 3%nat)).
  { unfold read_8. change (trailing (unit_at [0xED; b; t] 0)) with 2%nat. cbn [length Nat.leb Nat.add]. rewrite El. cbn [negb].
    do 2 f_equal. rewrite read_tail_plain; [|repeat constructor; unfold is_u; lia|lia|done]. cbn [plain_sum nth offsetsFromUTF8].
    rewrite wrapU_id by (unfold is_u; lia). unfold c. lia. }
  split; [|split; [|split]].
  - unfold isLegalUTF8Sequence. change (trailing 0xED) with 2%nat. cbn [length Nat.ltb Nat.leb Nat.add]. by rewrite El.
  - unfold ConvertUTF8toUTF16, convert. cbn [length convert_loop]. unfold body_8_16. rewrite Er. cbn [Nat.eqb].
    unfold UNI_MAX_BMP. destruct (Z.leb_spec c 0xFFFF); [|lia]. rewrite surrogate_test by (split; lia). by rewrite wrapU_id by (unfold is_u; lia).
  - unfold ConvertUTF8toUTF32, convert. cbn [length convert_loop]. unfold body_8_32. rewrite Er. cbn [Nat.eqb].
    unfold UNI_MAX_LEGAL_UTF32. destruct (Z.leb_spec c 0x10FFFF); [|lia]. by rewrite surrogate_test by (split; lia).
  - intros cs. by apply no_text.
Qed.

(** ** One character at a time *)

Lemma read_tail_take e n ch inp : (e < n)%nat -> read_tail e ch (take n inp) = read_tail e ch inp.
Proof.
  revert n ch inp. induction e as [|e IH]; intros [|n] ch [|b inp] H; try lia; try done. cbn [take read_tail]. apply IH. lia.
Qed.

Lemma unit_at_take n i inp : (i < n)%nat -> unit_at (take n inp) i = unit_at inp i.
Proof. intros H. unfold unit_at. rewrite nth_firstn. by destruct (Nat.ltb_spec i n); [|lia]. Qed.

Lemma isLegalUTF8_take n k inp : (1 <= k <= n)%nat -> isLegalUTF8 (take n inp) k = isLegalUTF8 inp k.
Proof.
  intros H. unfold isLegalUTF8. rewrite (unit_at_take n 0) by lia.
  destruct k as [|[|[|[|[|k]]]]]; try done; by rewrite !unit_at_take by lia.
Qed.

(** With part of the source in view the first character is the same, or not
    all there. *)
Lemma read_8_take n inp : (1 <= n <= length inp)%nat ->
  read_8 (take n inp) = if (n <=? trailing (unit_at inp 0))%nat then inl sourceExhausted else read_8 inp.
Proof.
  intros H. unfold read_8. rewrite unit_at_take, length_take_le by lia. set (e := trailing (unit_at inp 0)).
  destruct (Nat.leb_spec n e); [done|]. destruct (Nat.leb_spec (length inp) e); [lia|].
  by rewrite isLegalUTF8_take, read_tail_take by lia.
Qed.

Lemma put_16_strict ch used r n out r' :
  put_16 strictConversion ch used 4 (Stop sourceIllegal) r = Next n out r' -> n = used /\ (length out <= 2)%nat /\ r' = r.
Proof.
  unfold put_16. cbn [Nat.eqb Nat.leb]. repeat case_match; try discriminate; intros [= <- <- <-]; simpl; (split; [done|]; split; [lia|done]).
Qed.

(** The body at the start of the source, and with [n] bytes in view. *)
Definition first_turn (inp : list Z) : outcome := body_8_16 strictConversion inp 4 conversionOK.

Lemma first_turn_take n inp : (1 <= n <= length inp)%nat ->
  first_turn (take n inp) = if (n <=? trailing (unit_at inp 0))%nat then Stop sourceExhausted else first_turn inp.
Proof. intros H. unfold first_turn. rewrite !body_8_16_put, read_8_take by done. by destruct (_ <=? _)%nat. Qed.

Lemma first_turn_stop inp r : first_turn inp = Stop r -> r <> conversionOK.
Proof.
  unfold first_turn. rewrite body_8_16_put. destruct (read_8 inp) as [e|[ch n]] eqn:Er; [intros [= <-]; by eapply read_8_err|].
  intros E. by destruct (put_16_stop _ _ _ _ _ _ _ E) as [-> | ->]; [intros q [= <-]|..].
Qed.

Lemma first_turn_next inp used out r : first_turn inp = Next used out r ->
  used = (trailing (unit_at inp 0) + 1)%nat /\ (used <= length inp)%nat /\ (length out <= 2)%nat /\ r = conversionOK.
Proof.
  unfold first_turn. rewrite body_8_16_put. destruct (read_8 inp) as [e|[ch n]] eqn:Er; [done|]. intros E.
  destruct (put_16_strict _ _ _ _ _ _ E) as (-> & Ho & ->). pose proof (read_8_used _ _ _ Er). split; [|split; [lia|by split]].
  revert Er. unfold read_8. destruct (_ <=? _)%nat; [done|]. destruct (negb _); [done|]. by intros [= _ <-].
Qed.

Lemma try_turn n inp : (1 <= n <= length inp)%nat ->
  ConvertUTF8toUTF16 strictConversion (take n inp) 4 =
    match first_turn (take n inp) with
    | Stop r => (r, take n inp, [])
    | Next used out r => let '(r, rest, out') := convert_loop (body_8_16 strictConversion) (n - 1) (drop used (take n inp)) (4 - length out) r in
                         (r, rest, out ++ out')
    end.
Proof.
  intros H. unfold ConvertUTF8toUTF16, convert. rewrite length_take_le by lia. destruct n as [|n]; [lia|]. destruct inp as [|b inp]; [simpl in H; lia|].
  replace (S n - 1)%nat with n by lia. done.
Qed.

(** As long as the first character is not all there, or if it is not legal,
    the tries write nothing. *)
Lemma char_loop_stops fuel inp in_length n :
  (1 <= n <= in_length)%nat -> (in_length <= length inp)%nat -> (in_length < fuel + n)%nat ->
  (forall m, (n <= m <= in_length)%nat -> exists r, first_turn (take m inp) = Stop r) ->
  char_loop fuel inp in_length n [] = Ok (0%nat, []).
Proof.
  revert n. induction fuel as [|fuel IH]; intros n Hn Hl Hf Hs; [lia|]. cbn [char_loop length].
  destruct (Nat.ltb_spec (length inp) n); [lia|]. rewrite try_turn by lia. destruct (Hs n) as [r E]; [lia|]. rewrite E. cbn [app length]. change (2 <? 0)%nat with false. cbv iota.
  pose proof (first_turn_stop _ _ E). destruct (Nat.ltb_spec in_length (n + 1)); [destruct r; congruence|].
  rewrite IH by (try lia; intros m Hm; apply Hs; lia). destruct r; congruence.
Qed.

Lemma char_loop_finds fuel inp in_length n used out :
  (1 <= n <= used)%nat -> (used <= in_length)%nat -> (in_length <= length inp)%nat -> (in_length < fuel + n)%nat ->
  first_turn inp = Next used out conversionOK ->
  char_loop fuel inp in_length n [] = Ok (used, out).
Proof.
  revert n. induction fuel as [|fuel IH]; intros n Hn Hu Hl Hf E; [lia|]. cbn [char_loop length].
  destruct (first_turn_next _ _ _ _ E) as (Eu & _ & Ho & _).
  destruct (Nat.ltb_spec (length inp) n); [lia|]. rewrite try_turn, first_turn_take by lia.
  destruct (Nat.leb_spec n (trailing (unit_at inp 0))).
  - cbn [app length]. change (2 <? 0)%nat with false. cbv iota. destruct (Nat.ltb_spec in_length (n + 1)); [lia|]. apply IH; first [done|lia].
  - rewrite E. replace n with used by lia. rewrite drop_ge by (rewrite length_take; lia).
    destruct (used - 1)%nat; cbn [convert_loop app]; rewrite app_nil_r; (destruct (Nat.ltb_spec 2 (length out)); [lia|]); by rewrite Nat.sub_0_r.
Qed.

(** Whatever the bytes, the two units are not overrun and no byte beyond
    [in_length] is read; a character that is there is found whole. *)
Lemma UTF8ToUTF16Char_safe inp in_length :
  (1 <= in_length <= length inp)%nat ->
  exists n out, UTF8ToUTF16Char inp in_length = Ok (n, out) /\ (n <= in_length)%nat /\ length out = 2%nat /\
    (forall c rest, scalar c -> Forall is_byte rest -> inp = enc8 c ++ rest -> (length (enc8 c) <= in_length)%nat ->
       n = length (enc8 c) /\ out = fill_out (enc16 c)).
Proof.
  intros Hl. unfold UTF8ToUTF16Char.
  assert (Hstop : (forall m, (1 <= m <= in_length)%nat -> exists r, first_turn (take m inp) = Stop r) ->
    char_loop (in_length + 1) inp in_length 1 [] = Ok (0%nat, [])) by (intros; apply char_loop_stops; first [done|lia]).
  assert (Hc : forall c rest, scalar c -> Forall is_byte rest -> inp = enc8 c ++ rest ->
    first_turn inp = Next (length (enc8 c)) (enc16 c) conversionOK).
  { intros c rest Hs Hr ->. unfold first_turn. rewrite body_8_16_put, read_8_ok, put_16_ok by done.
    destruct (Nat.ltb_spec 4 (length (enc16 c))); [|done]. unfold enc16 in *. destruct (_ <? _); simpl in *; lia. }
  destruct (first_turn inp) as [r|used out r] eqn:E.
  - rewrite Hstop.
    + eexists _, _. split; [done|]. split; [lia|]. split; [done|]. intros c rest Hs Hr Hi. by specialize (Hc c rest Hs Hr Hi).
    + intros m Hm. rewrite first_turn_take, E by lia. by destruct (_ <=? _)%nat; eexists.
  - destruct (first_turn_next _ _ _ _ E) as (Eu & Hu & Ho & ->). destruct (decide (used <= in_length)%nat) as [L|L].
    + rewrite (char_loop_finds _ _ _ _ used out) by first [done|lia]. eexists _, _. split; [done|]. split; [done|].
      split; [unfold fill_out; rewrite length_app, length_replicate; lia|].
      intros c rest Hs Hr Hi _. by injection (Hc c rest Hs Hr Hi) as -> ->.
    + rewrite Hstop.
      * eexists _, _. split; [done|]. split; [lia|]. split; [done|]. intros c rest Hs Hr Hi HL. injection (Hc c rest Hs Hr Hi) as ->. lia.
      * intros m Hm. rewrite first_turn_take by lia. destruct (Nat.leb_spec m (trailing (unit_at inp 0))); [by eexists|lia].
Qed.

(** One character to two units: never more, and its encoding when it is one. *)
Lemma UTF32ToUTF16Char_ok ch : is_u 32 ch ->
  exists out, UTF32ToUTF16Char ch = Ok out /\ length out = 2%nat /\ (scalar ch -> out = fill_out (enc16 ch)).
Proof.
  intros Hu. unfold UTF32ToUTF16Char, ConvertUTF32toUTF16, convert. cbn [length convert_loop].
  assert (Hc : scalar ch -> body_32_16 strictConversion [ch] 4 conversionOK = Next 1 (enc16 ch) conversionOK).
  { intros Hs. rewrite body_32_16_put. change (unit_at [ch] 0) with ch. rewrite put_16_ok by done.
    destruct (Nat.ltb_spec 4 (length (enc16 ch))); [|done]. unfold enc16 in *. destruct (_ <? _); simpl in *; lia. }
  destruct (body_32_16 strictConversion [ch] 4 conversionOK) as [r|used out r] eqn:E.
  - cbn. eexists. split; [done|]. split; [by destruct r|]. intros Hs. by specialize (Hc Hs).
  - assert (Ho : (length out <= 2)%nat).
    { revert E. unfold body_32_16. cbn [Nat.eqb Nat.leb]. repeat case_match; try discriminate; intros [= <- <- <-]; simpl; lia. }
    cbn [convert_loop]. rewrite app_nil_r. destruct (Nat.ltb_spec 2 (length out)); [lia|]. eexists. split; [done|].
    split; [destruct r; try done; unfold fill_out; rewrite length_app, length_replicate; lia|].
    intros Hs. by injection (Hc Hs) as -> -> ->.
Qed.
